(* ===== verification/_CoqProject ===== *)
-Q . S2P
Prelude.v
Bitmap.v
Conn.v
Iovec.v
InferBase.v
InferHttp.v
InferSql.v
InferMq.v
InferPulsarZmtp.v
InferRpc.v
InferNet.v
InferPipeline.v
PortConfig.v
World.v
Output.v
Goroutine.v
KernelObjects.v
Submit.v
SubmitLog.v
FileEvents.v
Syscall.v
Lifecycle.v
Uprobe.v
GoHttp2.v
System.v
Memory.v
Ring.v
RingThreads.v
Mounts.v
ProcCache.v
Dispatch.v
DispatchRun.v
Delivery.v
ReaderCaches.v
