(* ===== verification/Prelude.v ===== *)
(** * Verification of the zerotrace-agent eBPF tracer

    The program is the eBPF tracer of the agent
    (src/src/collectors/ebpf/legacy). Probes on system calls (kernel/) look at
    the data that processes send and receive, recognise the protocol, attach a
    trace identifier and put an event into a per-CPU buffer; a reader in user
    space (user/) takes the events out and hands them on. User space also
    configures the probes. All paths below are relative to that directory.

    ** Parts and how they interact

    A system call enters through a handler that stores its arguments and leaves
    through a handler that has the data; the exit handler finds the socket
    behind the descriptor, lets the three stages of protocol inference look at
    the first bytes, and submits a recognised message. The submission updates
    the maps of sockets and traces and appends an event to the output buffer.
    The buffer is pushed to user space when it is full or when the timer of the
    agent asks for it. Probes on the functions of TLS and HTTP/2 libraries report
    plain text the same way, or header fields in records of their own. The ports
    that a protocol is looked for on come from a configuration string by way of a
    bitmap.

    In user space a reader thread walks over a record, copies its events into a
    block of memory, with the name and the container of their process and, for
    file operations, the path as the process sees it, and puts the events into a
    ring. A worker thread takes them out, calls the agent and frees the block.
    What is known of processes and mounts is kept in two caches; the reader takes
    out entries when processes start and exit, and another thread, behind a second
    ring, reads /proc and frees.

    ** Files

    - Prelude.v: machine integers, bytes and little-endian words, the state
      monad [M] with its [wp], the updates of record fields, byte order
      (kernel/include/bpf_endian.h).
    - Bitmap.v: port bitmaps (user/common_utils.h and [is_set_ports_bitmap]).
    - Conn.v: [conn_info_s], [socket_info_s], the enumerations, the helpers and
      maps that inference consults ([env]), the port check, prestored data
      (kernel/include/common.h, socket_trace.h, socket_trace_common.h and the
      head of protocol_inference.h).
    - Iovec.v: [COPY_IOV], [iovecs_copy], [infer_iovecs_copy].
    - InferBase.v: the class [Inferer], the contract between an inference
      routine and the dispatcher.
    - InferHttp.v, InferSql.v, InferMq.v, InferPulsarZmtp.v, InferRpc.v,
      InferNet.v: the routines of kernel/include/protocol_inference.h.
    - InferPipeline.v: [infer_protocol_1], [_2], [_3] and the programs that chain
      them.
    - PortConfig.v: [parse_num_range_disorder], [parse_num_range] of
      user/utils.c and [set_protocol_ports_bitmap] of user/socket.c.
    - World.v: the state that the programs share: the maps of sockets, roles and
      traces, counters, the context of the tracer, the output buffer, the
      arguments of system calls under way, goroutines, kernel offsets; and what
      the kernel provides ([kenv]).
    - Output.v: the output buffer, its copies and batches, the periodic push
      ([push_socket_data]) and the walk of [reader_raw_cb] in user/socket.c.
    - Goroutine.v: kernel/uprobe_base.bpf.c, goroutines and their ancestors,
      process events.
    - KernelObjects.v: from a descriptor to its file and socket
      (kernel/include/task_struct_utils.h), the kind of a socket, and the
      inference of kernel offsets in kernel/socket_trace.bpf.c and
      kernel/files_rw.bpf.c.
    - Submit.v, SubmitLog.v: [get_trace_key], [trace_process],
      [delete_socket_info], [get_socket_info] and [__data_submit].
    - FileEvents.v: kernel/files_rw.bpf.c.
    - Syscall.v: [process_data] and the programs at the entry and the exit of the
      system calls that read and write (kernel/socket_trace.bpf.c).
    - Lifecycle.v: the programs at socket, accept, connect and close.
    - Uprobe.v: kernel/openssl.bpf.c, kernel/go_tls.bpf.c and the part of
      kernel/uprobe_base.bpf.c that finds the descriptor of a Go connection.
    - GoHttp2.v: kernel/go_http2.bpf.c.
    - System.v: all programs as the steps of one transition system, with the
      invariant of the tracer ([in_order]) and the theorems on its runs. The states
      in order are [world_ok] of SubmitLog.v, the contract of a program [step_post].
      The class [Counting] of Submit.v says whether the counter of sockets is part of
      the invariant: two programs can raise it without a new entry, so that it is
      right only in runs in which they do not; the rest holds in all runs.
    - Memory.v: lemmas on loads and stores of bytes.
    - Ring.v: user/ring.h and user/ring.c, one call after the other.
    - RingThreads.v: the same calls by any number of threads, access by access.
    - Mounts.v: mountinfo files, the search for a mount and [copy_file_metrics]
      (user/mount.c, with the strings of user/string.h and user/utils.c).
    - ProcCache.v: the caches of user/proc.c and user/mount.c.
    - Dispatch.v: [reader_raw_cb] and [register_events_handle] from a record to
      the ring, [process_data] and [prefetch_and_process_data] from the ring to
      the callback (user/socket.c, user/socket.h), as the steps of two threads;
      DispatchRun.v: the invariant of their runs; Delivery.v: the theorems on
      them and the runs that go wrong.
    - ReaderCaches.v: Dispatch.v on top of the caches of ProcCache.v, and the chain
      from the events of the kernel to the calls of the agent.

    ** Conventions

    The model is the build for x86_64 and Linux 5.2 or later (tracepoints).
    Memory is bytes ([list Z]); a load or a store gives [None] out of bounds or
    through a null pointer, so that a theorem that a routine returns [Some] is a
    theorem that it accesses nothing it must not. Integers carry the width of
    their C type: [u32], [s32] and the like are the conversions. Stateful
    routines are functions [st -> option (A * st)]. Per-CPU maps are those of one
    CPU, and a program runs to its end on it, as one step; what the programs of other
    CPUs do to the shared maps in the middle of it is not in the model. A record
    handed to [bpf_perf_event_output] is appended to the output ([w_out]); the perf
    buffer may drop it, which the programs do not notice, and [received] of Output.v
    says what the reader then finds. Helpers of the kernel, the memory
    of processes and of the kernel, the clock and the sizes of maps are
    parameters ([env], [kenv]); [env_ok] and [kenv_ok] say what is documented of
    them (a read of n bytes gives n bytes, a map holds at most its
    [max_entries], eviction only removes entries).

    ** What the theorems show

    - Inference: every stage returns from every state and any data, accesses
      nothing out of bounds, reports a protocol only where it is enabled and
      configured, and does not reclassify a socket. For single protocols:
      exactly which headers are recognised, and that a message split over two
      reads or carried over another transport is recognised like the whole.
    - Configuration: a printed list of ports, parsed and put into the bitmap, is
      exactly what the port check of the kernel passes.
    - Output: no event is lost, duplicated, reordered or changed between the programs
      and the records they push: the new events are given exactly, with the bytes of
      the buffer or of the vectors of the call; the periodic push leaves none behind.
    - Submission: counters remain the sizes of maps, socket identifiers are unique,
      the reference count of the buffer is balanced, the log of events only
      grows; an event says what happened; a message that goes out carries the
      trace of the message that came in on its thread or goroutine.
    - Goroutines, kernel objects and file events: the goroutine of a request, the
      offsets that are inferred, the socket of a descriptor, what a file
      operation reports and the path it reports.
    - System calls and the life of a socket: the events of a call are of this call and
      its socket, with its data; a close is reported and forgets the socket; the trace
      of a request to NGINX goes on in the connection to the back end.
    - Libraries: the descriptor of a Go connection is the one of its TCP connection;
      the first nine fields of a block of HTTP/2 header fields, as far as they fit,
      and a short data frame are read back in user space as they were.
    - The tracer as a whole, for any threads, programs and order of steps: no program
      goes wrong, the state stays in order and typed, a thread finds at the exit of
      a [read], a [write] or a call of OpenSSL what it left at the entry, and after
      the next push every event is in a record, once and in order, of which the
      reader finds what the perf buffer keeps.
    - Rings: a ring is a queue of its capacity, also when the indices wrap around,
      and stays first-in first-out under any interleaving of threads.
    - Dispatch: in every interleaving of reader and worker, over records of the form
      that the kernel gives them and without registered handlers, each accepted event
      reaches the callback once, in order, with its fields and bytes; the rest is
      counted; a worker at work catches up in a bounded number of steps; and when
      nothing was dropped or lost on the way, the events of the kernel are the calls
      of the agent, with the process that the caches knew.
    - Caches, one call after the other: no use after free, double free or endless
      wait; every block has one owner; the reader is told what /proc said of a process
      that started and nothing of one that exited; a mountinfo file with fields that
      fit is read back as it was printed and the path of a file is the one that its
      process sees.
    - Termination: the parsers of port lists end within as many iterations as their
      text has characters; all other loops are bounded (see below).
    - Flaws: the theorems that the manifest lists as findings state what the code
      does where a comment, the protocol or the rest of the code says otherwise.

    ** Bounds

    Loops have the bounds of the source (the probes are unrolled or bounded for
    the verifier of the kernel), so that recursion is structural on the number
    of iterations left. The loops of the port parsers have as many iterations as the
    string has characters; running out of them is a result of its own, [Unfinished],
    which does not occur. The loops of the ring that retry or wait have fuel or, in RingThreads.v,
    are steps; the fuel of [exec_proc_info_cache_update] is one more than the
    events in the ring, which [exec_ok] shows to be enough. Memory is sequentially
    consistent, as the fences of the ring ask for. For a ring that several threads
    write to or read from, RingThreads.v assumes that fewer than 2^32 objects, less
    the capacity, go through it over the whole run ([no_reuse]): an index that has
    come round while a thread holds an old one is not excluded by the code. A ring
    with one thread at each end has no such limit. In Dispatch.v a call of the ring is
    one step, and so is a call of the caches in ProcCache.v, where the use count of an
    entry goes up and down within the call; counters of user space are not bounded.
    mountinfo files have no zero byte and fields that fit the arrays they are read
    into ([procfs_ok]); longer ones overflow the arrays. [pe_stack] stands for the room on the stack for the array in
    [copy_file_metrics]. The environment of an event may depend on its header, which
    has its time, so that the caches may change between events.

    ** Not modelled

    - The continuous profiler (kernel/perf_profiler.bpf.c, user/profile/): stack
      walking on registers and perf events.
    - Loading and attaching of programs, ELF, BTF and symbol tables, the search
      for libraries in processes, the control tool: system calls and files.
    - Of the process cache: symbol caches, thread names and Java symbol files, which
      belong to the profiler. Of /proc: what it says is a parameter ([procfs]). The
      hash tables of user/bihash.c are maps that always have room.
    - Of the dispatch: the dump of data for debugging, the choice of a queue, and
      the handlers that the agent registers.
    - The Rust agent around the tracer.
    - Other builds (Linux before 5.2, kfunc, kprobe only) and 32-bit targets. *)

From stdpp Require Export base gmap list strings numbers.
From Stdlib Require Export ZArith Lia Ascii.
#[global] Open Scope Z_scope.

(** ** Machine integers

    A C integer is a [Z]; a conversion to an unsigned (resp. signed) type of
    [n] bits is [wrap n] (resp. [swrap n]). *)

Definition wrap (n : Z) (z : Z) : Z := z mod 2 ^ n.
Definition swrap (n : Z) (z : Z) : Z :=
  let u := wrap n z in if u <? 2 ^ (n - 1) then u else u - 2 ^ n.

Abbreviation u8 := (wrap 8).
Abbreviation u16 := (wrap 16).
Abbreviation u32 := (wrap 32).
Abbreviation u64 := (wrap 64).
Abbreviation s8 := (swrap 8).
Abbreviation s16 := (swrap 16).
Abbreviation s32 := (swrap 32).

Definition byte_ok (b : Z) : Prop := 0 <= b < 256.
Abbreviation bytes_ok := (Forall byte_ok).

Lemma bytes_okb l : forallb (fun b => (0 <=? b) && (b <? 256)) l = true -> bytes_ok l.
Proof.
  intros H. apply Forall_forall. intros b Hb. rewrite forallb_forall in H.
  specialize (H b Hb). unfold byte_ok. lia.
Qed.

Lemma wrap_range n z : 0 <= n -> 0 <= wrap n z < 2 ^ n.
Proof. intros. apply Z.mod_pos_bound, Z.pow_pos_nonneg; lia. Qed.

Lemma wrap_small n z : 0 <= z < 2 ^ n -> wrap n z = z.
Proof. apply Z.mod_small. Qed.

Lemma swrap_small n z : 0 < n -> - 2 ^ (n - 1) <= z < 2 ^ (n - 1) -> swrap n z = z.
Proof.
  intros Hn Hz. unfold swrap, wrap.
  assert (2 ^ n = 2 * 2 ^ (n - 1)) as Hp
    by (rewrite <- Z.pow_succ_r by lia; f_equal; lia).
  destruct (Z.leb_spec 0 z).
  - rewrite Z.mod_small by lia. case (Z.ltb_spec z (2 ^ (n - 1))); lia.
  - rewrite <- (Z.mod_add _ 1), Z.mod_small by lia.
    case (Z.ltb_spec (z + 1 * 2 ^ n) (2 ^ (n - 1))); lia.
Qed.

(** Fields of a word: the low bits [x] under [w] shifted by [k]. *)
Lemma lor_shiftl x w k : 0 <= k -> 0 <= x < 2 ^ k -> Z.lor x (Z.shiftl w k) = x + w * 2 ^ k.
Proof.
  intros Hk Hx. assert (Z.land x (Z.shiftl w k) = 0) as H0.
  { apply Z.bits_inj'. intros n Hn. rewrite Z.land_spec, Z.bits_0, Z.shiftl_spec by lia.
    destruct (Z.ltb_spec n k).
    - rewrite (Z.testbit_neg_r w) by lia. apply andb_false_r.
    - rewrite <- (Z.mod_small x (2 ^ k)), Z.mod_pow2_bits_high by lia. done. }
  rewrite <- Z.lxor_lor, <- Z.add_nocarry_lxor by done. by rewrite Z.shiftl_mul_pow2.
Qed.

(** A base-128 digit with and without its continuation bit. *)
Lemma digit_bits d : 0 <= d < 128 ->
  Z.land d 127 = d /\ Z.land d 128 = 0 /\ Z.land (d + 128) 127 = d /\ Z.land (d + 128) 128 = 128.
Proof.
  intros Hd.
  assert (forallb (fun n => let d := Z.of_nat n in
    (Z.land d 127 =? d) && (Z.land d 128 =? 0) && (Z.land (d + 128) 127 =? d) &&
    (Z.land (d + 128) 128 =? 128)) (seq 0 128) = true) as H by (by vm_compute).
  rewrite forallb_forall in H. specialize (H (Z.to_nat d) ltac:(apply in_seq; lia)).
  cbv zeta in H. rewrite Z2Nat.id in H by lia. lia.
Qed.

(** ** Bytes in memory

    A buffer is a list of bytes; a read outside it has no value ([None]). The
    targets of the tracer are little endian and [char] is signed there. *)

Definition rd8 (b : list Z) (i : Z) : option Z :=
  if i <? 0 then None else b !! Z.to_nat i.

(** A [char] read: sign-extended. *)
Definition rdc (b : list Z) (i : Z) : option Z := x ← rd8 b i; Some (s8 x).

(** [*(__u16 * ) &b[i]], [*(__u32 * ) &b[i]], [*(__u64 * ) &b[i]]. *)
Definition rd16 (b : list Z) (i : Z) : option Z :=
  x0 ← rd8 b i; x1 ← rd8 b (i + 1); Some (x0 + 256 * x1).
Definition rd32 (b : list Z) (i : Z) : option Z :=
  x0 ← rd16 b i; x1 ← rd16 b (i + 2); Some (x0 + 65536 * x1).
Definition rd64 (b : list Z) (i : Z) : option Z :=
  x0 ← rd32 b i; x1 ← rd32 b (i + 4); Some (x0 + 4294967296 * x1).

(** The value of bytes in little-endian order, and the bytes of a value. *)
Fixpoint le_word (l : list Z) : Z :=
  match l with [] => 0 | b :: l => Z.lor b (Z.shiftl (le_word l) 8) end.
Fixpoint le_bytes (n : nat) (x : Z) : list Z :=
  match n with O => [] | S n => x mod 256 :: le_bytes n (x / 256) end.

Lemma le_word_cons x l : byte_ok x -> le_word (x :: l) = x + 256 * le_word l.
Proof. intros Hx. simpl. rewrite lor_shiftl by (done || lia). lia. Qed.

Lemma le_word_bound l : bytes_ok l -> 0 <= le_word l < 2 ^ (8 * Z.of_nat (length l)).
Proof.
  induction 1 as [| x l Hx Hl IH]; [done |]. rewrite le_word_cons by done. cbn [length].
  rewrite Nat2Z.inj_succ. replace (8 * Z.succ (Z.of_nat (length l))) with (8 + 8 * Z.of_nat (length l)) by lia.
  rewrite Z.pow_add_r by lia. unfold byte_ok in Hx. lia.
Qed.

Lemma le_word_take n l :
  bytes_ok l -> le_word l mod 2 ^ (8 * Z.of_nat n) = le_word (take n l).
Proof.
  intros Hl. revert n. induction Hl as [| x l Hx Hl IH]; intros n.
  { rewrite take_nil. apply Z.mod_0_l, Z.pow_nonzero; lia. }
  destruct n as [| n]; [apply Z.mod_1_r |]. cbn [take]. rewrite !le_word_cons, <- IH by done.
  rewrite Nat2Z.inj_succ. replace (8 * Z.succ (Z.of_nat n)) with (8 + 8 * Z.of_nat n) by lia.
  rewrite Z.pow_add_r by lia. change (2 ^ 8) with 256.
  set (P := 2 ^ (8 * Z.of_nat n)). assert (0 < P) by (apply Z.pow_pos_nonneg; lia).
  unfold byte_ok in Hx. symmetry. apply Z.mod_unique_pos with (q := le_word l / P).
  - pose proof (Z.mod_pos_bound (le_word l) P ltac:(lia)). nia.
  - pose proof (Z.div_mod (le_word l) P ltac:(lia)). nia.
Qed.

Lemma le_word_inj l1 l2 :
  bytes_ok l1 -> bytes_ok l2 -> length l1 = length l2 -> le_word l1 = le_word l2 -> l1 = l2.
Proof.
  intros H1. revert l2. induction H1 as [| x l1 Hx Hl IH]; intros [| y l2] H2 Hlen He; try done.
  apply Forall_cons_1 in H2 as [Hy H2]. rewrite !le_word_cons in He by done.
  unfold byte_ok in Hx, Hy. assert (x = y /\ le_word l1 = le_word l2) as [-> Hw] by lia.
  f_equal. apply IH; [done | by injection Hlen | done].
Qed.

Lemma le_bytes_length n : forall x, length (le_bytes n x) = n.
Proof. induction n as [| n IH]; intros x; simpl; [done | by rewrite IH]. Qed.

Lemma le_bytes_ok n : forall x, bytes_ok (le_bytes n x).
Proof.
  induction n as [| n IH]; intros x; constructor; [| apply IH].
  apply Z.mod_pos_bound. lia.
Qed.

Lemma le_word_le_bytes n : forall x, le_word (le_bytes n x) = x mod 2 ^ (8 * Z.of_nat n).
Proof.
  induction n as [| n IH]; intros x; [by rewrite Z.mod_1_r |]. cbn [le_bytes].
  rewrite le_word_cons, IH by (apply Z.mod_pos_bound; lia).
  rewrite Nat2Z.inj_succ. replace (8 * Z.succ (Z.of_nat n)) with (8 + 8 * Z.of_nat n) by lia.
  rewrite Z.pow_add_r by lia. change (2 ^ 8) with 256.
  by rewrite Z.rem_mul_r by (try apply Z.pow_pos_nonneg; lia).
Qed.

(** [__builtin_bswap16] and [__builtin_bswap32]; the argument is converted to
    the parameter type first. *)
Definition bswap16 (x : Z) : Z :=
  let x := u16 x in (x mod 256) * 256 + x / 256.
Definition bswap32 (x : Z) : Z :=
  let x := u32 x in bswap16 (x mod 65536) * 65536 + bswap16 (x / 65536).

(** [__bpf_ntohs] and [__bpf_ntohl] of a load. *)
Definition be16 (b : list Z) (i : Z) : option Z := x ← rd16 b i; Some (bswap16 x).
Definition be32 (b : list Z) (i : Z) : option Z := x ← rd32 b i; Some (bswap32 x).

(** Short-circuit connectives and comparisons on values that come from memory. *)
Definition and_then (a b : option bool) : option bool :=
  x ← a; if x : bool then b else Some false.
Definition or_else (a b : option bool) : option bool :=
  x ← a; if x : bool then Some true else b.
Definition not_of (a : option bool) : option bool := x ← a; Some (negb x).
Definition cmp (r : Z -> Z -> bool) (a : option Z) (v : Z) : option bool :=
  x ← a; Some (r x v).

Declare Scope mem_scope.
Delimit Scope mem_scope with mem.
#[global] Open Scope mem_scope.
Notation "a &&& b" := (and_then a b) (at level 40, left associativity) : mem_scope.
Notation "a ||| b" := (or_else a b) (at level 50, left associativity) : mem_scope.
Notation "b '.[' i ']' '==' v" := (cmp Z.eqb (rd8 b i) v)
  (at level 38, i at level 200, v at level 35) : mem_scope.
Notation "b '.[' i ']' '!=' v" := (not_of (cmp Z.eqb (rd8 b i) v))
  (at level 38, i at level 200, v at level 35) : mem_scope.

(** [ch "x"] is the code of a character, [str "xyz"] the bytes of a literal. *)
Definition bytes_of (s : string) : list Z :=
  (fun a => Z.of_N (N_of_ascii a)) <$> String.list_ascii_of_string s.
Notation "'ch' c" := (ltac:(let v := eval vm_compute in (Z.of_N (N_of_ascii c%char)) in exact v))
  (at level 1, c at level 0, only parsing).
Notation "'str' s" := (ltac:(let v := eval vm_compute in (bytes_of s%string) in exact v))
  (at level 1, s at level 0, only parsing).

(** [b[i]] tested against each byte of [s] in turn, from offset [i] on. *)
Fixpoint match_at (b : list Z) (i : Z) (s : list Z) : option bool :=
  match s with
  | [] => Some true
  | c :: s => b.[i] == c &&& match_at b (i + 1) s
  end.

(** [s] is at the start of [data]. *)
Fixpoint starts_with (s data : list Z) : bool :=
  match s, data with
  | [], _ => true
  | c :: s, x :: data => (x =? c) && starts_with s data
  | _ :: _, [] => false
  end.

Lemma starts_with_take s data : starts_with s data = bool_decide (take (length s) data = s).
Proof.
  revert data. induction s as [| c s IH]; intros [| x data]; simpl; [done.. |].
  rewrite IH. destruct (Z.eqb_spec x c) as [-> | Hne]; simpl.
  - apply bool_decide_ext. split; [congruence | by intros [=]].
  - symmetry. apply bool_decide_eq_false_2. congruence.
Qed.

Lemma rd8_Some b i : 0 <= i < Z.of_nat (length b) -> rd8 b i = Some (b !!! Z.to_nat i).
Proof.
  intros H. unfold rd8. destruct (Z.ltb_spec i 0); [lia |].
  apply list_lookup_lookup_total_lt. lia.
Qed.

Lemma rd8_lookup b i x : rd8 b i = Some x -> b !! Z.to_nat i = Some x /\ 0 <= i < Z.of_nat (length b).
Proof.
  unfold rd8. destruct (Z.ltb_spec i 0); [done |]. intros Hx.
  apply lookup_lt_Some in Hx as Hlt. split; [done | lia].
Qed.

Lemma rd8_byte b i x : bytes_ok b -> rd8 b i = Some x -> byte_ok x.
Proof. intros Hb [Hx _]%rd8_lookup. by eapply Forall_lookup_1. Qed.

Lemma lookup_total_byte b n : bytes_ok b -> (n < length b)%nat -> byte_ok (b !!! n).
Proof. intros Hb Hn. by apply Forall_lookup_total_1. Qed.

Lemma rd16_range b i x : bytes_ok b -> rd16 b i = Some x -> 0 <= x < 2 ^ 16.
Proof.
  intros Hb Hx. unfold rd16 in Hx. apply bind_Some in Hx as (x0 & H0 & Hx).
  apply bind_Some in Hx as (x1 & H1 & [= <-]).
  apply (rd8_byte _ _ _ Hb) in H0, H1. unfold byte_ok in *. lia.
Qed.
Lemma rd32_range b i x : bytes_ok b -> rd32 b i = Some x -> 0 <= x < 2 ^ 32.
Proof.
  intros Hb Hx. unfold rd32 in Hx. apply bind_Some in Hx as (x0 & H0 & Hx).
  apply bind_Some in Hx as (x1 & H1 & [= <-]).
  apply (rd16_range _ _ _ Hb) in H0, H1. lia.
Qed.
Lemma rd64_range b i x : bytes_ok b -> rd64 b i = Some x -> 0 <= x < 2 ^ 64.
Proof.
  intros Hb Hx. unfold rd64 in Hx. apply bind_Some in Hx as (x0 & H0 & Hx).
  apply bind_Some in Hx as (x1 & H1 & [= <-]).
  apply (rd32_range _ _ _ Hb) in H0, H1. lia.
Qed.

Lemma and_then_Some x b : Some x &&& b = if x : bool then b else Some false.
Proof. done. Qed.

Lemma match_at_prefix b i s :
  0 <= i -> (Z.to_nat i + length s <= length b)%nat ->
  match_at b i s = Some (bool_decide (take (length s) (drop (Z.to_nat i) b) = s)).
Proof.
  revert i. induction s as [| c s IH]; intros i Hi Hl; simpl in *.
  - done.
  - rewrite rd8_Some by lia. unfold cmp. cbn.
    rewrite IH by lia. replace (Z.to_nat (i + 1)) with (S (Z.to_nat i)) by lia.
    assert (drop (Z.to_nat i) b = (b !!! Z.to_nat i) :: drop (S (Z.to_nat i)) b) as ->.
    { apply drop_S, list_lookup_lookup_total_lt. lia. }
    destruct (Z.eqb_spec (b !!! Z.to_nat i) c) as [-> | Hne]; simpl; f_equal.
    + apply bool_decide_ext. split; [congruence | by intros [=]].
    + symmetry. apply bool_decide_eq_false_2. congruence.
Qed.

(** ** Records with field update

    [r <| f := v |>] is [r] with field [f] set to [v]; each record declares its
    eta expansion once and the update is derived from it. *)

Class Eta (R : Type) := eta_rec : R -> R.
Class Setter {R T : Type} (g : R -> T) := setter : T -> R -> R.
Definition set {R T : Type} (g : R -> T) {S : Setter g} : T -> R -> R := S.

Ltac derive_setter g :=
  lazymatch goal with
  | |- @Setter ?R ?T _ =>
      let inst := constr:(_ : Eta R) in
      let h := eval red in inst in
      let e := eval cbv beta delta [eta_rec] in h in
      lazymatch (eval pattern g in e) with
      | ?u _ =>
          let t := eval cbv beta in (fun (v : T) (r : R) => u (fun _ => v) r) in
          exact t
      end
  end.
#[export] Hint Extern 1 (Setter ?g) => derive_setter g : typeclass_instances.

Notation "r <| f := v |>" := (set f v r)
  (at level 1, f at level 7, v at level 99, left associativity).

(** ** Stateful code that may go wrong

    A handler is a state transformer; [None] is an access outside an object.
    [wp m s Q] says that [m] run from [s] goes right and ends in [Q]. *)

Definition M (S A : Type) : Type := S -> option (A * S).

#[export] Instance M_ret {S} : MRet (M S) := fun A a s => Some (a, s).
#[export] Instance M_bind {S} : MBind (M S) := fun A B k m s =>
  match m s with Some (a, s') => k a s' | None => None end.

Definition lift {S A : Type} (o : option A) : M S A := fun s => (fun a => (a, s)) <$> o.
Definition gets {S A : Type} (f : S -> A) : M S A := fun s => Some (f s, s).
Definition modify {S : Type} (f : S -> S) : M S unit := fun s => Some (tt, f s).

Definition wp {S A : Type} (m : M S A) (s : S) (Q : A -> S -> Prop) : Prop :=
  match m s with Some (a, s') => Q a s' | None => False end.

Section wp_rules.
Context {S A B : Type}.
Implicit Types (s : S) (m : M S A).

Lemma wp_ret (a : A) s (Q : A -> S -> Prop) : Q a s -> wp (mret a) s Q.
Proof. done. Qed.

Lemma wp_bind m (k : A -> M S B) s Q :
  wp m s (fun a s' => wp (k a) s' Q) -> wp (m ≫= k) s Q.
Proof. unfold wp, mbind, M_bind. by destruct (m s) as [[] |]. Qed.

Lemma wp_lift (o : option A) v s (Q : A -> S -> Prop) :
  o = Some v -> Q v s -> wp (lift o) s Q.
Proof. by intros ->. Qed.

Lemma wp_gets (f : S -> A) s (Q : A -> S -> Prop) : Q (f s) s -> wp (gets f) s Q.
Proof. done. Qed.

Lemma wp_modify (f : S -> S) s (Q : unit -> S -> Prop) : Q tt (f s) -> wp (modify f) s Q.
Proof. done. Qed.

Lemma wp_if (b : bool) m1 m2 s Q :
  (b = true -> wp m1 s Q) -> (b = false -> wp m2 s Q) -> wp (if b then m1 else m2) s Q.
Proof. destruct b; auto. Qed.

Lemma wp_mono m s (Q Q' : A -> S -> Prop) :
  wp m s Q -> (forall a s', Q a s' -> Q' a s') -> wp m s Q'.
Proof. unfold wp. destruct (m s) as [[] |]; auto. Qed.

Lemma wp_and m s (Q Q' : A -> S -> Prop) :
  wp m s Q -> wp m s Q' -> wp m s (fun a s' => Q a s' /\ Q' a s').
Proof. unfold wp. destruct (m s) as [[] |]; auto. Qed.

Lemma wp_total m s Q : wp m s Q <-> exists a s', m s = Some (a, s') /\ Q a s'.
Proof.
  unfold wp. destruct (m s) as [[a s'] |]; split; [eauto | | done |];
    intros (? & ? & [=] & ?); by subst.
Qed.

Lemma wp_value m s a s' (Q : A -> S -> Prop) : m s = Some (a, s') -> Q a s' -> wp m s Q.
Proof. unfold wp. by intros ->. Qed.
Lemma wp_run m s a s' Q : m s = Some (a, s') -> wp m s Q -> Q a s'.
Proof. unfold wp. by intros ->. Qed.
End wp_rules.
