(* ===== verification/Bitmap.v ===== *)
(** * Port bitmaps

    The 65536-bit maps of user/common_utils.h ([is_set_bitmap], [set_bitmap],
    [clear_bitmap]) and the bounds-checked reader [is_set_ports_bitmap] of
    kernel/include/protocol_inference.h. A bitmap refines the set of the ports
    it holds: the two readers agree, and setting or clearing a bit is insertion
    into or deletion from that set. *)

From S2P Require Import Prelude.

(** [sizeof(ports_bitmap_t)]: 65536 / 8 bytes. *)
Definition BITMAP_BYTES : Z := 65536 / 8.

(** The macro [is_set_bitmap(M, V)] on a byte array of [BITMAP_BYTES]. *)
Definition is_set_bitmap (M : list Z) (V : Z) : option bool :=
  x ← rd8 M (Z.land (Z.shiftr V 3) (BITMAP_BYTES - 1));
  Some (negb (Z.land x (Z.shiftl 1 (Z.land V 7)) =? 0)).

(** The macros [set_bitmap(M, V)] and [clear_bitmap(M, V)]. *)
Definition set_bitmap (M : list Z) (V : Z) : option (list Z) :=
  let idx := Z.land (Z.shiftr V 3) (BITMAP_BYTES - 1) in
  x ← rd8 M idx;
  Some (<[Z.to_nat idx := u8 (Z.lor x (Z.shiftl 1 (Z.land V 7)))]> M).
Definition clear_bitmap (M : list Z) (V : Z) : option (list Z) :=
  let idx := Z.land (Z.shiftr V 3) (BITMAP_BYTES - 1) in
  x ← rd8 M idx;
  Some (<[Z.to_nat idx := u8 (Z.land x (Z.lnot (Z.shiftl 1 (Z.land V 7))))]> M).

(** [is_set_ports_bitmap]: the address is checked against both ends first. *)
Definition is_set_ports_bitmap (ports : list Z) (port : Z) : option bool :=
  let addr := Z.shiftr port 3 in
  if (0 <=? addr) && (addr <? BITMAP_BYTES) then
    x ← rd8 ports addr;
    Some (negb (Z.land x (u8 (Z.shiftl 1 (Z.land port 7))) =? 0))
  else Some false.

Definition bitmap_ok (M : list Z) : Prop :=
  Z.of_nat (length M) = BITMAP_BYTES /\ bytes_ok M.
Definition port_ok (p : Z) : Prop := 0 <= p < 65536.

(** The abstraction: the ports a bitmap holds. *)
Definition has_port (M : list Z) (p : Z) : bool :=
  Z.testbit (M !!! Z.to_nat (p / 8)) (p mod 8).

Lemma byte_index p : port_ok p -> Z.land (Z.shiftr p 3) (BITMAP_BYTES - 1) = p / 8.
Proof.
  intros Hp. unfold port_ok in Hp. rewrite Z.shiftr_div_pow2 by lia.
  change (BITMAP_BYTES - 1) with (Z.ones 13). rewrite Z.land_ones by lia.
  apply Z.mod_small. change (2 ^ 3) with 8. change (2 ^ 13) with 8192.
  split; [apply Z.div_pos; lia | apply Z.div_lt_upper_bound; lia].
Qed.

Lemma bit_index p : Z.land p 7 = p mod 8.
Proof. change 7 with (Z.ones 3). by rewrite Z.land_ones by lia. Qed.

Lemma div8_range p : port_ok p -> 0 <= p / 8 < BITMAP_BYTES.
Proof.
  intros Hp. unfold port_ok in Hp. change BITMAP_BYTES with 8192.
  split; [apply Z.div_pos; lia | apply Z.div_lt_upper_bound; lia].
Qed.

(** Testing one bit of a byte with a mask. *)
Lemma land_bit x n : 0 <= n -> negb (Z.land x (Z.shiftl 1 n) =? 0) = Z.testbit x n.
Proof.
  intros Hn. destruct (Z.testbit x n) eqn:Hb.
  - apply negb_true_iff, Z.eqb_neq. intros H0.
    assert (Z.testbit (Z.land x (Z.shiftl 1 n)) n = false) as H by (rewrite H0; apply Z.bits_0).
    rewrite Z.land_spec, Hb, Z.shiftl_spec, Z.sub_diag in H by lia. done.
  - apply negb_false_iff, Z.eqb_eq, Z.bits_inj'. intros m Hm.
    rewrite Z.land_spec, Z.bits_0, Z.shiftl_spec by lia.
    destruct (Z.eq_dec m n) as [-> | Hne]; [by rewrite Hb |].
    replace (Z.testbit 1 (m - n)) with false; [apply andb_false_r |].
    destruct (Z.ltb_spec m n); [by rewrite Z.testbit_neg_r by lia |].
    symmetry. apply (Z.bits_above_log2 1); simpl; lia.
Qed.

Lemma is_set_bitmap_spec M p :
  bitmap_ok M -> port_ok p -> is_set_bitmap M p = Some (has_port M p).
Proof.
  intros [Hlen Hb] Hp. unfold is_set_bitmap, has_port.
  rewrite byte_index, bit_index by done.
  pose proof (div8_range p Hp). rewrite rd8_Some by lia. simpl. f_equal.
  apply land_bit. apply Z.mod_pos_bound. lia.
Qed.

Lemma u8_bit n : 0 <= n < 8 -> u8 (Z.shiftl 1 n) = Z.shiftl 1 n.
Proof.
  intros Hn. apply wrap_small. rewrite Z.shiftl_1_l.
  split; [apply Z.pow_nonneg; lia | apply Z.pow_lt_mono_r; lia].
Qed.

Lemma is_set_ports_bitmap_spec M p :
  bitmap_ok M -> port_ok p -> is_set_ports_bitmap M p = Some (has_port M p).
Proof.
  intros [Hlen Hb] Hp. unfold is_set_ports_bitmap, has_port.
  rewrite Z.shiftr_div_pow2 by lia. change (2 ^ 3) with 8.
  pose proof (div8_range p Hp).
  destruct (Z.leb_spec 0 (p / 8)), (Z.ltb_spec (p / 8) BITMAP_BYTES); try lia. simpl.
  rewrite rd8_Some by lia. simpl. f_equal. rewrite bit_index.
  assert (0 <= p mod 8 < 8) by (apply Z.mod_pos_bound; lia).
  rewrite u8_bit by lia. apply land_bit. lia.
Qed.

Lemma div_mod8_inj p q : p / 8 = q / 8 -> p mod 8 = q mod 8 -> p = q.
Proof. intros. rewrite (Z.div_mod p 8), (Z.div_mod q 8) by lia. congruence. Qed.

(** A byte written back at the index of [p] with bit [p mod 8] set to [v]. *)
Lemma has_port_insert M p q (x : Z) (v : bool) :
  bitmap_ok M -> port_ok p -> port_ok q ->
  (forall n, 0 <= n < 8 -> Z.testbit x n =
     if decide (n = p mod 8) then v else Z.testbit (M !!! Z.to_nat (p / 8)) n) ->
  has_port (<[Z.to_nat (p / 8) := x]> M) q = if decide (q = p) then v else has_port M q.
Proof.
  intros [Hlen _] Hp Hq Hx. unfold has_port.
  pose proof (div8_range p Hp). pose proof (div8_range q Hq).
  assert (0 <= q mod 8 < 8) by (apply Z.mod_pos_bound; lia).
  destruct (decide (q / 8 = p / 8)) as [Heq | Hne].
  - rewrite Heq, list_lookup_total_insert_eq, Hx by lia.
    destruct (decide (q mod 8 = p mod 8)) as [Hm | Hm].
    + apply div_mod8_inj in Hm as ->; [| done]. by rewrite decide_True.
    + by rewrite decide_False by congruence.
  - rewrite list_lookup_total_insert_ne by lia. rewrite decide_False; [done |].
    intros ->. done.
Qed.

Lemma bitmap_insert_ok M i x : bitmap_ok M -> byte_ok x -> bitmap_ok (<[i := x]> M).
Proof.
  intros [Hlen Hb] Hx. split; [by rewrite length_insert |]. by apply Forall_insert.
Qed.

(** [set_bitmap] inserts exactly one port. *)
Lemma set_bitmap_spec M p :
  bitmap_ok M -> port_ok p ->
  exists M', set_bitmap M p = Some M' /\ bitmap_ok M' /\
    forall q, port_ok q -> has_port M' q = (bool_decide (q = p) || has_port M q).
Proof.
  intros HM Hp. pose proof HM as [Hlen Hb]. unfold set_bitmap.
  rewrite byte_index, bit_index by done.
  pose proof (div8_range p Hp). rewrite rd8_Some by lia. simpl.
  assert (0 <= p mod 8 < 8) by (apply Z.mod_pos_bound; lia).
  eexists. split; [done |]. split.
  - apply bitmap_insert_ok; [done |]. by apply wrap_range.
  - intros q Hq. rewrite (has_port_insert _ _ _ _ true); try done.
    + case_decide; [by rewrite bool_decide_eq_true_2 | by rewrite bool_decide_eq_false_2].
    + intros n Hn. unfold wrap. rewrite Z.mod_pow2_bits_low by lia.
      rewrite Z.lor_spec, Z.shiftl_1_l, Z.pow2_bits_eqb by lia.
      case_decide as Hd; [subst; by rewrite Z.eqb_refl, orb_true_r |].
      replace (p mod 8 =? n) with false by (symmetry; apply Z.eqb_neq; congruence).
      apply orb_false_r.
Qed.

(** [clear_bitmap] deletes exactly one port. *)
Lemma clear_bitmap_spec M p :
  bitmap_ok M -> port_ok p ->
  exists M', clear_bitmap M p = Some M' /\ bitmap_ok M' /\
    forall q, port_ok q -> has_port M' q = (negb (bool_decide (q = p)) && has_port M q).
Proof.
  intros HM Hp. pose proof HM as [Hlen Hb]. unfold clear_bitmap.
  rewrite byte_index, bit_index by done.
  pose proof (div8_range p Hp). rewrite rd8_Some by lia. simpl.
  assert (0 <= p mod 8 < 8) by (apply Z.mod_pos_bound; lia).
  eexists. split; [done |]. split.
  - apply bitmap_insert_ok; [done |]. by apply wrap_range.
  - intros q Hq. rewrite (has_port_insert _ _ _ _ false); try done.
    + case_decide; [by rewrite bool_decide_eq_true_2 | by rewrite bool_decide_eq_false_2].
    + intros n Hn. unfold wrap. rewrite Z.mod_pow2_bits_low by lia.
      rewrite Z.land_spec, Z.lnot_spec, Z.shiftl_1_l, Z.pow2_bits_eqb by lia.
      case_decide as Hd; [subst; by rewrite Z.eqb_refl, andb_false_r |].
      replace (p mod 8 =? n) with false by (symmetry; apply Z.eqb_neq; congruence).
      apply andb_true_r.
Qed.

(** ** Refinement of sets of ports *)

Inductive bitmap_op := SetPort (p : Z) | ClearPort (p : Z).

(** The same sequence of operations on a bitmap and on a set. *)
Fixpoint run_bitmap (ops : list bitmap_op) (M : list Z) : option (list Z) :=
  match ops with
  | [] => Some M
  | SetPort p :: ops => M' ← set_bitmap M p; run_bitmap ops M'
  | ClearPort p :: ops => M' ← clear_bitmap M p; run_bitmap ops M'
  end.
Fixpoint run_set (ops : list bitmap_op) (X : gset Z) : gset Z :=
  match ops with
  | [] => X
  | SetPort p :: ops => run_set ops ({[p]} ∪ X)
  | ClearPort p :: ops => run_set ops (X ∖ {[p]})
  end.

Definition refines (M : list Z) (X : gset Z) : Prop :=
  bitmap_ok M /\ forall q, port_ok q -> has_port M q = bool_decide (q ∈ X).
Definition op_ok (o : bitmap_op) : Prop :=
  match o with SetPort p | ClearPort p => port_ok p end.

(** C31: A port bitmap implements a set of ports: any sequence of [set_bitmap]
    and [clear_bitmap] stays inside the array, and afterwards the reader of the
    tail-called programs and the bounds-checked reader of the older kernels both
    return membership in the set the same insertions and deletions give. *)
Theorem bitmap_refines_set ops M X :
  refines M X -> Forall op_ok ops ->
  exists M', run_bitmap ops M = Some M' /\ refines M' (run_set ops X) /\
    forall q, port_ok q ->
      is_set_bitmap M' q = Some (bool_decide (q ∈ run_set ops X)) /\
      is_set_ports_bitmap M' q = Some (bool_decide (q ∈ run_set ops X)).
Proof.
  intros HM Hops. revert M X HM. induction Hops as [| o ops Ho Hops IH]; intros M X [HM HX].
  - exists M. split; [done |]. split; [done |]. intros q Hq.
    by rewrite is_set_bitmap_spec, is_set_ports_bitmap_spec, HX by done.
  - destruct o as [p | p]; simpl in Ho |- *.
    + destruct (set_bitmap_spec M p HM Ho) as (M1 & -> & HM1 & H1). apply IH. split; [done |].
      intros q Hq. rewrite H1, HX by done.
      apply eq_true_iff_eq. rewrite orb_true_iff, !bool_decide_eq_true. set_solver.
    + destruct (clear_bitmap_spec M p HM Ho) as (M1 & -> & HM1 & H1). apply IH. split; [done |].
      intros q Hq. rewrite H1, HX by done.
      apply eq_true_iff_eq. rewrite andb_true_iff, negb_true_iff, bool_decide_eq_false, !bool_decide_eq_true.
      rewrite elem_of_difference, elem_of_singleton. tauto.
Qed.

Lemma bitmap_refines_set_witness :
  let ops := [SetPort 80; SetPort 65535; ClearPort 80] in
  let M := replicate (Z.to_nat BITMAP_BYTES) 0 in
  exists M', run_bitmap ops M = Some M' /\ refines M' (run_set ops ∅) /\
    forall q, port_ok q ->
      is_set_bitmap M' q = Some (bool_decide (q ∈ run_set ops ∅)) /\
      is_set_ports_bitmap M' q = Some (bool_decide (q ∈ run_set ops ∅)).
Proof.
  intros ops M. apply bitmap_refines_set.
  - split; [split; unfold M; [by rewrite length_replicate, Z2Nat.id | by apply Forall_replicate] |].
    intros q Hq. unfold has_port, M. pose proof (div8_range q Hq).
    rewrite lookup_total_replicate_2 by lia. rewrite Z.bits_0. symmetry.
    by apply bool_decide_eq_false_2, not_elem_of_empty.
  - repeat constructor; unfold op_ok, port_ok; simpl; lia.
Defined.
