(* ===== verification/Conn.v ===== *)
(** * Connection and socket state shared by protocol inference

    The data of kernel/include/common.h, socket_trace.h and
    socket_trace_common.h that protocol inference works on ([conn_info_s],
    [socket_info_s], the enumerations), the helpers of the kernel and the BPF
    maps it consults ([env]), and the operations every inference routine shares:
    validity of a socket, port checks, prestored data, reassembly. *)

From S2P Require Import Prelude Bitmap.

(** ** Enumerations *)

Inductive message_type :=
| MSG_UNKNOWN | MSG_REQUEST | MSG_RESPONSE | MSG_REQUEST_END | MSG_RESPONSE_END
| MSG_REASM_START | MSG_REASM_SEG | MSG_COMMON | MSG_PRESTORE | MSG_RECONFIRM
| MSG_CLOSE | MSG_CLEAR.

Inductive traffic_direction := T_EGRESS | T_INGRESS.

Inductive traffic_protocol :=
| PROTO_UNKNOWN | PROTO_OTHER | PROTO_HTTP1 | PROTO_HTTP2 | PROTO_DUBBO
| PROTO_SOFARPC | PROTO_FASTCGI | PROTO_BRPC | PROTO_TARS | PROTO_SOME_IP
| PROTO_ISO8583 | PROTO_MYSQL | PROTO_POSTGRESQL | PROTO_ORACLE | PROTO_REDIS
| PROTO_MONGO | PROTO_MEMCACHED | PROTO_KAFKA | PROTO_MQTT | PROTO_AMQP
| PROTO_OPENWIRE | PROTO_NATS | PROTO_PULSAR | PROTO_ZMTP | PROTO_ROCKETMQ
| PROTO_WEBSPHEREMQ | PROTO_DNS | PROTO_TLS | PROTO_CUSTOM | PROTO_DPDK_PKT.

(** The numbers of the enumerators; they index BPF arrays of [PROTO_NUM]. *)
Definition proto_num (p : traffic_protocol) : Z :=
  match p with
  | PROTO_UNKNOWN => 0 | PROTO_OTHER => 1 | PROTO_HTTP1 => 20 | PROTO_HTTP2 => 21
  | PROTO_DUBBO => 40 | PROTO_SOFARPC => 43 | PROTO_FASTCGI => 44 | PROTO_BRPC => 45
  | PROTO_TARS => 46 | PROTO_SOME_IP => 47 | PROTO_ISO8583 => 48 | PROTO_MYSQL => 60
  | PROTO_POSTGRESQL => 61 | PROTO_ORACLE => 62 | PROTO_REDIS => 80 | PROTO_MONGO => 81
  | PROTO_MEMCACHED => 82 | PROTO_KAFKA => 100 | PROTO_MQTT => 101 | PROTO_AMQP => 102
  | PROTO_OPENWIRE => 103 | PROTO_NATS => 104 | PROTO_PULSAR => 105 | PROTO_ZMTP => 106
  | PROTO_ROCKETMQ => 107 | PROTO_WEBSPHEREMQ => 108 | PROTO_DNS => 120
  | PROTO_TLS => 121 | PROTO_CUSTOM => 127 | PROTO_DPDK_PKT => 199
  end.
Definition PROTO_NUM : Z := 200.

Inductive endpoint_role := ROLE_UNKNOWN | ROLE_CLIENT | ROLE_SERVER.

Inductive data_source :=
| DATA_SOURCE_SYSCALL | DATA_SOURCE_GO_TLS_UPROBE | DATA_SOURCE_GO_HTTP2_UPROBE
| DATA_SOURCE_OPENSSL_UPROBE | DATA_SOURCE_IO_EVENT
| DATA_SOURCE_GO_HTTP2_DATAFRAME_UPROBE | DATA_SOURCE_RESERVED
| DATA_SOURCE_DPDK | DATA_SOURCE_UNIX_SOCKET.

#[export] Instance message_type_eq_dec : EqDecision message_type.
Proof. solve_decision. Defined.
#[export] Instance traffic_direction_eq_dec : EqDecision traffic_direction.
Proof. solve_decision. Defined.
#[export] Instance traffic_protocol_eq_dec : EqDecision traffic_protocol.
Proof. solve_decision. Defined.
#[export] Instance endpoint_role_eq_dec : EqDecision endpoint_role.
Proof. solve_decision. Defined.
#[export] Instance data_source_eq_dec : EqDecision data_source.
Proof. solve_decision. Defined.

Notation "a =! b" := (bool_decide (a = b)) (at level 70).
Notation "a <>! b" := (negb (bool_decide (a = b))) (at level 70).

Definition IPPROTO_TCP : Z := 6.
Definition IPPROTO_UDP : Z := 17.
Definition SOCK_UNIX : Z := 11.
Definition PROTO_INFER_CACHE_SIZE : Z := 80.
Abbreviation EBPF_CACHE_SIZE := 16%nat.
Abbreviation TASK_COMM_LEN := 16%nat.
Definition INFER_BUF_MAX : Z := 32.

(** ** Structures *)

Record tuple_t := mk_tuple {
  daddr : list Z; rcv_saddr : list Z; addr_len : Z;
  l4_protocol : Z; dport : Z; num : Z }.

(** [struct conn_info_s]. The union of [encoding_type] and [correlation_id] is
    its 32-bit storage [c_union]; [socket_info_ptr] is [si] of the state. *)
Record conn_info := mk_conn {
  c_tuple : tuple_t; c_skc_family : Z; c_sk_type : Z;
  c_enable_reasm : bool; c_need_reconfirm : bool; c_keep_trace : bool;
  c_direction : traffic_direction; c_prev_direction : traffic_direction;
  c_role : endpoint_role; c_skip_proto : traffic_protocol; c_dns_q_type : Z;
  c_fd : Z; c_protocol : traffic_protocol; c_message_type : message_type;
  c_is_reasm_seg : bool; c_no_trace : bool; c_union : Z;
  c_prev_count : Z; c_syscall_infer_len : Z; c_count : Z;
  c_prev_buf : list Z; c_syscall_infer_addr : Z; c_sk : Z }.
#[export] Instance eta_conn : Eta conn_info := fun c => mk_conn
  (c_tuple c) (c_skc_family c) (c_sk_type c) (c_enable_reasm c) (c_need_reconfirm c)
  (c_keep_trace c) (c_direction c) (c_prev_direction c) (c_role c) (c_skip_proto c)
  (c_dns_q_type c) (c_fd c) (c_protocol c) (c_message_type c) (c_is_reasm_seg c)
  (c_no_trace c) (c_union c) (c_prev_count c) (c_syscall_infer_len c) (c_count c)
  (c_prev_buf c) (c_syscall_infer_addr c) (c_sk c).

(** The two views of the union. *)
Definition c_encoding_type (c : conn_info) : Z := u8 (c_union c).
Definition put_encoding_type (v : Z) (u : Z) : Z := u - u8 u + u8 v.

(** [struct socket_info_s]. [s_prev_data] is the storage of the union of
    [prev_data] and [ipaddr], [s_union] that of [encoding_type],
    [correlation_id] and [port]. *)
Record socket_info := mk_sock {
  s_l7_proto : traffic_protocol; s_allow_reassembly : bool; s_finish_reasm : bool;
  s_udp_pre_set_addr : bool; s_force_reasm : bool; s_no_trace : bool;
  s_data_source : data_source; s_reasm_bytes : Z; s_seq : Z; s_prev_data : list Z;
  s_direction : traffic_direction; s_pre_direction : traffic_direction;
  s_role : endpoint_role; s_is_tls : bool; s_tls_end : bool;
  s_need_reconfirm : bool; s_union : Z; s_peer_fd : Z; s_update_time : Z;
  s_prev_data_len : Z; s_trace_id : Z; s_uid : Z }.
#[export] Instance eta_sock : Eta socket_info := fun k => mk_sock
  (s_l7_proto k) (s_allow_reassembly k) (s_finish_reasm k) (s_udp_pre_set_addr k)
  (s_force_reasm k) (s_no_trace k) (s_data_source k) (s_reasm_bytes k) (s_seq k)
  (s_prev_data k) (s_direction k) (s_pre_direction k) (s_role k) (s_is_tls k)
  (s_tls_end k) (s_need_reconfirm k) (s_union k) (s_peer_fd k) (s_update_time k)
  (s_prev_data_len k) (s_trace_id k) (s_uid k).
Definition s_encoding_type (k : socket_info) : Z := u8 (s_union k).

(** [struct protocol_message_t]. *)
Record protocol_message := mk_pm { pm_protocol : traffic_protocol; pm_type : message_type }.

(** ** What the kernel and the maps provide

    [e_modern] is the build with LINUX_VER_KFUNC or LINUX_VER_5_2_PLUS. A helper
    that fills a buffer returns its status and the bytes it left there. *)
Record env := mk_env {
  e_modern : bool;
  e_comm : Z * list Z;                               (* bpf_get_current_comm *)
  e_pid_tgid : Z;                                    (* bpf_get_current_pid_tgid *)
  e_protocol_filter : traffic_protocol -> option Z;  (* protocol_filter__lookup *)
  e_ports_bitmap : traffic_protocol -> option (list Z); (* proto_ports_bitmap__lookup *)
  e_proc_info : option (Z * Z * Z);   (* proc_info_map: the three itab fields *)
  e_data_limit_max : option Z;        (* tracer_ctx_map__lookup(0)->data_limit_max *)
  e_infer_cache : Z -> option (Z -> traffic_protocol); (* proto_infer_cache_map *)
  e_tcp_read_seq : Z -> Z;            (* get_tcp_read_seq(fd, NULL, NULL) *)
  e_read_user : Z -> nat -> Z * list Z;      (* bpf_probe_read_user(addr, n) *)
  e_read_user_str : Z -> nat -> Z * list Z   (* bpf_probe_read_user_str(addr, n) *)
}.

(** What the helpers are documented to do: the destination is always filled. *)
Record env_ok (E : env) : Prop := {
  comm_len : length (e_comm E).2 = TASK_COMM_LEN;
  bitmaps_ok : forall p b, e_ports_bitmap E p = Some b -> bitmap_ok b;
  read_user_len : forall a n, length (e_read_user E a n).2 = n;
  read_user_bytes : forall a n, bytes_ok (e_read_user E a n).2;
  cache_present : forall k, 0 <= k < 80 -> is_Some (e_infer_cache E k) }.

(** The state of one inference: the connection on the stack, the socket entry
    it points to (if any) and the map of HTTP/2 sequence numbers. *)
Record st := mk_st { ci : conn_info; si : option socket_info; seqmap : gmap (Z * Z * Z) Z }.
#[export] Instance eta_st : Eta st := fun s => mk_st (ci s) (si s) (seqmap s).
Abbreviation I := (M st).

Definition cget {A} (f : conn_info -> A) : I A := gets (fun s => f (ci s)).
Definition cset {A} (f : conn_info -> A) {S : Setter f} (v : A) : I unit :=
  modify (fun s => s <| ci := (ci s) <| f := v |> |>).
(** Reading or writing through [socket_info_ptr]; a NULL pointer goes wrong. *)
Definition sget {A} (f : socket_info -> A) : I A :=
  fun s => k ← si s; Some (f k, s).
Definition sset {A} (f : socket_info -> A) {S : Setter f} (v : A) : I unit :=
  fun s => k ← si s; Some (tt, s <| si := Some (k <| f := v |>) |>).

(** ** Shared operations *)

Definition is_socket_info_valid (o : option socket_info) : bool :=
  match o with Some k => negb (s_uid k =? 0) | None => false end.

Definition is_infer_socket_valid (o : option socket_info) : bool :=
  match o with
  | Some k => negb (s_uid k =? 0) && (s_l7_proto k <>! PROTO_TLS) && (s_l7_proto k <>! PROTO_UNKNOWN)
  | None => false
  end.

Section with_env.
Context (E : env).

Definition is_protocol_enabled (p : traffic_protocol) : bool :=
  match e_protocol_filter E p with Some v => negb (v =? 0) | None => false end.

(** [skip_http2_kprobe] of uprobe_base.bpf.c. *)
Definition skip_http2_kprobe : bool :=
  match e_proc_info E with
  | None => false
  | Some (tcp, tls, grpc) =>
      if negb (tcp =? 0) then true
      else if negb (tls =? 0) then true
      else if negb (grpc =? 0) then true else false
  end.

Inductive infer_prog := L7_PROTO_INFER_PROG_1 | L7_PROTO_INFER_PROG_2.

Definition __protocol_port_check (proto : traffic_protocol) (prog_num : infer_prog) : I bool :=
  if negb (is_protocol_enabled proto) then mret false else
  ty ← cget c_sk_type;
  if ty =? SOCK_UNIX then mret true else
  t ← cget c_tuple;
  match e_ports_bitmap E proto with
  | Some ports =>
      match prog_num with
      | L7_PROTO_INFER_PROG_1 =>
          lift (is_set_bitmap ports (num t) ||| is_set_bitmap ports (dport t))
      | L7_PROTO_INFER_PROG_2 =>
          lift (is_set_ports_bitmap ports (num t) ||| is_set_ports_bitmap ports (dport t))
      end
  | None => mret false
  end.

Definition protocol_port_check_1 (proto : traffic_protocol) : I bool :=
  __protocol_port_check proto L7_PROTO_INFER_PROG_1.
Definition protocol_port_check_2 (proto : traffic_protocol) : I bool :=
  __protocol_port_check proto
    (if e_modern E then L7_PROTO_INFER_PROG_1 else L7_PROTO_INFER_PROG_2).

(** The guard every routine starts with: the socket already speaks another
    protocol. *)
Definition conflicts (p : traffic_protocol) : I bool :=
  gets (fun s => is_infer_socket_valid (si s) &&
    match si s with Some k => s_l7_proto k <>! p | None => false end).

(** [bpf_probe_read_kernel(dst, n, src)] between two objects. *)
Definition read_kernel (dst src : list Z) (n : nat) : option (list Z) :=
  if (n <=? length dst)%nat && (n <=? length src)%nat
  then Some (take n src ++ drop n dst) else None.

Definition save_prev_data_from_kern (buf : list Z) (count : nat) : I unit :=
  valid ← gets (fun s => is_socket_info_valid (si s));
  if valid : bool then
    prev ← sget s_prev_data;
    data ← lift (read_kernel prev buf count);
    _ ← sset s_prev_data data;
    _ ← sset s_prev_data_len (Z.of_nat count);
    d ← sget s_direction;
    _ ← sset s_pre_direction d;
    cd ← cget c_direction;
    sset s_direction cd
  else
    prev ← cget c_prev_buf;
    data ← lift (read_kernel prev buf count);
    _ ← cset c_prev_buf data;
    cset c_prev_count (Z.of_nat count).

(** Returns [conn_info->prev_count]. *)
Definition check_and_fetch_prev_data : I Z :=
  pending ← gets (fun s => match si s with Some k => 0 <? s_prev_data_len k | None => false end);
  _ ← (if pending : bool then
         cd ← cget c_direction;
         sd ← sget s_direction;
         _ ← (if cd =! sd then
                src ← sget s_prev_data;
                dst ← cget c_prev_buf;
                data ← lift (read_kernel dst src EBPF_CACHE_SIZE);
                _ ← cset c_prev_buf data;
                n ← sget s_prev_data_len;
                _ ← cset c_prev_count n;
                pd ← sget s_pre_direction;
                sset s_direction pd
              else mret tt);
         sset s_prev_data_len 0
       else mret tt);
  cget c_prev_count.

(** [is_same_command(a, b)] from index [idx] with [n] iterations left. *)
Fixpoint same_command_from (a b : list Z) (idx : Z) (n : nat) : option bool :=
  match n with
  | O => Some true
  | S n =>
      x ← rd8 a idx; y ← rd8 b idx;
      if (x =? 0) && (x =? y) then Some true
      else if negb (x =? y) then Some false
      else same_command_from a b (idx + 1) n
  end.
Definition is_same_command (a b : list Z) : option bool := same_command_from a b 0 16.

(** [comm] is a literal with its terminating NUL. *)
Definition is_current_comm (comm : list Z) : option bool :=
  let '(ret, cur) := e_comm E in
  if negb (ret =? 0) then Some false else is_same_command comm cur.

Definition is_nginx_process : option bool := match_at (e_comm E).2 0 (str "nginx" ++ [0]).

Definition drop_msg_by_comm : option bool :=
  let '(ret, comm) := e_comm E in
  if negb (ret =? 0) then Some false else
  comm.[0] == ch "s" &&&
    ((comm.[1] == ch "s" &&& comm.[2] == ch "h" &&& comm.[3] == 0) |||
     (comm.[1] == ch "c" &&& comm.[2] == ch "p" &&& comm.[3] == 0) |||
     (comm.[1] == ch "s" &&& comm.[2] == ch "h" &&& comm.[3] == ch "d" &&& comm.[4] == 0)).

Definition check_and_set_data_reassembly : I unit :=
  valid ← gets (fun s => is_infer_socket_valid (si s));
  if valid : bool then
    sd ← sget s_direction;
    _ ← cset c_prev_direction sd;
    fin ← sget s_finish_reasm;
    if fin : bool then mret tt else
    allow ← sget s_allow_reassembly;
    if allow : bool then
      pd ← cget c_prev_direction;
      cd ← cget c_direction;
      if pd =! cd then
        _ ← cset c_enable_reasm true;
        match e_data_limit_max E with
        | None => mret tt
        | Some limit =>
            rb ← sget s_reasm_bytes;
            pc ← cget c_prev_count;
            if (limit <=? rb) || (0 <? pc) then cset c_enable_reasm false else mret tt
        end
      else cset c_enable_reasm false
    else mret tt
  else mret tt.
End with_env.

(** ** A concrete environment

    User memory made of a few regions and zero elsewhere, every protocol
    enabled on every port. *)

Definition mem_bytes (mem : Z -> Z) (a : Z) (n : nat) : list Z :=
  (fun i => mem (a + Z.of_nat i)) <$> seq 0 n.

Lemma mem_bytes_length mem a n : length (mem_bytes mem a n) = n.
Proof. unfold mem_bytes. by rewrite length_fmap, length_seq. Qed.

Fixpoint region_mem (rs : list (Z * list Z)) (a : Z) : Z :=
  match rs with
  | [] => 0
  | (base, b) :: rs =>
      match rd8 b (a - base) with Some x => x | None => region_mem rs a end
  end.

Fixpoint str_len (mem : Z -> Z) (a : Z) (n : nat) : Z :=
  match n with
  | O => 0
  | S n => if mem a =? 0 then 1 else 1 + str_len mem (a + 1) n
  end.

Definition all_ports : list Z := replicate (Z.to_nat BITMAP_BYTES) 255.

Definition example_env (comm : list Z) (rs : list (Z * list Z)) : env := {|
  e_modern := true;
  e_comm := (0, take 16 (comm ++ replicate 16 0));
  e_pid_tgid := 0;
  e_protocol_filter := fun _ => Some 1;
  e_ports_bitmap := fun _ => Some all_ports;
  e_proc_info := None;
  e_data_limit_max := Some 4096;
  e_infer_cache := fun _ => Some (fun _ => PROTO_UNKNOWN);
  e_tcp_read_seq := fun _ => 0;
  e_read_user := fun a n => (0, mem_bytes (region_mem rs) a n);
  e_read_user_str := fun a n => (str_len (region_mem rs) a n, mem_bytes (region_mem rs) a n) |}.

Lemma region_mem_byte rs a : Forall (fun r => bytes_ok r.2) rs -> byte_ok (region_mem rs a).
Proof.
  induction 1 as [| [base b] rs Hb _ IH]; simpl; [done |].
  destruct (rd8 b (a - base)) eqn:Hr; [| done]. by eapply rd8_byte.
Qed.

Lemma example_env_ok comm rs : Forall (fun r => bytes_ok r.2) rs -> env_ok (example_env comm rs).
Proof.
  intros Hrs. constructor; cbn [example_env e_comm e_ports_bitmap e_read_user e_infer_cache snd].
  - rewrite length_take, length_app, length_replicate. lia.
  - intros _ b [= <-]. unfold all_ports. split; [by rewrite length_replicate, Z2Nat.id |].
    by apply Forall_replicate.
  - intros. apply mem_bytes_length.
  - intros. apply Forall_fmap, Forall_true. intros i. by apply region_mem_byte.
  - by eexists.
Qed.

Definition example_tuple : tuple_t := mk_tuple [] [] 4 IPPROTO_TCP 80 40000.
Definition example_conn (d : traffic_direction) : conn_info :=
  mk_conn example_tuple 2 1 false false false d T_EGRESS ROLE_UNKNOWN PROTO_UNKNOWN 0 3
    PROTO_UNKNOWN MSG_UNKNOWN false false (2 ^ 32 - 1) 0 0 0 (replicate 16 0) 0 1.
(** A connection that has no socket entry yet. *)
Definition example_st (d : traffic_direction) : st := mk_st (example_conn d) None ∅.
(** A socket known to speak [p]. *)
Definition example_sock (p : traffic_protocol) : socket_info :=
  mk_sock p false false false false false DATA_SOURCE_SYSCALL 0 0 (replicate 16 0)
    T_EGRESS T_EGRESS ROLE_CLIENT false false false 0 0 0 0 0 7.
