(* ===== verification/Iovec.v ===== *)
(** * Gathering the buffers of a vectored system call

    The macro [COPY_IOV], [iovecs_copy] and [infer_iovecs_copy] of
    kernel/socket_trace.bpf.c: the memory vectors of readv, writev, sendmsg and
    the like are copied one after the other into one buffer, in pieces of a
    fixed size. The copies stay inside the buffer, and the first 32 bytes of
    the inference buffer are the first bytes of the message. *)

From S2P Require Import Prelude Bitmap Conn.

(** ** Definitions *)

(** [args->iov] and [args->iovlen]. *)
Record iov_args := mk_iov_args { a_iov : Z; a_iovlen : Z }.

(** The destination, [bytes_copy], [first_iov] and [first_iov_size]. *)
Record gather := mk_gather {
  g_data : list Z; g_bytes : Z; g_first : Z; g_first_size : Z }.
#[export] Instance eta_gather : Eta gather := fun g =>
  mk_gather (g_data g) (g_bytes g) (g_first g) (g_first_size g).

(** The helper writes [bytes] at offset [o] of an object. *)
Definition write_at (b : list Z) (o : Z) (bytes : list Z) : option (list Z) :=
  if (0 <=? o) && (o + Z.of_nat (length bytes) <=? Z.of_nat (length b))
  then Some (take (Z.to_nat o) b ++ bytes ++ drop (Z.to_nat o + length bytes) b) else None.

Section iovecs.
Context (E : env).

(** [COPY_IOV(B, O, I, L_T, L_C, F, F_S)]; [chunk] is [sizeof(cp->data)]. The
    [continue] and [break] of the macro leave its own [do ... while (0)]. *)
Definition COPY_IOV (chunk O I L_T : Z) (g : gather) : option gather :=
  let iov_cpy := (e_read_user E I 16).2 in
  iov_base ← rd64 iov_cpy 0;
  iov_len ← rd64 iov_cpy 8;
  if (iov_base =? 0) || (iov_len =? 0) then Some g else
  let g := if g_first g =? 0
           then g <| g_first := iov_base |> <| g_first_size := u32 iov_len |> else g in
  let bytes_remaining := s32 (L_T - g_bytes g) in
  let iov_size := u32 (if iov_len <? u64 bytes_remaining then iov_len else bytes_remaining) in
  let len := u32 (O + g_bytes g) in
  if Z.of_nat (length (g_data g)) - chunk <? len then Some g else
  if chunk <=? iov_size then
    data ← write_at (g_data g) len (e_read_user E iov_base (Z.to_nat chunk)).2;
    Some (g <| g_data := data |> <| g_bytes := g_bytes g + chunk |>)
  else
    let iov_size := Z.land iov_size (chunk - 1) in
    data ← write_at (g_data g) len (e_read_user E iov_base (Z.to_nat (iov_size + 1))).2;
    Some (g <| g_data := data |> <| g_bytes := g_bytes g + iov_size |>).

(** The loop over the vectors, from index [i] with [n] iterations left. *)
Fixpoint copy_iovs (chunk O : Z) (args : iov_args) (total_size i : Z) (n : nat) (g : gather)
    : option gather :=
  match n with
  | O => Some g
  | S n =>
      if (i <? a_iovlen args) && (g_bytes g <? total_size) then
        g ← COPY_IOV chunk O (a_iov args + 16 * i) total_size g;
        copy_iovs chunk O args total_size (i + 1) n g
      else Some g
  end.

Definition INFER_COPY_SZ : Z := 32.
Definition INFER_LOOP_LIMIT : nat := 4.

(** [total_size] of [infer_iovecs_copy]. *)
Definition infer_total_size (size syscall_len copy_len : Z) : Z :=
  let total_size := if size <=? syscall_len then size else copy_len in
  if syscall_len <? total_size then u32 syscall_len else total_size.

(** [infer_iovecs_copy] on the 64 bytes the per-CPU buffer held before. *)
Definition infer_iovecs_copy (data : list Z) (args : iov_args) (syscall_len copy_len : Z)
    : option gather :=
  copy_iovs INFER_COPY_SZ 0 args (infer_total_size (Z.of_nat (length data)) syscall_len copy_len)
    0 INFER_LOOP_LIMIT (mk_gather data 0 0 0).

Definition BURST_DATA_BUF_SIZE : Z := 16384.
Definition LOOP_LIMIT : nat := 18.

(** [iovecs_copy] into the [data] of the output buffer, at the offset [O] of
    the payload of the event under construction. *)
Definition iovecs_copy (v_buff : list Z) (O : Z) (args : iov_args) (real_len send_len : Z)
    : option gather :=
  let total_size := if BURST_DATA_BUF_SIZE <=? real_len then BURST_DATA_BUF_SIZE else send_len in
  copy_iovs BURST_DATA_BUF_SIZE O args total_size 0 LOOP_LIMIT (mk_gather v_buff 0 0 0).
End iovecs.

(** ** The copies stay inside the buffer *)

Lemma def_rd64_user E (HE : env_ok E) a :
  exists base len, rd64 (e_read_user E a 16).2 0 = Some base /\
                   rd64 (e_read_user E a 16).2 8 = Some len.
Proof.
  pose proof (read_user_len E HE a 16) as Hl.
  assert (forall i, 0 <= i <= 8 -> is_Some (rd64 (e_read_user E a 16).2 i)) as H.
  { intros i Hi. unfold rd64, rd32, rd16. rewrite !rd8_Some by lia. by eexists. }
  destruct (H 0) as [b Hb]; [lia |]. destruct (H 8) as [l Hl']; [lia |]. by exists b, l.
Qed.

Lemma write_at_ok b o bytes :
  0 <= o -> o + Z.of_nat (length bytes) <= Z.of_nat (length b) ->
  exists b', write_at b o bytes = Some b' /\ length b' = length b /\
    b' = take (Z.to_nat o) b ++ bytes ++ drop (Z.to_nat o + length bytes) b.
Proof.
  intros Ho Hl. unfold write_at.
  rewrite (proj2 (Z.leb_le 0 o)), (proj2 (Z.leb_le _ _) Hl) by done. simpl.
  eexists. split; [done |]. split; [| done].
  rewrite !length_app, length_take, length_drop. lia.
Qed.

Lemma write_at_bytes b o bytes b' :
  bytes_ok b -> bytes_ok bytes -> write_at b o bytes = Some b' -> bytes_ok b'.
Proof.
  intros Hb Hs. unfold write_at. case_match; [| done]. intros [= <-].
  apply Forall_app. split; [by apply Forall_take |].
  apply Forall_app. split; [done | by apply Forall_drop].
Qed.

Section safety.
Context (E : env) (HE : env_ok E).
Context (k chunk O total : Z).
Context (Hchunk : chunk = 2 ^ k) (Hk : 0 <= k < 30) (HO : 0 <= O < 2 ^ 30) (Ht : 0 <= total < 2 ^ 30).

(** What the loop keeps: the size of the buffer, and a byte count up to
    [total]. *)
Definition gather_ok (n : nat) (g : gather) : Prop :=
  length (g_data g) = n /\ bytes_ok (g_data g) /\ 0 <= g_bytes g <= total.

Lemma land_small r : 0 <= r < chunk -> Z.land r (chunk - 1) = r.
Proof.
  intros Hr. subst chunk. rewrite Z.sub_1_r, <- Z.ones_equiv, Z.land_ones by lia.
  by apply Z.mod_small.
Qed.

Lemma write_user_ok n data o base m :
  length data = n -> bytes_ok data -> 0 <= o -> o + Z.of_nat m <= Z.of_nat n ->
  exists b', write_at data o (e_read_user E base m).2 = Some b' /\ length b' = n /\ bytes_ok b' /\
    b' = take (Z.to_nat o) data ++ (e_read_user E base m).2 ++ drop (Z.to_nat o + m) data.
Proof.
  intros Hl Hb Ho Hm. pose proof (read_user_len E HE base m) as Hr.
  destruct (write_at_ok data o (e_read_user E base m).2) as (b' & Hw & L1 & L2); [lia.. |].
  exists b'. split_and!; [done | lia | | congruence].
  eapply write_at_bytes; [done | | done]. apply (read_user_bytes E HE).
Qed.

(** One vector, without the machine arithmetic: [sz] bytes more, of the [m]
    that are written at the current offset. *)
Lemma copy_iov_spec n a g base len :
  gather_ok n g -> g_bytes g < total -> 
  rd64 (e_read_user E a 16).2 0 = Some base -> rd64 (e_read_user E a 16).2 8 = Some len ->
  exists g', COPY_IOV E chunk O a total g = Some g' /\ gather_ok n g' /\
    (g' = g /\ (base = 0 \/ len = 0) \/
     g_data g' = g_data g /\ g_bytes g' = g_bytes g /\ Z.of_nat n - chunk < O + g_bytes g \/
     exists m, let sz := Z.min (Z.min len (total - g_bytes g)) chunk in
       base <> 0 /\ 0 < len /\ O + g_bytes g <= Z.of_nat n - chunk /\
       m = Z.to_nat (if chunk <=? sz then chunk else sz + 1) /\
       Z.of_nat m <= chunk /\ sz <= Z.of_nat m /\ g_bytes g' = g_bytes g + sz /\
       g_data g' = take (Z.to_nat (O + g_bytes g)) (g_data g) ++ (e_read_user E base m).2 ++
                   drop (Z.to_nat (O + g_bytes g) + m) (g_data g)).
Proof.
  intros (Hl & Hb & Hg) Hlt Hbase Hlen. unfold COPY_IOV. rewrite Hbase, Hlen. cbn [mbind option_bind].
  assert (0 < chunk < 2 ^ 30) as Hc by
    (subst; split; [apply Z.pow_pos_nonneg | apply Z.pow_lt_mono_r]; lia).
  apply (rd64_range _ _ _ (read_user_bytes E HE a 16)) in Hbase, Hlen.
  destruct (Z.eqb_spec base 0); [eexists; split; [done |]; split; [done |]; tauto |].
  destruct (Z.eqb_spec len 0); [eexists; split; [done |]; split; [done |]; tauto |]. simpl orb. cbv iota.
  set (g1 := if g_first g =? 0 then _ else g).
  assert (g_data g1 = g_data g /\ g_bytes g1 = g_bytes g) as [-> ->] by (unfold g1; by case_match).
  rewrite (swrap_small 32), (wrap_small 64), (wrap_small 32 (O + _)), Hl by lia.
  replace (if len <? total - g_bytes g then len else total - g_bytes g)
    with (Z.min len (total - g_bytes g)) by (case_match; lia).
  rewrite (wrap_small 32 (Z.min _ _)) by lia.
  set (r := Z.min len (total - g_bytes g)) in *. assert (0 < r <= total) as Hr by lia.
  destruct (Z.ltb_spec (Z.of_nat n - chunk) (O + g_bytes g)) as [Hfull |].
  { exists g1. split; [done |]. split; [| right; left].
    all: unfold gather_ok, g1; case_match; split_and!; simpl; done || lia. }
  assert (g_bytes g1 = g_bytes g) as Hg1 by (unfold g1; by case_match).
  destruct (Z.leb_spec chunk r).
  - destruct (write_user_ok n (g_data g) (O + g_bytes g) base (Z.to_nat chunk))
      as (b' & -> & L1 & L2 & L3); try done; [lia.. |].
    eexists. split; [done |]. simpl. split; [split_and!; simpl; done || lia |].
    right; right. exists (Z.to_nat chunk). rewrite Z.min_r, Z.leb_refl by lia. split_and!; done || lia.
  - rewrite land_small by lia.
    destruct (write_user_ok n (g_data g) (O + g_bytes g) base (Z.to_nat (r + 1)))
      as (b' & -> & L1 & L2 & L3); try done; [lia.. |].
    eexists. split; [done |]. simpl. split; [split_and!; simpl; done || lia |].
    right; right. exists (Z.to_nat (r + 1)). rewrite Z.min_l by lia.
    destruct (Z.leb_spec chunk r); [lia |]. split_and!; done || lia.
Qed.

Lemma copy_iovs_ok n args m : forall i g,
  gather_ok n g -> exists g', copy_iovs E chunk O args total i m g = Some g' /\ gather_ok n g'.
Proof.
  induction m as [| m IH]; intros i g Hg; cbn [copy_iovs]; [eauto |].
  destruct (Z.ltb_spec i (a_iovlen args)), (Z.ltb_spec (g_bytes g) total); cbn [andb]; eauto.
  destruct (def_rd64_user E HE (a_iov args + 16 * i)) as (base & len & H1 & H2).
  destruct (copy_iov_spec n (a_iov args + 16 * i) g base len) as (g1 & -> & Hg1 & _); try done.
  by apply IH.
Qed.

(** The bytes in front of the offset stay. *)
Lemma copy_iovs_frame n args m : forall i g g',
  gather_ok n g -> copy_iovs E chunk O args total i m g = Some g' ->
  take (Z.to_nat O) (g_data g') = take (Z.to_nat O) (g_data g).
Proof.
  induction m as [| m IH]; intros i g g' Hg Hc; cbn [copy_iovs] in Hc; [by simplify_eq |].
  destruct (Z.ltb_spec i (a_iovlen args)), (Z.ltb_spec (g_bytes g) total); cbn [andb] in Hc;
    try (by simplify_eq).
  destruct (def_rd64_user E HE (a_iov args + 16 * i)) as (base & len & H1 & H2).
  destruct (copy_iov_spec n (a_iov args + 16 * i) g base len) as (g1 & Hc1 & Hg1 & Hcase); try done.
  rewrite Hc1 in Hc. cbn [mbind option_bind] in Hc. rewrite (IH _ _ _ Hg1 Hc).
  pose proof Hg as (G1 & _ & G3).
  destruct Hcase as [[-> _] | [(-> & _) | (k' & _ & _ & Hroom & _ & _ & _ & _ & ->)]]; try done.
  rewrite take_app_le by (rewrite length_take; lia). rewrite take_take. f_equal. lia.
Qed.
End safety.

(** ** The bytes that are gathered *)

Section gathered.
Context (E : env).

(** The bytes of the vector described at [a] that are copied behind [n] others:
    none of an empty vector, none when the [n] are more than [room]; of [total] bytes
    altogether what is missing, and not more than [chunk]. *)
Definition vector_bytes (chunk room total a n : Z) : list Z :=
  match rd64 (e_read_user E a 16).2 0, rd64 (e_read_user E a 16).2 8 with
  | Some base, Some len =>
      if (base =? 0) || (len =? 0) || (room <? n) then [] else
      let sz := Z.min (Z.min len (total - n)) chunk in
      take (Z.to_nat sz) (e_read_user E base (Z.to_nat (if chunk <=? sz then chunk else sz + 1))).2
  | _, _ => []
  end.

(** [acc] followed by the bytes of [n] vectors from the [i]-th on. *)
Fixpoint gathered (chunk room total : Z) (args : iov_args) (i : Z) (n : nat) (acc : list Z) : list Z :=
  match n with
  | O => acc
  | S n =>
      if (i <? a_iovlen args) && (Z.of_nat (length acc) <? total)
      then gathered chunk room total args (i + 1) n
             (acc ++ vector_bytes chunk room total (a_iov args + 16 * i) (Z.of_nat (length acc)))
      else acc
  end.

Lemma gathered_length chunk room total args m : forall i acc, Z.of_nat (length acc) <= total ->
  Z.of_nat (length (gathered chunk room total args i m acc)) <= total.
Proof.
  induction m as [| m IH]; intros i acc Ha; cbn [gathered]; [done |].
  destruct (i <? a_iovlen args), (Z.ltb_spec (Z.of_nat (length acc)) total); cbn [andb]; try done. apply IH.
  rewrite length_app. unfold vector_bytes. repeat case_match; simpl length; rewrite ?length_take; lia.
Qed.

(** [acc] is what was copied to the offset [O]. *)
Definition gathers (O : Z) (g : gather) (acc : list Z) : Prop :=
  g_bytes g = Z.of_nat (length acc) /\ take (length acc) (drop (Z.to_nat O) (g_data g)) = acc.

Context (HE : env_ok E) (k chunk O total : Z).
Context (Hchunk : chunk = 2 ^ k) (Hk : 0 <= k < 30) (HO : 0 <= O < 2 ^ 30) (Ht : 0 <= total < 2 ^ 30).

Lemma copy_iov_gathers n a g acc :
  gather_ok total n g -> g_bytes g < total -> gathers O g acc ->
  exists g', COPY_IOV E chunk O a total g = Some g' /\ gather_ok total n g' /\
    gathers O g' (acc ++ vector_bytes chunk (Z.of_nat n - chunk - O) total a (Z.of_nat (length acc))).
Proof.
  intros Hg Hlt [P1 P2]. destruct (def_rd64_user E HE a) as (base & len & H1 & H2).
  destruct (copy_iov_spec E HE k chunk O total Hchunk Hk HO Ht n a g base len Hg Hlt H1 H2) as (g' & Hc & Hg' & Hcase).
  exists g'. split; [done |]. split; [done |]. unfold vector_bytes. rewrite H1, H2, <- P1.
  pose proof Hg as (G1 & _ & G3).
  destruct Hcase as [[-> Hz] | [(Hd & Hby & Hfull) | (m & Hb & Hl & Hroom & Hm & Hmc & Hsz & Hby & Hd)]].
  - replace ((base =? 0) || (len =? 0)) with true; [by rewrite app_nil_r |]. symmetry. apply orb_true_iff. rewrite !Z.eqb_eq. tauto.
  - destruct (Z.ltb_spec (Z.of_nat n - chunk - O) (g_bytes g)); [| lia]. rewrite orb_true_r, app_nil_r.
    split; [lia | by rewrite Hd].
  - destruct (Z.eqb_spec base 0), (Z.eqb_spec len 0), (Z.ltb_spec (Z.of_nat n - chunk - O) (g_bytes g)); try lia. cbn [orb].
    set (sz := Z.min (Z.min len (total - g_bytes g)) chunk) in *. rewrite <- Hm.
    assert (0 <= sz) as Hsz0 by (subst chunk; pose proof (Z.pow_pos_nonneg 2 k ltac:(lia) ltac:(lia)); lia).
    set (d := take (Z.to_nat sz) (e_read_user E base m).2).
    assert (length d = Z.to_nat sz) as Hdl by (unfold d; rewrite length_take, (read_user_len E HE); lia).
    split; [rewrite length_app; lia |]. rewrite Hd, length_app.
    assert (length (take (Z.to_nat (O + g_bytes g)) (g_data g)) = Z.to_nat (O + g_bytes g)) as Htl
      by (rewrite length_take; lia).
    rewrite drop_app_le by lia.
    assert (drop (Z.to_nat O) (take (Z.to_nat (O + g_bytes g)) (g_data g)) = acc) as ->.
    { rewrite skipn_firstn_comm. etransitivity; [| exact P2]. f_equal. lia. }
    rewrite take_app_ge by lia. f_equal.
    replace (length acc + length d - length acc)%nat with (Z.to_nat sz) by lia.
    rewrite take_app_le by (rewrite (read_user_len E HE); lia). done.
Qed.

Lemma copy_iovs_gathers n args m : forall i g acc,
  gather_ok total n g -> gathers O g acc -> exists g', copy_iovs E chunk O args total i m g = Some g' /\
    gathers O g' (gathered chunk (Z.of_nat n - chunk - O) total args i m acc).
Proof.
  induction m as [| m IH]; intros i g acc Hg Ha; cbn [copy_iovs gathered]; [eauto |]. destruct Ha as [P1 P2]. rewrite <- P1.
  destruct (i <? a_iovlen args), (Z.ltb_spec (g_bytes g) total); cbn [andb]; try (by exists g).
  destruct (copy_iov_gathers n (a_iov args + 16 * i) g acc) as (g1 & -> & Hg1 & Ha1); try done.
  cbn [mbind option_bind]. rewrite P1. by apply IH.
Qed.
End gathered.

(** ** The bytes of the message *)

Section content.
Context (E : env) (HE : env_ok E) (mem : Z -> Z).
Context (Hmem : forall a n, (e_read_user E a n).2 = mem_bytes mem a n).
Context (args : iov_args) (iovs : list (Z * Z)).

(** [iovs] are the vectors [args->iov] points to. *)
Definition iov_at (i : nat) : option (Z * Z) :=
  let b := mem_bytes mem (a_iov args + 16 * Z.of_nat i) 16 in
  base ← rd64 b 0; len ← rd64 b 8; Some (base, len).
Context (Hiovs : forall i, (i < length iovs)%nat -> iov_at i = iovs !! i).
Context (Hlen : a_iovlen args = Z.of_nat (length iovs)).

(** The bytes the vectors hold; one without a base holds none. *)
Definition stream (l : list (Z * Z)) : list Z :=
  concat ((fun '(base, len) => if base =? 0 then [] else mem_bytes mem base (Z.to_nat len)) <$> l).

(** The first [w] bytes of what the vectors [l] hold are there. *)
Definition in_place (w : Z) (l : list (Z * Z)) (acc : list Z) : Prop :=
  take (Z.to_nat w) acc = take (Z.to_nat w) (stream l) /\ (Z.of_nat (length acc) < w -> acc = stream l).

Lemma take_mem_bytes a j n : (j <= n)%nat -> take j (mem_bytes mem a n) = mem_bytes mem a j.
Proof.
  intros H. unfold mem_bytes. rewrite <- fmap_take. f_equal.
  rewrite take_seq. f_equal. lia.
Qed.

Lemma stream_app l l' : stream (l ++ l') = stream l ++ stream l'.
Proof. unfold stream. by rewrite fmap_app, concat_app. Qed.

Lemma in_place_app w l l' acc d : 0 <= w ->
  in_place w l acc -> (Z.of_nat (length acc) < w -> in_place (w - Z.of_nat (length acc)) l' d) ->
  in_place w (l ++ l') (acc ++ d).
Proof.
  intros Hw [P1 P2] Hd. unfold in_place in *. rewrite stream_app.
  destruct (Z.lt_ge_cases (Z.of_nat (length acc)) w) as [Hlt | Hge].
  - rewrite <- (P2 Hlt). destruct (Hd Hlt) as [D1 D2]. rewrite !take_app_ge by lia.
    replace (Z.to_nat w - length acc)%nat with (Z.to_nat (w - Z.of_nat (length acc))) by lia. rewrite D1. split; [done |].
    rewrite length_app. intros. rewrite D2; [done | lia].
  - assert (Z.to_nat w <= length (stream l))%nat.
    { apply (f_equal length) in P1. rewrite !length_take in P1. lia. }
    rewrite !take_app_le, P1 by lia. split; [done |]. rewrite length_app. lia.
Qed.

Lemma vector_in_place w chunk room total a n base len :
  0 < w <= chunk -> 0 <= n -> w <= total - n -> n <= room -> 0 <= len ->
  rd64 (e_read_user E a 16).2 0 = Some base -> rd64 (e_read_user E a 16).2 8 = Some len ->
  in_place w [(base, len)] (vector_bytes E chunk room total a n).
Proof.
  intros Hw Hn Ht Hr Hl H1 H2. unfold vector_bytes, in_place, stream. rewrite H1, H2. cbn [fmap list_fmap concat]. rewrite app_nil_r.
  destruct (Z.eqb_spec base 0); [done |]. cbn [orb]. destruct (Z.eqb_spec len 0) as [-> |]; [done |].
  destruct (Z.ltb_spec room n); [lia |]. cbn [orb]. set (sz := Z.min (Z.min len (total - n)) chunk).
  rewrite Hmem, take_mem_bytes by (case_match; lia). rewrite mem_bytes_length. split.
  - destruct (Z.le_ge_cases w len).
    + rewrite !take_mem_bytes by lia. done.
    + by replace sz with len by lia.
  - intros. by replace sz with len by lia.
Qed.

Lemma gathered_in_place w chunk room total m : forall i acc,
  0 <= w <= chunk -> w <= total -> w <= room + 1 -> in_place w (take i iovs) acc ->
  in_place w (take (i + m) iovs) (gathered E chunk room total args (Z.of_nat i) m acc).
Proof.
  induction m as [| m IH]; intros i acc Hw Ht Hr Hp; cbn [gathered]; [by rewrite Nat.add_0_r |].
  destruct (Z.ltb_spec (Z.of_nat i) (a_iovlen args)) as [Hi |]; cbn [andb].
  2: { by rewrite take_ge in Hp |- * by lia. }
  destruct (Z.ltb_spec (Z.of_nat (length acc)) total) as [Hlt |].
  2: { rewrite <- take_take_drop, <- (app_nil_r acc). apply in_place_app; [lia | done | lia]. }
  replace (i + S m)%nat with (S i + m)%nat by lia. replace (Z.of_nat i + 1) with (Z.of_nat (S i)) by lia. apply IH; try lia.
  assert (is_Some (iovs !! i)) as [[base len] Hx] by (apply lookup_lt_is_Some; lia).
  pose proof (Hiovs i ltac:(lia)) as Hat. rewrite Hx in Hat. unfold iov_at in Hat.
  apply bind_Some in Hat as (b' & H1 & Hat). apply bind_Some in Hat as (l' & H2 & [= -> ->]). rewrite <- Hmem in H1, H2.
  rewrite (take_S_r _ _ _ Hx). apply in_place_app; [lia | done |]. intros Hlw.
  apply (rd64_range _ _ _ (read_user_bytes E HE _ _)) in H2 as Hl'. apply vector_in_place with (chunk := chunk); try done; lia.
Qed.

(** The first [w] bytes gathered are those of the first [m] vectors. *)
Lemma gathered_stream w chunk room total m :
  0 <= w <= chunk -> w <= total -> w <= room + 1 ->
  take (Z.to_nat w) (gathered E chunk room total args 0 m []) = take (Z.to_nat w) (stream (take m iovs)).
Proof. intros Hw Ht Hr. apply (gathered_in_place w chunk room total m 0 []); [done.. |]. by split. Qed.
End content.

Lemma infer_total_range syscall_len :
  0 <= syscall_len ->
  let total := infer_total_size 64 syscall_len INFER_BUF_MAX in
  0 <= total <= 64 /\ Z.min 32 syscall_len <= total <= syscall_len.
Proof.
  intros Hs. unfold infer_total_size, INFER_BUF_MAX. simpl.
  destruct (Z.leb_spec 64 syscall_len); case_match; rewrite ?wrap_small by lia; lia.
Qed.

Lemma infer_iovecs_copy_ok E data args syscall_len :
  env_ok E -> length data = 64%nat -> bytes_ok data -> 0 <= syscall_len ->
  exists g, infer_iovecs_copy E data args syscall_len INFER_BUF_MAX = Some g /\
    length (g_data g) = 64%nat /\ bytes_ok (g_data g) /\ 0 <= g_bytes g <= Z.min 64 syscall_len.
Proof.
  intros HE Hl Hb Hs. pose proof (infer_total_range syscall_len Hs) as Ht. cbv zeta in Ht.
  unfold infer_iovecs_copy. rewrite Hl. simpl Z.of_nat in *.
  destruct (copy_iovs_ok E HE 5 32 0 (infer_total_size 64 syscall_len INFER_BUF_MAX))
    with (n := 64%nat) (args := args) (m := INFER_LOOP_LIMIT) (i := 0) (g := mk_gather data 0 0 0)
    as (g & Hg & G1 & G2 & G3); try done; [lia.. | |].
  - split_and!; simpl; done || lia.
  - exists g. split; [done |]. split_and!; done || lia.
Qed.

(** [iovecs_copy] into the output buffer: in bounds, and nothing in front of the
    payload changes. *)
Lemma iovecs_copy_ok E v_buff O args real_len send_len :
  env_ok E -> Z.of_nat (length v_buff) = 32760 -> bytes_ok v_buff -> 0 <= O < 2 ^ 30 ->
  0 <= real_len -> 0 <= send_len <= BURST_DATA_BUF_SIZE ->
  exists g, iovecs_copy E v_buff O args real_len send_len = Some g /\
    length (g_data g) = length v_buff /\ bytes_ok (g_data g) /\
    0 <= g_bytes g <= (if BURST_DATA_BUF_SIZE <=? real_len then BURST_DATA_BUF_SIZE else send_len) /\
    take (Z.to_nat O) (g_data g) = take (Z.to_nat O) v_buff /\
    gathers O g (gathered E BURST_DATA_BUF_SIZE (32760 - BURST_DATA_BUF_SIZE - O)
      (if BURST_DATA_BUF_SIZE <=? real_len then BURST_DATA_BUF_SIZE else send_len) args 0 LOOP_LIMIT []).
Proof.
  intros HE Hl Hb HO Hr Hs. unfold iovecs_copy.
  change BURST_DATA_BUF_SIZE with (2 ^ 14) in *.
  set (total := if 2 ^ 14 <=? real_len then 2 ^ 14 else send_len).
  assert (0 <= total < 2 ^ 30) as Ht by (unfold total; case_match; lia).
  assert (gather_ok total (length v_buff) (mk_gather v_buff 0 0 0)) as H0 by (split_and!; simpl; done || lia).
  destruct (copy_iovs_ok E HE 14 (2 ^ 14) O total) with (n := length v_buff) (args := args)
    (m := LOOP_LIMIT) (i := 0) (g := mk_gather v_buff 0 0 0) as (g & Hg & G1 & G2 & G3); try done.
  exists g. split; [done |]. split; [done |]. split; [done |]. split; [apply G3 |]. split.
  - exact (copy_iovs_frame E HE 14 (2 ^ 14) O total eq_refl ltac:(lia) HO Ht _ _ _ _ _ _ H0 Hg).
  - destruct (copy_iovs_gathers E HE 14 (2 ^ 14) O total eq_refl ltac:(lia) HO Ht (length v_buff) args LOOP_LIMIT 0
      (mk_gather v_buff 0 0 0) [] H0) as (g' & Hg' & Hga); [done |].
    rewrite Hg in Hg'. injection Hg' as <-. by rewrite Hl in Hga.
Qed.

(** C30: Gathering a vectored system call never writes outside its buffers: the
    copy into the output buffer, of 18 vectors in pieces of 16384 bytes, goes
    right at every offset of the event's payload, keeps the size of the buffer
    and counts between 0 and [total_size] bytes. *)
Theorem iovecs_copy_safe E v_buff O args real_len send_len :
  env_ok E -> Z.of_nat (length v_buff) = 32760 -> bytes_ok v_buff -> 0 <= O < 2 ^ 30 ->
  0 <= real_len -> 0 <= send_len <= BURST_DATA_BUF_SIZE ->
  exists g, iovecs_copy E v_buff O args real_len send_len = Some g /\
    length (g_data g) = length v_buff /\ bytes_ok (g_data g) /\
    0 <= g_bytes g <= (if BURST_DATA_BUF_SIZE <=? real_len then BURST_DATA_BUF_SIZE else send_len).
Proof.
  intros HE Hl Hb HO Hr Hs.
  destruct (iovecs_copy_ok E v_buff O args real_len send_len) as (g & Hg & G1 & G2 & G3 & _); try done.
  by exists g.
Qed.

(** Two vectors of 5 and 40 bytes, described at address 4096. *)
Definition example_vectors : list (Z * list Z) :=
  [(4096, [0; 32; 0; 0; 0; 0; 0; 0; 5; 0; 0; 0; 0; 0; 0; 0;
           0; 48; 0; 0; 0; 0; 0; 0; 40; 0; 0; 0; 0; 0; 0; 0]);
   (8192, str "GET /"); (12288, str "index HTTP/1.1" ++ replicate 26 97)].

Lemma example_vectors_ok : env_ok (example_env [] example_vectors).
Proof. apply example_env_ok. do 3 (constructor; [by apply bytes_okb |]). constructor. Qed.

Lemma iovecs_copy_safe_witness :
  exists g, iovecs_copy (example_env [] example_vectors) (replicate (Z.to_nat 32760) 0) 64
      (mk_iov_args 4096 2) 45 45 = Some g /\
    length (g_data g) = length (replicate (Z.to_nat 32760) 0) /\ bytes_ok (g_data g) /\
    0 <= g_bytes g <= (if BURST_DATA_BUF_SIZE <=? 45 then BURST_DATA_BUF_SIZE else 45).
Proof.
  apply iovecs_copy_safe; [apply example_vectors_ok | | | | |].
  - by rewrite length_replicate, Z2Nat.id.
  - by apply Forall_replicate.
  - lia.
  - lia.
  - unfold BURST_DATA_BUF_SIZE. lia.
Defined.

(** C28: the inference buffer starts with the message. When the memory of the
    process holds the vectors [iovs] of a system call, the first bytes of the buffer
    are those of the first four vectors, one after the other: 32 of them, or as many
    as the call transferred or these vectors hold if that is less, whatever the
    per-CPU buffer held before. Empty vectors and vectors without a base add nothing. *)
Theorem infer_iovecs_copy_prefix E mem data args iovs syscall_len :
  env_ok E -> (forall a n, (e_read_user E a n).2 = mem_bytes mem a n) ->
  (forall i, (i < length iovs)%nat -> iov_at mem args i = iovs !! i) ->
  a_iovlen args = Z.of_nat (length iovs) ->
  length data = 64%nat -> bytes_ok data -> 0 <= syscall_len ->
  exists g, infer_iovecs_copy E data args syscall_len INFER_BUF_MAX = Some g /\
    let S := stream mem (take 4 iovs) in
    let n := Z.to_nat (Z.min (Z.min 32 syscall_len) (Z.of_nat (length S))) in
    Z.of_nat n <= g_bytes g /\ take n (g_data g) = take n S.
Proof.
  intros HE Hmem Hiovs Hlen Hl Hb Hs. pose proof (infer_total_range syscall_len Hs) as Ht. cbv zeta in Ht.
  unfold infer_iovecs_copy. rewrite Hl. change (Z.of_nat 64) with 64. set (total := infer_total_size 64 syscall_len INFER_BUF_MAX) in *.
  destruct (copy_iovs_gathers E HE 5 32 0 total eq_refl ltac:(lia) ltac:(lia) ltac:(lia) 64 args INFER_LOOP_LIMIT 0
    (mk_gather data 0 0 0) []) as (g & Hg & [G1 G2]); [split_and!; simpl; done || lia | done |].
  exists g. split; [exact Hg |]. cbv zeta. set (S := stream mem (take 4 iovs)). set (w := Z.min 32 syscall_len) in *.
  pose proof (gathered_stream E HE mem Hmem args iovs Hiovs Hlen w 32 32 total INFER_LOOP_LIMIT ltac:(lia) ltac:(lia) ltac:(lia)) as Hst.
  change (Z.of_nat 64 - 32 - 0) with 32 in *. set (acc := gathered E 32 32 total args 0 INFER_LOOP_LIMIT []) in *.
  change (stream mem (take INFER_LOOP_LIMIT iovs)) with S in Hst. rewrite drop_0 in G2.
  assert (Z.of_nat (Z.to_nat (Z.min w (Z.of_nat (length S)))) <= Z.of_nat (length acc)) as Hle.
  { apply (f_equal length) in Hst. rewrite !length_take in Hst. lia. }
  split; [lia |]. apply (f_equal (take (Z.to_nat (Z.min w (Z.of_nat (length S)))))) in Hst.
  rewrite !take_take, !Nat.min_l in Hst by lia. rewrite <- Hst, <- G2, take_take. f_equal. lia.
Qed.

Lemma infer_iovecs_copy_prefix_witness :
  let mem := region_mem example_vectors in
  let iovs := [(8192, 5); (12288, 40)] in
  exists g, infer_iovecs_copy (example_env [] example_vectors) (replicate 64 170) (mk_iov_args 4096 2) 45
      INFER_BUF_MAX = Some g /\
    let S := stream mem (take 4 iovs) in
    let n := Z.to_nat (Z.min (Z.min 32 45) (Z.of_nat (length S))) in
    Z.of_nat n <= g_bytes g /\ take n (g_data g) = take n S.
Proof.
  intros mem iovs. apply (infer_iovecs_copy_prefix _ mem _ _ iovs); try done.
  - apply example_vectors_ok.
  - intros i Hi. do 2 (destruct i as [| i]; [reflexivity |]). simpl in Hi. lia.
  - by apply Forall_replicate.
Defined.
