(* ===== verification/InferBase.v ===== *)
(** * The contract of an inference routine

    Every routine [infer_x_message] of kernel/include/protocol_inference.h has
    the same contract towards the dispatcher, stated here once as the class
    [Inferer]: it accesses no memory outside its buffers, keeps the state well
    formed, leaves the identity of the connection and of the socket alone,
    recognises data only for an enabled protocol on a configured port, never
    reclassifies a socket that already has a protocol, and leaves the socket
    untouched when it recognises nothing. The files of the routines prove their
    instances, the dispatcher is proved against the class. *)

From S2P Require Import Prelude Bitmap Conn.

(** ** Well-formed states *)

Definition sock_ok (k : socket_info) : Prop :=
  length (s_prev_data k) = EBPF_CACHE_SIZE /\ bytes_ok (s_prev_data k) /\
  0 <= s_prev_data_len k <= 16.

Record st_ok (s : st) : Prop := {
  prev_buf_len : length (c_prev_buf (ci s)) = EBPF_CACHE_SIZE;
  prev_buf_bytes : bytes_ok (c_prev_buf (ci s));
  prev_count_le : 0 <= c_prev_count (ci s) <= 16;
  num_ok : port_ok (num (c_tuple (ci s)));
  dport_ok : port_ok (dport (c_tuple (ci s)));
  socket_ok : forall k, si s = Some k -> sock_ok k }.

(** The buffer [infer_data_s.data]: 64 bytes. *)
Definition buf_ok (b : list Z) : Prop := length b = 64%nat /\ bytes_ok b.
Existing Class buf_ok.

(** ** What a routine may not change *)

Definition sock_id (o : option socket_info) : option (Z * traffic_protocol * Z * bool) :=
  (fun k => (s_uid k, s_l7_proto k, s_reasm_bytes k, s_allow_reassembly k)) <$> o.

Record frame (s s' : st) : Prop := {
  fr_tuple : c_tuple (ci s') = c_tuple (ci s);
  fr_sk_type : c_sk_type (ci s') = c_sk_type (ci s);
  fr_direction : c_direction (ci s') = c_direction (ci s);
  fr_reasm : c_enable_reasm (ci s') = c_enable_reasm (ci s);
  fr_addr : c_syscall_infer_addr (ci s') = c_syscall_infer_addr (ci s);
  fr_len : c_syscall_infer_len (ci s') = c_syscall_infer_len (ci s);
  fr_count : c_count (ci s') = c_count (ci s);
  fr_sk : c_sk (ci s') = c_sk (ci s);
  fr_protocol : c_protocol (ci s') = c_protocol (ci s);
  fr_type : c_message_type (ci s') = c_message_type (ci s);
  fr_fd : c_fd (ci s') = c_fd (ci s);
  fr_sock : sock_id (si s') = sock_id (si s) }.

(** Nothing recognised: the socket and the connection are as before, up to the
    scratch fields [need_reconfirm], [skip_proto] and the union. *)
Definition quiet (s s' : st) : Prop :=
  si s' = si s /\
  exists r u p, ci s' = (ci s) <| c_need_reconfirm := r |> <| c_union := u |> <| c_skip_proto := p |>.

(** Port check of [protocol_port_check_1] and [_2], without the buffers. *)
Definition port_allowed (E : env) (p : traffic_protocol) (c : conn_info) : bool :=
  is_protocol_enabled E p &&
  ((c_sk_type c =? SOCK_UNIX) ||
   match e_ports_bitmap E p with
   | Some b => has_port b (num (c_tuple c)) || has_port b (dport (c_tuple c))
   | None => false
   end).

(** The socket has no protocol yet, or it is [p]. *)
Definition agrees (p : traffic_protocol) (o : option socket_info) : bool :=
  negb (is_infer_socket_valid o) ||
  match o with Some k => s_l7_proto k =! p | None => true end.

(** The postcondition of a routine run from [s] with result [m]; [G] is what a
    recognition requires of the port, [A] what it requires of the socket. *)
Record infer_gen (G A : Prop) (s : st) (m : message_type) (s' : st) : Prop := {
  post_ok : st_ok s';
  post_frame : frame s s';
  post_port : m <> MSG_UNKNOWN -> G;
  post_agrees : m <> MSG_UNKNOWN -> m <> MSG_PRESTORE -> A;
  post_quiet : m = MSG_UNKNOWN -> quiet s s' }.

Abbreviation infer_post E p s :=
  (infer_gen (port_allowed E p (ci s) = true) (agrees p (si s) = true) s).

Class Inferer (E : env) (p : traffic_protocol) (m : I message_type) : Prop :=
  infer_ok : forall s, env_ok E -> st_ok s -> wp m s (infer_post E p s).

(** ** Automation

    [def] shows that a load or a test of loaded values has a value, [wp_go] runs
    a handler symbolically, [leaf] closes the contract at a return. *)

Lemma def_and a b : is_Some a -> is_Some b -> is_Some (a &&& b).
Proof. intros [x ->] [y ->]. by destruct x. Qed.
Lemma def_or a b : is_Some a -> is_Some b -> is_Some (a ||| b).
Proof. intros [x ->] [y ->]. by destruct x. Qed.
Lemma def_not a : is_Some a -> is_Some (not_of a).
Proof. by intros [x ->]. Qed.
Lemma def_cmp r a v : is_Some a -> is_Some (cmp r a v).
Proof. by intros [x ->]. Qed.
Lemma def_bind {A B} (o : option A) (k : A -> option B) :
  is_Some o -> (forall x, o = Some x -> is_Some (k x)) -> is_Some (o ≫= k).
Proof. intros [x ->] H. by apply H. Qed.
Lemma def_rd8 b i : 0 <= i < Z.of_nat (length b) -> is_Some (rd8 b i).
Proof. intros. by rewrite rd8_Some. Qed.
Lemma def_rdc b i : 0 <= i < Z.of_nat (length b) -> is_Some (rdc b i).
Proof. intros. unfold rdc. by rewrite rd8_Some. Qed.
Lemma def_rd16 b i : 0 <= i < Z.of_nat (length b) - 1 -> is_Some (rd16 b i).
Proof. intros. unfold rd16. by rewrite !rd8_Some by lia. Qed.
Lemma def_rd32 b i : 0 <= i < Z.of_nat (length b) - 3 -> is_Some (rd32 b i).
Proof. intros. unfold rd32, rd16. by rewrite !rd8_Some by lia. Qed.
Lemma def_rd64 b i : 0 <= i < Z.of_nat (length b) - 7 -> is_Some (rd64 b i).
Proof. intros. unfold rd64, rd32, rd16. by rewrite !rd8_Some by lia. Qed.
Lemma def_be16 b i : 0 <= i < Z.of_nat (length b) - 1 -> is_Some (be16 b i).
Proof. intros. unfold be16, rd16. by rewrite !rd8_Some by lia. Qed.
Lemma def_be32 b i : 0 <= i < Z.of_nat (length b) - 3 -> is_Some (be32 b i).
Proof. intros. unfold be32, rd32, rd16. by rewrite !rd8_Some by lia. Qed.
Lemma def_match_at b i s :
  0 <= i -> i + Z.of_nat (length s) <= Z.of_nat (length b) -> is_Some (match_at b i s).
Proof. intros. rewrite match_at_prefix by lia. by eexists. Qed.

Create HintDb reads discriminated.
#[export] Hint Constants Opaque : reads.
Ltac in_bounds :=
  rewrite ?read_user_len by assumption; simpl; first [lia | repeat case_match; simpl; lia].
Ltac def_step :=
  lazymatch goal with
  | |- is_Some (Some _) => eexists; reflexivity
  | |- is_Some (_ &&& _) => apply def_and
  | |- is_Some (_ ||| _) => apply def_or
  | |- is_Some (not_of _) => apply def_not
  | |- is_Some (cmp _ _ _) => apply def_cmp
  | |- is_Some (rd8 _ _) => apply def_rd8; in_bounds
  | |- is_Some (rdc _ _) => apply def_rdc; in_bounds
  | |- is_Some (rd16 _ _) => apply def_rd16; in_bounds
  | |- is_Some (rd32 _ _) => apply def_rd32; in_bounds
  | |- is_Some (rd64 _ _) => apply def_rd64; in_bounds
  | |- is_Some (be16 _ _) => apply def_be16; in_bounds
  | |- is_Some (be32 _ _) => apply def_be32; in_bounds
  | |- is_Some (match_at _ _ _) => apply def_match_at; in_bounds
  | |- is_Some (_ ≫= _) => apply def_bind; [| intros ? ?]
  | |- is_Some (match ?x with _ => _ end) => destruct x
  | |- is_Some _ => solve [auto with reads nocore]
  end.
Ltac def := repeat def_step.

Lemma wp_lift_def {S A} (o : option A) (s : S) (Q : A -> S -> Prop) :
  is_Some o -> (forall v, o = Some v -> Q v s) -> wp (lift o) s Q.
Proof. intros [v ->] H. by apply H. Qed.

Section rules.
Context {A : Type}.
Implicit Types (s : st) (Q : A -> st -> Prop).

Lemma wp_cget (f : conn_info -> A) s Q : Q (f (ci s)) s -> wp (cget f) s Q.
Proof. done. Qed.
Lemma wp_cset (f : conn_info -> A) `{!Setter f} v s (Q : unit -> st -> Prop) :
  Q tt (s <| ci := (ci s) <| f := v |> |>) -> wp (cset f v) s Q.
Proof. done. Qed.
Lemma wp_sget (f : socket_info -> A) s k Q : si s = Some k -> Q (f k) s -> wp (sget f) s Q.
Proof. unfold wp, sget. by intros ->. Qed.
Lemma wp_sset (f : socket_info -> A) `{!Setter f} v s k (Q : unit -> st -> Prop) :
  si s = Some k -> Q tt (s <| si := Some (k <| f := v |>) |>) -> wp (sset f v) s Q.
Proof. unfold wp, sset. by intros ->. Qed.
End rules.

Lemma wp_conflicts p s (Q : bool -> st -> Prop) :
  (agrees p (si s) = false -> Q true s) -> (agrees p (si s) = true -> Q false s) ->
  wp (conflicts p) s Q.
Proof.
  unfold wp, conflicts, gets, agrees. intros H1 H2.
  destruct (is_infer_socket_valid (si s)); simpl in *; [| by apply H2].
  destruct (si s) as [k |]; [| by apply H2].
  destruct (s_l7_proto k =! p); [by apply H2 | by apply H1].
Qed.

(** The two bitmap readers give the same port check. *)
Lemma port_check_eq E p prog s :
  env_ok E -> st_ok s ->
  __protocol_port_check E p prog s = Some (port_allowed E p (ci s), s).
Proof.
  intros HE Hs. unfold __protocol_port_check, port_allowed.
  destruct (is_protocol_enabled E p); [simpl | done].
  unfold mbind, M_bind, cget, gets. destruct (c_sk_type (ci s) =? SOCK_UNIX); [done |].
  destruct (e_ports_bitmap E p) as [b |] eqn:Hb; [| done].
  apply (bitmaps_ok E HE) in Hb. pose proof (num_ok s Hs). pose proof (dport_ok s Hs).
  destruct prog; rewrite ?is_set_bitmap_spec, ?is_set_ports_bitmap_spec by done;
    unfold lift, or_else; simpl; by destruct (has_port b (num (c_tuple (ci s)))).
Qed.

Section checks.
Context (E : env) (p : traffic_protocol) (s : st) (HE : env_ok E) (Hs : st_ok s).

Lemma wp_port_check_1 (Q : bool -> st -> Prop) :
  (port_allowed E p (ci s) = true -> Q true s) ->
  (port_allowed E p (ci s) = false -> Q false s) -> wp (protocol_port_check_1 E p) s Q.
Proof.
  intros H1 H2. unfold wp, protocol_port_check_1. rewrite port_check_eq by done.
  destruct (port_allowed E p (ci s)); auto.
Qed.

Lemma wp_port_check_2 (Q : bool -> st -> Prop) :
  (port_allowed E p (ci s) = true -> Q true s) ->
  (port_allowed E p (ci s) = false -> Q false s) -> wp (protocol_port_check_2 E p) s Q.
Proof.
  intros H1 H2. unfold wp, protocol_port_check_2. rewrite port_check_eq by done.
  destruct (port_allowed E p (ci s)); auto.
Qed.
End checks.

Lemma read_kernel_ok dst src n :
  (n <= length dst)%nat -> (n <= length src)%nat -> bytes_ok dst -> bytes_ok src ->
  exists d, read_kernel dst src n = Some d /\ length d = length dst /\ bytes_ok d /\
    take n d = take n src.
Proof.
  intros H1 H2 Hd Hs. unfold read_kernel.
  destruct (Nat.leb_spec n (length dst)), (Nat.leb_spec n (length src)); try lia. simpl.
  eexists. split; [done |]. split_and!.
  - rewrite length_app, length_take, length_drop. lia.
  - apply Forall_app. split; [by apply Forall_take | by apply Forall_drop].
  - rewrite take_app_le, take_take; [f_equal; lia |]. rewrite length_take. lia.
Qed.

Lemma sock_cases s : {k | si s = Some k} + {si s = None}.
Proof. destruct (si s) as [k |]; [left; by exists k | by right]. Qed.

Lemma quiet_same s s' : si s' = si s -> ci s' = ci s -> quiet s s'.
Proof.
  intros H1 H2. split; [done |]. exists (c_need_reconfirm (ci s)), (c_union (ci s)), (c_skip_proto (ci s)).
  rewrite H2. by destruct (ci s).
Qed.
Lemma quiet_refl s : quiet s s.
Proof. by apply quiet_same. Qed.
Lemma quiet_trans s1 s2 s3 : quiet s1 s2 -> quiet s2 s3 -> quiet s1 s3.
Proof.
  intros (H1 & r1 & u1 & p1 & H2) (H3 & r2 & u2 & p2 & H4). split; [congruence |].
  exists r2, u2, p2. by rewrite H4, H2.
Qed.
Lemma frame_refl s : frame s s.
Proof. done. Qed.
Lemma frame_trans s1 s2 s3 : frame s1 s2 -> frame s2 s3 -> frame s1 s3.
Proof. intros [] []. constructor; congruence. Qed.

Lemma post_same (G A : Prop) s m :
  st_ok s -> (m <> MSG_UNKNOWN -> G) -> (m <> MSG_UNKNOWN -> m <> MSG_PRESTORE -> A) ->
  infer_gen G A s m s.
Proof. intros. constructor; auto using frame_refl, quiet_refl. Qed.

(** A prestore, into the socket entry when there is a valid one and into the
    connection otherwise, keeps the contract. *)
Lemma post_prestore_conn (G A : Prop) s d n :
  st_ok s -> length d = EBPF_CACHE_SIZE -> bytes_ok d -> 0 <= n <= 16 -> G ->
  infer_gen G A s MSG_PRESTORE
    (s <| ci := (ci s) <| c_prev_buf := d |> |>
       <| ci := (ci s) <| c_prev_buf := d |> <| c_prev_count := n |> |>).
Proof. intros [] ? ? ? ?. constructor; by try constructor. Qed.

Lemma post_sock (G A : Prop) s m k k' :
  st_ok s -> si s = Some k -> sock_ok k' -> s_uid k' = s_uid k -> s_l7_proto k' = s_l7_proto k ->
  s_reasm_bytes k' = s_reasm_bytes k -> s_allow_reassembly k' = s_allow_reassembly k ->
  m <> MSG_UNKNOWN -> G -> (m <> MSG_PRESTORE -> A) ->
  infer_gen G A s m (s <| si := Some k' |>).
Proof.
  intros [] Hk Hk' H1 H2 ? ? ? ? ?. constructor; try done; try constructor; try done; simpl; auto.
  - by intros ? [= <-].
  - unfold sock_id. rewrite Hk. simpl. congruence.
Qed.

Lemma wp_save_prev (G A : Prop) s buf n :
  st_ok s -> (n <= 16)%nat -> (n <= length buf)%nat -> bytes_ok buf -> G ->
  wp (save_prev_data_from_kern buf n) s (fun _ s' => infer_gen G A s MSG_PRESTORE s').
Proof.
  intros Hs Hn Hb Hbuf Hp. unfold save_prev_data_from_kern. pose proof Hs as [H1 H2 H3 H4 H5 H6].
  apply wp_bind, wp_gets. apply wp_if; intros Hv.
  - destruct (si s) as [k |] eqn:Hk; [| done]. destruct (H6 k eq_refl) as (L1 & L2 & L3).
    apply wp_bind. eapply wp_sget; [done |].
    destruct (read_kernel_ok (s_prev_data k) buf n) as (d & Hd & D1 & D2 & _); try done; [by rewrite L1 |].
    apply wp_bind. eapply wp_lift; [done |].
    repeat first [ apply wp_bind | eapply wp_sset; [done |] | eapply wp_sget; [done |] | apply wp_cget ].
    eapply (post_sock G A s _ k); try done.
    split_and!; simpl; [congruence | done | lia | lia].
  - apply wp_bind, wp_cget.
    destruct (read_kernel_ok (c_prev_buf (ci s)) buf n) as (d & Hd & D1 & D2 & _); try done; [by rewrite H1 |].
    apply wp_bind. eapply wp_lift; [done |]. apply wp_bind, wp_cset, wp_cset.
    apply post_prestore_conn; try done; [congruence | lia].
Qed.

Ltac wp_step :=
  lazymatch goal with
  | |- wp (mret _) _ _ => apply wp_ret
  | |- wp (_ ≫= _) _ _ => apply wp_bind
  | |- wp (lift _) _ _ =>
      apply wp_lift_def; [solve [def] | let v := fresh "v" in let H := fresh "Hv" in intros v H]
  | |- wp (cget _) _ _ => apply wp_cget
  | |- wp (cset _ _) _ _ => apply wp_cset
  | |- wp (gets _) _ _ => apply wp_gets
  | |- wp (modify _) _ _ => apply wp_modify
  | |- wp (sget _) _ _ => eapply wp_sget; [first [eassumption | reflexivity] |]
  | |- wp (sset _ _) _ _ => eapply wp_sset; [first [eassumption | reflexivity] |]
  | |- wp (conflicts _) _ _ =>
      let H := fresh "Hagree" in apply wp_conflicts; intros H
  | |- wp (protocol_port_check_1 _ _) _ _ =>
      let H := fresh "Hport" in apply wp_port_check_1; [assumption | assumption | intros H | intros H]
  | |- wp (protocol_port_check_2 _ _) _ _ =>
      let H := fresh "Hport" in apply wp_port_check_2; [assumption | assumption | intros H | intros H]
  | |- wp (match ?x with _ => _ end) _ _ => destruct x eqn:?
  end.
Ltac leaf :=
  lazymatch goal with
  | |- infer_gen _ _ _ (match ?x with _ => _ end) _ => destruct x; leaf
  | Hs : st_ok ?s |- infer_gen _ _ ?s _ ?s => apply post_same; [assumption | by auto | by auto]
  | Hs : st_ok ?s |- infer_gen _ _ ?s _ _ =>
      destruct Hs; constructor;
      [ constructor; simpl; first [assumption | lia | done]
      | constructor; simpl; first [reflexivity | congruence]
      | intros; first [assumption | done]
      | intros; first [assumption | congruence | done]
      | intros; first [congruence | apply quiet_same; reflexivity | split; [reflexivity | eexists _, _, _; unfold set; simpl; reflexivity]] ]
  end.
Ltac wp_go := repeat (simpl negb; cbv iota; wp_step).
(** [save_prev_data_from_kern(...); return MSG_PRESTORE]. *)
Ltac prestore :=
  lazymatch goal with
  | |- wp (save_prev_data_from_kern _ _) _ (fun _ s' => wp (mret _) s' (infer_gen ?G ?A _)) =>
      eapply wp_mono; [apply (wp_save_prev G A); first [eassumption | simpl; lia | done] | intros; by apply wp_ret]
  end.

(** ** Concrete states *)

Lemma example_buf_ok : buf_ok (replicate 64 0).
Proof. split; [done |]. by apply Forall_replicate. Qed.

Lemma example_sock_ok p : sock_ok (example_sock p).
Proof. split_and!; [done | by apply Forall_replicate | done | done]. Qed.

Lemma example_st_ok d : st_ok (example_st d).
Proof. constructor; try done. by apply Forall_replicate. Qed.

Lemma example_known_ok d p : st_ok ((example_st d) <| si := Some (example_sock p) |>).
Proof.
  constructor; try done; [by apply Forall_replicate |].
  intros k [= <-]. apply example_sock_ok.
Qed.

(** ** Headers read before their message *)

(** C32: A prestored header is found by the next read and by no other: after
    [save_prev_data_from_kern] on a known socket, the next inference of that
    socket gets the [n] saved bytes with their count when it runs in the same
    direction, and nothing otherwise; in both cases nothing is left for a later
    one, and after a merge the direction of the socket is the one before the
    header. *)
Theorem prestore_fetch s k buf n c :
  st_ok s -> si s = Some k -> is_socket_info_valid (si s) = true ->
  (0 < n <= 16)%nat -> (n <= length buf)%nat -> bytes_ok buf ->
  length (c_prev_buf c) = EBPF_CACHE_SIZE -> bytes_ok (c_prev_buf c) ->
  exists s1, save_prev_data_from_kern buf n s = Some (tt, s1) /\
  exists r s2 k2, check_and_fetch_prev_data (s1 <| ci := c |>) = Some (r, s2) /\
    r = c_prev_count (ci s2) /\ si s2 = Some k2 /\ s_prev_data_len k2 = 0 /\
    (if c_direction c =! c_direction (ci s)
     then r = Z.of_nat n /\ take n (c_prev_buf (ci s2)) = take n buf /\ s_direction k2 = s_direction k
     else ci s2 = c /\ s_direction k2 = c_direction (ci s)).
Proof.
  intros Hs Hk Hv Hn Hl Hb Hc Hcb. destruct (socket_ok s Hs k Hk) as (K1 & K2 & K3).
  destruct (read_kernel_ok (s_prev_data k) buf n) as (d & Hd & D1 & D2 & D3); try done; [lia |].
  destruct (read_kernel_ok (c_prev_buf c) d EBPF_CACHE_SIZE) as (e & He & E1 & E2 & E3); try done; [lia.. |].
  unfold save_prev_data_from_kern, mbind, M_bind, gets. rewrite Hv.
  unfold sget, sset, lift, cget, gets. rewrite Hk. simpl. rewrite Hd. simpl. rewrite Hk. simpl.
  eexists. split; [reflexivity |].
  unfold check_and_fetch_prev_data, mbind, M_bind, gets, sget, sset, lift, cget, gets, cset, modify. simpl.
  destruct (Z.ltb_spec 0 (Z.of_nat n)); [| lia]. simpl.
  destruct (bool_decide_reflect (c_direction c = c_direction (ci s))) as [Hdir | Hdir]; simpl.
  - rewrite He. simpl. eexists _, _, _. split; [reflexivity |]. split_and!; try done. simpl.
    rewrite <- D3. apply (f_equal (take n)) in E3. rewrite !take_take, !Nat.min_l in E3 by lia. done.
  - eexists _, _, _. split; [reflexivity |]. by split_and!.
Qed.

Lemma prestore_fetch_witness :
  let s := (example_st T_INGRESS) <| si := Some (example_sock PROTO_KAFKA) |> in
  exists s1, save_prev_data_from_kern (replicate 64 7) 4 s = Some (tt, s1) /\
  exists r s2 k2, check_and_fetch_prev_data (s1 <| ci := example_conn T_INGRESS |>) = Some (r, s2) /\
    r = c_prev_count (ci s2) /\ si s2 = Some k2 /\ s_prev_data_len k2 = 0 /\
    (if c_direction (example_conn T_INGRESS) =! c_direction (ci s)
     then r = Z.of_nat 4 /\ take 4 (c_prev_buf (ci s2)) = take 4 (replicate 64 7) /\
          s_direction k2 = s_direction (example_sock PROTO_KAFKA)
     else ci s2 = example_conn T_INGRESS /\ s_direction k2 = c_direction (ci s)).
Proof.
  apply prestore_fetch; try (reflexivity || lia).
  - apply example_known_ok.
  - simpl. lia.
  - by apply bytes_okb.
  - by apply bytes_okb.
Defined.
