(* ===== verification/InferHttp.v ===== *)
(** * HTTP/1 and HTTP/2 inference

    [infer_http_message], [infer_http2_message] and their helpers of
    kernel/include/protocol_inference.h. *)

From S2P Require Import Prelude Bitmap Conn InferBase.

(** ** HTTP/1 *)

Definition is_http_response (data : list Z) : option bool :=
  data.[0] == ch "H" &&& data.[1] == ch "T" &&& data.[2] == ch "T" &&&
  data.[3] == ch "P" &&& data.[4] == ch "/" &&& data.[5] == ch "1" &&&
  data.[6] == ch "." &&& data.[8] == ch " " &&& data.[9] != ch "1".

Section with_env.
Context (E : env).

Definition is_http_request (data : list Z) (data_len : Z) : I bool :=
  d0 ← lift (rd8 data 0);
  if d0 =? ch "D" then
    bad ← lift (data.[1] != ch "E" ||| data.[2] != ch "L" ||| data.[3] != ch "E" |||
                data.[4] != ch "T" ||| data.[5] != ch "E" ||| data.[6] != ch " ");
    mret (negb bad)
  else if d0 =? ch "G" then
    bad ← lift (data.[1] != ch "E" ||| data.[2] != ch "T" ||| data.[3] != ch " ");
    mret (negb bad)
  else if d0 =? ch "H" then
    bad ← lift (data.[1] != ch "E" ||| data.[2] != ch "A" ||| data.[3] != ch "D" |||
                data.[4] != ch " ");
    if bad : bool then mret false else
    nginx ← lift (is_nginx_process E);
    _ ← (if nginx : bool then cset c_no_trace true else mret tt);
    mret true
  else if d0 =? ch "O" then
    bad ← lift (Some (data_len <? 8) ||| data.[1] != ch "P" ||| data.[2] != ch "T" |||
                data.[3] != ch "I" ||| data.[4] != ch "O" ||| data.[5] != ch "N" |||
                data.[6] != ch "S" ||| data.[7] != ch " ");
    mret (negb bad)
  else if d0 =? ch "P" then
    d1 ← lift (rd8 data 1);
    if d1 =? ch "A" then
      bad ← lift (data.[2] != ch "T" ||| data.[3] != ch "C" ||| data.[4] != ch "H" |||
                  data.[5] != ch " ");
      mret (negb bad)
    else if d1 =? ch "O" then
      bad ← lift (data.[2] != ch "S" ||| data.[3] != ch "T" ||| data.[4] != ch " ");
      mret (negb bad)
    else if d1 =? ch "U" then
      bad ← lift (data.[2] != ch "T" ||| data.[3] != ch " ");
      mret (negb bad)
    else mret false
  else mret false.

Definition infer_http_message (buf : list Z) (count : Z) : I message_type :=
  if count <? 14 then mret MSG_UNKNOWN else
  ok ← protocol_port_check_1 E PROTO_HTTP1;
  if negb ok then mret MSG_UNKNOWN else
  other ← conflicts PROTO_HTTP1;
  if other : bool then mret MSG_UNKNOWN else
  resp ← lift (is_http_response buf);
  if resp : bool then mret MSG_RESPONSE else
  req ← is_http_request buf (s32 count);
  if req : bool then mret MSG_REQUEST else mret MSG_UNKNOWN.
End with_env.

Lemma is_nginx_process_def E : env_ok E -> is_Some (is_nginx_process E).
Proof. intros HE. pose proof (comm_len E HE) as HC. unfold is_nginx_process. def. Qed.
#[export] Hint Resolve is_nginx_process_def : reads.

Lemma is_http_response_def buf : length buf = 64%nat -> is_Some (is_http_response buf).
Proof. intros. unfold is_http_response. def. Qed.
#[export] Hint Resolve is_http_response_def : reads.

#[export] Instance infer_http_inferer E buf count :
  buf_ok buf -> Inferer E PROTO_HTTP1 (infer_http_message E buf count).
Proof.
  intros [Hlen Hb] s HE Hs. unfold infer_http_message, is_http_request. wp_go; leaf.
Qed.

(** ** HTTP/2 *)

Definition HTTPV2_FRAME_PROTO_SZ : Z := 9.
Definition HTTPV2_FRAME_TYPE_DATA : Z := 0.
Definition HTTPV2_FRAME_TYPE_HEADERS : Z := 1.
Definition HTTPV2_FRAME_READ_SZ : nat := 21.
Definition HTTPV2_STATIC_TABLE_IDX_MAX : Z := 61.
Definition HTTPV2_LOOP_MAX (E : env) : nat := if e_modern E then 8 else 5.

Definition get_block_fragment_offset (fix_sz flags_padding flags_priority : Z) : Z :=
  let offset := u8 fix_sz in
  let offset := if negb (flags_padding =? 0) then u8 (offset + 1) else offset in
  if negb (flags_priority =? 0) then u8 (offset + 5) else offset.

(** [n] runs of the macro [try_find__static_table_idx]. *)
Fixpoint try_find__static_table_idx (buf : list Z) (max table_idx offset : Z) (n : nat) : option Z :=
  match n with
  | O => Some table_idx
  | S n =>
      if (max <? table_idx) || (table_idx =? 0) then
        let offset := u8 (offset + 1) in
        x ← rd8 buf offset;
        try_find__static_table_idx buf max (Z.land x 0x7f) offset n
      else try_find__static_table_idx buf max table_idx offset n
  end.

Definition find_idx_from_block_fragment (buf : list Z) (offset max : Z) : option Z :=
  x ← rd8 buf offset;
  try_find__static_table_idx buf max (Z.land x 0x7f) offset 5.

Section http2.
Context (E : env).

Definition is_http2_magic (buf_src : Z) : option bool :=
  match_at ((e_read_user E buf_src 12).2 ++ [0]) 0 (str "PRI * HTTP/2" ++ [0]).

(** The frame loop of [parse_http2_headers_frame]. *)
Fixpoint http2_frame_loop (syscall_len buf_src count : Z) (is_first : bool)
    (n : nat) (offset : Z) : I message_type :=
  match n with
  | O => mret MSG_UNKNOWN
  | S n =>
      if count <=? offset then mret MSG_UNKNOWN else
      let buf := (e_read_user E (buf_src + offset) HTTPV2_FRAME_READ_SZ).2 in
      w ← lift (be32 buf 0);
      let offset := u32 (offset + (Z.shiftr w 8 + HTTPV2_FRAME_PROTO_SZ)) in
      type ← lift (rd8 buf 3);
      if (type =? HTTPV2_FRAME_TYPE_DATA) && negb is_first then mret MSG_REQUEST else
      if negb (type =? HTTPV2_FRAME_TYPE_HEADERS)
      then http2_frame_loop syscall_len buf_src count is_first n offset else
      flags ← lift (rd8 buf 4);
      b5 ← lift (rd8 buf 5);
      let flags_unset := Z.land flags 0xd2 in
      let flags_padding := Z.land flags 0x08 in
      let flags_priority := Z.land flags 0x20 in
      let reserve := Z.land b5 0x01 in
      if negb (flags_unset =? 0) || negb (reserve =? 0) then mret MSG_UNKNOWN else
      if syscall_len =? HTTPV2_FRAME_PROTO_SZ then mret MSG_PRESTORE else
      if negb is_first then mret MSG_REQUEST else
      let block_fragment_offset :=
        get_block_fragment_offset HTTPV2_FRAME_PROTO_SZ flags_padding flags_priority in
      static_table_idx ← lift (find_idx_from_block_fragment buf block_fragment_offset
                                 HTTPV2_STATIC_TABLE_IDX_MAX);
      if (HTTPV2_STATIC_TABLE_IDX_MAX <? static_table_idx) && (static_table_idx =? 0)
      then http2_frame_loop syscall_len buf_src count is_first n offset else
      d ← cget c_direction;
      if (1 <=? static_table_idx) && (static_table_idx <=? 7) then
        _ ← cset c_role (if d =! T_INGRESS then ROLE_SERVER else ROLE_CLIENT);
        mret MSG_REQUEST
      else if (8 <=? static_table_idx) && (static_table_idx <=? 14) then
        _ ← cset c_role (if d =! T_EGRESS then ROLE_SERVER else ROLE_CLIENT);
        mret MSG_RESPONSE
      else mret MSG_UNKNOWN
  end.

Definition parse_http2_headers_frame (buf_kern : list Z) (syscall_len buf_src count : Z)
    (is_first : bool) : I message_type :=
  pc ← cget c_prev_count;
  if pc =? HTTPV2_FRAME_PROTO_SZ then mret MSG_REQUEST else
  if count <? HTTPV2_FRAME_PROTO_SZ then mret MSG_UNKNOWN else
  magic ← lift (if is_first then is_http2_magic buf_src else Some false);
  bad ← lift (if magic : bool then Some false else
                w ← be32 buf_kern 0;
                if u64 (syscall_len - HTTPV2_FRAME_PROTO_SZ) <? Z.shiftr w 8 then Some true else
                r ← rdc buf_kern 5;
                Some (negb (Z.shiftr r 7 =? 0)));
  if bad : bool then mret MSG_UNKNOWN else
  msg_type ← http2_frame_loop syscall_len buf_src count is_first
               (HTTPV2_LOOP_MAX E) (if magic : bool then 24 else 0);
  if msg_type =! MSG_PRESTORE then
    _ ← save_prev_data_from_kern buf_kern 9;
    mret msg_type
  else mret msg_type.

Definition infer_http2_message (buf_kern : list Z) (syscall_len buf_src count : Z) : I message_type :=
  ok ← protocol_port_check_1 E PROTO_HTTP2;
  if negb ok then mret MSG_UNKNOWN else
  if skip_http2_kprobe E then
    d ← cget c_direction;
    t ← cget c_tuple;
    if (d =! T_INGRESS) && (l4_protocol t =? IPPROTO_TCP) then
      fd ← cget c_fd;
      let tcp_seq_end := e_tcp_read_seq E fd in
      let key := (u32 (Z.shiftr (e_pid_tgid E) 32), fd, tcp_seq_end) in
      let tcp_seq := u32 (tcp_seq_end - count) in
      (* BPF_NOEXIST *)
      _ ← modify (fun s => match seqmap s !! key with
                           | Some _ => s
                           | None => s <| seqmap := <[key := tcp_seq]> (seqmap s) |>
                           end);
      mret MSG_UNKNOWN
    else mret MSG_UNKNOWN
  else
  valid ← gets (fun s => is_infer_socket_valid (si s));
  other ← conflicts PROTO_HTTP2;
  if other : bool then mret MSG_UNKNOWN else
  parse_http2_headers_frame buf_kern syscall_len buf_src count (negb valid).
End http2.

Lemma try_find_def buf max n : forall idx offset,
  (length buf <= 256)%nat -> 0 <= offset -> offset + Z.of_nat n < Z.of_nat (length buf) ->
  is_Some (try_find__static_table_idx buf max idx offset n).
Proof.
  induction n as [| n IH]; intros idx offset Hl Ho Hn; simpl; [def |].
  destruct ((max <? idx) || (idx =? 0)); [| apply IH; lia].
  rewrite (wrap_small 8) by lia. apply def_bind; [def |]. intros x _. apply IH; lia.
Qed.

(** The static-table lookup stays inside the 21 bytes read from the frame. *)
Lemma find_idx_def buf p q :
  length buf = HTTPV2_FRAME_READ_SZ ->
  is_Some (find_idx_from_block_fragment buf
             (get_block_fragment_offset HTTPV2_FRAME_PROTO_SZ p q) HTTPV2_STATIC_TABLE_IDX_MAX).
Proof.
  intros Hl. unfold find_idx_from_block_fragment, HTTPV2_FRAME_READ_SZ in *.
  assert (0 <= get_block_fragment_offset HTTPV2_FRAME_PROTO_SZ p q <= 15) as Ho.
  { unfold get_block_fragment_offset. destruct (p =? 0), (q =? 0); by vm_compute. }
  apply def_bind; [def |]. intros x _. apply try_find_def; lia.
Qed.
#[export] Hint Resolve find_idx_def : reads.

Section http2_contract.
Context (E : env) (HE : env_ok E).

Lemma is_http2_magic_def a : is_Some (is_http2_magic E a).
Proof.
  unfold is_http2_magic. apply def_match_at; [lia |].
  rewrite !length_app, (read_user_len E HE). simpl. lia.
Qed.

(** The frame loop changes at most the role, and only with a verdict. *)
Lemma http2_frame_loop_wp sl a count first n : forall offset s,
  wp (http2_frame_loop E sl a count first n offset) s (fun m s' =>
    exists r, s' = s <| ci := (ci s) <| c_role := r |> |> /\
      (m = MSG_UNKNOWN \/ m = MSG_PRESTORE -> s' = s)).
Proof.
  assert (forall s : st, s = s <| ci := (ci s) <| c_role := c_role (ci s) |> |>) as Hrefl
    by (by intros [[] ? ?]).
  induction n as [| n IH]; intros offset s; cbn [http2_frame_loop].
  - apply wp_ret. eauto.
  - pose proof (read_user_len E HE (a + offset) HTTPV2_FRAME_READ_SZ) as Hl.
    pose proof Hl as Hl'. unfold HTTPV2_FRAME_READ_SZ in Hl' at 2.
    wp_go; try apply IH; eauto; eexists; (split; [reflexivity |]); by intros [|].
Qed.

End http2_contract.

#[export] Instance infer_http2_inferer E buf sl a count :
  buf_ok buf -> Inferer E PROTO_HTTP2 (infer_http2_message E buf sl a count).
Proof.
  intros [Hlen Hb] s HE Hs. pose proof (is_http2_magic_def E HE).
  unfold infer_http2_message, parse_http2_headers_frame.
  wp_go; try leaf.
  - case_match; leaf.
  - eapply wp_mono; [by apply http2_frame_loop_wp |]. intros m s' (r & Hr & Hsame).
    case_bool_decide as Hm.
    + rewrite Hsame by auto. subst m. wp_step. prestore.
    + apply wp_ret. destruct (decide (m = MSG_UNKNOWN)) as [Hu |].
      * rewrite Hsame by auto. leaf.
      * subst s'. leaf.
Qed.

(** ** What HTTP/1 recognises *)

Definition http_methods : list (list Z) :=
  [str "DELETE "; str "GET "; str "HEAD "; str "PATCH "; str "POST "; str "PUT "].

(** The methods whose name [data] starts with; OPTIONS needs 8 bytes. *)
Definition http_method_at (data : list Z) (data_len : Z) : bool :=
  existsb (fun m => starts_with m data) http_methods ||
  ((8 <=? data_len) && starts_with (str "OPTIONS ") data).

Ltac split_eqb :=
  repeat match goal with
         | |- context [?x =? ?c] => is_var x; destruct (Z.eqb_spec x c); subst; simpl; try done
         end.

(** C35: HTTP/1 requests are told by their method: on every buffer,
    [is_http_request] answers whether the data starts with DELETE, GET, HEAD,
    PATCH, POST, PUT or (with at least 8 bytes) OPTIONS and a blank, and it
    changes nothing but [no_trace], for a HEAD request in an nginx process. *)
Theorem is_http_request_spec E data data_len s :
  env_ok E -> (8 <= length data)%nat ->
  exists nginx, is_nginx_process E = Some nginx /\
    is_http_request E data data_len s = Some (http_method_at data data_len,
      if starts_with (str "HEAD ") data && nginx
      then s <| ci := (ci s) <| c_no_trace := true |> |> else s).
Proof.
  intros HE Hl. destruct (is_nginx_process_def E HE) as [nginx Hn]. exists nginx. split; [done |].
  do 8 (destruct data as [| ? data]; [simpl in Hl; lia |]).
  unfold is_http_request, http_method_at, http_methods. rewrite Hn.
  unfold mbind, M_bind, lift, mret, M_ret, cset, modify; simpl.
  destruct (Z.leb_spec 8 data_len), (Z.ltb_spec data_len 8); try lia; destruct nginx; simpl; split_eqb.
Qed.

Lemma is_http_request_spec_witness :
  exists nginx, is_nginx_process (example_env (str "nginx") []) = Some nginx /\
    is_http_request (example_env (str "nginx") []) (str "HEAD /health HTTP/1.1") 21 (example_st T_INGRESS) =
    Some (http_method_at (str "HEAD /health HTTP/1.1") 21,
      if starts_with (str "HEAD ") (str "HEAD /health HTTP/1.1") && nginx
      then (example_st T_INGRESS) <| ci := (ci (example_st T_INGRESS)) <| c_no_trace := true |> |>
      else example_st T_INGRESS).
Proof. apply is_http_request_spec; [by apply example_env_ok | simpl; lia]. Defined.
