(* ===== verification/InferSql.v ===== *)
(** * Database protocols

    [infer_mysql_message], [infer_postgre_message], [infer_oracle_tns_message],
    [infer_iso8583_message], [infer_memcached_message], [infer_redis_message]
    and [infer_mongo_message] of kernel/include/protocol_inference.h. *)

From S2P Require Import Prelude Bitmap Conn InferBase.

(** ** MySQL *)

Definition kComQuery : Z := 0x03.
Definition kComConnect : Z := 0x0b.
Definition kComStmtPrepare : Z := 0x16.
Definition kComStmtExecute : Z := 0x17.
Definition kComStmtClose : Z := 0x19.
Definition kComStmtQuit : Z := 0x01.

Section mysql.
Context (E : env).

(** The label [out]. *)
Definition mysql_out (com : Z) (is_mysqld : bool) : I message_type :=
  _ ← (if (com =? kComStmtClose) || (com =? kComStmtQuit)
       then cset c_keep_trace true else mret tt);
  d ← cget c_direction;
  if is_mysqld then mret (if d =! T_INGRESS then MSG_REQUEST else MSG_RESPONSE)
  else mret (if d =! T_INGRESS then MSG_RESPONSE else MSG_REQUEST).

(** The fields of the packet: [len], [seq], [count], [com], [point_1] and
    [point_2], where a header of 4 bytes read before is merged. *)
Definition mysql_fields (buf prev_buf : list Z) (prev_count count : Z)
    : option (Z * Z * Z * Z * Z * Z) :=
  w ← rd32 buf 0; seq ← rd8 buf 3; com ← rd8 buf 4;
  point_1 ← rd8 buf 6; point_2 ← rd8 buf 8;
  if prev_count =? 4 then
    w ← rd32 prev_buf 0;
    let len := Z.land w 0x00ffffff in
    if len =? count then
      seq ← rd8 prev_buf 3; com ← rd8 buf 0; point_1 ← rd8 buf 2; point_2 ← rd8 buf 4;
      Some (len, seq, u64 (count + 4), com, point_1, point_2)
    else Some (len, seq, count, com, point_1, point_2)
  else Some (Z.land w 0x00ffffff, seq, count, com, point_1, point_2).

Definition infer_mysql_message (buf : list Z) (count : Z) : I message_type :=
  ok ← protocol_port_check_1 E PROTO_MYSQL;
  if negb ok then mret MSG_UNKNOWN else
  if count =? 4 then _ ← save_prev_data_from_kern buf 4; mret MSG_PRESTORE else
  other ← conflicts PROTO_MYSQL;
  if other : bool then mret MSG_UNKNOWN else
  sk ← cget c_sk;
  if sk =? 0 then mret MSG_UNKNOWN else
  pc ← cget c_prev_count; pb ← cget c_prev_buf;
  f ← lift (mysql_fields buf pb pc count);
  let '(len, seq, count, com, point_1, point_2) := f in
  if (count <? 5) || (len =? 0) then mret MSG_UNKNOWN else
  is_mysqld ← lift (is_current_comm E (str "mysqld" ++ [0]));
  valid ← gets (fun s => is_socket_info_valid (si s));
  if valid : bool then
    if (seq <=? 1) || ((seq =? 2) && ((com =? 0x0) || (com =? 0xFF) || (com =? 0xFE)))
    then mysql_out com is_mysqld else mret MSG_UNKNOWN
  else if is_mysqld : bool then
    d ← cget c_direction;
    mret (if d =! T_INGRESS then MSG_REQUEST else MSG_RESPONSE)
  else if negb (count =? u32 (len + 4)) then mret MSG_UNKNOWN
  else if negb (seq =? 0) then mret MSG_UNKNOWN
  else if 10000 <? len then mret MSG_UNKNOWN
  else if (com =? 0x0A) && (point_1 =? 0x2e) && (point_2 =? 0x2e) then mret MSG_REQUEST
  else if negb (com =? kComConnect) && negb (com =? kComQuery) &&
          negb (com =? kComStmtPrepare) && negb (com =? kComStmtExecute) &&
          negb (com =? kComStmtClose) && negb (com =? kComStmtQuit)
  then mret MSG_UNKNOWN
  else mysql_out com is_mysqld.
End mysql.

(** ** PostgreSQL *)

Definition infer_pgsql_startup_message (buf : list Z) (count : Z) : option bool :=
  if count <? 12 then Some false else
  length ← be32 buf 0;
  if (length <? 12) || (10240 <? length) then Some false else
  v3 ← buf.[4] == 0 &&& buf.[5] == 3 &&& buf.[6] == 0 &&& buf.[7] == 0;
  if negb v3 then Some false else
  low ← cmp Z.ltb (rdc buf 8) (ch "A") ||| cmp Z.ltb (rdc buf 9) (ch "A") |||
        cmp Z.ltb (rdc buf 10) (ch "A") ||| cmp Z.ltb (rdc buf 11) (ch "A");
  Some (negb low).

Section pgsql.
Context (E : env).

Definition infer_pgsql_query_message (buf : list Z) (s_buf count : Z) : option message_type :=
  if count <? 5 then Some MSG_UNKNOWN else
  tag ← rdc buf 0;
  if (tag <? ch "B") || (ch "S" <? tag) then Some MSG_UNKNOWN else
  length ← be32 (e_read_user E (s_buf + 1) 4).2 0;
  if (length <? 8) || (30000 <? length) then Some MSG_UNKNOWN else
  whole ← (if u32 (length + 1) <=? u32 count then
             last_char ← rdc (e_read_user E (s_buf + length) 1).2 0;
             Some ((last_char =? 0) && ((tag =? ch "Q") || (tag =? ch "C")))
           else Some false);
  if whole : bool then Some MSG_REQUEST else
  let pos := u32 (length + 1) in
  if count <? pos + 5 then Some MSG_UNKNOWN else
  tag ← rdc (e_read_user E (s_buf + pos) 1).2 0;
  if (tag =? ch "B") || (tag =? ch "E") || (tag =? ch "S")
  then Some MSG_REQUEST else Some MSG_UNKNOWN.

(** The tags of client messages. *)
Definition pgsql_req_tag (tag : Z) : bool :=
  existsb (Z.eqb tag) (str "QPBFXfCESDHdc").

Definition infer_postgre_message (buf : Z) (count : Z) : I message_type :=
  ok ← protocol_port_check_2 E PROTO_POSTGRESQL;
  if negb ok then mret MSG_UNKNOWN else
  t ← cget c_tuple;
  if negb (l4_protocol t =? IPPROTO_TCP) then mret MSG_UNKNOWN else
  let infer_buf := (e_read_user E buf 32).2 in
  valid ← gets (fun s => is_infer_socket_valid (si s));
  other ← conflicts PROTO_POSTGRESQL;
  if other : bool then mret MSG_UNKNOWN else
  if valid : bool then
    tag ← lift (rdc infer_buf 0);
    mret (if pgsql_req_tag tag then MSG_REQUEST else MSG_RESPONSE)
  else
  start ← lift (infer_pgsql_startup_message infer_buf count);
  if start : bool then mret MSG_REQUEST else
  lift (infer_pgsql_query_message infer_buf buf count).
End pgsql.

(** ** Oracle TNS *)

Definition TNS_HEADER_LENGTH_OFFSET : Z := 0.
Definition TNS_HEADER_CHECKSUM_OFFSET : Z := 2.
Definition TNS_HEADER_TYPE_OFFSET : Z := 4.
Definition TNS_TYPE_DATA_DATA_ID_OFFSET : Z := 10.
Definition TNS_TYPE_DATA_CALL_ID_OFFSET : Z := 11.

Definition is_tns_packet_type (ty : Z) : bool :=
  if (ty =? 0x08) || (ty =? 0x0a) then false
  else if (0x01 <=? ty) && (ty <=? 0x0f) then true else false.

(** The [switch] on the packet type; [None] falls through it. *)
Definition tns_by_type (pkt_type length : Z) : option message_type :=
  if pkt_type =? 0x01 then (* CONNECT *)
    Some (if length <? 26 then MSG_UNKNOWN else MSG_REQUEST)
  else if pkt_type =? 0x02 then (* ACCEPT *)
    Some (if length <? 16 then MSG_UNKNOWN else MSG_RESPONSE)
  else if pkt_type =? 0x04 then (* REFUSE *)
    Some (if length <? 4 then MSG_UNKNOWN else MSG_RESPONSE)
  else if pkt_type =? 0x05 then (* REDIRECT *)
    Some (if length <? 2 then MSG_UNKNOWN else MSG_RESPONSE)
  else if pkt_type =? 0x09 then (* ABORT *)
    if length <? 2 then Some MSG_UNKNOWN else None
  else if pkt_type =? 0x0c then (* MARKER *)
    if length <? 3 then Some MSG_UNKNOWN else None
  else if pkt_type =? 0x0d then (* ATTENTION *)
    Some (if length <? 3 then MSG_UNKNOWN else MSG_REQUEST)
  else if pkt_type =? 0x0e then (* CONTROL *)
    Some (if length <? 2 then MSG_UNKNOWN else MSG_REQUEST)
  else None.

Section oracle.
Context (E : env).

Definition infer_oracle_tns_message (buf : list Z) (count : Z) : I message_type :=
  ok ← protocol_port_check_2 E PROTO_ORACLE;
  if negb ok then mret MSG_UNKNOWN else
  t ← cget c_tuple;
  if negb (l4_protocol t =? IPPROTO_TCP) || (count <? 12) then mret MSG_UNKNOWN else
  other ← conflicts PROTO_ORACLE;
  if other : bool then mret MSG_UNKNOWN else
  ty ← lift (rdc buf TNS_HEADER_TYPE_OFFSET);
  if negb (is_tns_packet_type ty) then mret MSG_UNKNOWN else
  checksum ← lift (be16 buf TNS_HEADER_CHECKSUM_OFFSET);
  length ← lift (if (checksum =? 0) || (checksum =? 4)
                 then be16 buf TNS_HEADER_LENGTH_OFFSET
                 else be32 buf TNS_HEADER_LENGTH_OFFSET);
  infer_ptr ← cget c_syscall_infer_addr;
  bad ← lift (if u32 (length + TNS_HEADER_TYPE_OFFSET) <? count then
                let r := e_read_user E (infer_ptr + length + TNS_HEADER_TYPE_OFFSET) 1 in
                pkt_type ← rdc r.2 0;
                Some ((r.1 =? 0) && negb (is_tns_packet_type pkt_type))
              else Some false);
  if bad : bool then mret MSG_UNKNOWN else
  match tns_by_type ty length with
  | Some m => mret m
  | None =>
      if negb (ty =? 0x06) then mret MSG_REQUEST else
      data_id ← lift (rdc buf TNS_TYPE_DATA_DATA_ID_OFFSET);
      call_id ← lift (rdc buf TNS_TYPE_DATA_CALL_ID_OFFSET);
      if (data_id =? 0x04) || (data_id =? 0x08) || (data_id =? 0x10) then mret MSG_RESPONSE
      else if ((data_id =? 0x11) && (call_id =? 0x69)) || ((data_id =? 0x11) && (call_id =? 0x6e))
              || ((data_id =? 0x3) && (call_id =? 0x5e))
      then mret MSG_REQUEST else mret MSG_REQUEST
  end.
End oracle.

(** ** ISO 8583 *)

Definition CUPS_HEADER_SIZE : Z := 0x2e.
Definition CUPS_HEADER_FLAG_1 : Z := 0x02.
Definition CUPS_HEADER_FLAG_2 : Z := 0x82.

Section iso8583.
Context (E : env).

Definition infer_iso8583_message (buf : list Z) (count ptr infer_len : Z) : I message_type :=
  ok ← protocol_port_check_2 E PROTO_ISO8583;
  if negb ok then mret MSG_UNKNOWN else
  t ← cget c_tuple;
  if negb (l4_protocol t =? IPPROTO_TCP) || (count <? 58) || (infer_len <? 53)
  then mret MSG_UNKNOWN else
  other ← conflicts PROTO_ISO8583;
  if other : bool then mret MSG_UNKNOWN else
  at0 ← lift (buf.[0] == CUPS_HEADER_SIZE &&&
              (buf.[1] == CUPS_HEADER_FLAG_1 ||| buf.[1] == CUPS_HEADER_FLAG_2));
  at4 ← lift (if at0 : bool then Some false else
              buf.[4] == CUPS_HEADER_SIZE &&&
              (buf.[5] == CUPS_HEADER_FLAG_1 ||| buf.[5] == CUPS_HEADER_FLAG_2));
  if negb at0 && negb at4 then mret MSG_UNKNOWN else
  let buffer := (e_read_user E (ptr + (if at0 : bool then 41 else 45)) 8).2 in
  bad ← lift (buffer.[0] != ch "0" ||| buffer.[1] != ch "0" ||| buffer.[2] != ch "0" |||
              buffer.[3] != ch "0" ||| buffer.[4] != ch "0");
  if bad : bool then mret MSG_UNKNOWN else
  b7 ← lift (rdc buffer 7);
  mret (if Z.rem b7 2 =? 1 then MSG_RESPONSE else MSG_REQUEST).
End iso8583.

(** ** Memcached *)

(** [CSTR_MASK], [CSTR_AS_U64] and [CSTR_EQ]: a literal of at most 8 bytes is
    compared with the low bytes of a 64-bit word. *)
Definition CSTR_MASK (s : list Z) : Z := Z.shiftr (2 ^ 64 - 1) (64 - Z.of_nat (length s) * 8).
Definition CSTR_AS_U64 (s : list Z) : Z := Z.land (le_word s) (CSTR_MASK s).
Definition CSTR_EQ (key : Z) (s : list Z) : bool := Z.land key (CSTR_MASK s) =? CSTR_AS_U64 s.

(** The copy loop: the first 16 bytes, zero beyond [count]. *)
Fixpoint memcached_key (buf : list Z) (count i : Z) (n : nat) : option (list Z) :=
  match n with
  | O => Some []
  | S n =>
      x ← (if i <? count then rd8 buf i else Some 0);
      l ← memcached_key buf count (i + 1) n;
      Some (x :: l)
  end.

Definition memcached_is_request (ukey : Z) : bool :=
  CSTR_EQ ukey (str "set ") || CSTR_EQ ukey (str "add ") || CSTR_EQ ukey (str "replace ") ||
  CSTR_EQ ukey (str "append ") || CSTR_EQ ukey (str "prepend ") || CSTR_EQ ukey (str "cas ") ||
  CSTR_EQ ukey (str "get ") || CSTR_EQ ukey (str "gets ") || CSTR_EQ ukey (str "gat ") ||
  CSTR_EQ ukey (str "gats ") || CSTR_EQ ukey (str "delete ") || CSTR_EQ ukey (str "incr ") ||
  CSTR_EQ ukey (str "decr ") || CSTR_EQ ukey (str "touch ").

(** The bytes of a carriage return and line feed. *)
Abbreviation CRLF := [13; 10].

Definition memcached_is_response (ukey ukey2 : Z) : bool :=
  CSTR_EQ ukey (str "ERROR" ++ CRLF) || CSTR_EQ ukey (str "STORED" ++ CRLF) ||
  (CSTR_EQ ukey (str "NOT_STOR") && CSTR_EQ ukey2 (str "ED" ++ CRLF)) ||
  CSTR_EQ ukey (str "EXISTS" ++ CRLF) ||
  (CSTR_EQ ukey (str "NOT_FOUN") && CSTR_EQ ukey2 (str "D" ++ CRLF)) ||
  CSTR_EQ ukey (str "END" ++ CRLF) ||
  (CSTR_EQ ukey (str "DELETED" ++ [13]) && CSTR_EQ ukey2 [10]) ||
  (CSTR_EQ ukey (str "TOUCHED" ++ [13]) && CSTR_EQ ukey2 [10]) ||
  CSTR_EQ ukey (str "ERROR ") ||
  (CSTR_EQ ukey (str "CLIENT_E") && CSTR_EQ ukey2 (str "RROR ")) ||
  (CSTR_EQ ukey (str "SERVER_E") && CSTR_EQ ukey2 (str "RROR ")) ||
  CSTR_EQ ukey (str "VALUE ").

Section memcached.
Context (E : env).

Definition infer_memcached_message (buf : list Z) (count : Z) : I message_type :=
  if count <? 5 then mret MSG_UNKNOWN else
  ok ← protocol_port_check_2 E PROTO_MEMCACHED;
  if negb ok then mret MSG_UNKNOWN else
  other ← conflicts PROTO_MEMCACHED;
  if other : bool then mret MSG_UNKNOWN else
  key ← lift (memcached_key buf count 0 16);
  let ukey := le_word (take 8 key) in
  if memcached_is_request ukey then mret MSG_REQUEST else
  let ukey2 := le_word (drop 8 key) in
  if memcached_is_response ukey ukey2 then mret MSG_RESPONSE else
  mret MSG_UNKNOWN.
End memcached.

(** ** Redis *)

(** The search for a carriage return in [buf[1..19]]: the index where the loop
    stops, 20 when there is none. *)
Fixpoint find_cr (buf : list Z) (i : Z) (n : nat) : option Z :=
  match n with
  | O => Some i
  | S n => x ← rd8 buf i; if x =? 13 then Some i else find_cr buf (i + 1) n
  end.
Definition PARAMS_LIMIT : Z := 20.
Definition is_include_crlf (buf : list Z) : option bool :=
  i ← find_cr buf 1 19;
  if i =? PARAMS_LIMIT then Some false else
  x ← rd8 buf (i + 1);
  Some (x =? 10).

(** The first byte of a RESP data type. *)
Definition redis_type_byte (b : Z) : bool :=
  existsb (Z.eqb b) (str "+-:$*_#,(!=%~>").

Section redis.
Context (E : env).

Definition infer_redis_message (buf : list Z) (count : Z) : I message_type :=
  if count <? 4 then mret MSG_UNKNOWN else
  ok ← protocol_port_check_1 E PROTO_REDIS;
  if negb ok then mret MSG_UNKNOWN else
  other ← conflicts PROTO_REDIS;
  if other : bool then mret MSG_UNKNOWN else
  first_byte ← lift (rd8 buf 0);
  if negb (redis_type_byte first_byte) then mret MSG_UNKNOWN else
  no_crlf ← lift (Some (negb (first_byte =? ch "-")) &&& not_of (is_include_crlf buf));
  if no_crlf : bool then mret MSG_UNKNOWN else
  bad_err ← lift (Some (first_byte =? ch "-") &&&
                  ((buf.[1] != ch "E" &&& buf.[1] != ch "W") ||| buf.[2] != ch "R"));
  if bad_err : bool then mret MSG_UNKNOWN else mret MSG_REQUEST.
End redis.

(** ** MongoDB *)

Definition MONGO_OP_REPLY : Z := 1.
Definition MONGO_OP_UPDATE : Z := 2001.
Definition MONGO_OP_KILL_CURSORS : Z := 2007.
Definition MONGO_OP_COMPRESSED : Z := 2012.
Definition MONGO_OP_MSG : Z := 2013.

(** [struct mongo_header]: [message_length], [request_id] and [op_code]. *)
Definition mongo_header (b : list Z) : option (Z * Z * Z) :=
  l ← rd32 b 0; r ← rd32 b 4; o ← rd32 b 12;
  Some (s32 l, s32 r, s32 o).

Section mongo.
Context (E : env).

Definition infer_mongo_message (buf : list Z) (count : Z) : I message_type :=
  ok ← protocol_port_check_2 E PROTO_MONGO;
  if negb ok then mret MSG_UNKNOWN else
  pc ← cget c_prev_count; pb ← cget c_prev_buf;
  let merged := pc =? 16 in
  let count := if merged then u64 (count + 16) else count in
  if count <? 16 then mret MSG_UNKNOWN else
  d ← cget c_direction;
  if (count =? 16) && (d =! T_INGRESS)
  then _ ← save_prev_data_from_kern buf 16; mret MSG_PRESTORE else
  valid ← gets (fun s => is_infer_socket_valid (si s));
  other ← conflicts PROTO_MONGO;
  if other : bool then mret MSG_UNKNOWN else
  h ← lift (mongo_header (if merged then pb else buf));
  let '(message_length, request_id, op_code) := h in
  if valid : bool then
    mret (if op_code =? MONGO_OP_REPLY then MSG_RESPONSE else MSG_REQUEST)
  else if negb (u64 message_length =? count) then mret MSG_UNKNOWN
  else if request_id <? 0 then mret MSG_UNKNOWN
  else if op_code =? MONGO_OP_REPLY then mret MSG_RESPONSE
  else if op_code <? MONGO_OP_UPDATE then mret MSG_UNKNOWN
  else if (MONGO_OP_KILL_CURSORS <? op_code) && (op_code <? MONGO_OP_COMPRESSED)
  then mret MSG_UNKNOWN
  else if MONGO_OP_MSG <? op_code then mret MSG_UNKNOWN
  else mret MSG_REQUEST.
End mongo.

(** ** The contract *)

Lemma mysql_fields_def buf pb pc count :
  length buf = 64%nat -> length pb = 16%nat -> is_Some (mysql_fields buf pb pc count).
Proof. intros. unfold mysql_fields. def. Qed.

Lemma startup_def buf count :
  length buf = 32%nat -> is_Some (infer_pgsql_startup_message buf count).
Proof. intros. unfold infer_pgsql_startup_message. def. Qed.

Lemma query_def E buf a count :
  env_ok E -> length buf = 32%nat -> is_Some (infer_pgsql_query_message E buf a count).
Proof. intros HE ?. unfold infer_pgsql_query_message. def. Qed.

Lemma mongo_header_def b : (16 <= length b)%nat -> is_Some (mongo_header b).
Proof. intros. unfold mongo_header. def. Qed.

Lemma memcached_key_def buf count n : forall i,
  0 <= i -> i + Z.of_nat n <= Z.of_nat (length buf) -> is_Some (memcached_key buf count i n).
Proof.
  induction n as [| n IH]; intros i Hi Hl; simpl; [def |].
  apply def_bind; [def |]. intros x _. apply def_bind; [apply IH; lia | intros; def].
Qed.

Lemma find_cr_spec buf n : forall i,
  0 <= i -> i + Z.of_nat n <= Z.of_nat (length buf) ->
  exists j, find_cr buf i n = Some j /\ i <= j <= i + Z.of_nat n.
Proof.
  induction n as [| n IH]; intros i Hi Hl; cbn [find_cr]; [eexists; split; [done | lia] |].
  rewrite rd8_Some by lia. simpl. destruct (_ =? 13); [eexists; split; [done | lia] |].
  destruct (IH (i + 1)) as (j & -> & Hj); [lia.. |]. eexists. split; [done | lia].
Qed.

Lemma is_include_crlf_def buf : length buf = 64%nat -> is_Some (is_include_crlf buf).
Proof.
  intros Hl. unfold is_include_crlf.
  destruct (find_cr_spec buf 19 1) as (j & -> & Hj); [lia.. |]. cbn. def.
Qed.

(** A comparison with a literal stops at its terminating NUL. *)
Lemma same_command_def a b j n : forall i,
  0 <= i <= j -> rd8 a j = Some 0 -> i + Z.of_nat n <= Z.of_nat (length b) ->
  is_Some (same_command_from a b i n).
Proof.
  induction n as [| n IH]; intros i Hi Ha Hb; simpl; [def |].
  apply rd8_lookup in Ha as Hj. rewrite !rd8_Some by lia. simpl.
  destruct (decide (i = j)) as [-> |].
  - rewrite rd8_Some in Ha by lia. injection Ha as ->. cbn -[same_command_from Z.eqb].
    rewrite Z.eqb_refl. by destruct (0 =? _); eexists.
  - def. apply IH; [lia | done | lia].
Qed.

Lemma is_mysqld_def E : env_ok E -> is_Some (is_current_comm E (str "mysqld" ++ [0])).
Proof.
  intros HE. pose proof (comm_len E HE) as Hc. unfold is_current_comm.
  destruct (e_comm E) as [ret cur]. simpl in Hc. destruct (negb (ret =? 0)); [def |].
  eapply same_command_def with (j := 6); simpl; [lia | done | lia].
Qed.
#[export] Hint Resolve mysql_fields_def startup_def query_def mongo_header_def
  is_include_crlf_def is_mysqld_def prev_buf_len read_user_len : reads.

#[export] Instance infer_mysql_inferer E buf count :
  buf_ok buf -> Inferer E PROTO_MYSQL (infer_mysql_message E buf count).
Proof.
  intros [Hlen Hb] s HE Hs. unfold infer_mysql_message, mysql_out.
  wp_go; try leaf; prestore.
Qed.

#[export] Instance infer_postgre_inferer E buf count :
  Inferer E PROTO_POSTGRESQL (infer_postgre_message E buf count).
Proof.
  intros s HE Hs. unfold infer_postgre_message. wp_go; leaf.
Qed.

#[export] Instance infer_oracle_inferer E buf count :
  buf_ok buf -> Inferer E PROTO_ORACLE (infer_oracle_tns_message E buf count).
Proof.
  intros [Hlen Hb] s HE Hs. unfold infer_oracle_tns_message, TNS_HEADER_TYPE_OFFSET,
    TNS_HEADER_CHECKSUM_OFFSET, TNS_HEADER_LENGTH_OFFSET, TNS_TYPE_DATA_DATA_ID_OFFSET,
    TNS_TYPE_DATA_CALL_ID_OFFSET.
  wp_go; leaf.
Qed.

#[export] Instance infer_iso8583_inferer E buf count ptr infer_len :
  buf_ok buf -> Inferer E PROTO_ISO8583 (infer_iso8583_message E buf count ptr infer_len).
Proof.
  intros [Hlen Hb] s HE Hs. unfold infer_iso8583_message. wp_go; leaf.
Qed.

#[export] Instance infer_memcached_inferer E buf count :
  buf_ok buf -> Inferer E PROTO_MEMCACHED (infer_memcached_message E buf count).
Proof.
  intros [Hlen Hb] s HE Hs. unfold infer_memcached_message.
  assert (is_Some (memcached_key buf count 0 16)) by (apply memcached_key_def; lia).
  wp_go; leaf.
Qed.

#[export] Instance infer_redis_inferer E buf count :
  buf_ok buf -> Inferer E PROTO_REDIS (infer_redis_message E buf count).
Proof.
  intros [Hlen Hb] s HE Hs. unfold infer_redis_message. wp_go; leaf.
Qed.

#[export] Instance infer_mongo_inferer E buf count :
  buf_ok buf -> Inferer E PROTO_MONGO (infer_mongo_message E buf count).
Proof.
  intros [Hlen Hb] s HE Hs. pose proof (prev_buf_len s Hs).
  assert (forall m : bool, is_Some (mongo_header (if m then c_prev_buf (ci s) else buf)))
    by (intros []; apply mongo_header_def; lia).
  unfold infer_mongo_message. wp_go; try leaf; prestore.
Qed.

(** ** Memcached commands as text *)

Lemma CSTR_MASK_ones s : (length s <= 8)%nat -> CSTR_MASK s = Z.ones (8 * Z.of_nat (length s)).
Proof.
  intros Hs. unfold CSTR_MASK. rewrite Z.shiftr_div_pow2 by lia.
  change (2 ^ 64 - 1) with (Z.ones 64). rewrite Z.ones_div_pow2 by lia. f_equal. lia.
Qed.

(** Comparing a masked word is comparing text. *)
Lemma CSTR_EQ_text b s :
  bytes_ok b -> bytes_ok s -> (length s <= length b <= 8)%nat ->
  CSTR_EQ (le_word b) s = starts_with s b.
Proof.
  intros Hb Hs Hl. unfold CSTR_EQ, CSTR_AS_U64. rewrite CSTR_MASK_ones by lia.
  rewrite !Z.land_ones, !le_word_take, (take_ge s) by (done || lia).
  rewrite starts_with_take. symmetry.
  destruct (Z.eqb_spec (le_word (take (length s) b)) (le_word s)) as [He | Hne].
  - apply bool_decide_eq_true_2. apply le_word_inj; [by apply Forall_take | done | | done].
    rewrite length_take. lia.
  - apply bool_decide_eq_false_2. congruence.
Qed.

Definition memcached_commands : list (list Z) :=
  [str "set "; str "add "; str "replace "; str "append "; str "prepend "; str "cas "; str "get ";
   str "gets "; str "gat "; str "gats "; str "delete "; str "incr "; str "decr "; str "touch "].
Definition memcached_replies : list (list Z) :=
  [str "ERROR" ++ CRLF; str "STORED" ++ CRLF; str "NOT_STORED" ++ CRLF; str "EXISTS" ++ CRLF;
   str "NOT_FOUND" ++ CRLF; str "END" ++ CRLF; str "DELETED" ++ CRLF; str "TOUCHED" ++ CRLF;
   str "ERROR "; str "CLIENT_ERROR "; str "SERVER_ERROR "; str "VALUE "].

Lemma starts_with_app a b data :
  (length a <= length data)%nat ->
  starts_with (a ++ b) data = starts_with a data && starts_with b (drop (length a) data).
Proof.
  revert data. induction a as [| c a IH]; intros [| x data] Hl; simpl in *; try done; try lia.
  rewrite IH by lia. by rewrite andb_assoc.
Qed.

Lemma starts_with_take_le s n data : (length s <= n)%nat -> starts_with s (take n data) = starts_with s data.
Proof.
  revert n data. induction s as [| c s IH]; intros n [| x data] Hl; simpl in *; try done.
  - by destruct n.
  - destruct n; [lia |]. simpl. by rewrite IH by lia.
Qed.

Lemma starts_with_split s data :
  (8 <= length data)%nat -> (8 <= length s)%nat ->
  starts_with s data = starts_with (take 8 s) data && starts_with (drop 8 s) (drop 8 data).
Proof.
  intros Hd Hs. rewrite <- (take_drop 8 s) at 1.
  rewrite starts_with_app by (rewrite length_take; lia). by rewrite length_take, Nat.min_l by lia.
Qed.

(** Memcached is recognised by its text: on the 16 bytes copied from the
    data, the comparisons of masked 64-bit words say exactly whether the data
    starts with one of the 14 commands, and whether it starts with one of the 12
    replies. *)
Theorem memcached_text key :
  bytes_ok key -> length key = 16%nat ->
  memcached_is_request (le_word (take 8 key)) = existsb (fun c => starts_with c key) memcached_commands /\
  memcached_is_response (le_word (take 8 key)) (le_word (drop 8 key)) =
    existsb (fun c => starts_with c key) memcached_replies.
Proof.
  intros Hk Hl.
  assert (forall s, bytes_ok s -> (length s <= 8)%nat ->
    CSTR_EQ (le_word (take 8 key)) s = starts_with s key) as H1.
  { intros s Hs Hle. rewrite CSTR_EQ_text; [by apply starts_with_take_le | by apply Forall_take | done |].
    rewrite length_take. lia. }
  assert (forall s, bytes_ok s -> (length s <= 8)%nat ->
    CSTR_EQ (le_word (drop 8 key)) s = starts_with s (drop 8 key)) as H2.
  { intros s Hs Hle. apply CSTR_EQ_text; [by apply Forall_drop | done |]. rewrite length_drop. lia. }
  unfold memcached_is_request, memcached_is_response.
  rewrite !H1 by (by apply bytes_okb || (simpl; lia)).
  rewrite !H2 by (by apply bytes_okb || (simpl; lia)). split.
  - simpl. by rewrite !orb_assoc, orb_false_r.
  - unfold memcached_replies. cbn [existsb]. rewrite !orb_assoc, orb_false_r.
    rewrite (starts_with_split (str "NOT_STORED" ++ CRLF)), (starts_with_split (str "NOT_FOUND" ++ CRLF)),
      (starts_with_split (str "DELETED" ++ CRLF)), (starts_with_split (str "TOUCHED" ++ CRLF)),
      (starts_with_split (str "CLIENT_ERROR ")), (starts_with_split (str "SERVER_ERROR "))
      by (rewrite ?Hl; simpl; lia).
    reflexivity.
Qed.

Lemma memcached_text_witness :
  let key := str "get key:1" ++ CRLF ++ replicate 5 0 in
  memcached_is_request (le_word (take 8 key)) = existsb (fun c => starts_with c key) memcached_commands /\
  memcached_is_response (le_word (take 8 key)) (le_word (drop 8 key)) =
    existsb (fun c => starts_with c key) memcached_replies.
Proof. apply memcached_text; [by apply bytes_okb | reflexivity]. Defined.
