(* ===== verification/InferMq.v ===== *)
(** * Message-queue protocols

    [infer_mqtt_message], [infer_amqp_message], [infer_openwire_message],
    [infer_nats_message], [infer_kafka_message], [infer_rocketmq_message],
    [infer_web_sphere_mq_message] and their helpers of
    kernel/include/protocol_inference.h. *)

From S2P Require Import Prelude Bitmap Conn InferBase.

(** ** MQTT *)

(** The loop of [mqtt_decoding_length]; the result is what the function
    returns with [*length] and [*lensize]. *)
Fixpoint mqtt_length_loop (buffer : list Z) (n : nat) (length lensize multiplier : Z)
    : option (bool * Z * Z) :=
  match n with
  | O => Some (false, length, lensize)
  | S n =>
      digit ← rd8 buffer (1 + lensize);
      let lensize := lensize + 1 in
      let length := s32 (length + Z.land digit 127 * multiplier) in
      let multiplier := s32 (multiplier * 128) in
      if 4 <? lensize then Some (false, length, lensize)
      else if Z.land digit 128 =? 0 then Some (true, length, lensize)
      else mqtt_length_loop buffer n length lensize multiplier
  end.
Definition mqtt_decoding_length (buffer : list Z) : option (bool * Z * Z) :=
  mqtt_length_loop buffer 32 0 0 1.

Definition mqtt_decoding_message_type (buffer : list Z) : option (bool * Z) :=
  x ← rd8 buffer 0;
  let message_type := Z.land (Z.shiftr x 4) 0x0F in
  Some (negb (message_type =? 0), message_type).

(** The relation between the type of a packet and its length. *)
Definition mqtt_length_fits (ty length : Z) : bool :=
  if ((ty =? 1) || (ty =? 3)) && (length <? 4) then false
  else if ((ty =? 2) || (ty =? 4) || (ty =? 5) || (ty =? 6) || (ty =? 7) || (ty =? 11))
          && negb (length =? 2) then false
  else if ((ty =? 8) || (ty =? 9) || (ty =? 10)) && (length <? 3) then false
  else if ((ty =? 12) || (ty =? 13) || (ty =? 14)) && negb (length =? 0) then false
  else true.

Definition mqtt_is_request (ty : Z) : bool :=
  (ty =? 1) || (ty =? 3) || (ty =? 8) || (ty =? 10) || (ty =? 12) || (ty =? 14) || (ty =? 15).

Section mqtt.
Context (E : env).

Definition infer_mqtt_message (buf : list Z) (count : Z) : I message_type :=
  if count <? 4 then mret MSG_UNKNOWN else
  ok ← protocol_port_check_2 E PROTO_MQTT;
  if negb ok then mret MSG_UNKNOWN else
  other ← conflicts PROTO_MQTT;
  if other : bool then mret MSG_UNKNOWN else
  ty ← lift (mqtt_decoding_message_type buf);
  let '(ok, mqtt_type) := ty in
  if negb ok then mret MSG_UNKNOWN else
  len ← lift (mqtt_decoding_length buf);
  let '(ok, length, lensize) := len in
  if negb ok then mret MSG_UNKNOWN else
  if negb (u64 (s32 (1 + lensize + length)) =? count) then mret MSG_UNKNOWN else
  if negb (mqtt_length_fits mqtt_type length) then mret MSG_UNKNOWN else
  if mqtt_is_request mqtt_type then mret MSG_REQUEST else mret MSG_RESPONSE.
End mqtt.

(** ** AMQP 0-9-1 *)

Definition amqp_header : list Z := str "AMQP" ++ [0; 0; 9; 1].

Definition amqp_switch (method_id : Z) (requests responses : list Z) : message_type :=
  if existsb (Z.eqb method_id) requests then MSG_REQUEST
  else if existsb (Z.eqb method_id) responses then MSG_RESPONSE else MSG_UNKNOWN.

(** The [switch] on the method of each class. *)
Definition amqp_method (class_id method_id : Z) : message_type :=
  if class_id =? 10 then (* connection; 60 and 61 are blocked and unblocked *)
    amqp_switch method_id [10; 20; 30; 40; 50; 70; 60; 61] [11; 21; 31; 41; 51; 71]
  else if class_id =? 20 then (* channel *)
    amqp_switch method_id [10; 20; 40] [11; 21; 41]
  else if class_id =? 40 then (* exchange *)
    amqp_switch method_id [10; 20; 30; 40] [11; 21; 31; 51]
  else if class_id =? 50 then (* queue *)
    amqp_switch method_id [10; 20; 30; 40; 50] [11; 21; 31; 41; 51]
  else if class_id =? 60 then (* basic; from 40 on: publish, return, deliver, ack,
                                 reject, recover_async, nack *)
    amqp_switch method_id [10; 20; 30; 70; 110; 40; 50; 60; 80; 90; 100; 120]
      [11; 21; 31; 71; 72; 111]
  else if class_id =? 90 then (* tx *)
    amqp_switch method_id [10; 20; 30] [11; 21; 31]
  else if class_id =? 85 then (* confirm *)
    amqp_switch method_id [10] [11]
  else MSG_UNKNOWN.

Section amqp.
Context (E : env).

Definition infer_amqp_message (buf : list Z) (count : Z) : I message_type :=
  if count <? 8 then mret MSG_UNKNOWN else
  ok ← protocol_port_check_2 E PROTO_AMQP;
  if negb ok then mret MSG_UNKNOWN else
  other ← conflicts PROTO_AMQP;
  if other : bool then mret MSG_UNKNOWN else
  is_magic ← lift (match_at buf 0 amqp_header);
  if is_magic : bool then mret MSG_REQUEST else
  known ← gets (fun s => is_infer_socket_valid (si s) &&
                  match si s with Some k => s_l7_proto k =! PROTO_AMQP | None => false end);
  if negb known then mret MSG_UNKNOWN else
  frame_type ← lift (rdc buf 0);
  if frame_type =? 1 then
    if count <? 12 then mret MSG_UNKNOWN else
    class_id ← lift (be16 buf 7);
    method_id ← lift (be16 buf 9);
    mret (amqp_method (s16 class_id) (s16 method_id))
  else if frame_type =? 2 then mret MSG_REQUEST
  else if frame_type =? 3 then mret MSG_REQUEST
  else if frame_type =? 8 then mret MSG_REQUEST
  else mret MSG_UNKNOWN.
End amqp.

(** ** OpenWire *)

Definition ACTIVEMQ_MAGIC_1 : Z := 0x41637469.
Definition ACTIVEMQ_MAGIC_2 : Z := 0x76654d51.

(** The last part of [decode_openwire]: the command types. *)
Definition openwire_command (cmd_type : Z) : message_type :=
  if cmd_type =? 0 then MSG_UNKNOWN
  else if (cmd_type <=? 0x0c) || ((0x0e <=? cmd_type) && (cmd_type <=? 0x1d)) ||
          (cmd_type =? 0x28) || (cmd_type =? 0x37) || (cmd_type =? 0x3c) ||
          (cmd_type =? 0x3d) || (cmd_type =? 0x41) || (cmd_type =? 0x5a)
  then MSG_REQUEST
  else if (0x1e <=? cmd_type) && (cmd_type <=? 0x22) then MSG_RESPONSE
  else MSG_UNKNOWN.

(** The boolean stream of the tight encoding: its size and the offset after
    its size field. *)
Definition openwire_stream_size (buf : list Z) (cur : Z) : option (Z * Z) :=
  x ← rd8 buf cur;
  if x =? 0xC0 then y ← rd8 buf (cur + 1); Some (y, cur + 2)
  else if x =? 0x80 then y ← rd16 buf (cur + 1); Some (y, cur + 3)
  else Some (x, cur + 1).

(** The checks of [strict_check] after the command type. *)
Definition openwire_strict (buf : list Z) (cur command_length : Z)
    (is_size_prefix_disabled is_tight_encoding_enabled : bool) : option bool :=
  if is_tight_encoding_enabled then
    r ← openwire_stream_size buf cur;
    let '(stream_size, cur) := r in
    if stream_size =? 0 then Some false
    else Some (negb (negb is_size_prefix_disabled &&
                     (u32 (4 + command_length) <? cur + stream_size)))
  else
    _ ← be32 buf cur;
    response_required ← rd8 buf (cur + 4);
    Some ((response_required =? 0x00) || (response_required =? 0x01)).

Definition decode_openwire (buf : list Z) (count : Z)
    (is_size_prefix_disabled is_tight_encoding_enabled strict_check : bool)
    : option message_type :=
  let min_length := 6 + (if is_tight_encoding_enabled then 1 else 0)
                      + (if is_size_prefix_disabled then 0 else 4) in
  if count <? min_length then Some MSG_UNKNOWN else
  command_length ← (if is_size_prefix_disabled then Some 0 else be32 buf 0);
  if negb is_size_prefix_disabled && strict_check &&
     ((command_length <? min_length - 4) || negb (u32 (command_length + 4) =? count))
  then Some MSG_UNKNOWN else
  let cur := if is_size_prefix_disabled then 0 else 4 in
  cmd_type ← rd8 buf cur;
  let cur := cur + 1 in
  if cmd_type =? 1 then
    if count <? 13 then Some MSG_UNKNOWN else
    m1 ← be32 buf cur;
    m2 ← be32 buf (cur + 4);
    Some (if negb (m1 =? ACTIVEMQ_MAGIC_1) || negb (m2 =? ACTIVEMQ_MAGIC_2)
          then MSG_UNKNOWN else MSG_REQUEST)
  else
  pass ← (if strict_check
          then openwire_strict buf cur command_length is_size_prefix_disabled
                 is_tight_encoding_enabled
          else Some true);
  Some (if pass : bool then openwire_command cmd_type else MSG_UNKNOWN).

Definition OPENWIRE_LOOSE_ENCODING : Z := 0x00.
Definition OPENWIRE_TIGHT_ENCODING : Z := 0x01.

(** [conn_info->encoding_type = v]. *)
Definition set_encoding_type (v : Z) : I unit :=
  modify (fun s => s <| ci := (ci s) <| c_union := put_encoding_type v (c_union (ci s)) |> |>).

Section openwire.
Context (E : env).

Definition infer_openwire_message (buf : list Z) (count : Z) : I message_type :=
  if count <? 4 then mret MSG_UNKNOWN else
  ok ← protocol_port_check_2 E PROTO_OPENWIRE;
  if negb ok then mret MSG_UNKNOWN else
  other ← conflicts PROTO_OPENWIRE;
  if other : bool then mret MSG_UNKNOWN else
  known ← gets (fun s => if is_infer_socket_valid (si s) then s_encoding_type <$> si s else None);
  _ ← (match known with Some e => set_encoding_type e | None => mret tt end);
  encoding_type ← cget c_encoding_type;
  if negb (encoding_type =? OPENWIRE_LOOSE_ENCODING) &&
     negb (encoding_type =? OPENWIRE_TIGHT_ENCODING) then
    msg_type ← lift (decode_openwire buf count false false true);
    if msg_type <>! MSG_UNKNOWN then
      _ ← set_encoding_type OPENWIRE_LOOSE_ENCODING; mret msg_type
    else
    msg_type ← lift (decode_openwire buf count false true true);
    if msg_type <>! MSG_UNKNOWN then
      _ ← set_encoding_type OPENWIRE_TIGHT_ENCODING; mret msg_type
    else mret MSG_UNKNOWN
  else
    msg_type ← lift (decode_openwire buf count false (negb (encoding_type =? 0)) false);
    if msg_type <>! MSG_UNKNOWN then mret msg_type else mret MSG_CLEAR.
End openwire.

(** ** NATS *)

(** A keyword of a text protocol, each letter in upper or lower case. *)
Fixpoint keyword (b : list Z) (i : Z) (w : list (Z * Z)) : option bool :=
  match w with
  | [] => Some true
  | (x, y) :: w => (b.[i] == x ||| b.[i] == y) &&& keyword b (i + 1) w
  end.
Definition kw (upper lower : string) : list (Z * Z) := zip (bytes_of upper) (bytes_of lower).
Definition kw_blank (upper lower : string) : list (Z * Z) := kw upper lower ++ [(32, 9)].

(** Blanks and then a brace, from index [p] with [n] bytes left to look at. *)
Fixpoint nats_brace (buf : list Z) (p : Z) (n : nat) : option bool :=
  match n with
  | O => Some false
  | S n =>
      x ← rd8 buf p;
      if x =? ch "{" then Some true
      else if negb (x =? 32) && negb (x =? 9) then Some false
      else nats_brace buf (p + 1) n
  end.

Definition nats_check_info (buf : list Z) (count : Z) : option bool :=
  if count <? 6 then Some false
  else keyword buf 0 (kw_blank "INFO" "info") &&& nats_brace buf 5 15.
Definition nats_check_connect (buf : list Z) (count : Z) : option bool :=
  if count <? 8 then Some false
  else keyword buf 0 (kw_blank "CONNECT" "connect") &&& nats_brace buf 8 12.

(** The keywords after INFO and CONNECT, in the order of the tests. *)
Definition nats_keywords : list (list (Z * Z) * message_type) :=
  [ (kw_blank "PUB" "pub", MSG_REQUEST); (kw_blank "HPUB" "hpub", MSG_REQUEST);
    (kw_blank "SUB" "sub", MSG_REQUEST); (kw_blank "MSG" "msg", MSG_REQUEST);
    (kw_blank "HMSG" "hmsg", MSG_REQUEST); (kw "PING" "ping", MSG_REQUEST);
    (kw "PONG" "pong", MSG_RESPONSE); (kw "+OK" "+ok", MSG_REQUEST);
    (kw_blank "-ERR" "-err", MSG_REQUEST) ].

Fixpoint nats_first (buf : list Z) (l : list (list (Z * Z) * message_type)) : option message_type :=
  match l with
  | [] => Some MSG_UNKNOWN
  | (w, m) :: l => hit ← keyword buf 0 w; if hit : bool then Some m else nats_first buf l
  end.

Section nats.
Context (E : env).

Definition infer_nats_message (buf : list Z) (count ptr infer_len : Z) : I message_type :=
  if count <? 5 then mret MSG_UNKNOWN else
  ok ← protocol_port_check_2 E PROTO_NATS;
  if negb ok then mret MSG_UNKNOWN else
  valid ← gets (fun s => is_infer_socket_valid (si s));
  other ← conflicts PROTO_NATS;
  if other : bool then mret MSG_UNKNOWN else
  no_crlf ← lift (if valid : bool then Some false else
                    let buffer := (e_read_user E (ptr + infer_len - 2) 2).2 in
                    buffer.[0] != 13 ||| buffer.[1] != 10);
  if no_crlf : bool then mret MSG_UNKNOWN else
  info ← lift (nats_check_info buf count);
  if info : bool then mret MSG_REQUEST else
  connect ← lift (nats_check_connect buf count);
  if connect : bool then mret MSG_RESPONSE else
  m ← lift (nats_first buf nats_keywords);
  if m <>! MSG_UNKNOWN then mret m else
  if count <? 6 then mret MSG_UNKNOWN else
  unsub ← lift (keyword buf 0 (kw_blank "UNSUB" "unsub"));
  if unsub : bool then mret MSG_REQUEST else mret MSG_UNKNOWN.
End nats.

(** ** Kafka *)

Definition RequestAPIKeyMax : Z := 67.
Definition RequestAPIVerMax : Z := 13.

(** The [switch] on the API key: the highest version it takes, [None] for the
    default case. *)
Definition kafka_version_max (request_api_key : Z) : option Z :=
  if request_api_key =? 0 then Some 9        (* ProduceRequest *)
  else if request_api_key =? 1 then Some 13  (* FetchRequest *)
  else if request_api_key =? 2 then Some 7   (* ListOffsetsRequest *)
  else if request_api_key =? 3 then Some 12  (* MetadataRequest *)
  else if request_api_key =? 12 then Some 4  (* HeartbeatRequest *)
  else None.

(** [infer_kafka_request] on [buf + off]. *)
Definition infer_kafka_request (buf : list Z) (off : Z) (is_first : bool) : I message_type :=
  k ← lift (be16 buf off);
  v ← lift (be16 buf (off + 2));
  let request_api_key := s16 k in
  let request_api_version := s16 v in
  if (request_api_key <? 0) || (RequestAPIKeyMax <? request_api_key) then mret MSG_UNKNOWN else
  if (request_api_version <? 0) || (RequestAPIVerMax <? request_api_version)
  then mret MSG_UNKNOWN else
  let rejected := match kafka_version_max request_api_key with
                  | Some max => max <? request_api_version
                  | None => is_first
                  end in
  if rejected then mret MSG_UNKNOWN else
  c ← lift (be32 buf (off + 4));
  let correlation_id := s32 c in
  if correlation_id <? 0 then mret MSG_UNKNOWN else
  _ ← cset c_union (u32 correlation_id);
  mret MSG_REQUEST.

(** The verdict and [*use_prev_buf]. *)
Definition kafka_data_check_len (count : Z) (buf prev_buf : list Z) (prev_count : Z)
    : option (bool * bool) :=
  use_prev_buf ← (Some (prev_count =? 4) &&& cmp Z.eqb (be32 prev_buf 0) count);
  let count := if use_prev_buf : bool then u64 (count + 4) else count in
  if count <? 12 then Some (false, use_prev_buf) else
  message_size ← (if use_prev_buf then Some (s32 count)
                  else x ← be32 buf 0; Some (s32 (u32 (x + 4))));
  if (message_size <? 0) || negb (count =? u64 message_size)
  then Some (false, use_prev_buf) else Some (true, use_prev_buf).

Section kafka.
Context (E : env).

(** The request test at the end of [infer_kafka_message]. *)
Definition kafka_first_request (buf : list Z) (use_prev_buf is_first : bool) : I message_type :=
  msg_type ← infer_kafka_request buf (if use_prev_buf then 0 else 4) is_first;
  if msg_type =! MSG_REQUEST then _ ← cset c_need_reconfirm false; mret MSG_REQUEST
  else mret MSG_UNKNOWN.

Definition infer_kafka_message (buf : list Z) (count : Z) : I message_type :=
  ok ← protocol_port_check_1 E PROTO_KAFKA;
  if negb ok then mret MSG_UNKNOWN else
  if count =? 4 then _ ← save_prev_data_from_kern buf 4; mret MSG_PRESTORE else
  pb ← cget c_prev_buf; pc ← cget c_prev_count;
  r ← lift (kafka_data_check_len count buf pb pc);
  let '(ok, use_prev_buf) := r in
  if negb ok then mret MSG_UNKNOWN else
  other ← conflicts PROTO_KAFKA;
  if other : bool then mret MSG_UNKNOWN else
  known ← gets (fun s => if is_infer_socket_valid (si s) then s_need_reconfirm <$> si s else None);
  match known with
  | Some need =>
      _ ← cset c_need_reconfirm need;
      if negb need then
        role ← cget c_role; d ← cget c_direction;
        if ((role =! ROLE_CLIENT) && (d =! T_EGRESS)) || ((role =! ROLE_SERVER) && (d =! T_INGRESS))
        then mret MSG_REQUEST else mret MSG_RESPONSE
      else kafka_first_request buf use_prev_buf false
  | None =>
      _ ← cset c_need_reconfirm true;
      kafka_first_request buf use_prev_buf true
  end.
End kafka.

(** ** RocketMQ *)

Definition ROCKETMQ_SERIALIZE_TYPE_JSON : Z := 0.
Definition ROCKETMQ_SERIALIZE_TYPE_ROCKETMQ : Z := 1.

(** The case [ROCKETMQ_SERIALIZE_TYPE_JSON]. *)
Definition rocketmq_json (buf : list Z) (count header_length : Z) : option message_type :=
  if header_length <? 89 then Some MSG_UNKNOWN else
  bad ← buf.[8] != ch "{" ||| buf.[9] != 34 ||| buf.[14] != 34 ||| buf.[15] != ch ":";
  if bad : bool then Some MSG_UNKNOWN else
  resp ← cmp Z.geb (rdc buf 16) (ch "0") &&& cmp Z.leb (rdc buf 16) (ch "4") &&& buf.[17] == ch ",";
  if resp : bool then Some MSG_RESPONSE else
  flag ← (if 30 <=? count then
            (buf.[25] == ch ":" &&& buf.[26] == ch "1") ||| (buf.[26] == ch ":" &&& buf.[27] == ch "1") |||
            (buf.[27] == ch ":" &&& buf.[28] == ch "1") ||| (buf.[28] == ch ":" &&& buf.[29] == ch "1")
          else Some false);
  Some (if flag : bool then MSG_RESPONSE else MSG_REQUEST).

(** The case [ROCKETMQ_SERIALIZE_TYPE_ROCKETMQ]. *)
Definition rocketmq_binary (buf : list Z) (header_length : Z) : option message_type :=
  if header_length <? 13 then Some MSG_UNKNOWN else
  f ← be32 buf 17;
  let flag := s32 f in
  Some (if (flag =? 0) || (flag =? 2) then MSG_REQUEST
        else if flag =? 1 then MSG_RESPONSE else MSG_UNKNOWN).

Section rocketmq.
Context (E : env).

Definition infer_rocketmq_message (buf : list Z) (count : Z) : I message_type :=
  if count <? 21 then mret MSG_UNKNOWN else
  ok ← protocol_port_check_2 E PROTO_ROCKETMQ;
  if negb ok then mret MSG_UNKNOWN else
  other ← conflicts PROTO_ROCKETMQ;
  if other : bool then mret MSG_UNKNOWN else
  l ← lift (be32 buf 0);
  let length := s32 l in
  if (length <? 4) || (65535 <? length) then mret MSG_UNKNOWN else
  h ← lift (be32 buf 4);
  let origin_header_length := s32 h in
  let header_length := Z.land origin_header_length 0xFFFFFF in
  if length - 4 <? header_length then mret MSG_UNKNOWN else
  let serialize_type := s8 (Z.land (Z.shiftr origin_header_length 24) 0xFF) in
  if serialize_type =? ROCKETMQ_SERIALIZE_TYPE_JSON then
    lift (rocketmq_json buf count header_length)
  else if serialize_type =? ROCKETMQ_SERIALIZE_TYPE_ROCKETMQ then
    lift (rocketmq_binary buf header_length)
  else mret MSG_UNKNOWN.

(** ** WebSphere MQ *)

Definition infer_web_sphere_mq_message (buf : list Z) (count : Z) : I message_type :=
  if count <? 36 then mret MSG_UNKNOWN else
  ok ← protocol_port_check_2 E PROTO_WEBSPHEREMQ;
  if negb ok then mret MSG_UNKNOWN else
  other ← conflicts PROTO_WEBSPHEREMQ;
  if other : bool then mret MSG_UNKNOWN else
  bad ← lift (buf.[0] != ch "T" ||| buf.[1] != ch "S" ||| buf.[2] != ch "H" ||| buf.[3] != ch "M");
  if bad : bool then mret MSG_UNKNOWN else
  segm ← lift (rd8 buf 17);
  if Z.land segm 0x90 =? 0x90 then mret MSG_RESPONSE else mret MSG_REQUEST.
End rocketmq.

(** ** The contract *)

(** At most five bytes of the length are read. *)
Lemma mqtt_length_def buf n : forall l k m,
  length buf = 64%nat -> 0 <= k <= 4 -> is_Some (mqtt_length_loop buf n l k m).
Proof.
  induction n as [| n IH]; intros l k m Hl Hk; cbn [mqtt_length_loop]; [def |].
  apply def_bind; [def |]. intros d _. destruct (Z.ltb_spec 4 (k + 1)); [def |].
  destruct (_ =? 0); [def |]. apply IH; lia.
Qed.

Lemma keyword_def b w : forall i,
  0 <= i -> i + Z.of_nat (length w) <= Z.of_nat (length b) -> is_Some (keyword b i w).
Proof.
  induction w as [| [x y] w IH]; intros i Hi Hl; simpl in *; [def |].
  apply def_and; [def |]. apply IH; lia.
Qed.

Lemma nats_brace_def buf n : forall p,
  0 <= p -> p + Z.of_nat n <= Z.of_nat (length buf) -> is_Some (nats_brace buf p n).
Proof.
  induction n as [| n IH]; intros p Hp Hl; cbn [nats_brace]; [def |].
  apply def_bind; [def |]. intros x _. destruct (x =? _); [def |].
  destruct (_ && _); [def |]. apply IH; lia.
Qed.

Lemma nats_first_def buf l :
  Forall (fun '(w, _) => (length w <= length buf)%nat) l -> is_Some (nats_first buf l).
Proof.
  induction 1 as [| [w m] l Hw Hl IH]; simpl; [def |].
  apply def_bind; [apply keyword_def; lia |]. intros [] _; [def | done].
Qed.

Section defs.
Context (buf : list Z) (Hlen : length buf = 64%nat).

Lemma mqtt_decoding_length_def : is_Some (mqtt_decoding_length buf).
Proof. apply mqtt_length_def; [done | lia]. Qed.
Lemma mqtt_decoding_type_def : is_Some (mqtt_decoding_message_type buf).
Proof. unfold mqtt_decoding_message_type. def. Qed.
Lemma amqp_header_def : is_Some (match_at buf 0 amqp_header).
Proof. apply def_match_at; simpl; lia. Qed.
Lemma decode_openwire_def count a b c : is_Some (decode_openwire buf count a b c).
Proof.
  unfold decode_openwire, openwire_strict, openwire_stream_size.
  destruct a; cbn [negb andb]; def.
Qed.
Lemma nats_info_def count : is_Some (nats_check_info buf count).
Proof.
  unfold nats_check_info. destruct (_ <? _); [def |].
  apply def_and; [apply keyword_def; simpl; lia | apply nats_brace_def; lia].
Qed.
Lemma nats_connect_def count : is_Some (nats_check_connect buf count).
Proof.
  unfold nats_check_connect. destruct (_ <? _); [def |].
  apply def_and; [apply keyword_def; simpl; lia | apply nats_brace_def; lia].
Qed.
Lemma nats_keywords_def : is_Some (nats_first buf nats_keywords).
Proof. apply nats_first_def. repeat constructor; simpl; lia. Qed.
Lemma nats_unsub_def : is_Some (keyword buf 0 (kw_blank "UNSUB" "unsub")).
Proof. apply keyword_def; simpl; lia. Qed.
Lemma kafka_len_def count pb pc :
  length pb = EBPF_CACHE_SIZE -> is_Some (kafka_data_check_len count buf pb pc).
Proof. intros. unfold kafka_data_check_len. def. Qed.
Lemma rocketmq_json_def count h : is_Some (rocketmq_json buf count h).
Proof. unfold rocketmq_json. def. Qed.
Lemma rocketmq_binary_def h : is_Some (rocketmq_binary buf h).
Proof. unfold rocketmq_binary. def. Qed.
End defs.
#[export] Hint Resolve mqtt_decoding_length_def mqtt_decoding_type_def amqp_header_def
  decode_openwire_def nats_info_def nats_connect_def nats_keywords_def nats_unsub_def
  kafka_len_def rocketmq_json_def rocketmq_binary_def : reads.

#[export] Instance infer_mqtt_inferer E buf count :
  buf_ok buf -> Inferer E PROTO_MQTT (infer_mqtt_message E buf count).
Proof.
  intros [Hlen Hb] s HE Hs. unfold infer_mqtt_message. wp_go; leaf.
Qed.

#[export] Instance infer_amqp_inferer E buf count :
  buf_ok buf -> Inferer E PROTO_AMQP (infer_amqp_message E buf count).
Proof.
  intros [Hlen Hb] s HE Hs. unfold infer_amqp_message. wp_go; leaf.
Qed.

#[export] Instance infer_openwire_inferer E buf count :
  buf_ok buf -> Inferer E PROTO_OPENWIRE (infer_openwire_message E buf count).
Proof.
  intros [Hlen Hb] s HE Hs. unfold infer_openwire_message, set_encoding_type. wp_go; leaf.
Qed.

#[export] Instance infer_nats_inferer E buf count ptr infer_len :
  buf_ok buf -> Inferer E PROTO_NATS (infer_nats_message E buf count ptr infer_len).
Proof.
  intros [Hlen Hb] s HE Hs. unfold infer_nats_message. wp_go; leaf.
Qed.

#[export] Instance infer_kafka_inferer E buf count :
  buf_ok buf -> Inferer E PROTO_KAFKA (infer_kafka_message E buf count).
Proof.
  intros [Hlen Hb] s HE Hs. unfold infer_kafka_message, kafka_first_request, infer_kafka_request.
  pose proof (prev_buf_len s Hs).
  wp_go; try leaf; prestore.
Qed.

#[export] Instance infer_rocketmq_inferer E buf count :
  buf_ok buf -> Inferer E PROTO_ROCKETMQ (infer_rocketmq_message E buf count).
Proof.
  intros [Hlen Hb] s HE Hs. unfold infer_rocketmq_message. wp_go; leaf.
Qed.

#[export] Instance infer_web_sphere_mq_inferer E buf count :
  buf_ok buf -> Inferer E PROTO_WEBSPHEREMQ (infer_web_sphere_mq_message E buf count).
Proof.
  intros [Hlen Hb] s HE Hs. unfold infer_web_sphere_mq_message. wp_go; leaf.
Qed.

(** ** MQTT lengths *)

(** The variable length encoding of the MQTT specification (section 2.2.3). *)
Fixpoint mqtt_encode (fuel : nat) (x : Z) : list Z :=
  match fuel with
  | O => []
  | S fuel => if x / 128 =? 0 then [x mod 128] else (x mod 128 + 128) :: mqtt_encode fuel (x / 128)
  end.

(** The loop on an encoded number, [k] bytes of which have been read. *)
Lemma mqtt_loop_encode f : forall n pre x rest acc,
  (f <= n)%nat -> 0 <= x < 128 ^ Z.of_nat f -> (0 < f)%nat -> (length pre + f <= 5)%nat -> pre <> [] ->
  0 <= acc < 128 ^ Z.of_nat (length pre - 1) ->
  let k := Z.of_nat (length pre - 1) in
  mqtt_length_loop (pre ++ mqtt_encode f x ++ rest) n acc k (128 ^ k) =
  Some (true, acc + x * 128 ^ k, k + Z.of_nat (length (mqtt_encode f x))).
Proof.
  induction f as [| f IH]; intros n pre x rest acc Hn Hx Hf Hpre Hne Hacc k; [lia |].
  destruct n as [| n]; [lia |]. cbn [mqtt_length_loop mqtt_encode].
  assert (0 < length pre)%nat by (destruct pre; [done | simpl; lia]).
  assert (0 <= x mod 128 < 128) as Hm by (apply Z.mod_pos_bound; lia).
  destruct (digit_bits _ Hm) as (D1 & D2 & D3 & D4).
  pose proof (Z.div_mod x 128 ltac:(lia)) as Hdm.
  assert (forall y l, rd8 (pre ++ (y :: l) ++ rest) (1 + k) = Some y) as Hrd.
  { intros y l. unfold rd8. destruct (Z.ltb_spec (1 + k) 0); [lia |].
    replace (Z.to_nat (1 + k)) with (length pre) by lia. simpl. by rewrite list_lookup_middle. }
  assert (0 < 128 ^ k) as HP by (apply Z.pow_pos_nonneg; lia).
  assert (128 ^ k <= 128 ^ 3) as HP3 by (apply Z.pow_le_mono_r; lia).
  fold k in Hacc.
  destruct (Z.eqb_spec (x / 128) 0) as [H0 | H0]; rewrite Hrd; cbn [mbind option_bind].
  - rewrite D1, D2. simpl Z.eqb. rewrite swrap_small by nia.
    destruct (Z.ltb_spec 4 (k + 1)); [lia |]. simpl. do 3 f_equal. nia.
  - rewrite D3, D4. simpl Z.eqb. rewrite swrap_small by nia. rewrite swrap_small by nia.
    destruct (Z.ltb_spec 4 (k + 1)); [lia |]. cbv iota.
    rewrite Nat2Z.inj_succ, Z.pow_succ_r in Hx by lia.
    assert (0 < f)%nat by (destruct f; [simpl in Hx; lia | lia]).
    specialize (IH n (pre ++ [x mod 128 + 128]) (x / 128) rest (acc + x mod 128 * 128 ^ k)).
    rewrite length_app in IH. simpl length in IH.
    replace (length pre + 1 - 1)%nat with (S (length pre - 1))%nat in IH by lia.
    rewrite Nat2Z.inj_succ in IH. fold k in IH. unfold Z.succ in IH.
    assert (128 ^ (k + 1) = 128 ^ k * 128) as Hp1 by (rewrite Z.pow_add_r by lia; lia).
    rewrite <- app_assoc in IH. simpl in IH. simpl app.
    rewrite <- Hp1, IH; [| lia | | lia | lia | by destruct pre | nia].
    + simpl length. do 2 f_equal; [f_equal; nia | lia].
    + split; [apply Z.div_pos; lia | apply Z.div_lt_upper_bound; lia].
Qed.

(** MQTT lengths round-trip: a remaining length below 2^28 (the largest the
    protocol has), encoded as the specification says after the first byte of a
    packet, is decoded to itself, with the number of bytes it takes. *)
Theorem mqtt_length_roundtrip first x rest :
  0 <= x < 128 ^ 4 ->
  mqtt_decoding_length (first :: mqtt_encode 4 x ++ rest) =
  Some (true, x, Z.of_nat (length (mqtt_encode 4 x))).
Proof.
  intros Hx. unfold mqtt_decoding_length.
  etransitivity; [apply (mqtt_loop_encode 4 32 [first] x rest 0); done || lia || (simpl length; lia) |].
  do 2 f_equal. cbn [length Nat.sub Z.of_nat]. f_equal. lia.
Qed.

Lemma mqtt_length_roundtrip_witness :
  mqtt_decoding_length (0x30 :: mqtt_encode 4 321 ++ [1; 2; 3]) =
  Some (true, 321, Z.of_nat (length (mqtt_encode 4 321))).
Proof. apply mqtt_length_roundtrip. lia. Defined.

(** ** Kafka messages read in two pieces *)

Lemma rd8_shift h b i : 0 <= i -> rd8 (h ++ b) (Z.of_nat (length h) + i) = rd8 b i.
Proof.
  intros Hi. unfold rd8. destruct (Z.ltb_spec (Z.of_nat (length h) + i) 0), (Z.ltb_spec i 0); try lia.
  rewrite lookup_app_r by lia. f_equal. lia.
Qed.
Lemma rd8_take n b i : 0 <= i < Z.of_nat n -> rd8 (take n b) i = rd8 b i.
Proof.
  intros Hi. unfold rd8. destruct (Z.ltb_spec i 0); [lia |]. apply lookup_take_lt. lia.
Qed.
Lemma rd8_prefix h b i : 0 <= i < Z.of_nat (length h) -> rd8 (h ++ b) i = rd8 h i.
Proof.
  intros Hi. unfold rd8. destruct (Z.ltb_spec i 0); [lia |]. apply lookup_app_l. lia.
Qed.

Section split.
Context (E : env) (HE : env_ok E) (h buf : list Z) (L : Z) (s : st) (Hs : st_ok s).
Context (Hh : length h = 4%nat) (Hbuf : length buf = 64%nat).
Context (HL : be32 h 0 = Some L) (Hrange : 8 <= L < 2 ^ 31 - 4).

Lemma be32_prefix b : be32 (h ++ b) 0 = be32 h 0.
Proof. unfold be32, rd32, rd16. by rewrite !rd8_prefix by lia. Qed.
Lemma be16_window i : 0 <= i <= 8 -> be16 (h ++ take 60 buf) (4 + i) = be16 buf i.
Proof.
  intros Hi. unfold be16, rd16. change 4 with (Z.of_nat 4). rewrite <- Hh.
  by rewrite <- Z.add_assoc, !rd8_shift, !rd8_take by lia.
Qed.
Lemma be32_window i : 0 <= i <= 8 -> be32 (h ++ take 60 buf) (4 + i) = be32 buf i.
Proof.
  intros Hi. unfold be32, rd32, rd16. change 4 with (Z.of_nat 4). rewrite <- Hh.
  by rewrite <- !Z.add_assoc, !rd8_shift, !rd8_take by lia.
Qed.

(** The header read before is checked as if it were in front of the data. *)
Lemma check_len_merged : kafka_data_check_len L buf (h ++ replicate 12 0) 4 = Some (true, true).
Proof.
  unfold kafka_data_check_len. rewrite be32_prefix, HL. simpl. rewrite Z.eqb_refl.
  rewrite (wrap_small 64 (L + 4)), swrap_small by lia.
  destruct (Z.ltb_spec (L + 4) 12); [lia |]. simpl.
  destruct (Z.ltb_spec (L + 4) 0); [lia |]. simpl. rewrite wrap_small by lia. by rewrite Z.eqb_refl.
Qed.
Lemma check_len_whole pb : kafka_data_check_len (L + 4) (h ++ take 60 buf) pb 0 = Some (true, false).
Proof.
  unfold kafka_data_check_len. simpl. rewrite be32_prefix, HL. simpl.
  destruct (Z.ltb_spec (L + 4) 12); [lia |].
  rewrite (wrap_small 32 (L + 4)), swrap_small by lia.
  destruct (Z.ltb_spec (L + 4) 0); [lia |]. simpl. rewrite wrap_small by lia. by rewrite Z.eqb_refl.
Qed.
End split.

(** The connection with a header of 4 bytes fetched from the last read. *)
Definition with_prev (h : list Z) (s : st) : st :=
  s <| ci := (ci s) <| c_prev_buf := h ++ replicate 12 0 |> <| c_prev_count := 4 |> |>.
(** What a Kafka inference changes in a connection. *)
Definition kafka_set (r : bool) (u : Z) (s : st) : st :=
  s <| ci := (ci s) <| c_need_reconfirm := r |> <| c_union := u |> |>.

Lemma kafka_request_window h buf f :
  length h = 4%nat -> length buf = 64%nat ->
  infer_kafka_request (h ++ take 60 buf) 4 f = infer_kafka_request buf 0 f.
Proof.
  intros Hh Hb. unfold infer_kafka_request.
  replace (be16 (h ++ take 60 buf) 4) with (be16 buf 0) by (by rewrite <- be16_window with (h := h) (i := 0)).
  rewrite be16_window, be32_window by (done || lia). done.
Qed.

(** The request test does not depend on the rest of the state. *)
Lemma kafka_first_run buf up f :
  length buf = 64%nat -> exists m (d : option Z), forall s,
    kafka_first_request buf up f s =
    Some (m, match d with None => s | Some u => kafka_set false u s end).
Proof.
  intros Hb. unfold kafka_first_request, infer_kafka_request.
  assert (forall o, 0 <= o <= 12 -> is_Some (be16 buf o) /\ is_Some (be32 buf o)) as H.
  { intros o Ho. split; [apply def_be16 | apply def_be32]; lia. }
  set (o := if up then 0 else 4). assert (0 <= o <= 4) as Ho by (by destruct up).
  destruct (H o) as [[k Hk] _]; [lia |]. destruct (H (o + 2)) as [[v Hv] _]; [lia |].
  destruct (H (o + 4)) as [_ [c Hc]]; [lia |].
  unfold mbind, M_bind, lift, cset, modify, mret, M_ret. rewrite Hk, Hv, Hc. simpl.
  destruct (_ || _); [by exists MSG_UNKNOWN, None |].
  destruct (_ || _); [by exists MSG_UNKNOWN, None |].
  destruct (match kafka_version_max _ with Some _ => _ | None => _ end); [by exists MSG_UNKNOWN, None |].
  destruct (_ <? 0); [by exists MSG_UNKNOWN, None |].
  by exists MSG_REQUEST, (Some (u32 (s32 c))).
Qed.

(** C33: A Kafka message read in two pieces is recognised like one read at once:
    when the 4 bytes of its length have been read before, the inference of the
    rest gives the same message type and sets the same correlation id and
    reconfirmation flag as the inference of the whole message. *)
Theorem kafka_split_read E h buf L s :
  env_ok E -> st_ok s -> length h = 4%nat -> bytes_ok h -> length buf = 64%nat ->
  be32 h 0 = Some L -> 8 <= L < 2 ^ 31 - 4 -> c_prev_count (ci s) = 0 ->
  exists m r u,
    infer_kafka_message E buf L (with_prev h s) = Some (m, kafka_set r u (with_prev h s)) /\
    infer_kafka_message E (h ++ take 60 buf) (L + 4) s = Some (m, kafka_set r u s).
Proof.
  intros HE Hs Hh Hhb Hbuf HL Hrange Hpc. unfold infer_kafka_message, protocol_port_check_1.
  assert (st_ok (with_prev h s)) as Hs1.
  { destruct Hs. constructor; simpl; try done; [rewrite length_app, Hh; done |].
    apply Forall_app. split; [done | by apply bytes_okb]. }
  unfold mbind, M_bind. rewrite !port_check_eq by done.
  change (port_allowed E PROTO_KAFKA (ci (with_prev h s))) with (port_allowed E PROTO_KAFKA (ci s)).
  destruct (Z.eqb_spec L 4), (Z.eqb_spec (L + 4) 4); [lia.. |].
  destruct (port_allowed E PROTO_KAFKA (ci s)); cbn [negb].
  2: { exists MSG_UNKNOWN, (c_need_reconfirm (ci s)), (c_union (ci s)). by destruct s as [[] ? ?]. }
  unfold cget, gets, lift, conflicts, gets. simpl. rewrite Hpc.
  erewrite check_len_merged, check_len_whole by eassumption. simpl.
  destruct (_ && _).
  { exists MSG_UNKNOWN, (c_need_reconfirm (ci s)), (c_union (ci s)). by destruct s as [[] ? ?]. }
  unfold kafka_first_request. simpl. rewrite !kafka_request_window by done.
  fold (kafka_first_request buf true true). fold (kafka_first_request buf true false). simpl.
  destruct (if is_infer_socket_valid (si s) then _ else _) as [[] |]; simpl.
  - destruct (kafka_first_run buf true false Hbuf) as (m & d & Hd). rewrite !Hd.
    exists m. destruct d as [u |]; [by exists false, u | by exists true, (c_union (ci s))].
  - destruct (_ || _); eexists _, false, (c_union (ci s)); split; reflexivity.
  - destruct (kafka_first_run buf true true Hbuf) as (m & d & Hd). rewrite !Hd.
    exists m. destruct d as [u |]; [by exists false, u | by exists true, (c_union (ci s))].
Qed.

Lemma kafka_split_read_witness :
  exists m r u,
    infer_kafka_message (example_env [] []) (replicate 64 0) 20 (with_prev [0; 0; 0; 20] (example_st T_EGRESS)) =
      Some (m, kafka_set r u (with_prev [0; 0; 0; 20] (example_st T_EGRESS))) /\
    infer_kafka_message (example_env [] []) ([0; 0; 0; 20] ++ take 60 (replicate 64 0)) (20 + 4) (example_st T_EGRESS) =
      Some (m, kafka_set r u (example_st T_EGRESS)).
Proof.
  apply kafka_split_read; try (reflexivity || lia).
  - by apply example_env_ok.
  - apply example_st_ok.
  - by apply bytes_okb.
Defined.
