(* ===== verification/InferPulsarZmtp.v ===== *)
(** * Pulsar and ZMTP

    The two message-queue protocols whose frames are parsed in user memory:
    [pulsar_check_basecommand] and [infer_pulsar_message];
    [check_zmtp_mechanism], [check_zmtp_greeting], [check_zmtp_segment] and
    [infer_zmtp_message] of kernel/include/protocol_inference.h. *)

From S2P Require Import Prelude Bitmap Conn InferBase.

(** ** Pulsar *)

Definition WIRE_TYPE_VARINT : Z := 0.
Definition WIRE_TYPE_LEN : Z := 2.
Definition MIN_TAG : Z := 2.
Definition MAX_TAG : Z := 68.

Section pulsar.
Context (E : env).

(** [bpf_probe_read_user(&tmp, 1, buf)]: the byte left in [tmp]. *)
Definition user_byte (a : Z) : Z := default 0 ((e_read_user E a 1).2 !! 0%nat).

(** [if (buf == target) return false], then the byte at [buf] and [buf + 1]. *)
Definition next_byte (buf target : Z) : option (Z * Z) :=
  if buf =? target then None else Some (user_byte buf, buf + 1).

(** The second byte of a varint, when the first has its continuation bit:
    [acc |= tmp << sh]; a third byte is refused. *)
Definition varint_more (tmp acc sh buf target : Z) : option (Z * Z) :=
  if negb (Z.land tmp 0x80 =? 0) then
    '(tmp, buf) ← next_byte buf target;
    if negb (Z.land tmp 0x80 =? 0) then None else Some (Z.lor acc (Z.shiftl tmp sh), buf)
  else Some (acc, buf).

(** One iteration of the loop of [pulsar_check_basecommand] on
    [(buf, type_v, command_tag)]; [None] is [return false]. *)
Definition pulsar_field (target : Z) (st : Z * Z * Z) : option (Z * Z * Z) :=
  let '(buf, type_v, command_tag) := st in
  '(tmp, buf) ← next_byte buf target;
  let tag := Z.shiftr tmp 3 in
  let wire_type := Z.land tmp 0x07 in
  if tag =? 1 then
    if negb (wire_type =? WIRE_TYPE_VARINT) then None else
    '(tmp, buf) ← next_byte buf target;
    '(type_v, buf) ← varint_more tmp tmp 7 buf target;
    Some (buf, type_v, command_tag)
  else
    '(tag, buf) ← varint_more tmp tag 4 buf target;
    if (tag <? MIN_TAG) || (MAX_TAG <? tag) then None else
    if negb (wire_type =? WIRE_TYPE_LEN) then None else
    '(tmp, buf) ← next_byte buf target;
    '(len, buf) ← varint_more tmp (Z.land tmp 0x7f) 7 buf target;
    Some (buf + len, type_v, tag).

(** [count] is the sign-extended [short] of the caller; the pointers of the
    function stay within 2^17 of each other, so that they compare as integers. *)
Definition pulsar_check_basecommand (buf count : Z) : bool :=
  let target := buf + count in
  if count =? 0 then false else
  match pulsar_field target (buf, -1, -1) ≫= pulsar_field target with
  | None => false
  | Some (buf, type_v, command_tag) =>
      if (type_v =? -1) || (command_tag =? -1) then false
      else if negb (buf =? target) then false
      else type_v =? command_tag
  end.

(** [bpf_probe_read_user(buffer, 4, a)] read back as a big-endian [short]. *)
Definition user_size (a : Z) : option Z := x ← be32 (e_read_user E a 4).2 0; Some (s16 x).
(** [bpf_probe_read_user(buffer, 2, a)]: is it [0x0e, x]? *)
Definition user_magic (a x : Z) : option bool :=
  let buffer := (e_read_user E a 2).2 in buffer.[0] == 0x0e &&& buffer.[1] == x.

(** From the metadata magic on: [offset] follows the two bytes that were read. *)
Definition pulsar_metadata (ptr offset total_size limit : Z) (magic : bool) : option message_type :=
  if negb magic then Some MSG_UNKNOWN else
  let offset := s16 (offset + 4) in
  if limit <? offset + 4 then Some MSG_UNKNOWN else
  metadata_size ← user_size (ptr + offset);
  let offset := s16 (offset + 4) in
  if total_size + 4 <? offset + metadata_size then Some MSG_UNKNOWN else Some MSG_REQUEST.

(** What follows the base command. *)
Definition pulsar_payload (ptr offset total_size limit : Z) : option message_type :=
  if offset =? total_size + 4 then Some MSG_REQUEST else
  if limit <? offset + 2 then Some MSG_UNKNOWN else
  broker ← user_magic (ptr + offset) 0x02;
  if broker : bool then
    let offset := s16 (offset + 2) in
    if limit <? offset + 4 then Some MSG_UNKNOWN else
    broker_entry_size ← user_size (ptr + offset);
    let offset := s16 (offset + 4) in
    if limit <? offset + broker_entry_size then Some MSG_UNKNOWN else
    let offset := s16 (offset + broker_entry_size) in
    if limit <? offset + 2 then Some MSG_UNKNOWN else
    magic ← user_magic (ptr + offset) 0x01;
    pulsar_metadata ptr (s16 (offset + 2)) total_size limit magic
  else
    magic ← user_magic (ptr + offset) 0x01;
    pulsar_metadata ptr (s16 (offset + 2)) total_size limit magic.

Definition infer_pulsar_message (ptr infer_len count : Z) : I message_type :=
  if infer_len <? 8 then mret MSG_UNKNOWN else
  ok ← protocol_port_check_2 E PROTO_PULSAR;
  if negb ok then mret MSG_UNKNOWN else
  other ← conflicts PROTO_PULSAR;
  if other : bool then mret MSG_UNKNOWN else
  total_size ← lift (user_size ptr);
  command_size ← lift (user_size (ptr + 4));
  if total_size <? command_size + 4 then mret MSG_UNKNOWN else
  valid ← gets (fun s => is_infer_socket_valid (si s));
  if valid : bool then mret MSG_REQUEST else
  if count <? u32 (total_size + 4) then mret MSG_UNKNOWN else
  let limit := s16 (if u32 (total_size + 4) <? infer_len then u32 (total_size + 4) else infer_len) in
  if negb (pulsar_check_basecommand (ptr + 8) command_size) then mret MSG_UNKNOWN else
  lift (pulsar_payload ptr (s16 (8 + command_size)) total_size limit).
End pulsar.

(** ** ZMTP *)

(** [check_zmtp_mechanism(&buf[o])]. *)
Definition check_zmtp_mechanism (buf : list Z) (o : Z) : option bool :=
  match_at buf o (str "NULL") ||| match_at buf o (str "PLAIN") ||| match_at buf o (str "CURVE").

(** The second or third segment of a greeting. *)
Definition zmtp_late_segment (buf : list Z) (count : Z) (prev_buf : list Z) (prev_count : Z)
    : option bool :=
  if (count =? 54) || (count =? 53) then
    if negb (count =? 54) && negb (prev_count =? 1) then Some false else
    major_version ← (if count =? 54 then rd8 buf 0 else rd8 prev_buf 0);
    let offset := if count =? 54 then 1 else 0 in
    minor_version ← rd8 buf offset;
    _ ← (if (major_version =? 3) && (minor_version <=? 1)
         then check_zmtp_mechanism buf (offset + 1) else Some false);
    Some false
  else Some false.

Definition check_zmtp_greeting (buf : list Z) (count : Z) (prev_buf : list Z) (prev_count : Z)
    : option bool :=
  first ← Some (10 <=? count) &&& buf.[0] == 0xff &&& buf.[9] == 0x7f;
  if first : bool then
    if count =? 10 then Some true else
    ten ← rd8 buf 10;
    if (count =? 11) && (ten =? 3) then Some true else
    eleven ← rdc buf 11;
    if (12 <=? count) && (ten =? 3) && (eleven <=? 1) then check_zmtp_mechanism buf 12
    else zmtp_late_segment buf count prev_buf prev_count
  else zmtp_late_segment buf count prev_buf prev_count.

(** The length of a long frame from its two words: in [256, 0x7fffffff]. *)
Definition zmtp_long_size (hi lo : Z) : option Z :=
  if negb (hi =? 0) || (lo <? 256) || (0x7fffffff <? lo) then None else Some lo.

Section zmtp.
Context (E : env).

(** A command frame; [offset] is that of the command name's length. *)
Definition zmtp_command_name (buf : list Z) (offset frame_size count ptr : Z) : option bool :=
  if negb (u32 (offset + frame_size) =? count) then Some false else
  cmd_name_len ← rd8 buf offset;
  let offset := offset + 1 in
  if (count <? offset + cmd_name_len) || (cmd_name_len <? 5) then Some false else
  let '(ret, cmd_buf) := e_read_user E (ptr + offset) 5 in
  if negb (ret =? 0) then Some false else
  Some (forallb (fun x => (ch "A" <=? s8 x) && (s8 x <=? ch "Z")) cmd_buf).

Definition zmtp_command (buf : list Z) (count ptr : Z) (long_frame strict_check : bool)
    : option bool :=
  if long_frame then
    hi ← be32 buf 1; lo ← be32 buf 5;
    match zmtp_long_size hi lo with
    | None => Some false
    | Some frame_size =>
        if strict_check then zmtp_command_name buf 9 frame_size count ptr else Some true
    end
  else
    x ← rdc buf 1;
    if strict_check then zmtp_command_name buf 2 (u32 x) count ptr else Some true.

(** The loop over message frames in user memory. *)
Fixpoint zmtp_frames (ptr infer_len offset : Z) (n : nat) : option bool :=
  match n with
  | O => Some false
  | S n =>
      let '(ret, b) := e_read_user E (ptr + offset) 1 in
      if (infer_len <? u32 (offset + 1)) || negb (ret =? 0) then Some false else
      size_type ← rd8 b 0;
      let offset := u32 (offset + 1) in
      if negb (Z.land size_type 0xf8 =? 0) then Some false else
      if negb (Z.land size_type 0x04 =? 0) then Some false else
      size ← (if negb (Z.land size_type 0x02 =? 0) then
                let '(ret, digit) := e_read_user E (ptr + offset) 8 in
                if (infer_len <? u32 (offset + 8)) || negb (ret =? 0) then Some None else
                hi ← be32 digit 0; lo ← be32 digit 4;
                Some (frame_size ← zmtp_long_size hi lo; Some (frame_size, u32 (offset + 8)))
              else
                let '(ret, b) := e_read_user E (ptr + offset) 1 in
                if (infer_len <? u32 (offset + 1)) || negb (ret =? 0) then Some None else
                len ← rd8 b 0;
                Some (Some (len, u32 (offset + 1))));
      match size with
      | None => Some false
      | Some (frame_size, offset) =>
          let offset := u32 (offset + frame_size) in
          if Z.land size_type 0x01 =? 0 then Some (offset =? infer_len)
          else zmtp_frames ptr infer_len offset n
      end
  end.

Definition check_zmtp_segment (buf : list Z) (count ptr infer_len : Z) (strict_check : bool)
    : option bool :=
  if count <=? 4 then Some false else
  size_type ← rd8 buf 0;
  if negb (Z.land size_type 0xf8 =? 0) then Some false else
  let is_command := negb (Z.land size_type 0x04 =? 0) in
  let long_frame := negb (Z.land size_type 0x02 =? 0) in
  let more_frame := negb (Z.land size_type 0x01 =? 0) in
  if long_frame && (count <? 10) then Some false else
  if more_frame && (count <? 6) then Some false else
  if is_command then
    if more_frame then Some false else zmtp_command buf count ptr long_frame strict_check
  else if strict_check then zmtp_frames ptr infer_len 0 5
  else if long_frame then
    hi ← be32 buf 1; lo ← be32 buf 5;
    Some (match zmtp_long_size hi lo with Some _ => true | None => false end)
  else Some true.

Definition infer_zmtp_message (buf : list Z) (count syscall_infer_addr syscall_infer_len : Z)
    : I message_type :=
  ok ← protocol_port_check_2 E PROTO_ZMTP;
  if negb ok then mret MSG_UNKNOWN else
  if count =? 1 then
    major_version ← lift (rd8 buf 0);
    if negb (major_version =? 3) then mret MSG_UNKNOWN else
    _ ← save_prev_data_from_kern buf 1; mret MSG_PRESTORE
  else
  valid ← gets (fun s => is_infer_socket_valid (si s));
  other ← conflicts PROTO_ZMTP;
  if other : bool then mret MSG_UNKNOWN else
  pb ← cget c_prev_buf; pc ← cget c_prev_count;
  hit ← lift (check_zmtp_greeting buf count pb pc |||
              check_zmtp_segment buf count syscall_infer_addr syscall_infer_len (negb valid));
  if hit : bool then mret MSG_REQUEST else mret MSG_UNKNOWN.
End zmtp.

(** ** The contract *)

Lemma read_user_eq E a n r b :
  env_ok E -> e_read_user E a n = (r, b) -> length b = n.
Proof. intros HE H. pose proof (read_user_len E HE a n) as Hl. by rewrite H in Hl. Qed.

Section defs.
Context (E : env) (HE : env_ok E).

Lemma user_size_def a : is_Some (user_size E a).
Proof. unfold user_size. def. Qed.
Lemma user_magic_def a x : is_Some (user_magic E a x).
Proof. unfold user_magic. def. Qed.
#[local] Hint Resolve user_size_def user_magic_def : reads.
Lemma pulsar_payload_def ptr o t l : is_Some (pulsar_payload E ptr o t l).
Proof. unfold pulsar_payload, pulsar_metadata. def. Qed.

Context (buf : list Z) (Hlen : length buf = 64%nat).

Lemma check_zmtp_greeting_def count pb pc :
  length pb = EBPF_CACHE_SIZE -> is_Some (check_zmtp_greeting buf count pb pc).
Proof.
  intros. unfold check_zmtp_greeting, zmtp_late_segment, check_zmtp_mechanism. def.
Qed.

Lemma zmtp_command_def count ptr l st : is_Some (zmtp_command E buf count ptr l st).
Proof. unfold zmtp_command, zmtp_command_name. def. Qed.

Lemma zmtp_frames_def ptr il n : forall o, is_Some (zmtp_frames E ptr il o n).
Proof.
  induction n as [| n IH]; intros o; cbn [zmtp_frames]; [def |].
  destruct (e_read_user E (ptr + o) 1) as [r b] eqn:Hr.
  apply read_user_eq in Hr; [| done].
  destruct (_ || _); [def |]. apply def_bind; [def |]. intros ty _.
  destruct (negb _); [def |]. destruct (negb _); [def |].
  apply def_bind.
  - destruct (negb _).
    + destruct (e_read_user E _ 8) as [r' b'] eqn:Hr'. apply read_user_eq in Hr'; [| done]. def.
    + destruct (e_read_user E _ 1) as [r' b'] eqn:Hr'. apply read_user_eq in Hr'; [| done]. def.
  - intros [[? ?] |] _; [| def]. destruct (_ =? 0); [def | apply IH].
Qed.
#[local] Hint Resolve zmtp_command_def zmtp_frames_def : reads.

Lemma check_zmtp_segment_def count ptr il st : is_Some (check_zmtp_segment E buf count ptr il st).
Proof. unfold check_zmtp_segment. def. Qed.
End defs.
#[export] Hint Resolve user_size_def user_magic_def pulsar_payload_def check_zmtp_greeting_def
  check_zmtp_segment_def : reads.

#[export] Instance infer_pulsar_inferer E ptr infer_len count :
  Inferer E PROTO_PULSAR (infer_pulsar_message E ptr infer_len count).
Proof.
  intros s HE Hs. unfold infer_pulsar_message. wp_go; leaf.
Qed.

#[export] Instance infer_zmtp_inferer E buf count addr len :
  buf_ok buf -> Inferer E PROTO_ZMTP (infer_zmtp_message E buf count addr len).
Proof.
  intros [Hlen Hb] s HE Hs. pose proof (prev_buf_len s Hs).
  unfold infer_zmtp_message. wp_go; try leaf; prestore.
Qed.

(** ** Which Pulsar commands are recognised *)

(** A varint of at most 14 bits. *)
Definition varint (x : Z) : list Z := if x <? 128 then [x] else [x mod 128 + 128; x / 128].

(** A [BaseCommand] of type [t] with the [L] bytes of its command in field [t],
    up to those bytes. *)
Definition base_command (t L : Z) : list Z := [8; t] ++ varint (8 * t + 2) ++ varint L.

(** The tag the code reads for field [t]. *)
Definition tag_read (t : Z) : Z :=
  if t <? 16 then t else (t mod 16 + 16) + 16 * (if Z.even (t / 16) then t / 16 else t / 16 - 1).

Lemma varint_length x : (0 < length (varint x))%nat.
Proof. unfold varint. destruct (x <? 128); simpl; lia. Qed.

Section pulsar_spec.
Context (E : env).

Lemma next_at buf target x :
  buf <> target -> user_byte E buf = x -> next_byte E buf target = Some (x, buf + 1).
Proof. intros H1 <-. unfold next_byte. by destruct (Z.eqb_spec buf target). Qed.

(** Reading a varint whose first byte is handled as [acc] and the second
    shifted by [sh]. *)
Lemma varint_more_short tmp acc sh buf target :
  0 <= tmp < 128 -> varint_more E tmp acc sh buf target = Some (acc, buf).
Proof. intros Ht. unfold varint_more. by destruct (digit_bits tmp Ht) as (_ & -> & _). Qed.

Lemma varint_more_long d acc sh buf target e :
  0 <= d < 128 -> 0 <= e < 128 -> buf <> target -> user_byte E buf = e ->
  varint_more E (d + 128) acc sh buf target = Some (Z.lor acc (Z.shiftl e sh), buf + 1).
Proof.
  intros Hd He Hb Hu. unfold varint_more. destruct (digit_bits d Hd) as (_ & _ & _ & ->). simpl.
  rewrite (next_at _ _ _ Hb Hu). simpl. by destruct (digit_bits e He) as (_ & -> & _).
Qed.

(** The length field: [len] is the number that was encoded. *)
Lemma read_length L buf target :
  0 <= L < 16384 -> buf + Z.of_nat (length (varint L)) <= target ->
  (forall i x, varint L !! i = Some x -> user_byte E (buf + Z.of_nat i) = x) ->
  ('(tmp, buf) ← next_byte E buf target; varint_more E tmp (Z.land tmp 0x7f) 7 buf target) =
  Some (L, buf + Z.of_nat (length (varint L))).
Proof.
  unfold varint. intros HL Ht Hu.
  destruct (Z.ltb_spec L 128); pose proof (Hu O _ eq_refl) as H0; rewrite Z.add_0_r in H0;
    cbn [length] in *; rewrite (next_at buf target _ ltac:(lia) H0); cbn [mbind option_bind].
  - rewrite varint_more_short by lia. destruct (digit_bits L) as (-> & _); [lia |]. done.
  - pose proof (Z.mod_pos_bound L 128 ltac:(lia)) as Hm.
    pose proof (Z.div_mod L 128 ltac:(lia)). assert (0 <= L / 128 < 128) as Hd.
    { split; [apply Z.div_pos; lia | apply Z.div_lt_upper_bound; lia]. }
    rewrite (varint_more_long _ _ _ _ _ (L / 128)) by (done || lia || (by apply (Hu 1%nat))).
    destruct (digit_bits _ Hm) as (_ & _ & -> & _). rewrite lor_shiftl by lia.
    f_equal. f_equal; lia.
Qed.

Lemma read_length_tail buf target L e (ty tg : Z) :
  ('(tmp, buf) ← next_byte E buf target; varint_more E tmp (Z.land tmp 0x7f) 7 buf target) = Some (L, e) ->
  ('(tmp, buf) ← next_byte E buf target;
   '(len, buf) ← varint_more E tmp (Z.land tmp 0x7f) 7 buf target; Some (buf + len, ty, tg)) =
  Some (e + L, ty, tg).
Proof. destruct (next_byte E buf target) as [[tmp b] |]; simpl; [| done]. by intros ->. Qed.

(** The key of field [t]: its tag as the code reads it. *)
Lemma key_bits t : 2 <= t <= 68 ->
  let k := 8 * t + 2 in
  (k < 128 -> Z.shiftr k 3 = tag_read t /\ Z.land k 7 = 2 /\ t < 16) /\
  (128 <= k -> Z.land (k mod 128 + 128) 7 = 2 /\ Z.shiftr (k mod 128 + 128) 3 <> 1 /\
     Z.lor (Z.shiftr (k mod 128 + 128) 3) (Z.shiftl (k / 128) 4) = tag_read t).
Proof.
  intros Ht. assert (forallb (fun n => let t := Z.of_nat n in let k := 8 * t + 2 in
    if k <? 128 then (Z.shiftr k 3 =? tag_read t) && (Z.land k 7 =? 2) && (t <? 16)
    else (Z.land (k mod 128 + 128) 7 =? 2) && negb (Z.shiftr (k mod 128 + 128) 3 =? 1) &&
      (Z.lor (Z.shiftr (k mod 128 + 128) 3) (Z.shiftl (k / 128) 4) =? tag_read t)) (seq 2 67) = true)
    as H by (by vm_compute).
  rewrite forallb_forall in H. specialize (H (Z.to_nat t) ltac:(apply in_seq; lia)).
  cbv zeta in H |- *. rewrite Z2Nat.id in H by lia.
  destruct (Z.ltb_spec (8 * t + 2) 128); lia.
Qed.

Lemma tag_read_ok t : 2 <= t <= 68 ->
  ((tag_read t <? MIN_TAG) || (MAX_TAG <? tag_read t) = false -> (t =? tag_read t) =
     ((t <=? 31) || ((48 <=? t) && (t <=? 63)))) /\
  ((tag_read t <? MIN_TAG) || (MAX_TAG <? tag_read t) = true ->
     (t <=? 31) || ((48 <=? t) && (t <=? 63)) = false).
Proof.
  intros Ht. assert (forallb (fun n => let t := Z.of_nat n in
    if (tag_read t <? MIN_TAG) || (MAX_TAG <? tag_read t)
    then negb ((t <=? 31) || ((48 <=? t) && (t <=? 63)))
    else Bool.eqb (t =? tag_read t) ((t <=? 31) || ((48 <=? t) && (t <=? 63)))) (seq 2 67) = true)
    as H by (by vm_compute).
  rewrite forallb_forall in H. specialize (H (Z.to_nat t) ltac:(apply in_seq; lia)).
  cbv zeta in H. rewrite Z2Nat.id in H by lia.
  destruct (_ || _); split; try done; intros _; [by apply negb_true_iff | by apply eqb_prop].
Qed.

(** The type field: two bytes. *)
Lemma type_field a t target c :
  0 <= t < 128 -> a + 2 <= target -> user_byte E a = 8 -> user_byte E (a + 1) = t ->
  pulsar_field E target (a, -1, c) = Some (a + 2, t, c).
Proof.
  intros Ht Htar H0 H1. unfold pulsar_field.
  rewrite (next_at a target _ ltac:(lia) H0). cbn [mbind option_bind].
  change (Z.shiftr 8 3 =? 1) with true. change (Z.land 8 0x07 =? WIRE_TYPE_VARINT) with true. cbn [negb].
  rewrite (next_at (a + 1) target _ ltac:(lia) H1). cbn [mbind option_bind].
  rewrite varint_more_short by lia. cbn [mbind option_bind]. do 3 f_equal. lia.
Qed.

(** The command field, of which [L] bytes are skipped. *)
Lemma command_field a t L target ty :
  2 <= t <= 68 -> 0 <= L < 16384 ->
  let hdr := varint (8 * t + 2) ++ varint L in
  a + Z.of_nat (length hdr) <= target ->
  (forall i x, hdr !! i = Some x -> user_byte E (a + Z.of_nat i) = x) ->
  pulsar_field E target (a, ty, -1) =
  if (tag_read t <? MIN_TAG) || (MAX_TAG <? tag_read t) then None
  else Some (a + Z.of_nat (length hdr) + L, ty, tag_read t).
Proof.
  intros Ht HL hdr Htar Hu. unfold pulsar_field. destruct (key_bits t Ht) as [K1 K2]. cbv zeta in K1, K2.
  assert (forall i x, varint L !! i = Some x ->
    user_byte E (a + Z.of_nat (length (varint (8 * t + 2))) + Z.of_nat i) = x) as HuL.
  { intros i x Hx. rewrite <- Z.add_assoc, <- Nat2Z.inj_add. apply Hu. unfold hdr.
    by rewrite lookup_app_r, Nat.add_comm, Nat.add_sub by lia. }
  unfold hdr in *. rewrite length_app in Htar |- *.
  pose proof (read_length L (a + Z.of_nat (length (varint (8 * t + 2)))) target HL ltac:(lia) HuL) as HrL.
  assert (user_byte E a = if 8 * t + 2 <? 128 then 8 * t + 2 else (8 * t + 2) mod 128 + 128) as H0.
  { rewrite <- (Z.add_0_r a). apply (Hu O). unfold varint at 1. by destruct (_ <? 128). }
  assert (128 <= 8 * t + 2 -> user_byte E (a + 1) = (8 * t + 2) / 128) as H1.
  { intros H. apply (Hu 1%nat). unfold varint at 1. by destruct (Z.ltb_spec (8 * t + 2) 128); [lia |]. }
  clear Hu HuL. pose proof (varint_length L). pose proof (varint_length (8 * t + 2)).
  assert (length (varint (8 * t + 2)) = if 8 * t + 2 <? 128 then 1%nat else 2%nat) as Hn
    by (unfold varint; by destruct (_ <? 128)).
  rewrite (next_at a target _ ltac:(lia) H0). cbn [mbind option_bind].
  rewrite Nat2Z.inj_add, Z.add_assoc.
  destruct (Z.ltb_spec (8 * t + 2) 128) as [Hk | Hk]; rewrite Hn in *.
  - destruct (K1 Hk) as (HK & -> & Hlt). rewrite HK.
    assert (tag_read t = t) as Htr by (unfold tag_read; by destruct (Z.ltb_spec t 16); [| lia]).
    rewrite Htr. destruct (Z.eqb_spec t 1); [lia |].
    rewrite varint_more_short by lia. cbn [mbind option_bind].
    destruct (_ || _); [done |]. change (2 =? WIRE_TYPE_LEN) with true. cbn [negb].
    by apply read_length_tail.
  - destruct (K2 Hk) as (-> & HK1 & HK2). destruct (Z.eqb_spec (Z.shiftr ((8 * t + 2) mod 128 + 128) 3) 1); [done |].
    pose proof (Z.mod_pos_bound (8 * t + 2) 128 ltac:(lia)) as Hm.
    rewrite (varint_more_long _ _ _ _ _ ((8 * t + 2) / 128)); [| lia | | lia | by apply H1].
    2: { split; [apply Z.div_pos; lia | apply Z.div_lt_upper_bound; lia]. }
    cbn [mbind option_bind]. rewrite HK2.
    destruct (_ || _); [done |]. change (2 =? WIRE_TYPE_LEN) with true. cbn [negb].
    replace (a + 1 + 1) with (a + Z.of_nat 2) by lia. by apply read_length_tail.
Qed.
End pulsar_spec.

(** Which Pulsar commands are recognised: a base command of type [t] (2 to
    68) encoded as protobuf does, with its command of [L] bytes in field [t], is
    accepted exactly when [t] is at most 31 or between 48 and 63. The commands
    32 to 47 and 64 to 68 are refused, because the continuation bit of the field
    key is left in the tag. *)
Theorem pulsar_basecommand_iff E a t L :
  2 <= t <= 68 -> 0 <= L < 16384 ->
  (forall i x, base_command t L !! i = Some x -> user_byte E (a + Z.of_nat i) = x) ->
  pulsar_check_basecommand E a (Z.of_nat (length (base_command t L)) + L) =
  ((t <=? 31) || ((48 <=? t) && (t <=? 63))).
Proof.
  intros Ht HL Hu. unfold pulsar_check_basecommand, base_command in *. cbv zeta.
  set (hdr := varint (8 * t + 2) ++ varint L) in *. rewrite length_app. cbn [length].
  destruct (Z.eqb_spec (Z.of_nat (2 + length hdr) + L) 0); [lia |].
  set (target := a + (Z.of_nat (2 + length hdr) + L)).
  rewrite (type_field E a t target (-1)); [| lia | unfold target; lia | | by apply (Hu 1%nat)].
  2: { rewrite <- (Z.add_0_r a). by apply (Hu O). }
  cbn [mbind option_bind]. rewrite (command_field E (a + 2) t L target t Ht HL).
  - destruct (tag_read_ok t Ht) as [T1 T2].
    destruct ((tag_read t <? MIN_TAG) || (MAX_TAG <? tag_read t)) eqn:Htag; [by rewrite T2 |].
    fold hdr. rewrite <- (T1 eq_refl).
    destruct (Z.eqb_spec (a + 2 + Z.of_nat (length hdr) + L) target) as [_ | Hne]; [| unfold target in Hne; lia].
    destruct (Z.eqb_spec t (-1)); [lia |]. cbn [orb negb].
    unfold MIN_TAG in Htag. destruct (Z.eqb_spec (tag_read t) (-1)); [lia | done].
  - fold hdr. unfold target. lia.
  - intros i x Hx. rewrite <- Z.add_assoc. change 2 with (Z.of_nat 2). rewrite <- Nat2Z.inj_add. by apply Hu.
Qed.

Lemma pulsar_basecommand_iff_witness :
  pulsar_check_basecommand (example_env [] [(4096, base_command 33 4)]) 4096
    (Z.of_nat (length (base_command 33 4)) + 4) = ((33 <=? 31) || ((48 <=? 33) && (33 <=? 63))).
Proof.
  apply pulsar_basecommand_iff; [lia | lia |].
  intros i x Hx. do 5 (destruct i as [| i]; [injection Hx as <-; reflexivity |]). discriminate Hx.
Defined.

(** ** ZMTP greetings and commands *)

(** The later segments of a ZMTP greeting are never recognised: whatever
    the 53 or 54 bytes after the first segment hold (versions 3.0 and 3.1 and a
    known mechanism included), [check_zmtp_greeting] answers false, since it
    drops the result of the mechanism check. *)
Theorem zmtp_late_segment_refused buf count pb pc x :
  length buf = 64%nat -> length pb = EBPF_CACHE_SIZE -> count = 53 \/ count = 54 ->
  rd8 buf 0 = Some x -> x <> 0xff -> check_zmtp_greeting buf count pb pc = Some false.
Proof.
  intros Hb Hp Hc H0 Hx. unfold check_zmtp_greeting. rewrite H0. simpl.
  destruct (Z.eqb_spec x 255); [done |].
  rewrite (proj2 (Z.leb_le 10 count)) by lia. simpl. unfold zmtp_late_segment.
  destruct (_ || _); [| done]. destruct (_ && _); [done |].
  assert (forall o, 0 <= o <= 3 -> is_Some (check_zmtp_mechanism buf o)) as Hm
    by (intros; unfold check_zmtp_mechanism; def).
  destruct (count =? 54); rewrite !rd8_Some by lia; cbn [mbind option_bind]; destruct (_ && _); try done.
  all: match goal with |- context [check_zmtp_mechanism _ ?o] => destruct (Hm o) as [m ->]; [lia | done] end.
Qed.

Lemma zmtp_late_segment_refused_witness :
  check_zmtp_greeting ([3; 0] ++ str "NULL" ++ replicate 58 0) 54 (replicate 16 0) 0 = Some false.
Proof.
  apply (zmtp_late_segment_refused _ 54 _ 0 3); [reflexivity | reflexivity | by right | reflexivity | lia].
Defined.

(** ZMTP commands of 128 to 255 bytes are refused on a connection that is
    not known yet: the one-byte length of a short command frame is
    sign-extended, so a well-formed frame never has the length it announces. *)
Theorem zmtp_short_command_signed E buf x ptr infer_len :
  length buf = 64%nat -> rd8 buf 0 = Some 4 -> rd8 buf 1 = Some x -> 128 <= x < 256 ->
  check_zmtp_segment E buf (2 + x) ptr infer_len true = Some false.
Proof.
  intros Hb H0 H1 Hx. unfold check_zmtp_segment. destruct (Z.leb_spec (2 + x) 4); [lia |].
  rewrite H0. cbn -[zmtp_command]. unfold zmtp_command, rdc. rewrite H1. cbn [mbind option_bind].
  unfold zmtp_command_name, swrap. rewrite (wrap_small 8 x) by lia.
  change (2 ^ (8 - 1)) with 128. destruct (Z.ltb_spec x 128); [lia |].
  assert (u32 (2 + u32 (x - 2 ^ 8)) = (x - 254) mod 2 ^ 32) as ->
    by (unfold wrap; rewrite Zplus_mod_idemp_r; f_equal; lia).
  destruct (Z.eqb_spec ((x - 254) mod 2 ^ 32) (2 + x)) as [He |]; [| done].
  pose proof (Z.div_mod (x - 254) (2 ^ 32) ltac:(lia)). lia.
Qed.

Lemma zmtp_short_command_signed_witness :
  check_zmtp_segment (example_env [] []) ([4; 200] ++ replicate 62 65) (2 + 200) 4096 202 true = Some false.
Proof. apply zmtp_short_command_signed; [reflexivity | reflexivity | reflexivity | lia]. Defined.
