(* ===== verification/InferRpc.v ===== *)
(** * RPC protocols

    [infer_sofarpc_message], [infer_dubbo_message], [infer_brpc_message],
    [infer_tars_message], [infer_some_ip_message], [infer_fastcgi_message] and
    their helpers of kernel/include/protocol_inference.h. *)

From S2P Require Import Prelude Bitmap Conn InferBase.

(** ** SOFA RPC *)

Definition bolt_resp_header_len : Z := 20.
Definition bolt_req_header_len : Z := 22.

Definition sofarpc_check_character (val : Z) : bool :=
  ((48 <=? val) && (val <=? 57)) || ((65 <=? val) && (val <=? 90)) ||
  ((97 <=? val) && (val <=? 122)) || (val =? ch ".") || (val =? ch "_") ||
  (val =? ch "-") || (val =? ch "*").

(** The three lengths at [o]: [class_len], [header_len], [content_len], none
    negative, and the first character of the class name at [o + 8]. *)
Definition sofarpc_lengths_ok (infer_buf : list Z) (o count : Z) (header_fits : bool) : option bool :=
  class_len ← be16 infer_buf o;
  header_len ← be16 infer_buf (o + 2);
  content_len ← be32 infer_buf (o + 4);
  if (s16 class_len <? 0) || (s16 header_len <? 0) || (s32 content_len <? 0) || negb header_fits
  then Some false else
  x ← rd8 infer_buf (o + 8);
  Some (negb ((o + 9 <=? count) && (1 <=? s16 class_len) && negb (sofarpc_check_character x))).

(** The response status as the code reads it: [ntohl] of 16 bits. *)
Definition sofarpc_resp_status (infer_buf : list Z) : option Z :=
  x ← rd16 infer_buf 10; Some (u16 (bswap32 x)).

(** The checks between the socket test and the label [out]. *)
Definition sofarpc_header_ok (infer_buf : list Z) (count proto type : Z) : option bool :=
  cmdcode ← be16 infer_buf 2;
  ver2 ← rd8 infer_buf 4;
  if negb (ver2 =? 1) then Some false else
  codec ← rd8 infer_buf 9;
  if negb (codec =? 1) then Some false else
  if negb ((proto =? 1) && ((type =? 1) || (type =? 0)) &&
           ((cmdcode =? 1) || (cmdcode =? 2) || (cmdcode =? 0))) then Some false else
  req ← (if type =? 1
         then sofarpc_lengths_ok infer_buf 14 count (negb (count <? bolt_req_header_len))
         else Some true);
  if negb req then Some false else
  if cmdcode =? 2 then
    resp_status ← sofarpc_resp_status infer_buf;
    if negb (((0 <=? resp_status) && (resp_status <=? 9)) ||
             ((16 <=? resp_status) && (resp_status <=? 18))) then Some false else
    sofarpc_lengths_ok infer_buf 12 count true
  else Some true.

Section sofarpc.
Context (E : env).

Definition sofarpc_out (type : Z) : message_type := if type =? 1 then MSG_REQUEST else MSG_RESPONSE.

Definition infer_sofarpc_message (buf : list Z) (count : Z) : I message_type :=
  if count <? bolt_resp_header_len then mret MSG_UNKNOWN else
  ok ← protocol_port_check_1 E PROTO_SOFARPC;
  if negb ok then mret MSG_UNKNOWN else
  proto ← lift (rd8 buf 0);
  type ← lift (rd8 buf 1);
  valid ← gets (fun s => is_infer_socket_valid (si s));
  other ← conflicts PROTO_SOFARPC;
  if other : bool then mret MSG_UNKNOWN else
  if valid : bool then
    allow ← sget s_allow_reassembly;
    d ← cget c_direction;
    if allow && (d =! T_INGRESS) then
      pd ← cget c_prev_direction;
      force ← sget s_force_reasm;
      if (pd =! d) && force then mret MSG_UNKNOWN else
      _ ← sset s_force_reasm (count =? 64);
      mret (sofarpc_out type)
    else mret (sofarpc_out type)
  else
  header ← lift (sofarpc_header_ok buf count proto type);
  if negb header then mret MSG_UNKNOWN else mret (sofarpc_out type).
End sofarpc.

(** ** Dubbo *)

(** [struct dubbo_header]: the bit fields of its third byte. *)
Definition dubbo_serial_id (x : Z) : Z := Z.land x 0x1f.
Definition dubbo_event (x : Z) : bool := Z.testbit x 5.
Definition dubbo_is_req (x : Z) : bool := Z.testbit x 7.

Section dubbo.
Context (E : env).

Definition infer_dubbo_message (buf : list Z) (count : Z) : I message_type :=
  if count <? 16 then mret MSG_UNKNOWN else
  ok ← protocol_port_check_2 E PROTO_DUBBO;
  if negb ok then mret MSG_UNKNOWN else
  other ← conflicts PROTO_DUBBO;
  if other : bool then mret MSG_UNKNOWN else
  magic ← lift (rd16 buf 0);
  if negb (magic =? 0xbbda) then mret MSG_UNKNOWN else
  x ← lift (rd8 buf 2);
  let serial_id := dubbo_serial_id x in
  if (serial_id <? 2) || (serial_id =? 5) || ((12 <? serial_id) && (serial_id <? 16))
  then mret MSG_UNKNOWN else
  data_len ← lift (be32 buf 12);
  if dubbo_event x && negb (data_len =? 1) then mret MSG_UNKNOWN else
  if dubbo_is_req x then mret MSG_REQUEST else mret MSG_RESPONSE.

(** ** bRPC *)

Definition infer_brpc_message (buf : list Z) (count : Z) : I message_type :=
  if count <? 12 then mret MSG_UNKNOWN else
  ok ← protocol_port_check_2 E PROTO_BRPC;
  if negb ok then mret MSG_UNKNOWN else
  other ← conflicts PROTO_BRPC;
  if other : bool then mret MSG_UNKNOWN else
  bad ← lift (buf.[0] != ch "P" ||| buf.[1] != ch "R" ||| buf.[2] != ch "P" ||| buf.[3] != ch "C");
  if bad : bool then mret MSG_UNKNOWN else
  body_size ← lift (be32 buf 4);
  meta_size ← lift (be32 buf 8);
  if count <? u32 (body_size + 12) then mret MSG_UNKNOWN else
  if body_size <? meta_size then mret MSG_UNKNOWN else mret MSG_REQUEST.
End dubbo.

(** ** Tars *)

Definition TARS_MAX_CHECK_FIELDS_NUM : nat := 5.
Definition TARS_FIELD_TYPE_INT1 : Z := 0.
Definition TARS_FIELD_TYPE_INT4 : Z := 2.
Definition TARS_FIELD_TYPE_INT8 : Z := 3.
Definition TARS_FIELD_TYPE_STRING1 : Z := 6.
Definition TARS_FIELD_TYPE_STRING4 : Z := 7.
Definition TARS_FIELD_TYPE_ZERO : Z := 12.

(** The loop over the first fields. *)
Fixpoint tars_fields (infer_buf : list Z) (count : Z) (n : nat)
    (offset : Z) (has_version : bool) (msg_type : message_type) : option message_type :=
  match n with
  | O => Some (if has_version then msg_type else MSG_UNKNOWN)
  | S n =>
      if count <=? u32 (offset + 1) then Some MSG_UNKNOWN else
      b0 ← rdc infer_buf offset;
      b1 ← rdc infer_buf (offset + 1);
      let field_type := Z.land b0 0x0F in
      let field_tag := u8 (Z.shiftr b0 4) in
      if field_tag =? 5 then
        if (field_type =? TARS_FIELD_TYPE_STRING1) || (field_type =? TARS_FIELD_TYPE_STRING4) then
          if has_version then Some MSG_REQUEST
          else tars_fields infer_buf count n offset has_version MSG_REQUEST
        else if (field_type =? TARS_FIELD_TYPE_INT4) || (field_type =? TARS_FIELD_TYPE_ZERO) then
          if has_version then Some MSG_RESPONSE
          else tars_fields infer_buf count n offset has_version MSG_RESPONSE
        else Some MSG_UNKNOWN
      else if field_tag =? 1 then
        if negb (field_type =? TARS_FIELD_TYPE_INT1) || (negb (b1 =? 1) && negb (b1 =? 3))
        then Some MSG_UNKNOWN
        else tars_fields infer_buf count n (u32 (offset + 2)) true msg_type
      else if field_type =? TARS_FIELD_TYPE_ZERO
      then tars_fields infer_buf count n (u32 (offset + 1)) has_version msg_type
      else if (TARS_FIELD_TYPE_INT1 <=? field_type) && (field_type <=? TARS_FIELD_TYPE_INT8)
      then tars_fields infer_buf count n (u32 (offset + (1 + Z.shiftl 1 field_type)))
             has_version msg_type
      else Some MSG_UNKNOWN
  end.

Section tars.
Context (E : env).

Definition infer_tars_message (infer_buf : list Z) (count : Z) : I message_type :=
  if count <? 4 then mret MSG_UNKNOWN else
  ok ← protocol_port_check_2 E PROTO_TARS;
  if negb ok then mret MSG_UNKNOWN else
  other ← conflicts PROTO_TARS;
  if other : bool then mret MSG_UNKNOWN else
  data_size ← lift (be32 infer_buf 0);
  if negb (data_size =? count) then mret MSG_UNKNOWN else
  lift (tars_fields infer_buf count TARS_MAX_CHECK_FIELDS_NUM 4 false MSG_UNKNOWN).
End tars.

(** ** SOME/IP *)

Definition MESSAGE_TYPE_REQUEST : Z := 0.
Definition MESSAGE_TYPE_TP_REQUEST : Z := 0x20.
Definition MESSAGE_TYPE_TP_REQUEST_NO_RETURN : Z := 0x21.
Definition SOME_IP_HEADER_SIZE : Z := 16.

Definition infer_some_ip_request (buf : list Z) (count : Z) : I message_type :=
  length ← lift (be32 buf 4);
  message_type ← lift (rdc buf 14);
  return_code ← lift (rdc buf 15);
  if negb (message_type =? MESSAGE_TYPE_REQUEST) && negb (message_type =? MESSAGE_TYPE_REQUEST) &&
     negb (message_type =? MESSAGE_TYPE_TP_REQUEST) &&
     negb (message_type =? MESSAGE_TYPE_TP_REQUEST_NO_RETURN)
  then mret MSG_UNKNOWN else
  if (return_code =? 0) && (u64 (s32 length) =? u64 (count - 8)) then
    d ← cget c_direction;
    _ ← cset c_role (if d =! T_INGRESS then ROLE_SERVER else ROLE_CLIENT);
    mret MSG_REQUEST
  else mret MSG_UNKNOWN.

Section some_ip.
Context (E : env).

Definition infer_some_ip_message (buf : list Z) (count : Z) : I message_type :=
  ok ← protocol_port_check_2 E PROTO_SOME_IP;
  if negb ok then mret MSG_UNKNOWN else
  if count <? SOME_IP_HEADER_SIZE then mret MSG_UNKNOWN else
  valid ← gets (fun s => is_infer_socket_valid (si s));
  other ← conflicts PROTO_SOME_IP;
  if other : bool then mret MSG_UNKNOWN else
  if valid : bool then
    role ← sget s_role;
    _ ← cset c_role role;
    d ← cget c_direction;
    if ((role =! ROLE_CLIENT) && (d =! T_EGRESS)) || ((role =! ROLE_SERVER) && (d =! T_INGRESS))
    then mret MSG_REQUEST else mret MSG_RESPONSE
  else
  msg_type ← infer_some_ip_request buf count;
  if msg_type =! MSG_REQUEST then mret MSG_REQUEST else mret MSG_UNKNOWN.
End some_ip.

(** ** FastCGI *)

(** [struct fastcgi_header]: [version], [type], [content_length] and
    [padding_length]. *)
Record fastcgi_header := mk_fcgi {
  fcgi_version : Z; fcgi_type : Z; fcgi_content_length : Z; fcgi_padding_length : Z }.
Definition read_fastcgi_header (b : list Z) : option fastcgi_header :=
  v ← rd8 b 0; t ← rd8 b 1; l ← be16 b 4; p ← rd8 b 6; Some (mk_fcgi v t l p).

Definition FCGI_BEGIN_REQUEST : Z := 1.
Definition FCGI_PARAMS : Z := 4.
Definition FCGI_STDOUT : Z := 6.

Definition fastcgi_header_common_check (h : fastcgi_header) : bool :=
  if negb (fcgi_version h =? 1) then false
  else if 8 <=? fcgi_padding_length h then false
  else if negb ((fcgi_content_length h + fcgi_padding_length h) mod 8 =? 0) then false
  else true.

Section fastcgi.
Context (E : env).

Definition infer_fastcgi_message (buf : list Z) (count : Z) : I message_type :=
  if count <? 8 then mret MSG_UNKNOWN else
  ok ← protocol_port_check_1 E PROTO_FASTCGI;
  if negb ok then mret MSG_UNKNOWN else
  header ← lift (read_fastcgi_header buf);
  let type := fcgi_type header in
  if fastcgi_header_common_check header && (count =? 8) &&
     ((type =? FCGI_BEGIN_REQUEST) || (type =? FCGI_PARAMS) || (type =? FCGI_STDOUT)) &&
     negb (fcgi_content_length header =? 0)
  then _ ← save_prev_data_from_kern buf 8; mret MSG_PRESTORE else
  valid ← gets (fun s => is_infer_socket_valid (si s));
  other ← conflicts PROTO_FASTCGI;
  if other : bool then mret MSG_UNKNOWN else
  if valid : bool then
    mret (if (type =? FCGI_BEGIN_REQUEST) || (type =? FCGI_PARAMS)
          then MSG_REQUEST else MSG_RESPONSE)
  else
  let whole := fastcgi_header_common_check header && (8 <? count) &&
               negb (fcgi_content_length header =? 0) in
  if whole && (type =? FCGI_BEGIN_REQUEST) then mret MSG_REQUEST else
  if whole && (type =? FCGI_STDOUT) then mret MSG_RESPONSE else
  pc ← cget c_prev_count;
  if negb (pc =? 8) then mret MSG_UNKNOWN else
  pb ← cget c_prev_buf;
  header ← lift (read_fastcgi_header pb);
  let type := fcgi_type header in
  if negb (fcgi_content_length header + fcgi_padding_length header =? count) then mret MSG_UNKNOWN else
  if (type =? FCGI_BEGIN_REQUEST) || (type =? FCGI_PARAMS) then mret MSG_REQUEST else
  if type =? FCGI_STDOUT then mret MSG_RESPONSE else mret MSG_UNKNOWN.
End fastcgi.

(** ** The contract *)

(** No field starts beyond offset 40 of the buffer. *)
Lemma tars_fields_def buf count n : forall o v m,
  length buf = 64%nat -> 4 <= o -> o + 9 * Z.of_nat n <= 49 -> is_Some (tars_fields buf count n o v m).
Proof.
  induction n as [| n IH]; intros o v m Hl Ho Hn; cbn [tars_fields]; [def |].
  rewrite (wrap_small 32 (o + 1)), (wrap_small 32 (o + 2)) by lia.
  destruct (_ <=? _); [def |]. apply def_bind; [def |]. intros b0 _.
  apply def_bind; [def |]. intros b1 _.
  repeat (case_match; try (by eexists); try (apply IH; lia)).
  assert (0 <= Z.shiftl 1 (Z.land b0 15) <= 8) as Hs.
  { unfold TARS_FIELD_TYPE_INT1, TARS_FIELD_TYPE_INT8 in *.
    assert (0 <= Z.land b0 15 <= 3) by lia. rewrite Z.shiftl_1_l.
    split; [apply Z.pow_nonneg; lia |]. apply (Z.pow_le_mono_r 2 _ 3); lia. }
  rewrite wrap_small by lia. apply IH; lia.
Qed.

Section defs.
Context (buf : list Z) (Hlen : length buf = 64%nat).
Lemma sofarpc_header_def count p t : is_Some (sofarpc_header_ok buf count p t).
Proof. unfold sofarpc_header_ok, sofarpc_lengths_ok, sofarpc_resp_status. def. Qed.
Lemma tars_def count :
  is_Some (tars_fields buf count TARS_MAX_CHECK_FIELDS_NUM 4 false MSG_UNKNOWN).
Proof. apply tars_fields_def; [done | lia | done]. Qed.
End defs.
Lemma read_fastcgi_def b : (16 <= length b)%nat -> is_Some (read_fastcgi_header b).
Proof. intros. unfold read_fastcgi_header. def. Qed.
#[export] Hint Resolve sofarpc_header_def tars_def : reads.

#[export] Instance infer_sofarpc_inferer E buf count :
  buf_ok buf -> Inferer E PROTO_SOFARPC (infer_sofarpc_message E buf count).
Proof.
  intros [Hlen Hb] s HE Hs. unfold infer_sofarpc_message.
  destruct (sock_cases s) as [[k Hk] | Hk].
  - wp_go; try leaf. apply (post_sock _ _ s _ k); try done.
    + exact (socket_ok s Hs k Hk).
    + unfold sofarpc_out. by case_match.
  - wp_go; try leaf. all: by rewrite Hk in *.
Qed.

#[export] Instance infer_dubbo_inferer E buf count :
  buf_ok buf -> Inferer E PROTO_DUBBO (infer_dubbo_message E buf count).
Proof.
  intros [Hlen Hb] s HE Hs. unfold infer_dubbo_message. wp_go; leaf.
Qed.

#[export] Instance infer_brpc_inferer E buf count :
  buf_ok buf -> Inferer E PROTO_BRPC (infer_brpc_message E buf count).
Proof.
  intros [Hlen Hb] s HE Hs. unfold infer_brpc_message. wp_go; leaf.
Qed.

#[export] Instance infer_tars_inferer E buf count :
  buf_ok buf -> Inferer E PROTO_TARS (infer_tars_message E buf count).
Proof.
  intros [Hlen Hb] s HE Hs. unfold infer_tars_message. wp_go; leaf.
Qed.

#[export] Instance infer_some_ip_inferer E buf count :
  buf_ok buf -> Inferer E PROTO_SOME_IP (infer_some_ip_message E buf count).
Proof.
  intros [Hlen Hb] s HE Hs. unfold infer_some_ip_message, infer_some_ip_request.
  destruct (sock_cases s) as [[k Hk] | Hk]; wp_go; try leaf. all: by rewrite Hk in *.
Qed.

#[export] Instance infer_fastcgi_inferer E buf count :
  buf_ok buf -> Inferer E PROTO_FASTCGI (infer_fastcgi_message E buf count).
Proof.
  intros [Hlen Hb] s HE Hs. pose proof (prev_buf_len s Hs).
  assert (is_Some (read_fastcgi_header buf)) by (apply read_fastcgi_def; lia).
  assert (is_Some (read_fastcgi_header (c_prev_buf (ci s)))) by (apply read_fastcgi_def; lia).
  unfold infer_fastcgi_message. wp_go; try leaf; prestore.
Qed.

(** ** What the RPC routines recognise *)

(** Running the two tests every routine starts with. *)
Lemma run_gate E p (k : I message_type) s :
  env_ok E -> st_ok s -> port_allowed E p (ci s) = true -> agrees p (si s) = true ->
  (ok ← protocol_port_check_2 E p;
   if negb ok then mret MSG_UNKNOWN else
   other ← conflicts p;
   if other : bool then mret MSG_UNKNOWN else k) s = k s.
Proof.
  intros HE Hs Hp Ha. unfold mbind, M_bind, protocol_port_check_2. rewrite port_check_eq, Hp by done.
  unfold conflicts, gets, agrees in *. simpl.
  destruct (is_infer_socket_valid (si s)); simpl in *; [| done].
  destruct (si s) as [x |]; [| done]. by rewrite Ha.
Qed.

(** bRPC messages: on an enabled port and an undecided or bRPC socket, data
    of at least 12 bytes is recognised exactly when it starts with "PRPC", the
    announced body with its 12-byte header is not longer than the data, and the
    meta part is not longer than the body; the sum is taken modulo 2^32, so that
    a body of 2^32 - 12 bytes or more always fits. *)
Theorem brpc_recognised E buf count s body meta :
  env_ok E -> st_ok s -> length buf = 64%nat ->
  port_allowed E PROTO_BRPC (ci s) = true -> agrees PROTO_BRPC (si s) = true ->
  be32 buf 4 = Some body -> be32 buf 8 = Some meta ->
  infer_brpc_message E buf count s =
  Some (if (12 <=? count) && starts_with (str "PRPC") buf && (u32 (body + 12) <=? count) && (meta <=? body)
        then MSG_REQUEST else MSG_UNKNOWN, s).
Proof.
  intros HE Hs Hl Hp Ha Hb Hm. unfold infer_brpc_message.
  destruct (Z.ltb_spec count 12), (Z.leb_spec 12 count); try lia; [done |].
  rewrite run_gate by done. unfold mbind, M_bind, lift.
  do 4 (destruct buf as [| ? buf]; [done |]). rewrite Hb, Hm. simpl.
  destruct (z =? 80), (z0 =? 82), (z1 =? 80), (z2 =? 67); simpl; try done.
  destruct (Z.ltb_spec count (u32 (body + 12))), (Z.leb_spec (u32 (body + 12)) count); try lia; [done |].
  destruct (Z.ltb_spec body meta), (Z.leb_spec meta body); try lia; done.
Qed.

Lemma brpc_recognised_witness :
  let buf := str "PRPC" ++ replicate 8 255 ++ replicate 52 0 in
  infer_brpc_message (example_env [] []) buf 12 (example_st T_EGRESS) =
  Some (if (12 <=? 12) && starts_with (str "PRPC") buf && (u32 (4294967295 + 12) <=? 12)
           && (4294967295 <=? 4294967295)
        then MSG_REQUEST else MSG_UNKNOWN, example_st T_EGRESS).
Proof.
  apply brpc_recognised; try reflexivity; [by apply example_env_ok | apply example_st_ok].
Defined.

(** The status of a SOFA RPC response is not checked: for every header the
    status the code tests is 0, because 16 bits are swapped as 32 and cut back
    to 16; so no response is refused for its status. *)
Theorem sofarpc_status_zero infer_buf :
  bytes_ok infer_buf -> (12 <= length infer_buf)%nat -> sofarpc_resp_status infer_buf = Some 0.
Proof.
  intros Hb Hl. unfold sofarpc_resp_status.
  destruct (def_rd16 infer_buf 10) as [x Hx]; [lia |]. rewrite Hx. simpl. f_equal.
  apply rd16_range in Hx; [| done]. unfold bswap32. rewrite (wrap_small 32 x) by lia.
  rewrite (Z.div_small x 65536), (Z.mod_small x 65536) by lia. unfold wrap.
  change (bswap16 0) with 0. rewrite Z.add_0_r. change (2 ^ 16) with 65536. by apply Z.mod_mul.
Qed.

Lemma sofarpc_status_zero_witness : sofarpc_resp_status (replicate 64 255) = Some 0.
Proof. apply sofarpc_status_zero; [by apply Forall_replicate | simpl; lia]. Defined.

(** SOME/IP fire-and-forget requests (message type 1, REQUEST_NO_RETURN)
    are never recognised on a connection that has no protocol yet, however
    well-formed the rest of the header is. *)
Theorem some_ip_no_return_refused E buf count s :
  env_ok E -> st_ok s -> length buf = 64%nat -> is_infer_socket_valid (si s) = false ->
  rd8 buf 14 = Some 1 -> infer_some_ip_message E buf count s = Some (MSG_UNKNOWN, s).
Proof.
  intros HE Hs Hl Hv H14. unfold infer_some_ip_message, mbind, M_bind, protocol_port_check_2.
  rewrite port_check_eq by done. destruct (port_allowed E PROTO_SOME_IP (ci s)); [simpl | done].
  destruct (count <? SOME_IP_HEADER_SIZE); [done |]. unfold gets, conflicts, gets. rewrite Hv. simpl.
  unfold infer_some_ip_request, mbind, M_bind, lift, rdc. rewrite H14.
  destruct (def_be32 buf 4) as [x ->]; [lia |]. rewrite (rd8_Some buf 15) by lia. done.
Qed.

Lemma some_ip_no_return_refused_witness :
  infer_some_ip_message (example_env [] []) (replicate 14 0 ++ [1; 0] ++ replicate 48 0) 16 (example_st T_EGRESS)
  = Some (MSG_UNKNOWN, example_st T_EGRESS).
Proof.
  apply some_ip_no_return_refused; try reflexivity; [by apply example_env_ok | apply example_st_ok].
Defined.

(** Dubbo headers: a 16-byte header with the Dubbo magic, a serialization id
    that is assigned (2 to 4, 6 to 12, 16 to 31) and, for an event, a body of
    one byte, is recognised on an enabled port, as a request or a response by
    the highest bit of its flags. *)
Theorem dubbo_recognised E buf count s x data_len :
  env_ok E -> st_ok s -> length buf = 64%nat -> 16 <= count ->
  port_allowed E PROTO_DUBBO (ci s) = true -> agrees PROTO_DUBBO (si s) = true ->
  rd8 buf 0 = Some 0xda -> rd8 buf 1 = Some 0xbb -> rd8 buf 2 = Some x -> byte_ok x ->
  be32 buf 12 = Some data_len ->
  let id := Z.land x 31 in
  2 <= id -> id <> 5 -> (id <= 12 \/ 16 <= id) -> (Z.testbit x 5 = true -> data_len = 1) ->
  infer_dubbo_message E buf count s = Some (if Z.testbit x 7 then MSG_REQUEST else MSG_RESPONSE, s).
Proof.
  intros HE Hs Hl Hc Hp Ha H0 H1 H2 Hx H12 id Hid1 Hid2 Hid3 Hev. unfold infer_dubbo_message.
  destruct (Z.ltb_spec count 16); [lia |]. rewrite run_gate by done.
  unfold mbind, M_bind, lift, rd16. rewrite H0, H2, H12. change (0 + 1) with 1. rewrite H1.
  cbn -[dubbo_serial_id dubbo_event dubbo_is_req Z.ltb Z.eqb Z.testbit].
  unfold dubbo_serial_id, dubbo_event, dubbo_is_req. fold id.
  generalize dependent (Z.testbit x 5). generalize (Z.testbit x 7). intros req ev Hev. simpl.
  destruct (Z.ltb_spec id 2), (Z.eqb_spec id 5); try lia. simpl.
  destruct (Z.ltb_spec 12 id), (Z.ltb_spec id 16); try lia; simpl.
  all: destruct ev; [rewrite Hev by done |]; simpl; by destruct req.
Qed.

Lemma dubbo_recognised_witness :
  infer_dubbo_message (example_env [] []) ([0xda; 0xbb; 0xc2; 0] ++ replicate 11 0 ++ [37] ++ replicate 48 0)
    53 (example_st T_EGRESS) = Some (if Z.testbit 0xc2 7 then MSG_REQUEST else MSG_RESPONSE, example_st T_EGRESS).
Proof.
  apply (dubbo_recognised _ _ _ _ 0xc2 37);
    try first [reflexivity | by apply example_env_ok | apply example_st_ok | by left | discriminate | unfold byte_ok; lia | by simpl; lia].
Defined.
