(* ===== verification/InferNet.v ===== *)
(** * DNS and TLS

    [infer_dns_message] and [infer_tls_message] of
    kernel/include/protocol_inference.h. *)

From S2P Require Import Prelude Bitmap Conn InferBase.

(** ** DNS *)

(** [struct dns_header] at offset [o] of a buffer: [qr], [opcode], [z] and the
    four counts. *)
Record dns_header := mk_dns {
  dns_qr : bool; dns_opcode : Z; dns_z : Z;
  q_count : Z; ans_count : Z; auth_count : Z; add_count : Z }.
Definition read_dns_header (b : list Z) (o : Z) : option dns_header :=
  f1 ← rd8 b (o + 2); f2 ← rd8 b (o + 3);
  q ← be16 b (o + 4); an ← be16 b (o + 6); au ← be16 b (o + 8); ad ← be16 b (o + 10);
  Some (mk_dns (Z.testbit f1 7) (Z.land (Z.shiftr f1 3) 15) (Z.land (Z.shiftr f2 6) 1) q an au ad).

(** The offset of the header and [update_tcp_dns_prev_count]: over TCP the
    message starts with its length, which the server has read before. *)
Definition dns_tcp_offset (tcp : bool) (id count : Z) (d : traffic_direction) : Z * bool :=
  if tcp then
    if id + 2 =? count then (2, false)
    else if d =! T_EGRESS then (2, false) else (0, true)
  else (0, false).

Definition dns_max_num_rr : Z := 25.

Definition dns_header_ok (h : dns_header) : bool :=
  if negb (dns_z h =? 0) then false
  else if negb (dns_opcode h =? 0) then false
  else if (q_count h =? 0) || (10 <? q_count h) then false
  else if dns_max_num_rr <? u32 (q_count h + ans_count h + auth_count h + add_count h) then false
  else true.

Section dns.
Context (E : env).

(** The loop over the query name, 31 bytes at a time; the type that follows it. *)
Fixpoint dns_query_type (queries_start : Z) (n : nat) : option Z :=
  match n with
  | O => Some 0
  | S n =>
      let tmp := s16 (e_read_user_str E queries_start 32).1 in
      if tmp <? 0 then Some 0
      else if negb (tmp =? 32) then be16 (e_read_user E (queries_start + tmp) 2).2 0
      else dns_query_type (queries_start + (tmp - 1)) n
  end.

Definition infer_dns_message (buf : list Z) (count ptr infer_len : Z) : I message_type :=
  if (count <? 12) || (512 <? count) then mret MSG_UNKNOWN else
  ok ← protocol_port_check_1 E PROTO_DNS;
  if negb ok then mret MSG_UNKNOWN else
  other ← conflicts PROTO_DNS;
  if other : bool then mret MSG_UNKNOWN else
  t ← cget c_tuple; d ← cget c_direction;
  id ← lift (be16 buf 0);
  let '(o, update_tcp_dns_prev_count) := dns_tcp_offset (l4_protocol t =? IPPROTO_TCP) id count d in
  dns ← lift (read_dns_header buf o);
  if negb (dns_header_ok dns) then mret MSG_UNKNOWN else
  q ← lift (dns_query_type (ptr + (o + 12)) 4);
  _ ← cset c_dns_q_type q;
  _ ← (if update_tcp_dns_prev_count : bool then cset c_prev_count 2 else mret tt);
  if dns_qr dns then mret MSG_RESPONSE else mret MSG_REQUEST.
End dns.

(** ** TLS *)

(** [tls_handshake_t]: [content_type], [version] and [handshake_type]. *)
Record tls_handshake := mk_tls { tls_content_type : Z; tls_version : Z; tls_handshake_type : Z }.

(** The record header from the 5 bytes read before or from the buffer;
    [count] is the merged length. [None] where the length is below 6. *)
Definition read_tls_handshake (buf prev_buf : list Z) (prev_count count : Z)
    : option (option tls_handshake) :=
  if count =? 5 then
    t ← rd8 buf 0; v ← be16 buf 1; Some (Some (mk_tls t v 0))
  else if count <? 6 then Some None
  else if prev_count =? 5 then
    t ← rd8 prev_buf 0; v ← be16 prev_buf 1; h ← rd8 buf 0; Some (Some (mk_tls t v h))
  else
    t ← rd8 buf 0; v ← be16 buf 1; h ← rd8 buf 5; Some (Some (mk_tls t v h)).

Definition tls_record_ok (h : tls_handshake) : bool :=
  ((tls_content_type h =? 0x16) || (tls_content_type h =? 0x14) || (tls_content_type h =? 0x15)) &&
  ((0x301 <=? tls_version h) && (tls_version h <=? 0x304)).

Definition infer_tls_message (buf : list Z) (count : Z) : I message_type :=
  pc ← cget c_prev_count; pb ← cget c_prev_buf;
  let count := if pc =? 5 then u64 (count + 5) else count in
  r ← lift (read_tls_handshake buf pb pc count);
  match r with
  | None => mret MSG_UNKNOWN
  | Some h =>
      if negb (tls_record_ok h) then mret MSG_UNKNOWN else
      if count =? 5 then _ ← save_prev_data_from_kern buf 5; mret MSG_PRESTORE else
      ended ← gets (fun s => is_socket_info_valid (si s) &&
                      match si s with Some k => s_tls_end k | None => false end);
      if negb (tls_content_type h =? 0x15) && ended then mret MSG_UNKNOWN else
      if (tls_content_type h =? 0x16) &&
         ((tls_handshake_type h =? 0xb) || (tls_handshake_type h =? 0xc) ||
          (tls_handshake_type h =? 0xe)) then mret MSG_UNKNOWN else
      valid ← gets (fun s => is_socket_info_valid (si s));
      _ ← (if (tls_content_type h =? 0x14) && valid then sset s_tls_end true else mret tt);
      _ ← (if tls_content_type h =? 0x15 then cset c_keep_trace true else mret tt);
      if (tls_handshake_type h =? 0x1) || (tls_handshake_type h =? 0x10)
      then mret MSG_REQUEST else mret MSG_RESPONSE
  end.

(** ** The contract *)

Lemma dns_query_type_def E n : forall a, env_ok E -> is_Some (dns_query_type E a n).
Proof.
  induction n as [| n IH]; intros a HE; cbn [dns_query_type]; [def |].
  destruct (_ <? 0); [def |]. destruct (negb _); [def | by apply IH].
Qed.

Lemma read_dns_def buf o : length buf = 64%nat -> 0 <= o <= 2 -> is_Some (read_dns_header buf o).
Proof. intros. unfold read_dns_header. def. Qed.

Lemma read_tls_def buf pb pc count :
  length buf = 64%nat -> length pb = EBPF_CACHE_SIZE -> is_Some (read_tls_handshake buf pb pc count).
Proof. intros. unfold read_tls_handshake. def. Qed.

Lemma dns_offset_range tcp id count d : 0 <= (dns_tcp_offset tcp id count d).1 <= 2.
Proof. unfold dns_tcp_offset. repeat case_match; simpl; lia. Qed.

#[export] Instance infer_dns_inferer E buf count ptr infer_len :
  buf_ok buf -> Inferer E PROTO_DNS (infer_dns_message E buf count ptr infer_len).
Proof.
  intros [Hlen Hb] s HE Hs. unfold infer_dns_message.
  pose proof (fun a => dns_query_type_def E 4 a HE).
  wp_go; try leaf. apply wp_lift_def.
  - apply read_dns_def; [done |].
    match goal with H : dns_tcp_offset ?a ?b ?c ?d = _ |- _ =>
      pose proof (dns_offset_range a b c d) as Hr; by rewrite H in Hr end.
  - intros h Hh. wp_go; leaf.
Qed.

(** TLS has no port check of its own; its caller makes it. *)
Lemma infer_tls_wp buf count s :
  buf_ok buf -> st_ok s -> wp (infer_tls_message buf count) s (infer_gen True True s).
Proof.
  intros [Hlen Hb] Hs. unfold infer_tls_message. pose proof (prev_buf_len s Hs).
  pose proof read_tls_def.
  destruct (sock_cases s) as [[k Hk] | Hk].
  - wp_go; try leaf; try prestore; try lia.
    all: eapply post_sock; eauto; exact (socket_ok s Hs k Hk).
  - wp_go; try leaf; try prestore. all: rewrite Hk in *; simpl in *; lia.
Qed.

(** ** DNS over TCP and over UDP *)

(** The same connection over another transport. *)
Definition with_l4 (proto : Z) (s : st) : st :=
  let t := c_tuple (ci s) in
  s <| ci := (ci s) <| c_tuple := mk_tuple (daddr t) (rcv_saddr t) (addr_len t) proto (dport t) (num t) |> |>.

Definition dns_result (r : option (message_type * st)) : option (message_type * Z) :=
  (fun x => (x.1, c_dns_q_type (ci x.2))) <$> r.

(** The verdict on a header at [ptr], the tests of length, port and socket done. *)
Definition dns_verdict (E : env) (h : option dns_header) (ptr old : Z) : option (message_type * Z) :=
  dns ← h;
  if negb (dns_header_ok dns) then Some (MSG_UNKNOWN, old) else
  q ← dns_query_type E (ptr + 12) 4;
  Some (if dns_qr dns then MSG_RESPONSE else MSG_REQUEST, q).

Lemma read_dns_skip a b buf :
  (12 <= length buf)%nat -> read_dns_header (a :: b :: take 62 buf) 2 = read_dns_header buf 0.
Proof. intros Hl. do 12 (destruct buf as [| ? buf]; [simpl in Hl; lia |]). reflexivity. Qed.

(** The two bytes of a length in network order. *)
Lemma be16_bytes n buf : 0 <= n < 65536 -> be16 (n / 256 :: n mod 256 :: buf) 0 = Some n.
Proof.
  intros Hn. unfold be16, rd16, rd8, bswap16, wrap. simpl. f_equal.
  pose proof (Z.mod_pos_bound n 256). pose proof (Z.div_mod n 256).
  assert (0 <= n / 256 < 256) by (split; [apply Z.div_pos | apply Z.div_lt_upper_bound]; lia).
  rewrite (Z.mod_small _ 65536), (Z.mul_comm 256), Z.mod_add, Z.div_add by lia.
  rewrite (Z.mod_small (n / 256)), (Z.div_small (n / 256)) by lia. lia.
Qed.

Lemma run_gate_dns E (k : I message_type) s :
  env_ok E -> st_ok s ->
  (ok ← protocol_port_check_1 E PROTO_DNS;
   if negb ok then mret MSG_UNKNOWN else
   other ← conflicts PROTO_DNS;
   if other : bool then mret MSG_UNKNOWN else k) s =
  if port_allowed E PROTO_DNS (ci s) && agrees PROTO_DNS (si s) then k s else Some (MSG_UNKNOWN, s).
Proof.
  intros HE Hs. unfold mbind, M_bind, protocol_port_check_1. rewrite port_check_eq by done.
  destruct (port_allowed E PROTO_DNS (ci s)); [simpl | done].
  unfold conflicts, gets, agrees. destruct (is_infer_socket_valid (si s)); simpl; [| done].
  destruct (si s) as [x |]; [| done]. by destruct (bool_decide_reflect (s_l7_proto x = PROTO_DNS)).
Qed.

Lemma run_dns E buf count ptr len s :
  env_ok E -> st_ok s -> length buf = 64%nat -> 12 <= count <= 512 ->
  forall id o u, be16 buf 0 = Some id ->
  dns_tcp_offset (l4_protocol (c_tuple (ci s)) =? IPPROTO_TCP) id count (c_direction (ci s)) = (o, u) ->
  dns_result (infer_dns_message E buf count ptr len s) =
  if port_allowed E PROTO_DNS (ci s) && agrees PROTO_DNS (si s)
  then dns_verdict E (read_dns_header buf o) (ptr + o) (c_dns_q_type (ci s))
  else Some (MSG_UNKNOWN, c_dns_q_type (ci s)).
Proof.
  intros HE Hs Hl Hc id o u Hid Ho. unfold infer_dns_message.
  destruct (Z.ltb_spec count 12), (Z.ltb_spec 512 count); try lia. cbn [orb].
  rewrite run_gate_dns by done. destruct (_ && _); [| done].
  unfold mbind, M_bind, cget, gets, lift. rewrite Hid. cbn -[dns_query_type]. rewrite Ho. unfold dns_verdict.
  destruct (read_dns_header buf o) as [h |]; [| done]. cbn -[dns_query_type].
  destruct (dns_header_ok h); [| done]. cbn -[dns_query_type].
  rewrite <- Z.add_assoc. destruct (dns_query_type E (ptr + (o + 12)) 4); [| done].
  by destruct u, (dns_qr h).
Qed.

(** C34: DNS over TCP is classified as DNS over UDP: a message of 12 to 510 bytes that
    follows its 16-bit length gives the same verdict and the same query type as the
    bare message in a datagram; and so does a message of 12 to 512 bytes that comes in
    and whose length was read by the call before, where the length is not seen, unless
    its identifier is its length less 2, which is taken for a length. *)
Theorem dns_tcp_as_udp E msg n ptr len len' s :
  env_ok E -> st_ok s -> length msg = 64%nat -> bytes_ok msg -> 12 <= n <= 512 ->
  let udp := infer_dns_message E msg n ptr len (with_l4 IPPROTO_UDP s) in
  let tcp := with_l4 IPPROTO_TCP s in
  (n <= 510 -> dns_result (infer_dns_message E (n / 256 :: n mod 256 :: take 62 msg) (n + 2) (ptr - 2) len' tcp)
    = dns_result udp) /\
  (c_direction (ci s) = T_INGRESS -> be16 msg 0 <> Some (n - 2) ->
   dns_result (infer_dns_message E msg n ptr len' tcp) = dns_result udp).
Proof.
  intros HE Hs Hl Hb Hn udp tcp.
  assert (forall p, st_ok (with_l4 p s)) as Hs' by (intros p; destruct Hs; by constructor).
  destruct (def_be16 msg 0) as [id Hid]; [lia |].
  assert (dns_result udp = _) as ->
    by exact (run_dns E msg n ptr len _ HE (Hs' IPPROTO_UDP) Hl ltac:(lia) id 0 false Hid eq_refl).
  split.
  - intros Hmax. unfold tcp. erewrite (run_dns E _ (n + 2) (ptr - 2) len' _ HE (Hs' _)) with (id := n) (o := 2) (u := false).
    + rewrite read_dns_skip by lia. by replace (ptr - 2 + 2) with (ptr + 0) by lia.
    + simpl. rewrite length_take. lia.
    + lia.
    + apply be16_bytes. lia.
    + unfold dns_tcp_offset. simpl. by rewrite Z.eqb_refl.
  - intros Hd Hne. unfold tcp. erewrite (run_dns E _ n ptr len' _ HE (Hs' _) Hl) with (id := id) (o := 0) (u := true);
      [done | lia | exact Hid |].
    unfold dns_tcp_offset. simpl. rewrite Hd. destruct (Z.eqb_spec (id + 2) n); [| done].
    destruct Hne. rewrite Hid. f_equal. lia.
Qed.

(** The limit of 512 bytes is one of the message, but over TCP its length is counted
    in: no message of 511 or 512 bytes is recognized there. *)
Theorem dns_tcp_limit E buf n ptr len s : 510 < n -> infer_dns_message E buf (n + 2) ptr len s = Some (MSG_UNKNOWN, s).
Proof. intros Hn. unfold infer_dns_message. by rewrite (proj2 (Z.ltb_lt 512 (n + 2))), orb_true_r by lia. Qed.
Lemma dns_udp_limit : let msg := [18; 52; 1; 0; 0; 1] ++ replicate 58 0 in
  fst <$> infer_dns_message (example_env [] []) msg 512 4096 512 (with_l4 IPPROTO_UDP (example_st T_INGRESS)) = Some MSG_REQUEST.
Proof. vm_compute. reflexivity. Qed.

Lemma dns_tcp_as_udp_witness :
  let msg := [18; 52; 1; 0; 0; 1] ++ replicate 58 0 in
  let s := example_st T_INGRESS in
  let udp := infer_dns_message (example_env [] []) msg 29 4096 29 (with_l4 IPPROTO_UDP s) in
  let tcp := with_l4 IPPROTO_TCP s in
  (29 <= 510 -> dns_result (infer_dns_message (example_env [] []) (29 / 256 :: 29 mod 256 :: take 62 msg) (29 + 2)
    (4096 - 2) 31 tcp) = dns_result udp) /\
  (c_direction (ci s) = T_INGRESS -> be16 msg 0 <> Some (29 - 2) ->
   dns_result (infer_dns_message (example_env [] []) msg 29 4096 31 tcp) = dns_result udp).
Proof.
  apply dns_tcp_as_udp; [by apply example_env_ok | apply example_st_ok | done | | lia].
  by apply bytes_okb.
Defined.

(** Once a ChangeCipherSpec was seen on a socket, a record read in one call
    that is not an alert is not recognised as TLS (it is encrypted), and neither
    the connection nor the socket is changed. *)
Theorem tls_end_final buf count s k :
  buf_ok buf -> st_ok s -> si s = Some k -> s_uid k <> 0 -> s_tls_end k = true ->
  count <> 5 -> c_prev_count (ci s) <> 5 -> rd8 buf 0 <> Some 0x15 ->
  infer_tls_message buf count s = Some (MSG_UNKNOWN, s).
Proof.
  intros [Hl _] Hs Hk Hu He Hc Hp H15. unfold infer_tls_message, mbind, M_bind, cget, gets, lift, read_tls_handshake.
  destruct (Z.eqb_spec (c_prev_count (ci s)) 5); [done |].
  destruct (Z.eqb_spec count 5); [done |]. destruct (count <? 6); [done |].
  destruct (def_rd8 buf 0) as [t Ht]; [lia |]. destruct (def_be16 buf 1) as [v Hv]; [lia |].
  destruct (def_rd8 buf 5) as [h Hh]; [lia |]. rewrite Ht, Hv, Hh. cbn.
  destruct (negb (tls_record_ok _)); [done |]. unfold is_socket_info_valid. rewrite Hk, He.
  destruct (Z.eqb_spec (s_uid k) 0), (Z.eqb_spec t 21); try congruence. done.
Qed.

Lemma tls_end_final_witness :
  let k := (example_sock PROTO_TLS) <| s_tls_end := true |> in
  let s := mk_st (example_conn T_EGRESS) (Some k) ∅ in
  infer_tls_message ([0x16; 3; 3; 0; 40; 1] ++ replicate 58 0) 45 s = Some (MSG_UNKNOWN, s).
Proof.
  intros k s. apply (tls_end_final _ _ _ k); try done.
  - split; [done | by apply bytes_okb].
  - constructor; try done; try (simpl; lia); try (by apply bytes_okb). intros k' [= <-]. split; [done |]. split; [by apply bytes_okb | simpl; lia].
Defined.
