(* ===== verification/InferPipeline.v ===== *)
(** * The inference pipeline

    [infer_protocol_1], [infer_protocol_2] and [infer_protocol_3] of
    kernel/include/protocol_inference.h and [infer_l7_class_1], [_2] and [_3]
    of kernel/socket_trace.bpf.c: the order in which the routines are tried,
    the per-process cache of the last protocol, TLS ports, reassembly, and the
    programs that chain the three stages. *)

From S2P Require Import Prelude Bitmap Conn InferBase Iovec.
From S2P Require Import InferHttp InferSql InferMq InferPulsarZmtp InferRpc InferNet.

(** ** The routines of the [switch] and of the slow path *)


(** The data under inference: the 64 bytes of [infer_data_s], the length of the
    system call, and [syscall_infer_addr] with [syscall_infer_len]. *)
Record infer_data := mk_data { d_buf : list Z; d_count : Z; d_addr : Z; d_len : Z }.

Section pipeline.
Context (E : env).

Definition infer_one (D : infer_data) (p : traffic_protocol) : I message_type :=
  let '(mk_data infer_buf count addr len) := D in
  match p with
  | PROTO_HTTP1 => infer_http_message E infer_buf count
  | PROTO_REDIS => infer_redis_message E infer_buf count
  | PROTO_MQTT => infer_mqtt_message E infer_buf count
  | PROTO_AMQP => infer_amqp_message E infer_buf count
  | PROTO_NATS => infer_nats_message E infer_buf count addr len
  | PROTO_PULSAR => infer_pulsar_message E addr len (u32 count)
  | PROTO_DUBBO => infer_dubbo_message E infer_buf count
  | PROTO_DNS => infer_dns_message E infer_buf count addr len
  | PROTO_MYSQL => infer_mysql_message E infer_buf count
  | PROTO_KAFKA => infer_kafka_message E infer_buf count
  | PROTO_TARS => infer_tars_message E infer_buf count
  | PROTO_SOME_IP => infer_some_ip_message E infer_buf count
  | PROTO_SOFARPC => infer_sofarpc_message E infer_buf count
  | PROTO_FASTCGI => infer_fastcgi_message E infer_buf count
  | PROTO_BRPC => infer_brpc_message E infer_buf count
  | PROTO_HTTP2 => infer_http2_message E infer_buf count addr len
  | PROTO_POSTGRESQL => infer_postgre_message E addr len
  | PROTO_ORACLE => infer_oracle_tns_message E infer_buf count
  | PROTO_ISO8583 => infer_iso8583_message E infer_buf count addr len
  | PROTO_MEMCACHED => infer_memcached_message E infer_buf count
  | PROTO_MONGO => infer_mongo_message E infer_buf count
  | PROTO_OPENWIRE => infer_openwire_message E infer_buf count
  | PROTO_ZMTP => infer_zmtp_message E infer_buf count addr len
  | PROTO_ROCKETMQ => infer_rocketmq_message E infer_buf count
  | PROTO_WEBSPHEREMQ => infer_web_sphere_mq_message E infer_buf count
  | _ => mret MSG_UNKNOWN
  end.

(** A prestored header of these protocols leaves [inferred_message.protocol]
    unknown. *)
Definition bare_prestore (p : traffic_protocol) : bool :=
  (p =! PROTO_MYSQL) || (p =! PROTO_KAFKA) || (p =! PROTO_FASTCGI).
Definition result_of (p : traffic_protocol) (m : message_type) : protocol_message :=
  if (m =! MSG_PRESTORE) && bare_prestore p then mk_pm PROTO_UNKNOWN m else mk_pm p m.

(** [if (skip_proto != P1 && (type = infer_P1(...)) != MSG_UNKNOWN) ... else if
    ...]: the first routine that recognises the data, [None] when none does. *)
Fixpoint infer_chain (D : infer_data) (skip : option traffic_protocol)
    (l : list traffic_protocol) : I (option protocol_message) :=
  match l with
  | [] => mret None
  | p :: l =>
      if bool_decide (skip = Some p) then infer_chain D skip l else
      m ← infer_one D p;
      if m <>! MSG_UNKNOWN then mret (Some (result_of p m)) else infer_chain D skip l
  end.

Definition chain_1 : list traffic_protocol :=
  [PROTO_HTTP1; PROTO_REDIS; PROTO_DNS;
   PROTO_KAFKA; PROTO_SOFARPC; PROTO_MYSQL; PROTO_FASTCGI; PROTO_HTTP2].
Definition chain_2 : list traffic_protocol :=
  [PROTO_DUBBO; PROTO_MQTT; PROTO_AMQP; PROTO_NATS; PROTO_PULSAR; PROTO_BRPC; PROTO_TARS;
   PROTO_SOME_IP; PROTO_POSTGRESQL; PROTO_ORACLE; PROTO_ISO8583; PROTO_MEMCACHED; PROTO_OPENWIRE].
Definition chain_3 : list traffic_protocol :=
  [PROTO_ZMTP; PROTO_MONGO; PROTO_ROCKETMQ; PROTO_WEBSPHEREMQ].

(** [conn_info->skip_proto] is consulted on the newer kernels only. *)
Definition skip_proto : I (option traffic_protocol) :=
  p ← cget c_skip_proto; mret (if e_modern E then Some p else None).

Definition nothing : protocol_message := mk_pm PROTO_UNKNOWN MSG_UNKNOWN.

(** The end of [infer_protocol_3]: a segment of a message under reassembly. *)
Definition reasm_segment : I protocol_message :=
  en ← cget c_enable_reasm;
  if en : bool then
    sock ← gets (fun s => s_l7_proto <$> si s);
    proto ← (match sock with
             | Some p => _ ← sset s_finish_reasm true; mret p
             | None => mret PROTO_UNKNOWN
             end);
    _ ← cset c_is_reasm_seg true;
    mret (mk_pm proto MSG_REQUEST)
  else mret nothing.

(** [syscall_infer_addr] and [syscall_infer_len] as saved in [conn_info]. *)
Definition saved_data (infer_buf : list Z) (count : Z) : I infer_data :=
  addr ← cget c_syscall_infer_addr;
  len ← cget c_syscall_infer_len;
  mret (mk_data infer_buf count addr len).

Definition infer_protocol_3 (infer_buf : list Z) (count : Z) : I protocol_message :=
  D ← saved_data infer_buf count;
  skip ← skip_proto;
  r ← infer_chain D skip chain_3;
  match r with Some pm => mret pm | None => reasm_segment end.

Definition infer_protocol_2 (infer_buf : list Z) (count : Z) : I protocol_message :=
  D ← saved_data infer_buf count;
  skip ← skip_proto;
  r ← infer_chain D skip chain_2;
  match r with
  | Some pm => mret pm
  | None => if e_modern E then infer_protocol_3 infer_buf count else mret nothing
  end.

(** The fast path: the protocol this thread spoke last. [None] aborts; the
    result is the recognised message, or the protocol the slow path skips. *)
Definition fast_path (D : infer_data) : I (option (protocol_message + traffic_protocol)) :=
  let pid := u32 (e_pid_tgid E) in
  let cache_key := Z.shiftr pid 16 in
  if cache_key <? PROTO_INFER_CACHE_SIZE then
    match e_infer_cache E cache_key with
    | None => mret None
    | Some protocols =>
        let this_proto := protocols (u16 pid) in
        m ← infer_one D this_proto;
        if m <>! MSG_UNKNOWN then mret (Some (inl (result_of this_proto m)))
        else _ ← cset c_skip_proto this_proto; mret (Some (inr this_proto))
    end
  else mret (Some (inr PROTO_UNKNOWN)).

Definition slow_path (D : infer_data) (skip : option traffic_protocol) : I protocol_message :=
  r ← infer_chain D skip chain_1;
  match r with
  | Some pm => mret pm
  | None => if e_modern E then infer_protocol_2 (d_buf D) (d_count D) else mret nothing
  end.

(** ** The first stage *)

(** What [infer_protocol_1] takes from [args] and [extra]. *)
Record infer_args := mk_args {
  i_buf : Z; i_iov : iov_args; i_vecs : bool; i_source : data_source }.

(** The inference buffer, [syscall_infer_addr] and [syscall_infer_len]; [old]
    is what the per-CPU buffer held before. *)
Definition load_infer_buf (old : list Z) (args : infer_args) (count : Z) : option infer_data :=
  if i_vecs args then
    g ← infer_iovecs_copy E old (i_iov args) count INFER_BUF_MAX;
    let len := if count <? g_first_size g then u32 count else g_first_size g in
    Some (mk_data (g_data g) count (g_first g) len)
  else Some (mk_data (e_read_user E (i_buf args) 64).2 count (i_buf args) (u32 count)).

(** The TLS test. [None]: go on with the other protocols. *)
Definition tls_stage (infer_buf : list Z) (count : Z) (source : data_source)
    : I (option (protocol_message * Z)) :=
  ty ← cget c_sk_type;
  tls ← (if ty =? SOCK_UNIX then mret false else protocol_port_check_1 E PROTO_TLS);
  if tls && (source =! DATA_SOURCE_SYSCALL) then
    m ← infer_tls_message infer_buf count;
    if m <>! MSG_UNKNOWN then mret (Some (mk_pm PROTO_TLS m, 0)) else
    encrypted ← gets (fun s => is_socket_info_valid (si s) &&
                        match si s with Some k => s_is_tls k | None => false end);
    if encrypted && negb (skip_http2_kprobe E) then mret (Some (nothing, -1)) else mret None
  else mret None.

(** The result is [inferred_message] with [*err_code]. *)
Definition infer_protocol_1 (old : list Z) (args : infer_args) (count : Z)
    : I (protocol_message * Z) :=
  sk ← cget c_sk;
  if sk =? 0 then mret (nothing, -1) else
  valid ← gets (fun s => is_socket_info_valid (si s));
  drop ← lift (if valid : bool then Some false else drop_msg_by_comm E);
  if drop : bool then mret (nothing, -1) else
  D ← lift (load_infer_buf old args count);
  _ ← cset c_count (wrap 40 count);
  _ ← cset c_syscall_infer_addr (d_addr D);
  _ ← cset c_syscall_infer_len (d_len D);
  _ ← check_and_fetch_prev_data;
  _ ← check_and_set_data_reassembly E;
  proto ← cget c_protocol;
  if proto =! PROTO_CUSTOM then mret (mk_pm PROTO_CUSTOM MSG_REQUEST, 0) else
  tls ← tls_stage (d_buf D) count (i_source args);
  match tls with
  | Some r => mret r
  | None =>
      if e_modern E then
        f ← fast_path D;
        match f with
        | None => mret (nothing, -1)
        | Some (inl pm) => mret (pm, 0)
        | Some (inr skip) => pm ← slow_path D (Some skip); mret (pm, 0)
        end
      else pm ← slow_path D None; mret (pm, 0)
  end.

(** ** The programs *)

Inductive infer_result := INFER_FINISH | INFER_CONTINUE | INFER_TERMINATE.

(** The common end of [infer_l7_class_1], [_2] and [_3]. *)
Definition l7_class_end (pm : protocol_message) (unknown : infer_result) : I infer_result :=
  if (pm_protocol pm =! PROTO_UNKNOWN) && (pm_type pm =! MSG_UNKNOWN) then
    _ ← cset c_protocol PROTO_UNKNOWN; mret unknown
  else
    _ ← cset c_protocol (pm_protocol pm);
    _ ← cset c_message_type (pm_type pm);
    mret INFER_FINISH.

Definition infer_l7_class_1 (old : list Z) (args : infer_args) (count : Z) : I infer_result :=
  r ← infer_protocol_1 old args count;
  let '(pm, err_code) := r in
  if err_code =? -1 then mret INFER_TERMINATE else l7_class_end pm INFER_CONTINUE.

Definition infer_l7_class_2 (data : list Z) : I infer_result :=
  count ← cget c_count;
  pm ← infer_protocol_2 data count;
  l7_class_end pm INFER_CONTINUE.

Definition infer_l7_class_3 (data : list Z) : I infer_result :=
  count ← cget c_count;
  pm ← infer_protocol_3 data count;
  l7_class_end pm INFER_TERMINATE.
End pipeline.

(** ** The contract of the stages *)

#[export] Instance infer_nothing_inferer E p : Inferer E p (mret MSG_UNKNOWN).
Proof. intros s HE Hs. apply wp_ret. leaf. Qed.

#[export] Instance infer_one_inferer E D p :
  buf_ok (d_buf D) -> Inferer E p (infer_one E D p).
Proof. intros Hb. destruct D, p; simpl in *; apply _. Qed.

(** Port check and socket test read only what the routines leave alone. *)
Lemma port_allowed_frame E p s s' :
  frame s s' -> port_allowed E p (ci s') = port_allowed E p (ci s).
Proof. intros [H1 H2]. unfold port_allowed. by rewrite H1, H2. Qed.

Lemma valid_sock_id o o' : sock_id o' = sock_id o ->
  is_infer_socket_valid o' = is_infer_socket_valid o.
Proof. destruct o, o'; simpl; try done. by intros [= -> -> _]. Qed.

Lemma agrees_sock_id p o o' : sock_id o' = sock_id o -> agrees p o' = agrees p o.
Proof.
  intros H. unfold agrees. rewrite (valid_sock_id _ _ H). destruct o, o'; try done.
  by injection H as _ -> _.
Qed.

(** What a chain of routines gives from state [s]. *)
Definition recognised (E : env) (s : st) (pm : protocol_message) : Prop :=
  exists p m, pm = result_of p m /\ m <> MSG_UNKNOWN /\ port_allowed E p (ci s) = true /\
    (m <> MSG_PRESTORE -> agrees p (si s) = true).

Lemma recognised_frame E s s' pm : frame s s' -> recognised E s' pm -> recognised E s pm.
Proof.
  intros Hf (p & m & H1 & H2 & H3 & H4). exists p, m. split_and!; try done.
  - by rewrite <- (port_allowed_frame E p s s').
  - intros Hm. rewrite <- (agrees_sock_id p (si s) (si s')); [by apply H4 | apply Hf].
Qed.

Lemma infer_chain_wp E D skip l : forall s,
  buf_ok (d_buf D) -> env_ok E -> st_ok s ->
  wp (infer_chain E D skip l) s (fun r s' => st_ok s' /\ frame s s' /\
    match r with None => quiet s s' | Some pm => recognised E s pm end).
Proof.
  induction l as [| p l IH]; intros s Hb HE Hs; cbn [infer_chain].
  - apply wp_ret. auto using frame_refl, quiet_refl.
  - case_bool_decide; [by apply IH |]. apply wp_bind.
    eapply wp_mono; [by apply (infer_ok (E := E) (p := p)) |]. intros m s' [H1 H2 H3 H4 H5].
    case_bool_decide as Hm; cbn [negb].
    + eapply wp_mono; [by apply IH |]. intros r s'' (R1 & R2 & R3).
      split_and!; [done | by eapply frame_trans |].
      destruct r; [by eapply recognised_frame | eapply quiet_trans; eauto].
    + apply wp_ret. split_and!; [done.. |]. exists p, m. auto.
Qed.

(** The verdict of a stage run from [s] to [s']. *)
Inductive verdict (E : env) (s s' : st) : protocol_message -> Prop :=
| V_nothing : verdict E s s' nothing
| V_recognised pm : recognised E s pm -> verdict E s s' pm
| V_tls m : m <> MSG_UNKNOWN -> c_sk_type (ci s) <> SOCK_UNIX ->
    port_allowed E PROTO_TLS (ci s) = true -> verdict E s s' (mk_pm PROTO_TLS m)
| V_reasm p : c_enable_reasm (ci s') = true -> c_is_reasm_seg (ci s') = true ->
    p = default PROTO_UNKNOWN (s_l7_proto <$> si s) -> verdict E s s' (mk_pm p MSG_REQUEST)
| V_custom : c_protocol (ci s) = PROTO_CUSTOM -> verdict E s s' (mk_pm PROTO_CUSTOM MSG_REQUEST).

(** What every stage leaves alone. *)
Record same_conn (s s' : st) : Prop := {
  sc_tuple : c_tuple (ci s') = c_tuple (ci s);
  sc_sk_type : c_sk_type (ci s') = c_sk_type (ci s);
  sc_direction : c_direction (ci s') = c_direction (ci s);
  sc_protocol : c_protocol (ci s') = c_protocol (ci s);
  sc_type : c_message_type (ci s') = c_message_type (ci s);
  sc_fd : c_fd (ci s') = c_fd (ci s);
  sc_sk : c_sk (ci s') = c_sk (ci s);
  sc_sock : sock_id (si s') = sock_id (si s) }.

Definition stage_post (E : env) (s : st) (pm : protocol_message) (s' : st) : Prop :=
  st_ok s' /\ same_conn s s' /\ verdict E s s' pm.

Lemma frame_same_conn s s' : frame s s' -> same_conn s s'.
Proof. intros []. by constructor. Qed.
Lemma same_conn_refl s : same_conn s s.
Proof. done. Qed.
Lemma same_conn_trans s1 s2 s3 : same_conn s1 s2 -> same_conn s2 s3 -> same_conn s1 s3.
Proof. intros [] []. constructor; congruence. Qed.

Lemma l7_sock_id o o' : sock_id o' = sock_id o -> s_l7_proto <$> o' = s_l7_proto <$> o.
Proof. destruct o, o'; simpl; try done. by intros [= _ -> _]. Qed.

(** A verdict is one about every earlier state of the same connection. *)
Lemma verdict_same E s1 s2 s3 pm : same_conn s1 s2 -> verdict E s2 s3 pm -> verdict E s1 s3 pm.
Proof.
  intros [H1 H2 H3 H4 _ _ _ H5] [| pm' (p & m & R1 & R2 & R3 & R4) | m' | p |].
  - constructor.
  - apply V_recognised. exists p, m. unfold port_allowed in *. rewrite H1, H2 in R3.
    split_and!; try done. rewrite <- (agrees_sock_id p _ _ H5). done.
  - apply V_tls; [done | congruence |]. unfold port_allowed in *. by rewrite <- H1, <- H2.
  - apply V_reasm; try done. by rewrite <- (l7_sock_id _ _ H5).
  - apply V_custom. congruence.
Qed.

Lemma stage_nothing E s : st_ok s -> stage_post E s nothing s.
Proof. intros. split_and!; [done | done | constructor]. Qed.

Lemma reasm_segment_wp E s : st_ok s -> wp reasm_segment s (stage_post E s).
Proof.
  intros Hs. pose proof Hs as [H1 H2 H3 H4 H5 H6]. unfold reasm_segment.
  destruct (sock_cases s) as [[k Hk] | Hk]; wp_go; try by apply stage_nothing.
  all: rewrite Hk in *; simplify_eq/=.
  all: split_and!; [constructor; simpl; try done | constructor; simpl; try done | apply V_reasm];
       simpl; rewrite ?Hk; try done.
  intros ? [= <-]. exact (H6 k eq_refl).
Qed.

Section stages.
Context (E : env) (HE : env_ok E).

Lemma stage_trans s1 s2 s3 pm : same_conn s1 s2 -> stage_post E s2 pm s3 -> stage_post E s1 pm s3.
Proof.
  intros H (S1 & S2 & S3). split_and!; [done | by eapply same_conn_trans | by eapply verdict_same].
Qed.

(** A chain of routines and what follows it. *)
Lemma chain_stage_wp D skip l rest s :
  buf_ok (d_buf D) -> st_ok s -> (forall s', st_ok s' -> wp rest s' (stage_post E s')) ->
  wp (r ← infer_chain E D skip l; match r with Some pm => mret pm | None => rest end) s (stage_post E s).
Proof.
  intros Hb Hs Hrest. apply wp_bind.
  eapply wp_mono; [by apply infer_chain_wp |]. intros [pm |] s' (R1 & R2 & R3).
  - apply wp_ret. split_and!; [done | by apply frame_same_conn | by apply V_recognised].
  - eapply wp_mono; [by apply Hrest |]. intros pm s''. by apply stage_trans, frame_same_conn.
Qed.

Lemma infer_protocol_3_wp buf count s :
  buf_ok buf -> st_ok s -> wp (infer_protocol_3 E buf count) s (stage_post E s).
Proof.
  intros Hb Hs. unfold infer_protocol_3, saved_data, skip_proto. do 10 wp_step.
  apply chain_stage_wp; try done. intros. by apply reasm_segment_wp.
Qed.

Lemma infer_protocol_2_wp buf count s :
  buf_ok buf -> st_ok s -> wp (infer_protocol_2 E buf count) s (stage_post E s).
Proof.
  intros Hb Hs. unfold infer_protocol_2, saved_data, skip_proto. do 10 wp_step.
  apply chain_stage_wp; try done. intros s' Hs'. destruct (e_modern E).
  - by apply infer_protocol_3_wp.
  - by apply wp_ret, stage_nothing.
Qed.

Lemma slow_path_wp D skip s :
  buf_ok (d_buf D) -> st_ok s -> wp (slow_path E D skip) s (stage_post E s).
Proof.
  intros Hb Hs. unfold slow_path.
  apply chain_stage_wp; try done. intros s' Hs'. destruct (e_modern E).
  - by apply infer_protocol_2_wp.
  - by apply wp_ret, stage_nothing.
Qed.

(** The fast path recognises under the contract, or leaves a state the slow
    path can start from. *)
Lemma fast_path_wp D s :
  buf_ok (d_buf D) -> st_ok s ->
  wp (fast_path E D) s (fun r s' => st_ok s' /\ same_conn s s' /\
    match r with Some (inl pm) => recognised E s pm | _ => quiet s s' end).
Proof.
  intros Hb Hs. unfold fast_path. destruct (_ <? _).
  2: { apply wp_ret. auto using quiet_refl, same_conn_refl. }
  destruct (e_infer_cache E _) as [protocols |].
  2: { apply wp_ret. auto using quiet_refl, same_conn_refl. }
  apply wp_bind. eapply wp_mono; [by apply infer_ok |]. intros m s' [H1 H2 H3 H4 H5].
  apply frame_same_conn in H2 as H2'. case_bool_decide as Hm; cbn [negb].
  - destruct (H5 Hm) as (Q1 & r & u & q & Q2). wp_go. split_and!.
    + by destruct H1.
    + by destruct H2'.
    + split; [done |]. exists r, u, (protocols (u16 (u32 (e_pid_tgid E)))). simpl. by rewrite Q2.
  - apply wp_ret. split_and!; [done.. |]. eexists _, m. split; [reflexivity |]. auto.
Qed.

Lemma load_infer_buf_ok old args count :
  buf_ok old -> 0 <= count -> exists D, load_infer_buf E old args count = Some D /\
    buf_ok (d_buf D) /\ d_count D = count.
Proof.
  intros [Hl Hb] Hc. unfold load_infer_buf. destruct (i_vecs args).
  - destruct (infer_iovecs_copy_ok E old (i_iov args) count) as (g & -> & G1 & G2 & G3); try done.
    by eexists.
  - eexists. split; [done |]. split; [| done]. split; simpl.
    + apply (read_user_len E HE).
    + apply (read_user_bytes E HE).
Qed.
Lemma drop_msg_def : is_Some (drop_msg_by_comm E).
Proof.
  pose proof (comm_len E HE) as Hc. unfold drop_msg_by_comm.
  destruct (e_comm E) as [ret comm]. simpl in Hc. def.
Qed.

(** Fetching a prestored header keeps the connection and a well-formed state. *)
Lemma fetch_prev_wp s :
  st_ok s -> wp check_and_fetch_prev_data s (fun _ s' => st_ok s' /\ same_conn s s').
Proof.
  intros Hs. pose proof Hs as [H1 H2 H3 H4 H5 H6]. unfold check_and_fetch_prev_data.
  destruct (sock_cases s) as [[k Hk] | Hk].
  - destruct (H6 k Hk) as (K1 & K2 & K3).
    destruct (read_kernel_ok (c_prev_buf (ci s)) (s_prev_data k) EBPF_CACHE_SIZE)
      as (d & Hd & D1 & D2 & _); try done; [by rewrite H1 | by rewrite K1 |].
    wp_go; [| | done].
    + eapply wp_lift; [done |]. wp_go. split; constructor; simpl; rewrite ?Hk; try done; [congruence |].
      by intros ? [= <-].
    + split; constructor; simpl; rewrite ?Hk; try done. by intros ? [= <-].
  - wp_go. all: by rewrite Hk in *.
Qed.

Lemma set_reassembly_wp s :
  st_ok s -> wp (check_and_set_data_reassembly E) s (fun _ s' => st_ok s' /\ same_conn s s').
Proof.
  intros Hs. pose proof Hs as [H1 H2 H3 H4 H5 H6]. unfold check_and_set_data_reassembly.
  destruct (sock_cases s) as [[k Hk] | Hk]; wp_go; try done.
  all: by rewrite Hk in *.
Qed.

(** The TLS stage: a record of a TLS port, an abort, or nothing yet. *)
Lemma tls_stage_wp buf count source s :
  buf_ok buf -> st_ok s ->
  wp (tls_stage E buf count source) s (fun r s' => st_ok s' /\ same_conn s s' /\
    match r with Some (pm, _) => verdict E s s' pm | None => True end).
Proof.
  intros Hb Hs. unfold tls_stage.
  wp_go; try done; try discriminate.
  all: eapply wp_mono; [by apply infer_tls_wp |]; intros m s' [H1 H2 _ _ H5].
  all: apply frame_same_conn in H2.
  all: destruct (bool_decide_reflect (m = MSG_UNKNOWN)) as [Hm | Hm]; cbn [negb].
  - wp_go; (split_and!; [done | done | by constructor]).
  - apply wp_ret. split_and!; [done.. |].
    apply V_tls; [done | by apply Z.eqb_neq | done].
Qed.

(** The two paths after the TLS test. *)
Lemma paths_wp D s :
  buf_ok (d_buf D) -> st_ok s ->
  wp (if e_modern E then
        f ← fast_path E D;
        match f with
        | None => mret (nothing, -1)
        | Some (inl pm) => mret (pm, 0)
        | Some (inr skip) => pm ← slow_path E D (Some skip); mret (pm, 0)
        end
      else pm ← slow_path E D None; mret (pm, 0)) s (fun r s' => stage_post E s r.1 s').
Proof.
  intros Hb Hs. destruct (e_modern E).
  - apply wp_bind. eapply wp_mono; [by apply fast_path_wp |].
    intros [[pm | skip] |] s' (F1 & F2 & F3).
    + apply wp_ret. split_and!; [done.. | by apply V_recognised].
    + apply wp_bind. eapply wp_mono; [by apply slow_path_wp |]. intros pm s''. by apply stage_trans.
    + apply wp_ret. split_and!; [done.. | constructor].
  - apply wp_bind. by apply slow_path_wp.
Qed.

Lemma infer_protocol_1_wp old args count s :
  buf_ok old -> 0 <= count -> st_ok s ->
  wp (infer_protocol_1 E old args count) s (fun r s' => stage_post E s r.1 s').
Proof.
  intros Ho Hc Hs. unfold infer_protocol_1. pose proof drop_msg_def.
  destruct (load_infer_buf_ok old args count Ho Hc) as (D & HD & Hb & _).
  do 2 wp_step. apply wp_if; intros _; [by apply wp_ret, stage_nothing |].
  do 4 wp_step. apply wp_if; intros _; [by apply wp_ret, stage_nothing |].
  apply wp_bind. eapply wp_lift; [done |]. do 7 wp_step.
  match goal with |- wp _ ?s0 _ => assert (st_ok s0 /\ same_conn s s0) as [Hs0 Hsame0]
    by (split; [destruct Hs; by constructor | by constructor]); generalize dependent s0 end.
  intros s0 Hs0 Hsame0.
  eapply wp_mono; [by apply fetch_prev_wp |]. intros _ s1 [Hs1 Hsame1]. apply wp_bind.
  eapply wp_mono; [by apply set_reassembly_wp |]. intros _ s2 [Hs2 Hsame2].
  assert (same_conn s s2) as Hsame by eauto using same_conn_trans.
  clear s0 s1 Hs0 Hs1 Hsame0 Hsame1 Hsame2.
  eapply wp_mono; [| intros ? ?; by apply stage_trans]. repeat wp_step.
  { split_and!; [done | done |]. apply V_custom. by case_bool_decide. }
  eapply wp_mono; [by apply tls_stage_wp |]. intros [[pm e] |] s3 (T1 & T2 & T3); [by apply wp_ret |].
  eapply wp_mono; [by apply paths_wp |]. intros r s4. by apply stage_trans.
Qed.
End stages.

Lemma run_stage {A} (m : I A) s (f : A -> protocol_message) E a s' :
  m s = Some (a, s') -> wp m s (fun a s' => stage_post E s (f a) s') -> stage_post E s (f a) s'.
Proof. intros H1 H2. exact (wp_run _ _ _ _ _ H1 H2). Qed.

(** The port of a verdict other than reassembly or a custom protocol. *)
Lemma verdict_port E s s' pm :
  verdict E s s' pm -> pm_protocol pm <> PROTO_UNKNOWN -> c_protocol (ci s) <> PROTO_CUSTOM ->
  c_is_reasm_seg (ci s') = false -> port_allowed E (pm_protocol pm) (ci s) = true.
Proof.
  intros [| pm' (p & m & -> & R2 & R3 & R4) | m' | p |] Hp Hc Hr; try done; [| congruence].
  unfold result_of in *. destruct (_ && _); done.
Qed.

Lemma agrees_valid p k :
  is_infer_socket_valid (Some k) = true -> agrees p (Some k) = true -> p = s_l7_proto k.
Proof. intros Hv. unfold agrees. rewrite Hv. simpl. by intros ->%bool_decide_eq_true. Qed.

(** The protocol of a verdict on a socket that has one. *)
Lemma verdict_sticky E s s' pm k :
  verdict E s s' pm -> si s = Some k -> is_infer_socket_valid (Some k) = true ->
  pm_type pm <> MSG_UNKNOWN -> pm_type pm <> MSG_PRESTORE -> c_protocol (ci s) <> PROTO_CUSTOM ->
  pm_protocol pm = s_l7_proto k \/
  pm_protocol pm = PROTO_TLS /\ c_sk_type (ci s) <> SOCK_UNIX /\ port_allowed E PROTO_TLS (ci s) = true.
Proof.
  intros [| pm' (p & m & -> & R2 & R3 & R4) | m' | p |] Hk Hv Ht1 Ht2 Hc; try done; [| by right |].
  - left. unfold result_of in *. destruct (bool_decide_reflect (m = MSG_PRESTORE)) as [-> | Hm].
    + simpl in *. by destruct (bare_prestore p).
    + simpl in *. rewrite Hk in R4. by apply agrees_valid, R4.
  - left. simpl. subst. by rewrite Hk.
Qed.

(** C11: Protocol inference is total and memory safe: from every well-formed
    state, for every system call and whatever the inference buffer held before,
    the first stage returns (no access outside an object, no NULL pointer
    followed in any of the 26 routines it may run), keeps the state well formed
    and leaves the tuple, the direction and the identity of the socket alone. *)
Theorem infer_protocol_1_total E old args count s :
  env_ok E -> buf_ok old -> 0 <= count -> st_ok s ->
  exists r s', infer_protocol_1 E old args count s = Some (r, s') /\ st_ok s' /\ same_conn s s'.
Proof.
  intros HE Ho Hc Hs. pose proof (infer_protocol_1_wp E HE old args count s Ho Hc Hs) as Hwp.
  apply wp_total in Hwp as (r & s' & Hr & H1 & H2 & _). eauto.
Qed.

(** C12: the first stage respects the configuration. Let it give a protocol for data on
    a connection that is not one of a user-defined protocol, and the data not be a segment
    of a message under reassembly, which is given the protocol of its socket. Then the
    protocol is enabled, and the socket is a unix socket or one of the two ports of the
    connection is in the bitmap of the protocol. *)
Theorem infer_protocol_1_gate E old args count s pm err s' :
  env_ok E -> buf_ok old -> 0 <= count -> st_ok s ->
  infer_protocol_1 E old args count s = Some ((pm, err), s') ->
  pm_protocol pm <> PROTO_UNKNOWN -> c_protocol (ci s) <> PROTO_CUSTOM ->
  c_is_reasm_seg (ci s') = false -> port_allowed E (pm_protocol pm) (ci s) = true.
Proof.
  intros HE Ho Hc Hs Hr. pose proof (infer_protocol_1_wp E HE old args count s Ho Hc Hs) as Hwp.
  destruct (run_stage _ _ fst _ _ _ Hr Hwp) as (_ & _ & Hv). by apply verdict_port with (s' := s').
Qed.

(** C13: A socket keeps its protocol: on a socket already known to speak [p],
    data is recognised as [p] or not at all, except that a TLS record on a port
    configured for TLS is recognised as TLS. *)
Theorem infer_protocol_1_sticky E old args count s k pm err s' :
  env_ok E -> buf_ok old -> 0 <= count -> st_ok s ->
  si s = Some k -> is_infer_socket_valid (si s) = true -> c_protocol (ci s) <> PROTO_CUSTOM ->
  infer_protocol_1 E old args count s = Some ((pm, err), s') ->
  pm_type pm <> MSG_UNKNOWN -> pm_type pm <> MSG_PRESTORE ->
  pm_protocol pm = s_l7_proto k \/
  pm_protocol pm = PROTO_TLS /\ c_sk_type (ci s) <> SOCK_UNIX /\ port_allowed E PROTO_TLS (ci s) = true.
Proof.
  intros HE Ho Hc Hs Hk Hv Hcust Hr H1 H2. rewrite Hk in Hv.
  pose proof (infer_protocol_1_wp E HE old args count s Ho Hc Hs) as Hwp.
  destruct (run_stage _ _ fst _ _ _ Hr Hwp) as (_ & _ & Hverd). by eapply verdict_sticky.
Qed.

(** What the programs of the stages leave alone. *)
Record same_socket (s s' : st) : Prop := {
  ss_tuple : c_tuple (ci s') = c_tuple (ci s);
  ss_sk_type : c_sk_type (ci s') = c_sk_type (ci s);
  ss_direction : c_direction (ci s') = c_direction (ci s);
  ss_fd : c_fd (ci s') = c_fd (ci s);
  ss_sk : c_sk (ci s') = c_sk (ci s);
  ss_sock : sock_id (si s') = sock_id (si s) }.
Lemma same_conn_socket s s' : same_conn s s' -> same_socket s s'.
Proof. intros []. by constructor. Qed.

Lemma l7_class_end_wp E pm u s0 s :
  u <> INFER_FINISH -> stage_post E s0 pm s -> wp (l7_class_end pm u) s (fun r s' =>
    st_ok s' /\ sock_id (si s') = sock_id (si s0) /\
    (r = INFER_FINISH -> exists s1, verdict E s0 s1 (mk_pm (c_protocol (ci s')) (c_message_type (ci s')))) /\
    (r <> INFER_FINISH -> pm = nothing /\ c_protocol (ci s') = PROTO_UNKNOWN) /\
    same_socket s0 s' /\ (r <> INFER_FINISH -> c_message_type (ci s') = c_message_type (ci s0))).
Proof.
  intros Hu (Hs & Hsame & Hv). unfold l7_class_end.
  destruct (bool_decide_reflect (pm_protocol pm = PROTO_UNKNOWN)),
    (bool_decide_reflect (pm_type pm = MSG_UNKNOWN)); cbn [andb]; wp_go.
  all: split_and!; [destruct Hs; by constructor | apply Hsame | | | destruct Hsame; by constructor | ]; try intros Hr; simpl; try done.
  all: try apply Hsame; destruct pm; simpl in *; subst; eauto.
Qed.

Lemma infer_l7_class_1_wp E old args count s :
  env_ok E -> buf_ok old -> 0 <= count -> st_ok s -> wp (infer_l7_class_1 E old args count) s (fun r s' =>
    st_ok s' /\ same_socket s s' /\
    (r = INFER_FINISH -> exists s1, verdict E s s1 (mk_pm (c_protocol (ci s')) (c_message_type (ci s')))) /\
    (r = INFER_CONTINUE -> c_protocol (ci s') = PROTO_UNKNOWN /\ c_message_type (ci s') = c_message_type (ci s))).
Proof.
  intros HE Ho Hc Hs. unfold infer_l7_class_1. apply wp_bind.
  eapply wp_mono; [by apply infer_protocol_1_wp |]. intros [pm err] s' Hp. simpl in Hp. destruct (err =? -1).
  - apply wp_ret. destruct Hp as (P1 & P2 & _). split_and!; try done. by apply same_conn_socket.
  - eapply wp_mono; [by eapply l7_class_end_wp |]. intros r s'' (Q1 & Q2 & Q3 & Q4 & Q5 & Q6).
    split_and!; try done. intros ->. split; [by apply Q4 | by apply Q6].
Qed.

(** What the program of a stage makes of the verdict [pm] of the stage: without one the
    protocol of the connection is unknown and the result is [unknown]; with one the
    inference is finished and the connection has its protocol and message type. *)
Definition classified (E : env) (s s1 : st) (pm : protocol_message) (unknown r : infer_result) (s' : st) : Prop :=
  st_ok s' /\ same_socket s s' /\
  (pm = nothing -> r = unknown /\ c_protocol (ci s') = PROTO_UNKNOWN /\ c_message_type (ci s') = c_message_type (ci s)) /\
  (pm <> nothing -> r = INFER_FINISH /\ c_protocol (ci s') = pm_protocol pm /\ c_message_type (ci s') = pm_type pm /\
     verdict E s s1 pm).

Lemma l7_class_end_run E pm u s s1 : stage_post E s pm s1 ->
  exists r s', l7_class_end pm u s1 = Some (r, s') /\ classified E s s1 pm u r s'.
Proof.
  intros (Hs & Hsame & Hv). unfold l7_class_end, classified.
  assert (st_ok s1 -> forall c', c_prev_buf c' = c_prev_buf (ci s1) -> c_prev_count c' = c_prev_count (ci s1) ->
    c_tuple c' = c_tuple (ci s1) -> st_ok (s1 <| ci := c' |>)) as Hok.
  { intros [] c' E1 E2 E3. by constructor; cbn; rewrite ?E1, ?E2, ?E3. }
  destruct (bool_decide_reflect (pm_protocol pm = PROTO_UNKNOWN)) as [E1 | E1],
    (bool_decide_reflect (pm_type pm = MSG_UNKNOWN)) as [E2 | E2]; cbn [andb].
  1: { eexists _, _. split; [reflexivity |]. split; [by apply Hok |]. split; [destruct Hsame; by constructor |].
       split; [intros _; split_and!; try done; apply Hsame |]. intros []. destruct pm. by cbn in *; subst. }
  all: eexists _, _; split; [reflexivity |]; split; [by apply Hok |]; split; [destruct Hsame; by constructor |]; split; [by intros -> |].
  all: intros _; split_and!; try done; by destruct pm.
Qed.

(** C29: the programs of the three stages do what their stage finds. Each returns, and
    leaves the tuple, the descriptor, the direction and the identity of the socket
    alone. Data without a verdict leaves the protocol unknown and the message type as
    it was, and the result is that the next stage goes on, or after the third stage that
    the inference ends; data with a verdict, which is one that the stage may give for
    this connection, sets the protocol and the message type and finishes the inference.
    When the first stage reports that the data cannot be classified, the inference ends. *)
Theorem infer_l7_class_spec E old data args count s :
  env_ok E -> buf_ok old -> buf_ok data -> 0 <= count -> st_ok s ->
  (exists pm err s1 r s', infer_protocol_1 E old args count s = Some ((pm, err), s1) /\
     infer_l7_class_1 E old args count s = Some (r, s') /\ (err = -1 -> r = INFER_TERMINATE /\ s' = s1) /\
     (err <> -1 -> classified E s s1 pm INFER_CONTINUE r s')) /\
  (exists pm s1 r s', infer_protocol_2 E data (c_count (ci s)) s = Some (pm, s1) /\
     infer_l7_class_2 E data s = Some (r, s') /\ classified E s s1 pm INFER_CONTINUE r s') /\
  (exists pm s1 r s', infer_protocol_3 E data (c_count (ci s)) s = Some (pm, s1) /\
     infer_l7_class_3 E data s = Some (r, s') /\ classified E s s1 pm INFER_TERMINATE r s').
Proof.
  intros HE Ho Hd Hc Hs. split; [| split].
  - pose proof (infer_protocol_1_wp E HE old args count s Ho Hc Hs) as H. apply wp_total in H as ([pm err] & s1 & Hrun & Hp).
    exists pm, err, s1. unfold infer_l7_class_1, mbind, M_bind. rewrite Hrun. destruct (Z.eqb_spec err (-1)) as [He | He].
    + by exists INFER_TERMINATE, s1.
    + destruct (l7_class_end_run E pm INFER_CONTINUE s s1 Hp) as (r & s' & -> & Hcl). by exists r, s'.
  - pose proof (infer_protocol_2_wp E HE data (c_count (ci s)) s Hd Hs) as H. apply wp_total in H as (pm & s1 & Hrun & Hp).
    destruct (l7_class_end_run E pm INFER_CONTINUE s s1 Hp) as (r & s' & He & Hcl). exists pm, s1, r, s'. split_and!; try done.
    unfold infer_l7_class_2, cget, gets, mbind, M_bind. by rewrite Hrun.
  - pose proof (infer_protocol_3_wp E HE data (c_count (ci s)) s Hd Hs) as H. apply wp_total in H as (pm & s1 & Hrun & Hp).
    destruct (l7_class_end_run E pm INFER_TERMINATE s s1 Hp) as (r & s' & He & Hcl). exists pm, s1, r, s'. split_and!; try done.
    unfold infer_l7_class_3, cget, gets, mbind, M_bind. by rewrite Hrun.
Qed.

(** ** Witnesses *)

Definition GET_index : list Z := str "GET /index.html HTTP/1.1" ++ [13; 10] ++ str "Host: localhost" ++ [13; 10; 13; 10].
Definition http_env : env := example_env (str "curl") [(4096, GET_index)].
Definition http_args : infer_args := mk_args 4096 (mk_iov_args 0 0) false DATA_SOURCE_SYSCALL.
Definition known_http : st := (example_st T_EGRESS) <| si := Some (example_sock PROTO_HTTP1) |>.

Lemma http_env_ok : env_ok http_env.
Proof. apply example_env_ok, Forall_singleton. by apply bytes_okb. Qed.

Lemma infer_protocol_1_total_witness :
  exists r s', infer_protocol_1 http_env (replicate 64 0) http_args 45 (example_st T_EGRESS) = Some (r, s')
    /\ st_ok s' /\ same_conn (example_st T_EGRESS) s'.
Proof.
  apply infer_protocol_1_total;
    [apply http_env_ok | apply example_buf_ok | lia | apply example_st_ok].
Defined.

Lemma infer_protocol_1_gate_witness :
  exists pm err s', infer_protocol_1 http_env (replicate 64 0) http_args 45 (example_st T_EGRESS)
      = Some ((pm, err), s') /\ pm = mk_pm PROTO_HTTP1 MSG_REQUEST /\
    port_allowed http_env (pm_protocol pm) (ci (example_st T_EGRESS)) = true.
Proof.
  eexists _, _, _. split; [vm_compute; reflexivity |]. split; [reflexivity |].
  eapply (infer_protocol_1_gate http_env (replicate 64 0) http_args 45 (example_st T_EGRESS));
    [apply http_env_ok | apply example_buf_ok | lia | apply example_st_ok
    | vm_compute; reflexivity | discriminate | discriminate | reflexivity].
Defined.

Lemma infer_protocol_1_sticky_witness :
  exists pm err s', infer_protocol_1 http_env (replicate 64 0) http_args 45 known_http
      = Some ((pm, err), s') /\
    (pm_protocol pm = s_l7_proto (example_sock PROTO_HTTP1) \/
     pm_protocol pm = PROTO_TLS /\ c_sk_type (ci known_http) <> SOCK_UNIX /\
       port_allowed http_env PROTO_TLS (ci known_http) = true).
Proof.
  eexists _, _, _. split; [vm_compute; reflexivity |].
  eapply (infer_protocol_1_sticky http_env (replicate 64 0) http_args 45 known_http (example_sock PROTO_HTTP1));
    [apply http_env_ok | apply example_buf_ok | lia | apply example_known_ok | reflexivity
    | reflexivity | discriminate | vm_compute; reflexivity | discriminate | discriminate].
Defined.

Lemma infer_l7_class_spec_witness :
  let data := replicate 64 0 in let s := known_http in
  (exists pm err s1 r s', infer_protocol_1 http_env data http_args 45 s = Some ((pm, err), s1) /\
     infer_l7_class_1 http_env data http_args 45 s = Some (r, s') /\ (err = -1 -> r = INFER_TERMINATE /\ s' = s1) /\
     (err <> -1 -> classified http_env s s1 pm INFER_CONTINUE r s')) /\
  (exists pm s1 r s', infer_protocol_2 http_env data (c_count (ci s)) s = Some (pm, s1) /\
     infer_l7_class_2 http_env data s = Some (r, s') /\ classified http_env s s1 pm INFER_CONTINUE r s') /\
  (exists pm s1 r s', infer_protocol_3 http_env data (c_count (ci s)) s = Some (pm, s1) /\
     infer_l7_class_3 http_env data s = Some (r, s') /\ classified http_env s s1 pm INFER_TERMINATE r s').
Proof.
  apply infer_l7_class_spec;
    [apply http_env_ok | apply example_buf_ok | apply example_buf_ok | lia | apply example_known_ok].
Defined.
