(* ===== verification/PortConfig.v ===== *)
(** * Configured ports

    [parse_num_range_disorder] and [parse_num_range] of user/utils.c and
    [set_protocol_ports_bitmap] of user/socket.c: a configuration string such
    as "80,443,8000-8099" becomes a mask and then the bitmap the kernel tests.
    Printing a list of ranges and parsing it back gives the set of its ports,
    down to the port check of protocol inference. *)

From S2P Require Import Prelude Bitmap Conn InferBase.

(** ** [sscanf(s, "%d%n-%d%n", &start, &len, &end, &len)] *)

Definition is_space (c : Z) : bool := (c =? 32) || ((9 <=? c) && (c <=? 13)).
Definition is_digit (c : Z) : bool := (48 <=? c) && (c <=? 57).

(** The digits at the head of [s]: the value with [acc] in front of them, and
    how many there are. *)
Fixpoint scan_digits (s : list Z) (acc : Z) : Z * nat :=
  match s with
  | c :: s => if is_digit c then let '(v, n) := scan_digits s (10 * acc + (c - 48)) in (v, S n)
              else (acc, O)
  | [] => (acc, O)
  end.

Fixpoint skip_space (s : list Z) : nat :=
  match s with c :: s => if is_space c then S (skip_space s) else O | [] => O end.

(** [%d]: blanks, a sign, digits; the value goes through [long] to [int]. *)
Definition to_int (v : Z) : Z := s32 (Z.max (- 2 ^ 63) (Z.min (2 ^ 63 - 1) v)).
Definition scan_d (s : list Z) : option (Z * nat) :=
  let ws := skip_space s in
  let s := drop ws s in
  let '(neg, sg) := match s with
                    | c :: _ => if c =? 45 then (true, 1%nat) else if c =? 43 then (false, 1%nat)
                                else (false, O)
                    | [] => (false, O)
                    end in
  let '(v, n) := scan_digits (drop sg s) 0 in
  if (n =? 0)%nat then None else Some (to_int (if neg : bool then - v else v), (ws + sg + n)%nat).

(** The number of conversions with [start], [end] and [len]; [end] and [len]
    keep the value they had when they are not assigned. *)
Definition sscanf_range (s : list Z) (end0 : Z) : option (Z * Z * Z * nat) :=
  match scan_d s with
  | None => None
  | Some (start, len) =>
      match drop len s with
      | c :: s' =>
          if c =? 45 then
            match scan_d s' with
            | Some (e, n) => Some (2, start, e, (len + 1 + n)%nat)
            | None => Some (1, start, end0, len)
            end
          else Some (1, start, end0, len)
      | [] => Some (1, start, end0, len)
      end
  end.

(** ** [parse_num_range_disorder] *)

Definition PORT_NUM_MAX : Z := 65536.

(** [memset(tmp + start, v, n)] on an array of booleans. *)
Definition memset (tmp : list bool) (start : Z) (v : bool) (n : Z) : option (list bool) :=
  if n <=? 0 then Some tmp
  else if (0 <=? start) && (start + n <=? Z.of_nat (length tmp))
  then Some (take (Z.to_nat start) tmp ++ replicate (Z.to_nat n) v ++ drop (Z.to_nat (start + n)) tmp)
  else None.

Definition is_sep (c : Z) : bool := (c =? 44) || (c =? 10) || (c =? 32).

(** How a loop ends: with the mask, at the label [failed], with a write outside the
    array, or not within the iterations it was given. *)
Inductive parse_result := Masked (mask : list bool) | Failed | Overrun | Unfinished.

(** The loop on what is left of the string, with [fuel] iterations left. *)
Fixpoint disorder_loop (fuel : nat) (s : list Z) (tmp : list bool) (end0 : Z) : parse_result :=
  match s, fuel with
  | [], _ => Masked tmp
  | _ :: _, O => Unfinished
  | c :: s', S fuel =>
      if is_sep c then disorder_loop fuel s' tmp end0 else
      match sscanf_range s end0 with
      | None => Failed
      | Some (n, start, e, len) =>
          let e := if n =? 1 then start else e in
          if (start <? 0) || (e <? start) then Failed else
          match memset tmp start true (e - start + 1) with
          | Some tmp => disorder_loop fuel (drop len s) tmp e
          | None => Overrun
          end
      end
  end.

(** The array after [malloc] and [memset]. *)
Definition empty_mask : list bool := replicate (Z.to_nat PORT_NUM_MAX) false.

(** [Some (Some mask)] is the result 0 with [*mask], [Some None] the label [failed].
    [None] is a write outside the array: that the loop is not finished after as many
    iterations as the string has characters does not happen. *)
Definition parse_num_range_disorder (config_str : list Z) : option (option (list bool)) :=
  if (length config_str =? 0)%nat then Some None else
  match disorder_loop (length config_str) config_str empty_mask (-1) with
  | Masked mask => Some (Some mask)
  | Failed => Some None
  | Overrun | Unfinished => None
  end.

(** ** [parse_num_range] *)

(** The mask of [*count] entries grows to the end of each range. *)
Fixpoint range_loop (fuel : nat) (s : list Z) (mask : list bool) (end0 : Z) : parse_result :=
  match s, fuel with
  | [], _ => Masked mask
  | _ :: _, O => Unfinished
  | c :: s', S fuel =>
      if is_sep c then range_loop fuel s' mask end0 else
      match sscanf_range s end0 with
      | None => Failed
      | Some (n, start, e, len) =>
          let e := if n =? 1 then start else e in
          let count := Z.of_nat (length mask) in
          if (start <? 0) || (e <? start) || (start <=? count - 1) then Failed else
          range_loop fuel (drop len s)
            (mask ++ replicate (Z.to_nat (start - count)) false
                  ++ replicate (Z.to_nat (e - start + 1)) true) e
      end
  end.

(** [*mask] of [*count] entries, from an empty one. *)
Definition parse_num_range (config_str : list Z) : option (list bool) :=
  match range_loop (length config_str) config_str [] (-1) with
  | Masked mask => if (length mask =? 0)%nat then None else Some mask
  | _ => None
  end.

(** ** [__set_protocol_ports_bitmap] *)

(** [map->bitmap[i / 8] |= 1 << (i % 8)]. *)
Definition set_port (map : list Z) (i : Z) : option (list Z) :=
  x ← rd8 map (i / 8);
  Some (<[Z.to_nat (i / 8) := u8 (Z.lor x (Z.shiftl 1 (i mod 8)))]> map).

(** The loop over the ports from [i] on, [n] of them. *)
Fixpoint fill_ports (allow_ports : list bool) (map : list Z) (i : Z) (n : nat) : option (list Z) :=
  match n with
  | O => Some map
  | S n =>
      allowed ← allow_ports !! Z.to_nat i;
      map ← (if allowed : bool then set_port map i else Some map);
      fill_ports allow_ports map (i + 1) n
  end.

(** The map after [memset(map, 0, sizeof( *map))]. *)
Definition empty_bitmap : list Z := replicate (Z.to_nat BITMAP_BYTES) 0.

Definition __set_protocol_ports_bitmap (allow_ports : list bool) : option (list Z) :=
  fill_ports allow_ports empty_bitmap 0 (Z.to_nat PORT_NUM_MAX).

(** [set_protocol_ports_bitmap]: the new bitmap of the protocol; [Some None] is
    the result -1, where the old one stays. *)
Definition set_protocol_ports_bitmap (ports : list Z) : option (option (list Z)) :=
  r ← parse_num_range_disorder ports;
  match r with
  | None => Some None
  | Some allow_ports => map ← __set_protocol_ports_bitmap allow_ports; Some (Some map)
  end.

(** ** Printing ranges *)

Fixpoint dec (fuel : nat) (n : Z) : list Z :=
  match fuel with
  | O => []
  | S fuel => if n <? 10 then [48 + n] else dec fuel (n / 10) ++ [48 + n mod 10]
  end.
(** A port in decimal: at most 5 digits. *)
Definition dec_port (n : Z) : list Z := dec 5 n.
Definition print_range (r : Z * Z) : list Z :=
  let '(a, b) := r in if a =? b then dec_port a else dec_port a ++ [45] ++ dec_port b.
Fixpoint print_ranges (l : list (Z * Z)) : list Z :=
  match l with
  | [] => []
  | [r] => print_range r
  | r :: l => print_range r ++ [44] ++ print_ranges l
  end.

Definition range_ok (r : Z * Z) : Prop := 0 <= r.1 <= r.2 /\ r.2 < PORT_NUM_MAX.
Definition in_range (p : Z) (r : Z * Z) : bool := (r.1 <=? p) && (p <=? r.2).

(** What follows a number in a printed list is not a digit. *)
Definition stops (rest : list Z) : Prop :=
  match rest with [] => True | c :: _ => is_digit c = false end.

Lemma scan_stop rest acc : stops rest -> scan_digits rest acc = (acc, O).
Proof. destruct rest as [| c rest]; simpl; [done |]. by intros ->. Qed.

Lemma scan_app f n : forall rest acc,
  0 <= n < 10 ^ Z.of_nat f -> (0 < f)%nat ->
  scan_digits (dec f n ++ rest) acc =
  let '(v, k) := scan_digits rest (acc * 10 ^ Z.of_nat (length (dec f n)) + n) in
  (v, (length (dec f n) + k)%nat).
Proof.
  revert n. induction f as [| f IH]; intros n rest acc Hn Hf; [lia |]. cbn [dec].
  destruct (Z.ltb_spec n 10) as [Hs |].
  - simpl. unfold is_digit.
    rewrite (proj2 (Z.leb_le 48 (48 + n))), (proj2 (Z.leb_le (48 + n) 57)) by lia. simpl.
    replace (10 * acc + (48 + n - 48)) with (acc * 10 ^ 1 + n) by lia. done.
  - rewrite Nat2Z.inj_succ, Z.pow_succ_r in Hn by lia.
    assert (0 < f)%nat by (destruct f; [simpl in Hn; lia | lia]).
    assert (0 <= n / 10 < 10 ^ Z.of_nat f) by
      (split; [apply Z.div_pos; lia | apply Z.div_lt_upper_bound; lia]).
    assert (0 <= n mod 10 < 10) as Hm by (apply Z.mod_pos_bound; lia).
    rewrite <- app_assoc, IH by done. simpl. unfold is_digit at 1.
    rewrite (proj2 (Z.leb_le 48 _)), (proj2 (Z.leb_le _ 57)) by lia. simpl.
    rewrite length_app, Nat2Z.inj_add, Z.pow_add_r by lia. simpl.
    replace (10 * (acc * 10 ^ Z.of_nat (length (dec f (n / 10))) + n / 10) + (48 + n mod 10 - 48))
      with (acc * (10 ^ Z.of_nat (length (dec f (n / 10))) * 10) + n)
      by (pose proof (Z.div_mod n 10 ltac:(lia)); lia).
    destruct (scan_digits rest _) as [v k]. f_equal. lia.
Qed.

Lemma dec_head f n : 0 <= n -> (0 < f)%nat -> exists c l, dec f n = c :: l /\ 48 <= c.
Proof.
  revert n. induction f as [| f IH]; intros n Hn Hf; [lia |]. cbn [dec].
  destruct (Z.ltb_spec n 10); [eexists _, _; split; [done | lia] |].
  pose proof (Z.mod_pos_bound n 10 ltac:(lia)).
  destruct f as [| f]; [eexists _, _; split; [done | lia] |].
  destruct (IH (n / 10)) as (c & l & -> & Hc); [apply Z.div_pos; lia | lia |].
  by eexists _, _.
Qed.

Lemma scan_d_digits f n rest :
  0 <= n < 10 ^ Z.of_nat f -> (0 < f)%nat -> n < 2 ^ 31 -> stops rest ->
  scan_d (dec f n ++ rest) = Some (n, length (dec f n)).
Proof.
  intros Hn Hf Hi Hr. unfold scan_d.
  destruct (dec_head f n) as (c & l & Hd & Hc); [lia | lia |].
  assert (skip_space (dec f n ++ rest) = O) as ->.
  { rewrite Hd. simpl. unfold is_space. destruct (Z.eqb_spec c 32); [lia |].
    destruct (Z.leb_spec c 13); [lia |]. by rewrite andb_false_r. }
  rewrite drop_0.
  assert (match dec f n ++ rest with
          | c :: _ => if c =? 45 then (true, 1%nat) else if c =? 43 then (false, 1%nat) else (false, O)
          | [] => (false, O) end = (false, O)) as ->.
  { rewrite Hd. simpl. destruct (Z.eqb_spec c 45), (Z.eqb_spec c 43); lia || done. }
  rewrite drop_0, scan_app by done. rewrite scan_stop by done.
  rewrite Z.mul_0_l, Z.add_0_l, Nat.add_0_r.
  assert (length (dec f n) <> 0%nat) as Hl by (by rewrite Hd).
  destruct (Nat.eqb_spec (length (dec f n)) 0); [done |]. simpl.
  unfold to_int. rewrite Z.min_r, Z.max_r by lia. by rewrite swrap_small by lia.
Qed.

Lemma scan_d_dec n rest :
  0 <= n < PORT_NUM_MAX -> stops rest ->
  scan_d (dec_port n ++ rest) = Some (n, length (dec_port n)).
Proof. unfold PORT_NUM_MAX. intros. apply scan_d_digits; simpl; done || lia. Qed.

(** The rest of a printed list after a range. *)
Definition after (rest : list Z) : Prop := match rest with [] => True | c :: _ => c = 44 end.

Lemma after_stops rest : after rest -> stops rest.
Proof. destruct rest; simpl; [done |]. by intros ->. Qed.

Lemma sscanf_print a b rest e0 :
  range_ok (a, b) -> after rest ->
  exists n e, sscanf_range (print_range (a, b) ++ rest) e0 = Some (n, a, e, length (print_range (a, b))) /\
    (if n =? 1 then a else e) = b.
Proof.
  intros [H1 H2] Hr. simpl in *. unfold sscanf_range. apply after_stops in Hr as Hs.
  destruct (Z.eqb_spec a b) as [-> | Hne].
  - rewrite scan_d_dec, drop_app_length by (done || lia). exists 1, e0. split; [| done].
    destruct rest as [| c rest]; [done |]. simpl in Hr. by subst c.
  - rewrite <- app_assoc, scan_d_dec, drop_app_length by (done || lia). simpl.
    rewrite scan_d_dec by (done || lia). exists 2, b. split; [| done].
    rewrite length_app. simpl. by rewrite <- Nat.add_assoc.
Qed.

Lemma memset_spec (tmp : list bool) start n :
  0 <= start -> 0 < n -> start + n <= Z.of_nat (length tmp) ->
  exists tmp', memset tmp start true n = Some tmp' /\ length tmp' = length tmp /\
    forall i, 0 <= i < Z.of_nat (length tmp) ->
      tmp' !!! Z.to_nat i = ((start <=? i) && (i <? start + n)) || tmp !!! Z.to_nat i.
Proof.
  intros H1 H2 H3. unfold memset. destruct (Z.leb_spec n 0); [lia |].
  rewrite (proj2 (Z.leb_le 0 start)), (proj2 (Z.leb_le _ _) H3) by done. simpl.
  eexists. split; [done |].
  assert (length (take (Z.to_nat start) tmp) = Z.to_nat start) as Ht by (rewrite length_take; lia).
  split; [rewrite !length_app, Ht, length_replicate, length_drop; lia |].
  intros i Hi. destruct (Z.leb_spec start i), (Z.ltb_spec i (start + n)); simpl.
  - rewrite lookup_total_app_r by lia. rewrite lookup_total_app_l by (rewrite length_replicate; lia).
    apply lookup_total_replicate_2. lia.
  - rewrite lookup_total_app_r by lia. rewrite lookup_total_app_r by (rewrite length_replicate; lia).
    rewrite lookup_total_drop, length_replicate, Ht. f_equal. lia.
  - rewrite lookup_total_app_l by lia. by rewrite lookup_total_take, decide_True by lia.
  - lia.
Qed.

(** A mask over the ports and the set it stands for. *)
Definition mask_ok (tmp : list bool) : Prop := Z.of_nat (length tmp) = PORT_NUM_MAX.
Definition masks (tmp : list bool) (f : Z -> bool) : Prop :=
  mask_ok tmp /\ forall p, port_ok p -> tmp !!! Z.to_nat p = f p.

Lemma dec_port_length n : 0 <= n < PORT_NUM_MAX -> (0 < length (dec_port n))%nat.
Proof. intros Hn. destruct (dec_head 5 n) as (c & l & H & _); [lia.. |]. unfold dec_port. rewrite H. simpl. lia. Qed.

Lemma print_range_head r : range_ok r -> exists c l, print_range r = c :: l /\ 48 <= c.
Proof.
  intros [H1 H2]. destruct r as [a b]. simpl in *.
  destruct (dec_head 5 a) as (c & l & Hd & Hc); [lia | lia |]. unfold dec_port. rewrite Hd.
  destruct (a =? b); by eexists _, _.
Qed.

Lemma not_sep c : 48 <= c -> is_sep c = false.
Proof. intros. unfold is_sep. destruct (Z.eqb_spec c 44), (Z.eqb_spec c 10), (Z.eqb_spec c 32); lia || done. Qed.

(** One printed range consumed by the loop. *)
Lemma disorder_step fuel r rest tmp e0 f :
  range_ok r -> after rest -> masks tmp f -> (0 < fuel)%nat ->
  exists tmp', disorder_loop fuel (print_range r ++ rest) tmp e0 =
      disorder_loop (fuel - 1) rest tmp' r.2 /\
    masks tmp' (fun p => in_range p r || f p).
Proof.
  intros Hr Hrest [Hl Hm] Hf. unfold mask_ok in Hl. destruct fuel as [| fuel]; [lia |].
  destruct (print_range_head r Hr) as (c & l & Hc & Hge).
  destruct r as [a b]. destruct (sscanf_print a b rest e0 Hr Hrest) as (n & e & Hs & He).
  destruct Hr as [H1 H2]. simpl in H1, H2.
  destruct (memset_spec tmp a (b - a + 1)) as (tmp' & Ht & Hl' & Hm'); [lia.. |].
  exists tmp'. split.
  - cbn [disorder_loop]. rewrite Hc in Hs |- *. simpl app in *. cbn [disorder_loop].
    rewrite not_sep by done. rewrite Hs, He.
    destruct (Z.ltb_spec a 0), (Z.ltb_spec b a); [lia.. |]. simpl orb. cbv iota.
    rewrite Ht. rewrite Nat.sub_succ, Nat.sub_0_r.
    change (c :: l ++ rest) with ((c :: l) ++ rest). by rewrite drop_app_length.
  - split; [unfold mask_ok; lia |]. intros p Hp. unfold port_ok, PORT_NUM_MAX in *.
    rewrite Hm' by lia. rewrite Hm by done. unfold in_range. simpl.
    f_equal. f_equal. destruct (Z.ltb_spec p (a + (b - a + 1))), (Z.leb_spec p b); lia || done.
Qed.

Lemma masks_ext tmp f g : (forall p, port_ok p -> f p = g p) -> masks tmp f -> masks tmp g.
Proof. intros He [H1 H2]. split; [done |]. intros p Hp. rewrite <- He by done. by apply H2. Qed.

Lemma disorder_print l : forall fuel tmp e0 f,
  Forall range_ok l -> masks tmp f -> (length (print_ranges l) <= fuel)%nat ->
  exists tmp', disorder_loop fuel (print_ranges l) tmp e0 = Masked tmp' /\
    masks tmp' (fun p => existsb (in_range p) l || f p).
Proof.
  induction l as [| r l IH]; intros fuel tmp e0 f Hl Hm Hf.
  { exists tmp. split; [by destruct fuel | done]. }
  apply Forall_cons_1 in Hl as [Hr Hl].
  destruct (print_range_head r Hr) as (c & t & Hc & _).
  destruct l as [| r' l].
  - simpl in Hf |- *. destruct (disorder_step fuel r [] tmp e0 f) as (tmp' & Hs & Hm'); try done.
    { rewrite Hc in Hf. simpl in Hf. lia. }
    rewrite app_nil_r in Hs. exists tmp'. split; [rewrite Hs; by destruct (fuel - 1)%nat |].
    eapply masks_ext; [| done]. intros p _. simpl. by rewrite orb_false_r.
  - change (print_ranges (r :: r' :: l)) with (print_range r ++ [44] ++ print_ranges (r' :: l)) in *.
    rewrite !length_app, Hc in Hf. simpl length in Hf at 1 2.
    destruct (disorder_step fuel r ([44] ++ print_ranges (r' :: l)) tmp e0 f) as (tmp' & -> & Hm'); try done; [lia |].
    destruct (IH (fuel - 2)%nat tmp' r.2 _ Hl Hm' ltac:(lia)) as (tmp'' & Hs & Hm'').
    exists tmp''. split.
    + destruct (fuel - 1)%nat eqn:Hfu; [lia |]. cbn [app disorder_loop]. simpl is_sep. cbv iota.
      replace n with (fuel - 2)%nat by lia. done.
    + eapply masks_ext; [| done]. intros p _. simpl.
      destruct (in_range p r); simpl; by rewrite ?orb_true_r.
Qed.

(** *** Ascending ranges *)

(** Ranges in ascending order without overlap, from [lo] on. *)
Fixpoint ascending (lo : Z) (l : list (Z * Z)) : Prop :=
  match l with [] => True | r :: l => lo <= r.1 /\ ascending (r.2 + 1) l end.

(** The mask of a list of ranges, entry by entry. *)
Definition mask_of (l : list (Z * Z)) (n : nat) : list bool :=
  (fun i => existsb (in_range (Z.of_nat i)) l) <$> seq 0 n.

Lemma ascending_below lo l p : Forall range_ok l -> ascending lo l -> p < lo -> existsb (in_range p) l = false.
Proof.
  revert lo. induction l as [| r l IH]; intros lo Hl Ha Hp; simpl; [done |].
  apply Forall_cons_1 in Hl as [[Hr _] Hl]. destruct Ha as [H1 H2].
  rewrite (IH (r.2 + 1)) by (done || lia). unfold in_range.
  destruct (Z.leb_spec r.1 p); [lia | done].
Qed.

Lemma range_step fuel r rest mask e0 :
  range_ok r -> after rest -> Z.of_nat (length mask) <= r.1 -> (0 < fuel)%nat ->
  range_loop fuel (print_range r ++ rest) mask e0 =
  range_loop (fuel - 1) rest (mask ++ replicate (Z.to_nat (r.1 - Z.of_nat (length mask))) false
                                   ++ replicate (Z.to_nat (r.2 - r.1 + 1)) true) r.2.
Proof.
  intros Hr Hrest Hlo Hf. destruct fuel as [| fuel]; [lia |].
  destruct (print_range_head r Hr) as (c & l & Hc & Hge).
  destruct r as [a b]. destruct (sscanf_print a b rest e0 Hr Hrest) as (n & e & Hs & He).
  destruct Hr as [H1 H2]. simpl in H1, H2, Hlo.
  rewrite Hc in Hs |- *. simpl app in *. cbn [range_loop]. rewrite not_sep by done. rewrite Hs, He.
  destruct (Z.ltb_spec a 0), (Z.ltb_spec b a), (Z.leb_spec a (Z.of_nat (length mask) - 1)); [lia.. |].
  cbn [orb]. rewrite Nat.sub_succ, Nat.sub_0_r.
  change (c :: l ++ rest) with ((c :: l) ++ rest). by rewrite drop_app_length.
Qed.

Lemma fmap_seq_const (f : nat -> bool) b i n :
  (forall j, (i <= j < i + n)%nat -> f j = b) -> f <$> seq i n = replicate n b.
Proof.
  revert i. induction n as [| n IH]; intros i H; simpl; [done |].
  rewrite H by lia. f_equal. apply IH. intros j Hj. apply H. lia.
Qed.

Lemma mask_of_grow L n a b :
  Z.of_nat n <= a <= b ->
  (forall p, Z.of_nat n <= p < a -> existsb (in_range p) L = false) ->
  (forall p, a <= p <= b -> existsb (in_range p) L = true) ->
  mask_of L n ++ replicate (Z.to_nat (a - Z.of_nat n)) false ++ replicate (Z.to_nat (b - a + 1)) true
  = mask_of L (Z.to_nat (b + 1)).
Proof.
  intros Hn H0 H1. unfold mask_of.
  replace (Z.to_nat (b + 1)) with (n + (Z.to_nat (a - Z.of_nat n) + Z.to_nat (b - a + 1)))%nat by lia.
  rewrite !seq_app, !fmap_app. f_equal. f_equal; symmetry; apply fmap_seq_const; intros j Hj.
  - apply H0. lia.
  - apply H1. lia.
Qed.

(** The last number of a list of ranges. *)
Fixpoint last_of (l : list (Z * Z)) : Z :=
  match l with [] => -1 | [r] => r.2 | _ :: l => last_of l end.

Lemma last_of_nonneg l : Forall range_ok l -> l <> [] -> 0 <= last_of l.
Proof.
  induction l as [| r l IH]; intros Hl Hne; [done |]. apply Forall_cons_1 in Hl as [[Hr _] Hl].
  destruct l as [| r' l]; [simpl; lia |]. by apply IH.
Qed.

Lemma range_loop_print l : forall d fuel mask e0,
  Forall range_ok l -> ascending (Z.of_nat (length mask)) l ->
  (forall p, Z.of_nat (length mask) <= p -> existsb (in_range p) d = false) ->
  mask = mask_of (d ++ l) (length mask) -> l <> [] -> (length (print_ranges l) <= fuel)%nat ->
  range_loop fuel (print_ranges l) mask e0 = Masked (mask_of (d ++ l) (Z.to_nat (last_of l + 1))).
Proof.
  induction l as [| r l IH]; intros d fuel mask e0 Hl Ha Hd Hm Hne Hf; [done |].
  apply Forall_cons_1 in Hl as [Hr Hl]. pose proof Hr as [Hr1 Hr2]. destruct Ha as [Ha1 Ha2].
  destruct (print_range_head r Hr) as (c & t & Hc & _).
  assert (mask ++ replicate (Z.to_nat (r.1 - Z.of_nat (length mask))) false
               ++ replicate (Z.to_nat (r.2 - r.1 + 1)) true
          = mask_of (d ++ r :: l) (Z.to_nat (r.2 + 1))) as Hgrow.
  { rewrite Hm at 1. apply mask_of_grow; [lia | |]; intros p Hp; rewrite existsb_app, Hd by lia; simpl;
      unfold in_range at 1.
    - rewrite (ascending_below (r.2 + 1) l p) by (done || lia).
      destruct (Z.leb_spec r.1 p); [lia | done].
    - destruct (Z.leb_spec r.1 p), (Z.leb_spec p r.2); lia || done. }
  destruct l as [| r' l].
  - simpl print_ranges in *. rewrite <- (app_nil_r (print_range r)).
    rewrite range_step; [| done | done | lia | rewrite Hc in Hf; simpl in Hf; lia].
    rewrite Hgrow. by destruct (fuel - 1)%nat.
  - change (print_ranges (r :: r' :: l)) with (print_range r ++ [44] ++ print_ranges (r' :: l)) in *.
    rewrite !length_app, Hc in Hf. simpl length in Hf at 1 2.
    rewrite range_step; [| done | done | lia | lia]. rewrite Hgrow.
    destruct (fuel - 1)%nat as [| n] eqn:Hfu; [lia |]. cbn [app range_loop]. simpl is_sep. cbv iota.
    assert (forall k, length (mask_of (d ++ r :: r' :: l) k) = k) as Hlen
      by (intros; unfold mask_of; by rewrite length_fmap, length_seq).
    rewrite (IH (d ++ [r])); rewrite <- ?app_assoc; simpl app; try done; rewrite ?Hlen; try done.
    + by rewrite Z2Nat.id by lia.
    + intros p Hp. rewrite existsb_app, Hd by lia. simpl. unfold in_range.
      destruct (Z.leb_spec p r.2); [lia |]. by rewrite andb_false_r.
    + lia.
Qed.

(** A list of numbers and ranges in ascending order without overlap parses
    to the mask of its numbers, as long as the last of them plus one; this is
    how the online CPUs are read. *)
Theorem parse_num_range_print l :
  Forall range_ok l -> ascending 0 l -> l <> [] ->
  parse_num_range (print_ranges l) = Some (mask_of l (Z.to_nat (last_of l + 1))).
Proof.
  intros Hl Ha Hne. unfold parse_num_range.
  rewrite (range_loop_print l [] _ []) by done. cbn [app].
  pose proof (last_of_nonneg l Hl Hne).
  unfold mask_of at 1. rewrite length_fmap, length_seq.
  destruct (Nat.eqb_spec (Z.to_nat (last_of l + 1)) 0); [lia | done].
Qed.

Lemma parse_num_range_print_witness :
  parse_num_range (print_ranges [(0, 3); (5, 5); (8, 11)]) =
  Some (mask_of [(0, 3); (5, 5); (8, 11)] (Z.to_nat (last_of [(0, 3); (5, 5); (8, 11)] + 1))).
Proof.
  apply parse_num_range_print; [| simpl; lia | discriminate].
  repeat constructor; unfold range_ok, PORT_NUM_MAX; simpl; lia.
Defined.

(** Writing one bit by division and remainder is the macro [set_bitmap]. *)
Lemma set_port_eq map i : port_ok i -> set_port map i = set_bitmap map i.
Proof. intros Hi. unfold set_port, set_bitmap. by rewrite byte_index, bit_index. Qed.

Lemma fill_ports_spec allow n : forall map i,
  mask_ok allow -> bitmap_ok map -> 0 <= i -> i + Z.of_nat n <= PORT_NUM_MAX ->
  exists map', fill_ports allow map i n = Some map' /\ bitmap_ok map' /\
    forall q, port_ok q -> has_port map' q =
      has_port map q || ((i <=? q) && (q <? i + Z.of_nat n) && allow !!! Z.to_nat q).
Proof.
  unfold mask_ok, PORT_NUM_MAX.
  induction n as [| n IH]; intros map i Ha Hm Hi Hn; cbn [fill_ports].
  - exists map. split_and!; try done. intros q _.
    destruct (Z.leb_spec i q), (Z.ltb_spec q (i + Z.of_nat 0)); simpl; try lia; by rewrite orb_false_r.
  - rewrite list_lookup_lookup_total_lt by lia. cbn [mbind option_bind].
    assert (exists map1, (if (allow !!! Z.to_nat i : bool) then set_port map i else Some map) = Some map1 /\
      bitmap_ok map1 /\ forall q, port_ok q ->
        has_port map1 q = (bool_decide (q = i) && allow !!! Z.to_nat i) || has_port map q) as (map1 & -> & H1 & H2).
    { destruct (allow !!! Z.to_nat i).
      - assert (port_ok i) as Hp by (unfold port_ok; lia). rewrite set_port_eq by done.
        destruct (set_bitmap_spec map i Hm Hp) as (m1 & -> & M1 & M2). exists m1.
        split_and!; try done. intros q Hq. rewrite M2 by done. by rewrite andb_true_r.
      - exists map. split_and!; try done. intros q _. by rewrite andb_false_r. }
    cbn [mbind option_bind]. destruct (IH map1 (i + 1)) as (map' & -> & H3 & H4); [lia | done | lia.. |].
    exists map'. split_and!; try done. intros q Hq. rewrite H4, H2 by done.
    destruct (decide (q = i)) as [-> | Hne].
    + rewrite bool_decide_eq_true_2 by done.
      destruct (Z.leb_spec i i), (Z.ltb_spec i (i + Z.of_nat (S n))), (Z.leb_spec (i + 1) i);
        try lia. simpl. rewrite orb_false_r. apply orb_comm.
    + rewrite bool_decide_eq_false_2 by done. simpl. f_equal. f_equal.
      destruct (Z.leb_spec i q), (Z.leb_spec (i + 1) q), (Z.ltb_spec q (i + 1 + Z.of_nat n)),
        (Z.ltb_spec q (i + Z.of_nat (S n))); try lia; done.
Qed.

Lemma empty_bitmap_ok : bitmap_ok empty_bitmap.
Proof.
  unfold empty_bitmap. split; [by rewrite length_replicate, Z2Nat.id |]. by apply Forall_replicate.
Qed.

Lemma empty_bitmap_port q : port_ok q -> has_port empty_bitmap q = false.
Proof.
  intros Hq. pose proof (div8_range q Hq). unfold has_port, empty_bitmap.
  rewrite lookup_total_replicate_2 by lia. apply Z.bits_0.
Qed.

Lemma empty_mask_masks : masks empty_mask (fun _ => false).
Proof.
  unfold empty_mask, masks, mask_ok. split; [by rewrite length_replicate, Z2Nat.id |].
  intros p Hp. unfold port_ok, PORT_NUM_MAX in *. apply lookup_total_replicate_2. lia.
Qed.

Lemma set_ports_of_mask allow f :
  masks allow f -> exists map, __set_protocol_ports_bitmap allow = Some map /\ bitmap_ok map /\
    forall p, port_ok p -> has_port map p = f p.
Proof.
  intros [Hmask Ht]. unfold __set_protocol_ports_bitmap.
  destruct (fill_ports_spec allow (Z.to_nat PORT_NUM_MAX) empty_bitmap 0 Hmask empty_bitmap_ok)
    as (map & Hf & H1 & H2); [lia | unfold PORT_NUM_MAX; lia |].
  exists map. split; [exact Hf |]. split; [exact H1 |]. intros p Hp.
  rewrite H2, empty_bitmap_port, Ht by assumption.
  unfold port_ok, PORT_NUM_MAX in *. rewrite Z2Nat.id by lia.
  destruct (Z.leb_spec 0 p), (Z.ltb_spec p (0 + 65536)); try lia. reflexivity.
Qed.

Lemma print_ranges_length l : Forall range_ok l -> l <> [] -> length (print_ranges l) <> 0%nat.
Proof.
  intros Hl Hne H0. destruct l as [| r l]; [done |]. apply Forall_cons_1 in Hl as [Hr _].
  destruct (print_range_head r Hr) as (c & t & Hc & _).
  destruct l; simpl in H0; rewrite ?length_app, Hc in H0; simpl in H0; lia.
Qed.

Lemma parse_print l :
  Forall range_ok l -> l <> [] ->
  exists allow, parse_num_range_disorder (print_ranges l) = Some (Some allow) /\
    masks allow (fun p => existsb (in_range p) l || false).
Proof.
  intros Hl Hne. unfold parse_num_range_disorder.
  rewrite (proj2 (Nat.eqb_neq _ _) (print_ranges_length l Hl Hne)).
  destruct (disorder_print l (length (print_ranges l)) empty_mask (-1) _ Hl empty_mask_masks (le_n _)) as (tmp & -> & Hm). by exists tmp.
Qed.

Lemma bind_parsed {A C} (x : option (option A)) (f : A -> option C) a c :
  x = Some (Some a) -> f a = Some c ->
  (r ← x; match r with None => Some None | Some a => m ← f a; Some (Some m) end) = Some (Some c).
Proof. intros -> H. simpl. by rewrite H. Qed.

(** The ports of a printed list of ranges, in any order and with overlaps. *)
Lemma ports_bitmap_of l :
  Forall range_ok l -> l <> [] ->
  exists map, set_protocol_ports_bitmap (print_ranges l) = Some (Some map) /\ bitmap_ok map /\
    forall p, port_ok p -> has_port map p = existsb (in_range p) l.
Proof.
  intros Hl Hne. destruct (parse_print l Hl Hne) as (allow & Hp & Hm).
  destruct (set_ports_of_mask allow _ Hm) as (map & Hs & H1 & H2).
  exists map. split; [exact (bind_parsed _ __set_protocol_ports_bitmap allow map Hp Hs) |].
  split; [exact H1 |]. intros p Hpo. rewrite H2 by assumption. apply orb_false_r.
Qed.

(** C26: From the configuration string to the probe: with the bitmap that
    [set_protocol_ports_bitmap] makes of a list of ranges, the port check of an
    enabled protocol, in either of its two builds, passes for a network socket
    exactly when its local or its remote port lies in one of the ranges. *)
Theorem configured_ports_traced l p :
  Forall range_ok l -> l <> [] ->
  exists map, set_protocol_ports_bitmap (print_ranges l) = Some (Some map) /\ bitmap_ok map /\
    forall E prog s, env_ok E -> st_ok s -> e_ports_bitmap E p = Some map ->
      is_protocol_enabled E p = true -> c_sk_type (ci s) <> SOCK_UNIX ->
      __protocol_port_check E p prog s =
      Some (existsb (in_range (num (c_tuple (ci s)))) l || existsb (in_range (dport (c_tuple (ci s)))) l, s).
Proof.
  intros Hl Hne. destruct (ports_bitmap_of l Hl Hne) as (map & Hs & Hok & Hm).
  exists map. split; [exact Hs |]. split; [exact Hok |]. intros E prog s HE Hst Hb He Hu.
  rewrite port_check_eq by done. unfold port_allowed. rewrite He, Hb.
  destruct (Z.eqb_spec (c_sk_type (ci s)) SOCK_UNIX); [done |]. cbn [andb orb].
  rewrite !Hm by apply Hst. done.
Qed.

Lemma configured_ports_traced_witness :
  let l := [(8000, 8099); (80, 80)] in
  exists map, set_protocol_ports_bitmap (print_ranges l) = Some (Some map) /\
    forall prog,
     let E := mk_env true (0, replicate 16 0) 0 (fun _ => Some 1) (fun _ => Some map) None None
                (fun _ => Some (fun _ => PROTO_UNKNOWN)) (fun _ => 0)
                (fun _ n => (0, replicate n 0)) (fun _ n => (0, replicate n 0)) in
     __protocol_port_check E PROTO_HTTP1 prog (example_st T_EGRESS) = Some (true, example_st T_EGRESS).
Proof.
  intros l. destruct (configured_ports_traced l PROTO_HTTP1) as (map & Hs & Hmap & H).
  - repeat constructor; unfold range_ok, PORT_NUM_MAX; simpl; lia.
  - discriminate.
  - exists map. split; [exact Hs |]. clear Hs. intros prog E. apply (H E prog (example_st T_EGRESS)); try done.
    + constructor; simpl; try done.
      * by intros _ b [= <-].
      * intros. apply length_replicate.
      * intros. by apply Forall_replicate.
    + apply example_st_ok.
Defined.

(** ** The loops end *)

(** Every conversion takes at least one character. *)
Lemma scan_d_takes s v n : scan_d s = Some (v, n) -> (0 < n)%nat.
Proof.
  unfold scan_d. destruct (match drop (skip_space s) s with [] => _ | _ :: _ => _ end) as [neg sg].
  destruct (scan_digits _ 0) as [x [| k]]; [done |]. cbn. intros [= _ <-]. lia.
Qed.
Lemma sscanf_takes s end0 c st e len : sscanf_range s end0 = Some (c, st, e, len) -> (0 < len)%nat.
Proof.
  unfold sscanf_range. destruct (scan_d s) as [[v n] |] eqn:Hs; [| done]. apply scan_d_takes in Hs.
  repeat case_match; intros; simplify_eq; lia.
Qed.

Lemma disorder_enough n m : forall s tmp end0, (length s <= n)%nat -> (length s <= m)%nat ->
  disorder_loop n s tmp end0 = disorder_loop m s tmp end0 /\ disorder_loop n s tmp end0 <> Unfinished.
Proof.
  revert m. induction n as [| n IH]; intros m [| c s] tmp end0 Hn Hm; try (by destruct m); [cbn in Hn; lia |].
  destruct m as [| m]; [cbn in Hm; lia |]. cbn [disorder_loop]. cbn in Hn, Hm. destruct (is_sep c); [apply IH; lia |].
  destruct (sscanf_range (c :: s) end0) as [[[[k st] e] len] |] eqn:Hs; [| done]. apply sscanf_takes in Hs.
  destruct (_ || _); [done |]. destruct (memset _ _ _ _) as [t |]; [| done]. apply IH; rewrite length_drop; cbn; lia.
Qed.
Lemma range_enough n m : forall s mask end0, (length s <= n)%nat -> (length s <= m)%nat ->
  range_loop n s mask end0 = range_loop m s mask end0 /\ range_loop n s mask end0 <> Unfinished.
Proof.
  revert m. induction n as [| n IH]; intros m [| c s] tmp end0 Hn Hm; try (by destruct m); [cbn in Hn; lia |].
  destruct m as [| m]; [cbn in Hm; lia |]. cbn [range_loop]. cbn in Hn, Hm. destruct (is_sep c); [apply IH; lia |].
  destruct (sscanf_range (c :: s) end0) as [[[[k st] e] len] |] eqn:Hs; [| done]. apply sscanf_takes in Hs.
  destruct (_ || _); [done |]. apply IH; rewrite length_drop; cbn; lia.
Qed.

(** C36: the parsers of port lists end on every string: within as many iterations as
    the string has characters, the number the parsers are given, both loops have
    reached the end of the string, the label [failed] or (of the parser that writes into
    an array) a write outside the array; and a larger number of iterations gives the
    same result. *)
Theorem parsers_terminate config_str n : (length config_str <= n)%nat ->
  (disorder_loop n config_str empty_mask (-1) <> Unfinished /\
   disorder_loop n config_str empty_mask (-1) = disorder_loop (length config_str) config_str empty_mask (-1)) /\
  (range_loop n config_str [] (-1) <> Unfinished /\
   range_loop n config_str [] (-1) = range_loop (length config_str) config_str [] (-1)).
Proof.
  intros Hn. destruct (disorder_enough n (length config_str) config_str empty_mask (-1) Hn ltac:(lia)).
  by destruct (range_enough n (length config_str) config_str [] (-1) Hn ltac:(lia)).
Qed.

Lemma parsers_terminate_witness : let s := str "80,443 8000-8099" in
  (disorder_loop 100 s empty_mask (-1) <> Unfinished /\
   disorder_loop 100 s empty_mask (-1) = disorder_loop (length s) s empty_mask (-1)) /\
  (range_loop 100 s [] (-1) <> Unfinished /\ range_loop 100 s [] (-1) = range_loop (length s) s [] (-1)).
Proof. apply (parsers_terminate (str "80,443 8000-8099") 100). vm_compute. lia. Defined.

(** [parse_num_range_disorder] has no upper bound on a port: for every
    number from 65536 on that an [int] holds, the mask is written outside the
    65536 bytes allocated for it. *)
Theorem parse_num_range_disorder_overflow n :
  PORT_NUM_MAX <= n < 2 ^ 31 -> parse_num_range_disorder (dec 10 n) = None.
Proof.
  intros Hn. unfold PORT_NUM_MAX in Hn. unfold parse_num_range_disorder.
  destruct (dec_head 10 n) as (c & l & Hd & Hc); [lia | lia |].
  rewrite Hd. cbn [length Nat.eqb disorder_loop]. rewrite not_sep by done. rewrite <- Hd.
  pose proof (scan_d_digits 10 n [] ltac:(simpl; lia) ltac:(lia) ltac:(lia) Logic.I) as Hs.
  rewrite app_nil_r in Hs. unfold sscanf_range. rewrite Hs, drop_ge by lia. simpl Z.eqb. cbv iota.
  destruct (Z.ltb_spec n 0), (Z.ltb_spec n n); [lia.. |]. cbn [orb].
  destruct empty_mask_masks as [Hlen _]. unfold mask_ok, PORT_NUM_MAX in Hlen.
  unfold memset. destruct (Z.leb_spec (n - n + 1) 0); [lia |]. rewrite Hlen.
  destruct (Z.leb_spec (n + (n - n + 1)) 65536); [lia |]. by rewrite andb_false_r.
Qed.

Lemma parse_num_range_disorder_overflow_witness : parse_num_range_disorder (dec 10 70000) = None.
Proof. apply parse_num_range_disorder_overflow. unfold PORT_NUM_MAX. lia. Defined.
