(* ===== verification/World.v ===== *)
(** * The maps of the tracer

    What the programs of kernel/socket_trace.bpf.c share between system calls
    (kernel/include/socket_trace_common.h): the map of sockets, the map of
    trace identifiers, the roles, the counters, the per-CPU context of the
    tracer and its output buffer, with [struct __socket_data] at the offsets of
    its packed layout. *)

From S2P Require Import Prelude Bitmap Conn Iovec.

(** ** [struct __socket_data]

    An event is a header of 153 bytes and its data. A field is its offset and
    its size. *)

Record field := mk_field { f_off : nat; f_len : nat }.
Definition v_pid := mk_field 0 4.
Definition v_tgid := mk_field 4 4.
Definition v_coroutine_id := mk_field 8 8.
Definition v_source := mk_field 16 1.
Definition v_comm := mk_field 17 16.
Definition v_socket_id := mk_field 33 8.
Definition v_daddr := mk_field 41 16.
Definition v_rcv_saddr := mk_field 57 16.
Definition v_addr_len := mk_field 73 1.
Definition v_l4_protocol := mk_field 74 1.
Definition v_dport := mk_field 75 2.
Definition v_num := mk_field 77 2.
Definition v_extra_data := mk_field 79 16.
Definition v_extra_data_count := mk_field 95 4.
Definition v_tcp_seq := mk_field 99 4.
Definition v_thread_trace_id := mk_field 103 8.
Definition v_timestamp := mk_field 111 8.
Definition v_cap_timestamp := mk_field 119 8.
Definition v_bits := mk_field 127 1.
Definition v_syscall_len := mk_field 128 8.
Definition v_data_seq := mk_field 136 8.
Definition v_fd := mk_field 144 4.
Definition v_data_type := mk_field 148 2.
Definition v_data_len := mk_field 150 2.
Definition v_socket_role := mk_field 152 1.

(** [offsetof(struct __socket_data, data)] and [sizeof(struct __socket_data)]. *)
Abbreviation HEAD := 153%nat.
Definition SD_HEAD : Z := 153.
Definition SD_SIZE : Z := SD_HEAD + BURST_DATA_BUF_SIZE.

(** Reading a field, and writing bytes or a number to one. *)
Definition vbytes (f : field) (v : list Z) : list Z := take (f_len f) (drop (f_off f) v).
Definition vget (f : field) (v : list Z) : Z := le_word (vbytes f v).
Definition vput_bytes (f : field) (b : list Z) (v : list Z) : list Z :=
  take (f_off f) v ++ take (f_len f) (b ++ drop (f_off f + length b) v) ++ drop (f_off f + f_len f) v.
Definition vput (f : field) (x : Z) (v : list Z) : list Z := vput_bytes f (le_bytes (f_len f) x) v.

(** The bit fields [direction:1], [msg_type:6] and [is_tls:1] of a byte. *)
Definition vput_direction (x : Z) (v : list Z) : list Z :=
  vput v_bits (Z.lor (Z.land (vget v_bits v) 254) (Z.land x 1)) v.
Definition vput_msg_type (x : Z) (v : list Z) : list Z :=
  vput v_bits (Z.lor (Z.land (vget v_bits v) 129) (Z.shiftl (Z.land x 63) 1)) v.
Definition vput_is_tls (x : Z) (v : list Z) : list Z :=
  vput v_bits (Z.lor (Z.land (vget v_bits v) 127) (Z.shiftl (Z.land x 1) 7)) v.
Definition vget_msg_type (v : list Z) : Z := Z.land (Z.shiftr (vget v_bits v) 1) 63.

(** The numbers of the enumerators. *)
Definition msg_num (m : message_type) : Z :=
  match m with
  | MSG_UNKNOWN => 0 | MSG_REQUEST => 1 | MSG_RESPONSE => 2 | MSG_REQUEST_END => 3
  | MSG_RESPONSE_END => 4 | MSG_REASM_START => 5 | MSG_REASM_SEG => 6 | MSG_COMMON => 7
  | MSG_PRESTORE => 8 | MSG_RECONFIRM => 9 | MSG_CLOSE => 10 | MSG_CLEAR => 11
  end.
Definition dir_num (d : traffic_direction) : Z := match d with T_EGRESS => 0 | T_INGRESS => 1 end.
Definition source_num (d : data_source) : Z :=
  match d with
  | DATA_SOURCE_SYSCALL => 0 | DATA_SOURCE_GO_TLS_UPROBE => 1 | DATA_SOURCE_GO_HTTP2_UPROBE => 2
  | DATA_SOURCE_OPENSSL_UPROBE => 3 | DATA_SOURCE_IO_EVENT => 4
  | DATA_SOURCE_GO_HTTP2_DATAFRAME_UPROBE => 5 | DATA_SOURCE_RESERVED => 6
  | DATA_SOURCE_DPDK => 7 | DATA_SOURCE_UNIX_SOCKET => 8
  end.
Definition role_num (r : endpoint_role) : Z :=
  match r with ROLE_UNKNOWN => 0 | ROLE_CLIENT => 1 | ROLE_SERVER => 2 end.

(** ** State shared by the programs *)

(** [struct __socket_data_buffer]. *)
Record out_buf := mk_buf { b_events_num : Z; b_len : Z; b_data : list Z }.
#[export] Instance eta_buf : Eta out_buf := fun b => mk_buf (b_events_num b) (b_len b) (b_data b).
Definition BUF_DATA : Z := 32760.
Definition BUF_SIZE : Z := 32768.

(** [struct trace_key_t] and [struct trace_info_t]. *)
Record trace_key := mk_key { k_tgid : Z; k_pid : Z; k_goid : Z }.
#[export] Instance trace_key_eq_dec : EqDecision trace_key.
Proof. solve_decision. Defined.
#[export] Instance trace_key_countable : Countable trace_key.
Proof.
  refine (inj_countable' (fun k => (k_tgid k, k_pid k, k_goid k))
    (fun p => mk_key p.1.1 p.1.2 p.2) _). by intros [].
Defined.
Record trace_info := mk_trace {
  ti_update_time : Z; ti_peer_fd : Z; ti_thread_trace_id : Z; ti_socket_id : Z }.
#[export] Instance eta_trace : Eta trace_info := fun t =>
  mk_trace (ti_update_time t) (ti_peer_fd t) (ti_thread_trace_id t) (ti_socket_id t).

(** [struct tracer_ctx_s]; [sk_info] is scratch space of one submission. *)
Record tracer_ctx := mk_ctx {
  t_socket_id : Z; t_thread_trace_id : Z; t_data_limit_max : Z; t_go_tracing_timeout : Z;
  t_io_event_collect_mode : Z; t_io_event_minimal_duration : Z; t_virtual_file_collect_enabled : bool;
  t_push_buffer_refcnt : Z; t_last_period_timestamp : Z; t_period_timestamp : Z;
  t_disable_tracing : bool }.
#[export] Instance eta_ctx : Eta tracer_ctx := fun t => mk_ctx
  (t_socket_id t) (t_thread_trace_id t) (t_data_limit_max t) (t_go_tracing_timeout t)
  (t_io_event_collect_mode t) (t_io_event_minimal_duration t) (t_virtual_file_collect_enabled t)
  (t_push_buffer_refcnt t) (t_last_period_timestamp t) (t_period_timestamp t) (t_disable_tracing t).

(** [struct trace_stats]. *)
Record trace_stats := mk_stats {
  n_socket_map : Z; n_trace_map : Z; n_push_conflict : Z;
  n_period_max_delay : Z; n_period_total_time : Z; n_period_count : Z }.
#[export] Instance eta_stats : Eta trace_stats := fun n => mk_stats
  (n_socket_map n) (n_trace_map n) (n_push_conflict n)
  (n_period_max_delay n) (n_period_total_time n) (n_period_count n).

(** [struct data_args_t]: what the entry of a system call leaves for its exit.
    [da_addr] is the storage of the union of [addr] and [ipaddr_ptr], [da_msg_len]
    that of [msg_len]; [source_fn] is written and never read, [sk] is of another
    build. *)
Record data_args := mk_dargs {
  da_fd : Z; da_buf : Z; da_iov : iov_args; da_extra_iov : iov_args; da_msg_len : Z;
  da_enter_ts : Z; da_tcp_seq : Z; da_bytes_count : Z; da_port : Z; da_addr : list Z }.
#[export] Instance eta_dargs : Eta data_args := fun a => mk_dargs
  (da_fd a) (da_buf a) (da_iov a) (da_extra_iov a) (da_msg_len a) (da_enter_ts a) (da_tcp_seq a)
  (da_bytes_count a) (da_port a) (da_addr a).
Definition zero_args : data_args :=
  mk_dargs 0 0 (mk_iov_args 0 0) (mk_iov_args 0 0) 0 0 0 0 0 (replicate 16 0).

(** [struct member_fields_offset]: offsets in the structures of the kernel. *)
Record member_offsets := mk_offsets {
  o_ready : bool; o_kprobe_invalid : bool; o_enable_unix_socket : bool; o_files_infer_done : bool;
  o_d_parent : Z; o_task_files : Z; o_sock_flags : Z; o_copied_seq : Z; o_write_seq : Z;
  o_fdt : Z; o_f_pos : Z; o_private_data : Z; o_f_op : Z; o_read_iter : Z; o_f_inode : Z;
  o_i_mode : Z; o_i_sb : Z; o_s_dev : Z; o_file_dentry : Z; o_dentry_name : Z;
  o_family : Z; o_saddr : Z; o_daddr : Z; o_ip6saddr : Z; o_ip6daddr : Z; o_dport : Z; o_sport : Z;
  o_skc_state : Z; o_ipv6only : Z;
  o_f_path : Z; o_path_mnt : Z; o_mount_mnt : Z; o_mount_mnt_ns : Z; o_mnt_ns_ns : Z;
  o_ns_inum : Z; o_mount_mnt_id : Z }.
#[export] Instance eta_offsets : Eta member_offsets := fun o => mk_offsets
  (o_ready o) (o_kprobe_invalid o) (o_enable_unix_socket o) (o_files_infer_done o)
  (o_d_parent o) (o_task_files o) (o_sock_flags o) (o_copied_seq o) (o_write_seq o)
  (o_fdt o) (o_f_pos o) (o_private_data o) (o_f_op o) (o_read_iter o) (o_f_inode o)
  (o_i_mode o) (o_i_sb o) (o_s_dev o) (o_file_dentry o) (o_dentry_name o)
  (o_family o) (o_saddr o) (o_daddr o) (o_ip6saddr o) (o_ip6daddr o) (o_dport o) (o_sport o)
  (o_skc_state o) (o_ipv6only o)
  (o_f_path o) (o_path_mnt o) (o_mount_mnt o) (o_mount_mnt_ns o) (o_mnt_ns_ns o)
  (o_ns_inum o) (o_mount_mnt_id o).

(** [struct ebpf_proc_info], and the maps of uprobe_base.bpf.c: the goroutine of
    a thread, the parent of a goroutine, the time of its last traced system call,
    the caller of a [newproc1] under way, the Go processes. A goroutine is named
    by its process and its number. *)
Record proc_info := mk_proc {
  p_version : Z; p_offsets : list Z; p_tcp_itab : Z; p_tls_itab : Z; p_syscall_itab : Z }.
Record go_maps := mk_go {
  g_routine : gmap Z Z; g_ancestor : gmap (Z * Z) Z; g_rw_ts : gmap (Z * Z) Z;
  g_caller : gmap Z (Z * Z); g_proc : gmap Z proc_info }.
#[export] Instance eta_go : Eta go_maps := fun g =>
  mk_go (g_routine g) (g_ancestor g) (g_rw_ts g) (g_caller g) (g_proc g).

(** [struct ssl_ctx_struct] and [struct tls_conn]: a call of a TLS library under
    way, by thread and by goroutine. *)
Record ssl_ctx := mk_ssl { sl_buf : Z; sl_num : Z; sl_fd : Z; sl_tcp_seq : Z }.
Record tls_conn := mk_tls { tc_fd : Z; tc_buffer : Z; tc_tcp_seq : Z; tc_sp : Z }.
(** [struct __http2_stack]: a buffer with one event, its header and its data apart. *)
Record http2_stack := mk_stack { hs_events_num : Z; hs_len : Z; hs_head : list Z; hs_data : list Z; hs_tls : bool }.
#[export] Instance eta_stack : Eta http2_stack := fun s =>
  mk_stack (hs_events_num s) (hs_len s) (hs_head s) (hs_data s) (hs_tls s).
(** The state of the uprobes. [u_http2] are the records of HTTP/2 events, which are
    not collected in the buffer, the oldest first, each with the number of the
    other records that went out before it. *)
Record up_maps := mk_up {
  u_ssl : gmap Z ssl_ctx; u_tls : gmap (Z * Z) tls_conn; u_stack : option http2_stack; u_http2 : list (nat * list Z) }.
#[export] Instance eta_up : Eta up_maps := fun u => mk_up (u_ssl u) (u_tls u) (u_stack u) (u_http2 u).

(** The element 0 of an array map may be missing ([None]) in a lookup. [w_out]
    are the records handed to [bpf_perf_event_output] but for those of [u_http2],
    the oldest first; the helper drops a record when the perf buffer is full, which no
    program notices, as none looks at its result. [w_io] is the per-CPU [struct __io_event_buffer]. *)
Record world := mk_world {
  w_sock : gmap Z socket_info; w_role : gmap Z Z; w_trace : gmap trace_key trace_info;
  w_seqmap : gmap (Z * Z * Z) Z; w_cache : Z -> option (Z -> traffic_protocol);
  w_ctx : option tracer_ctx; w_stats : option trace_stats; w_buf : option out_buf;
  w_out : list (list Z);
  w_rargs : gmap Z data_args; w_wargs : gmap Z data_args; w_io : option (list Z);
  w_offset : option member_offsets; w_go : go_maps; w_up : up_maps }.
#[export] Instance eta_world : Eta world := fun w => mk_world
  (w_sock w) (w_role w) (w_trace w) (w_seqmap w) (w_cache w) (w_ctx w) (w_stats w) (w_buf w) (w_out w)
  (w_rargs w) (w_wargs w) (w_io w) (w_offset w) (w_go w) (w_up w).
Abbreviation W := (M world).

(** ** What the kernel provides besides [env] *)

(** [struct adapt_kern_data]: the thread that the agent uses to infer offsets. *)
Record adapt_data := mk_adapt { ad_id : Z; ad_mnt_id : Z; ad_mntns_id : Z }.

(** [k_ktime] is the clock as the calls of one program see it: in [get_rw_goid]
    it is asked before the output of an event. *)
Record kenv := mk_kenv {
  k_max_sock : Z; k_max_trace : Z; k_max_role : Z;    (* [max_entries] of the maps *)
  k_max_args : Z; k_max_routine : Z; k_max_caller : Z; k_max_ssl : Z; k_max_tls : Z;
  k_lru : gmap (Z * Z) Z -> gmap (Z * Z) Z;           (* eviction of a LRU map before an update *)
  k_read : Z -> nat -> Z * list Z;                    (* bpf_probe_read_kernel(addr, n) *)
  k_read_str : Z -> nat -> Z * list Z;                (* bpf_probe_read_kernel_str(addr, n) *)
  k_task : Z;                                         (* bpf_get_current_task() *)
  k_ktime : nat -> Z;                                 (* the n-th bpf_ktime_get_ns() of a run *)
  k_go_time : Z;                                      (* the one of get_rw_goid *)
  k_allow_reasm : traffic_protocol -> option bool;    (* allow_reasm_protos_map *)
  k_io_addr : Z;                                      (* the address of io_event_buffer[0] *)
  k_infer_buf : option (list Z);                      (* ctx_info[0]: the inference buffer *)
  k_port_bitmap : Z -> option (list Z);               (* kprobe_port_bitmap: 0 allow, 1 bypass *)
  k_adapt : option adapt_data;                        (* adapt_kern_data_map[0] *)
  k_local : list Z -> nat -> Z * list Z }.            (* bpf_probe_read_user(variable of the program, n) *)

#[export] Instance eta_kenv : Eta kenv := fun K => mk_kenv
  (k_max_sock K) (k_max_trace K) (k_max_role K) (k_max_args K) (k_max_routine K) (k_max_caller K)
  (k_max_ssl K) (k_max_tls K)
  (k_lru K) (k_read K) (k_read_str K) (k_task K) (k_ktime K) (k_go_time K) (k_allow_reasm K)
  (k_io_addr K) (k_infer_buf K) (k_port_bitmap K) (k_adapt K) (k_local K).

Record kenv_ok (K : kenv) : Prop := {
  k_lru_sub : forall m, k_lru K m ⊆ m;
  k_read_len : forall a n, length (k_read K a n).2 = n;
  k_read_bytes : forall a n, bytes_ok (k_read K a n).2;
  k_str_len : forall a n, (length (k_read_str K a n).2 <= n)%nat;
  k_str_bytes : forall a n, bytes_ok (k_read_str K a n).2;
  k_str_ret : forall a n, - 2 ^ 31 <= (k_read_str K a n).1 <= Z.of_nat n /\
    (0 <= (k_read_str K a n).1 -> (k_read_str K a n).1 = Z.of_nat (length (k_read_str K a n).2));
  k_local_len : forall b n, length (k_local K b n).2 = n;
  k_local_bytes : forall b n, bytes_ok (k_local K b n).2;
  k_buf_ok : forall b, k_infer_buf K = Some b -> length b = 64%nat /\ bytes_ok b;
  k_ports_ok : forall i b, k_port_bitmap K i = Some b -> bitmap_ok b }.

(** A hash map: [bpf_map_update_elem] with [BPF_ANY] fails on a new key of a
    full map; [bpf_map_delete_elem] fails on a missing key. The result is
    whether the call succeeded. *)
Section htab.
Context {K A : Type} `{Countable K}.
Definition htab_update (max : Z) (k : K) (a : A) (m : gmap K A) : bool * gmap K A :=
  if bool_decide (is_Some (m !! k)) || (Z.of_nat (size m) <? max) then (true, <[k := a]> m) else (false, m).
Definition htab_delete (k : K) (m : gmap K A) : bool * gmap K A :=
  if bool_decide (is_Some (m !! k)) then (true, delete k m) else (false, m).
End htab.

(** [__sync_fetch_and_add] on a counter. *)
Definition set_stats (f : trace_stats -> trace_stats) : W unit :=
  modify (fun w => w <| w_stats := f <$> w_stats w |>).
Definition count_socket (d : Z) : W unit :=
  set_stats (fun n => n <| n_socket_map := u64 (n_socket_map n + d) |>).
Definition count_trace (d : Z) : W unit :=
  set_stats (fun n => n <| n_trace_map := u64 (n_trace_map n + d) |>).
Definition set_ctx (f : tracer_ctx -> tracer_ctx) : W unit :=
  modify (fun w => w <| w_ctx := f <$> w_ctx w |>).
Definition add_refcnt (d : Z) : W unit :=
  set_ctx (fun t => t <| t_push_buffer_refcnt := s32 (t_push_buffer_refcnt t + d) |>).

(** [gen_conn_key_id]. *)
Definition gen_conn_key_id (param_1 param_2 : Z) : Z :=
  Z.lor (u64 (Z.shiftl param_1 32)) (u32 param_2).

(** ** A state to evaluate on *)

Definition example_offsets : member_offsets :=
  mk_offsets true false false true 24 2704 496 1300 1644 32 104 200 40 32 32 0 40 16 24 40
    16 4 0 72 56 12 14 18 19 16 0 32 224 8 16 268.
Definition example_kenv : kenv :=
  mk_kenv 4 4 4 4 4 4 4 4 (fun m => m) (fun _ n => (0, replicate n 0)) (fun _ n => (Z.of_nat (min n 1), replicate (min n 1) 0)) 0
    (fun n => 1000 + Z.of_nat n) 1000 (fun p => Some (p =! PROTO_HTTP1)) 0 (Some (replicate 64 0))
    (fun _ => None) (Some (mk_adapt 0 0 0)) (fun _ n => (-14, replicate n 0)).
Definition example_ctx : tracer_ctx := mk_ctx 100 200 1024 0 1 0 false 0 0 0 false.
Definition example_stats : trace_stats := mk_stats 0 0 0 0 0 0.
Definition example_world : world :=
  mk_world ∅ ∅ ∅ ∅ (fun _ => Some (fun _ => PROTO_UNKNOWN)) (Some example_ctx) (Some example_stats)
    (Some (mk_buf 0 0 (replicate (Z.to_nat BUF_DATA) 0))) [] ∅ ∅ (Some (replicate 548 0))
    (Some example_offsets) (mk_go ∅ ∅ ∅ ∅ ∅)
    (mk_up ∅ ∅ (Some (mk_stack 0 0 (replicate HEAD 0) (replicate (Z.to_nat BURST_DATA_BUF_SIZE) 0) false)) []).

Lemma example_kenv_ok : kenv_ok example_kenv.
Proof.
  constructor; try done; try (intros a n; cbn [example_kenv k_read k_read_str k_local fst snd];
    rewrite ?length_replicate; (done || (by apply Forall_replicate) || lia)).
  intros b [= <-]. split; [done | by apply bytes_okb].
Qed.
