(* ===== verification/Output.v ===== *)
(** * From the kernel buffer to the reader

    [output_data_copy], [finalize_data_output], [output_extra_data_common],
    [__output_data_common] and [push_socket_data] of kernel/socket_trace.bpf.c,
    and the walk of [reader_raw_cb] in user/socket.c. Events are appended to a
    per-CPU buffer and pushed in batches; what the reader finds in the batches
    and what is still in the buffer are together the events that were
    submitted, in order. *)

From S2P Require Import Prelude Bitmap Conn Iovec World.

(** ** Kernel side *)

(** [sizeof(struct __io_event_buffer)]. *)
Definition IO_SIZE : Z := 548.
Definition MAX_EVENTS_BURST : Z := 32.
Definition PERIODIC_PUSH_DELAY_THRESHOLD_NS : Z := 50000000.
Definition MAX_PUSH_DELAY_TIME_NS : Z := 100000000.

(** [n] bytes at an offset of an object. *)
Definition slice (b : list Z) (o : Z) (n : nat) : option (list Z) :=
  if (0 <=? o) && (o + Z.of_nat n <=? Z.of_nat (length b))
  then Some (take n (drop (Z.to_nat o) b)) else None.

(** The number of bytes to push. *)
Definition push_len (syscall_len max_size reassembly_bytes : Z) : Z :=
  let len := u32 (if u64 max_size <? syscall_len then max_size else syscall_len) in
  if 0 <? reassembly_bytes then reassembly_bytes else len.

Section output.
Context (E : env) (K : kenv).

(** The copies return the number of bytes and the data of the buffer; the event
    [v] is at [b_len] of the buffer. *)
Definition output_iov_data_copy (iov : iov_args) (b : out_buf) (v : list Z)
    (max_size reassembly_bytes : Z) : option (Z * list Z) :=
  let __len := push_len (vget v_syscall_len v) max_size reassembly_bytes in
  let len := Z.land __len (BURST_DATA_BUF_SIZE - 1) in
  g ← iovecs_copy E (b_data b) (b_len b + SD_HEAD) iov __len len;
  Some (g_bytes g, g_data g).

(** [n] bytes of kernel memory from the per-CPU buffer of file events on. *)
Definition read_io (io : list Z) (n : nat) : Z * list Z :=
  let '(st, bytes) := k_read K (k_io_addr K) n in (st, take n (io ++ drop (length io) bytes)).

(** [bpf_probe_read_user] or, for file events, [bpf_probe_read_kernel]; [buffer]
    is an address of the process or the buffer of file events. *)
Definition read_data (buffer : Z + list Z) (n : nat) : Z * list Z :=
  match buffer with inl a => e_read_user E a n | inr io => read_io io n end.

Definition output_data_copy (args : data_args) (vecs : bool) (b : out_buf) (v : list Z)
    (max_size reassembly_bytes : Z) (buffer : Z + list Z) : option (Z * list Z) :=
  let __len := push_len (vget v_syscall_len v) max_size reassembly_bytes in
  let len := Z.land __len (BURST_DATA_BUF_SIZE - 1) in
  if vecs then output_iov_data_copy (da_iov args) b v max_size reassembly_bytes else
  let '(n, len) := if BURST_DATA_BUF_SIZE <=? __len then (BURST_DATA_BUF_SIZE, BURST_DATA_BUF_SIZE)
                   else (len + 1, len) in
  let '(st, bytes) := read_data buffer (Z.to_nat n) in
  data ← write_at (b_data b) (b_len b + SD_HEAD) bytes;
  Some (if st =? 0 then len else -1, data).

(** [v->data_len = n] and the lengths of the buffer after it. *)
Definition close_event (b : out_buf) (v : list Z) (n : Z) : option out_buf :=
  let v := vput v_data_len n v in
  data ← write_at (b_data b) (b_len b) v;
  Some (mk_buf (u32 (b_events_num b + 1)) (u32 (b_len b + (SD_HEAD + vget v_data_len v))) data).

(** [struct __socket_data_buffer] in memory, and how much of it is pushed. *)
Definition buf_bytes (b : out_buf) : list Z :=
  le_bytes 4 (b_events_num b) ++ le_bytes 4 (b_len b) ++ b_data b.
Definition push_record (b : out_buf) : list Z :=
  let buf_size := Z.land (u32 (b_len b + 8)) (BUF_SIZE - 1) in
  if (buf_size <? BUF_SIZE) && (0 <? buf_size)
  then take (Z.to_nat (buf_size + 1)) (buf_bytes b) else take (Z.to_nat BUF_SIZE) (buf_bytes b).

Definition push_batch : W unit :=
  modify (fun w => match w_buf w with
    | Some b => w <| w_out := w_out w ++ [push_record b] |>
                  <| w_buf := Some (b <| b_events_num := 0 |> <| b_len := 0 |>) |>
    | None => w
    end).

Definition finalize_data_output (curr_time diff : Z) : W unit :=
  _ ← push_batch;
  if PERIODIC_PUSH_DELAY_THRESHOLD_NS <? diff then
    set_ctx (fun t => t <| t_last_period_timestamp := t_period_timestamp t |>
                        <| t_period_timestamp := curr_time |>)
  else mret tt.

(** The second message of a [sendmmsg]; [h] is the offset of the first one. *)
Definition output_extra_data_common (args : option data_args) (h max_size reassembly_bytes : Z) : W unit :=
  ob ← gets w_buf;
  match args, ob with
  | Some args, Some b =>
      if a_iovlen (da_extra_iov args) =? 0 then mret tt else
      head ← lift (slice (b_data b) h HEAD);
      if negb (vget v_data_type head =? proto_num PROTO_DNS) || negb (vget v_l4_protocol head =? IPPROTO_UDP)
      then mret tt else
      if BUF_DATA - SD_SIZE <? b_len b then mret tt else
      let v := vput v_data_seq (vget v_data_seq head + 1) head in
      data ← lift (write_at (b_data b) (b_len b) v);
      let b := b <| b_data := data |> in
      r ← lift (output_iov_data_copy (da_extra_iov args) b v max_size reassembly_bytes);
      let b := b <| b_data := r.2 |> in
      if r.1 <? 0 then modify (fun w => w <| w_buf := Some b |>) else
      b ← lift (close_event b v r.1);
      modify (fun w => w <| w_buf := Some b |>)
  | _, _ => mret tt
  end.

(** Where the payload of the event [v] is; [io] is the buffer of file events. *)
Definition event_buffer (v : list Z) (io : option (list Z)) (args : data_args) : option (Z + list Z) :=
  if vget v_source v =? source_num DATA_SOURCE_IO_EVENT then inr <$> io else Some (inl (da_buf args)).

(** The event at the end of the buffer is completed: its data is copied (no
    data for a close). The result is whether to go on. *)
Definition append_event (b : out_buf) (io : option (list Z)) (args : option data_args) (vecs : bool)
    (max_size : Z) (is_close : bool) (reassembly_bytes : Z) : option (out_buf * bool) :=
  v ← slice (b_data b) (b_len b) HEAD;
  if is_close then b ← close_event b v 0; Some (b, true) else
  match args, mbind (event_buffer v io) args with
  | Some args, Some buffer =>
      r ← output_data_copy args vecs b v max_size reassembly_bytes buffer;
      let b := b <| b_data := r.2 |> in
      if r.1 <? 0 then Some (b, false) else
      b ← close_event b v r.1; Some (b, true)
  | _, _ => Some (b, false)
  end.

(** [curr_time] is the clock. *)
Definition output_event (args : option data_args) (vecs : bool) (max_size : Z) (is_close : bool)
    (reassembly_bytes curr_time : Z) : W unit :=
  ob ← gets w_buf;
  match ob with
  | None => mret tt
  | Some b =>
      if BUF_DATA <? b_len b + SD_HEAD then mret tt else
      if BUF_DATA - SD_SIZE <? b_len b then mret tt else
      io ← gets w_io;
      r ← lift (append_event b io args vecs max_size is_close reassembly_bytes);
      let '(b', go) := r in
      _ ← modify (fun w => w <| w_buf := Some b' |>);
      if negb go then mret tt else
      last ← gets (fun w => match w_ctx w with Some t => t_last_period_timestamp t | None => 0 end);
      let diff := u64 (curr_time - last) in
      let extra := match args with Some a => negb (a_iovlen (da_extra_iov a) =? 0) | None => false end in
      _ ← (if (PERIODIC_PUSH_DELAY_THRESHOLD_NS <? diff) || (MAX_EVENTS_BURST <=? b_events_num b') ||
              extra || (u64 (BUF_DATA - b_len b') <? SD_SIZE)
           then finalize_data_output curr_time diff else mret tt);
      output_extra_data_common args (b_len b) max_size reassembly_bytes
  end.

Definition __output_data_common (args : option data_args) (vecs : bool) (max_size : Z)
    (is_close : bool) (reassembly_bytes curr_time : Z) : W unit :=
  _ ← output_event args vecs max_size is_close reassembly_bytes curr_time;
  add_refcnt (-1).

(** The current process is the agent itself. *)
Definition check_pid_validity : bool :=
  match k_adapt K with
  | None => false
  | Some a => Z.shiftr (ad_id a) 32 =? Z.shiftr (e_pid_tgid E) 32
  end.

(** The periodic push; [now] is the clock. *)
Definition push_socket_data (now : Z) : W unit :=
  if negb check_pid_validity then mret tt else
  octx ← gets w_ctx; ostats ← gets w_stats;
  match octx, ostats with
  | Some t, Some _ =>
      let diff := u64 (now - t_period_timestamp t) in
      _ ← set_ctx (fun t => t <| t_last_period_timestamp := t_period_timestamp t |>
                              <| t_period_timestamp := now |>);
      _ ← set_stats (fun n => n <| n_period_total_time := u64 (n_period_total_time n + diff) |>
                                <| n_period_count := u64 (n_period_count n + 1) |>);
      if negb (t_push_buffer_refcnt t =? 0) then
        set_stats (fun n => n <| n_push_conflict := u64 (n_push_conflict n + 1) |>)
      else
      ob ← gets w_buf;
      match ob with
      | Some b =>
          if 0 <? b_events_num b then
            _ ← push_batch;
            if MAX_PUSH_DELAY_TIME_NS <? diff
            then set_stats (fun n => n <| n_period_max_delay := u64 (n_period_max_delay n + 1) |>)
            else mret tt
          else mret tt
      | None => mret tt
      end
  | _, _ => mret tt
  end.
End output.

(** ** User side *)

Definition EVENT_TYPE_MIN : Z := 512.

(** The loop of [reader_raw_cb] over the events: header and data of each. *)
Fixpoint reader_walk (data : list Z) (start : Z) (n : nat) : option (list (list Z * list Z)) :=
  match n with
  | O => Some []
  | S n =>
      sd ← slice data start HEAD;
      let len := vget v_data_len sd in
      d ← slice data (start + SD_HEAD) (Z.to_nat len);
      l ← reader_walk data (start + (SD_HEAD + len)) n;
      Some ((sd, d) :: l)
  end.

(** The checks of [reader_raw_cb] on a record of [raw_size] bytes, then the
    walk. The inner [None] is a record that is refused or is not socket data. *)
Definition reader_raw_cb (raw : list Z) : option (option (list (list Z * list Z))) :=
  let raw_size := Z.of_nat (length raw) in
  event_type ← rd32 raw 0;
  if event_type <=? 0 then Some None else
  if EVENT_TYPE_MIN <=? event_type then Some None else
  if raw_size <? 8 then Some None else
  len ← rd32 raw 4;
  if u32 raw_size <? u32 (len + 8) then Some None else
  if (event_type <=? 0) || (MAX_EVENTS_BURST <? event_type) then Some None else
  if len <? SD_HEAD * event_type then Some None else
  let data := drop 8 raw in
  sd ← slice data 0 HEAD;
  if ((vget v_source sd =? source_num DATA_SOURCE_GO_HTTP2_UPROBE) ||
      (vget v_source sd =? source_num DATA_SOURCE_GO_HTTP2_DATAFRAME_UPROBE)) &&
     (vget_msg_type sd =? msg_num MSG_UNKNOWN) then Some None else
  l ← reader_walk data 0 (Z.to_nat event_type);
  Some (Some l).

(** ** Fields *)

Lemma vput_length f x v : (f_off f + f_len f <= length v)%nat -> length (vput f x v) = length v.
Proof.
  intros Hf. unfold vput, vput_bytes. rewrite !length_app, !length_take, length_app, le_bytes_length, !length_drop. lia.
Qed.

Lemma vbytes_vput f x v :
  (f_off f + f_len f <= length v)%nat -> vbytes f (vput f x v) = le_bytes (f_len f) x.
Proof.
  intros Hf. unfold vbytes, vput, vput_bytes. rewrite drop_app_ge by (rewrite length_take; lia).
  rewrite length_take, Nat.min_l, Nat.sub_diag, drop_0 by lia.
  rewrite take_app_le by (rewrite length_take, length_app, le_bytes_length; lia).
  rewrite take_take, Nat.min_id, take_app_le, take_ge by (rewrite le_bytes_length; lia). done.
Qed.

(** The value of a field that was just written, and of one written elsewhere. *)
Lemma vget_vput f x v :
  (f_off f + f_len f <= length v)%nat -> vget f (vput f x v) = x mod 2 ^ (8 * Z.of_nat (f_len f)).
Proof. intros Hf. unfold vget. by rewrite vbytes_vput, le_word_le_bytes. Qed.

Definition disjoint (f g : field) : bool :=
  (f_off f + f_len f <=? f_off g)%nat || (f_off g + f_len g <=? f_off f)%nat.

Lemma vbytes_vput_bytes_ne f g b v :
  disjoint f g = true -> length b = f_len g -> (f_off g + f_len g <= length v)%nat ->
  (f_off f + f_len f <= length v)%nat -> vbytes f (vput_bytes g b v) = vbytes f v.
Proof.
  intros Hd Hb Hg Hf. unfold vbytes, vput_bytes. rewrite (take_app_le b), (take_ge b) by lia.
  apply orb_true_iff in Hd as [Hd | Hd]; apply Nat.leb_le in Hd.
  - rewrite drop_app_le by (rewrite length_take; lia). rewrite take_app_le by (rewrite length_drop, length_take; lia).
    rewrite skipn_firstn_comm, take_take. f_equal. lia.
  - rewrite drop_app_ge by (rewrite length_take; lia). rewrite length_take, Nat.min_l by lia.
    rewrite drop_app_ge by lia. rewrite drop_drop. do 2 f_equal. lia.
Qed.

Lemma vget_vput_ne f g x v :
  disjoint f g = true -> (f_off g + f_len g <= length v)%nat -> (f_off f + f_len f <= length v)%nat ->
  vget f (vput g x v) = vget f v.
Proof.
  intros. unfold vget, vput. by rewrite vbytes_vput_bytes_ne by (done || apply le_bytes_length).
Qed.

Lemma vput_ok f x v : bytes_ok v -> bytes_ok (vput f x v).
Proof.
  intros Hv. unfold vput, vput_bytes. apply Forall_app. split; [by apply Forall_take |].
  apply Forall_app. split; [| by apply Forall_drop]. apply Forall_take, Forall_app.
  split; [apply le_bytes_ok | by apply Forall_drop].
Qed.

(** ** Batches *)

(** An event as the reader finds it. *)
Definition event_ok (e : list Z * list Z) : Prop :=
  length e.1 = HEAD /\ vget v_data_len e.1 = Z.of_nat (length e.2) /\ vget_msg_type e.1 <> 0.
Definition flat (evs : list (list Z * list Z)) : list Z := concat ((fun e => e.1 ++ e.2) <$> evs).

Lemma flat_cons e evs : flat (e :: evs) = e.1 ++ e.2 ++ flat evs.
Proof. unfold flat. simpl. by rewrite app_assoc. Qed.
Lemma flat_snoc evs e : flat (evs ++ [e]) = flat evs ++ e.1 ++ e.2.
Proof. unfold flat. rewrite fmap_app, concat_app. simpl. by rewrite app_nil_r. Qed.

Lemma slice_app b1 b2 b3 n :
  length b2 = n -> slice (b1 ++ b2 ++ b3) (Z.of_nat (length b1)) n = Some b2.
Proof.
  intros Hn. unfold slice. rewrite !length_app.
  destruct (Z.leb_spec 0 (Z.of_nat (length b1))), (Z.leb_spec (Z.of_nat (length b1) + Z.of_nat n)
    (Z.of_nat (length b1 + (length b2 + length b3)))); try lia. simpl.
  rewrite Nat2Z.id, drop_app_length. by rewrite <- Hn, take_app_length.
Qed.

Lemma reader_walk_flat evs : forall pre rest,
  Forall event_ok evs ->
  reader_walk (pre ++ flat evs ++ rest) (Z.of_nat (length pre)) (length evs) = Some evs.
Proof.
  induction evs as [| [v d] evs IH]; intros pre rest Hok; [done |]. cbn [length reader_walk].
  inversion Hok as [| ? ? (Hl & Hd & _) Hok']; subst. simpl in Hl, Hd.
  rewrite flat_cons, <- !app_assoc. rewrite slice_app by done. cbn [mbind option_bind fst snd].
  rewrite Hd, Nat2Z.id.
  replace (Z.of_nat (length pre) + SD_HEAD) with (Z.of_nat (length (pre ++ v)))
    by (rewrite length_app, Hl; unfold SD_HEAD; lia).
  rewrite (app_assoc pre v). rewrite slice_app by done. cbn [mbind option_bind].
  replace (Z.of_nat (length pre) + (SD_HEAD + Z.of_nat (length d))) with (Z.of_nat (length ((pre ++ v) ++ d)))
    by (rewrite !length_app, Hl; unfold SD_HEAD; lia).
  rewrite (app_assoc (pre ++ v) d). by rewrite IH.
Qed.

(** The buffer holds [evs]. *)
Record holds (b : out_buf) (evs : list (list Z * list Z)) : Prop := {
  h_size : Z.of_nat (length (b_data b)) = BUF_DATA;
  h_bytes : bytes_ok (b_data b);
  h_len : b_len b = Z.of_nat (length (flat evs));
  h_data : take (length (flat evs)) (b_data b) = flat evs;
  h_num : b_events_num b = Z.of_nat (length evs);
  h_evs : Forall event_ok evs }.

(** There is room for one more event. *)
Definition roomy (b : out_buf) : Prop := b_len b <= BUF_DATA - SD_SIZE.

Lemma flat_length_ge evs : Forall event_ok evs -> (HEAD * length evs <= length (flat evs))%nat.
Proof.
  induction 1 as [| e evs (Hl & _) _ IH]; [done |].
  rewrite flat_cons, !length_app, Hl. simpl length. lia.
Qed.

Lemma rd32_le n m x rest : length m = n -> 0 <= x < 2 ^ 32 ->
  rd32 (m ++ le_bytes 4 x ++ rest) (Z.of_nat n) = Some x.
Proof.
  intros Hm Hx. assert (forall k y, (k < 4)%nat -> le_bytes 4 x !! k = Some y ->
    rd8 (m ++ le_bytes 4 x ++ rest) (Z.of_nat n + Z.of_nat k) = Some y) as H.
  { intros k y Hk Hy. unfold rd8. destruct (Z.ltb_spec (Z.of_nat n + Z.of_nat k) 0); [lia |].
    rewrite lookup_app_r by lia. replace (Z.to_nat (Z.of_nat n + Z.of_nat k) - length m)%nat with k by lia.
    rewrite lookup_app_l by (rewrite le_bytes_length; lia). done. }
  unfold rd32, rd16. pose proof (le_word_le_bytes 4 x) as Hw.
  rewrite Z.mod_small in Hw by (simpl; lia). rewrite <- Hw at 2. clear Hw.
  remember (le_bytes 4 x) as l eqn:Hl. pose proof (le_bytes_length 4 x) as Hlen. rewrite <- Hl in Hlen.
  pose proof (le_bytes_ok 4 x) as Hok. rewrite <- Hl in Hok.
  destruct l as [| a [| b [| c [| d [|]]]]]; try done.
  pose proof (H 0%nat a ltac:(lia) eq_refl) as H0. pose proof (H 1%nat b ltac:(lia) eq_refl) as H1.
  pose proof (H 2%nat c ltac:(lia) eq_refl) as H2. pose proof (H 3%nat d ltac:(lia) eq_refl) as H3.
  change (Z.of_nat 0) with 0 in H0. rewrite Z.add_0_r in H0. replace (Z.of_nat n + 2 + 1) with (Z.of_nat n + 3) by lia.
  change (Z.of_nat 1) with 1 in H1. change (Z.of_nat 2) with 2 in H2. change (Z.of_nat 3) with 3 in H3.
  rewrite H0, H1, H2, H3. cbn [mbind option_bind]. f_equal.
  do 4 (apply Forall_cons_1 in Hok as [? Hok]). rewrite !le_word_cons by done. simpl. lia.
Qed.

Lemma holds_split b evs :
  holds b evs -> exists rest, b_data b = flat evs ++ rest /\
    Z.of_nat (length (flat evs)) + Z.of_nat (length rest) = BUF_DATA.
Proof.
  intros Hh. exists (drop (length (flat evs)) (b_data b)). pose proof (h_data b evs Hh) as Hd.
  assert (b_data b = flat evs ++ drop (length (flat evs)) (b_data b)) as Heq
    by (rewrite <- Hd at 1; symmetry; apply take_drop).
  split; [done |]. pose proof (h_size b evs Hh) as Hs. rewrite Heq, length_app in Hs. lia.
Qed.

(** What is pushed is the buffer up to its length, and at most one byte more. *)
Lemma push_record_split b evs :
  holds b evs -> exists rest,
    push_record b = le_bytes 4 (b_events_num b) ++ le_bytes 4 (b_len b) ++ flat evs ++ rest /\
    Z.of_nat (length (flat evs) + length rest) <= BUF_DATA.
Proof.
  intros Hh. destruct (holds_split b evs Hh) as (rest & Hd & Hl). pose proof (h_len b evs Hh) as Hlen.
  unfold push_record, buf_bytes, BUF_SIZE. rewrite Hd.
  change (32768 - 1) with (Z.ones 15). rewrite Z.land_ones by lia. change (2 ^ 15) with 32768.
  unfold BUF_DATA in *. rewrite wrap_small by lia.
  assert (forall n, (8 + length (flat evs) <= n)%nat ->
    exists rest', take n (le_bytes 4 (b_events_num b) ++ le_bytes 4 (b_len b) ++ flat evs ++ rest) =
      le_bytes 4 (b_events_num b) ++ le_bytes 4 (b_len b) ++ flat evs ++ rest' /\
      (length rest' <= length rest)%nat) as H.
  { intros n Hn. exists (take (n - 8 - length (flat evs)) rest). split; [| rewrite length_take; lia].
    rewrite !take_app_ge by (rewrite ?le_bytes_length; lia). rewrite !le_bytes_length.
    do 4 f_equal. lia. }
  destruct (Z.eq_dec (b_len b + 8) 32768) as [He | Hne].
  - rewrite He. change (32768 mod 32768) with 0.
    change ((0 <? 32768) && (0 <? 0)) with false. cbv iota.
    destruct (H (Z.to_nat 32768)) as (r & -> & Hr); [lia |]. exists r. split; [done | lia].
  - rewrite Z.mod_small by lia.
    destruct (Z.ltb_spec (b_len b + 8) 32768), (Z.ltb_spec 0 (b_len b + 8)); try lia. cbn [andb].
    destruct (H (Z.to_nat (b_len b + 8 + 1))) as (r & -> & Hr); [lia |]. exists r. split; [done | lia].
Qed.

(** The checks of the reader on a record that is well formed. *)
Definition http2_source (v : list Z) : bool :=
  (vget v_source v =? source_num DATA_SOURCE_GO_HTTP2_UPROBE) || (vget v_source v =? source_num DATA_SOURCE_GO_HTTP2_DATAFRAME_UPROBE).
Lemma record_checked num len data : 0 < num <= MAX_EVENTS_BURST -> SD_HEAD * num <= len <= Z.of_nat (length data) ->
  Z.of_nat (length data) <= BUF_DATA ->
  reader_raw_cb (le_bytes 4 num ++ le_bytes 4 len ++ data) =
    (sd ← slice data 0 HEAD;
     if http2_source sd && (vget_msg_type sd =? msg_num MSG_UNKNOWN) then Some None else
     l ← reader_walk data 0 (Z.to_nat num); Some (Some l)).
Proof.
  intros Hn Hlen Hl. unfold MAX_EVENTS_BURST, BUF_DATA, SD_HEAD in *. unfold reader_raw_cb.
  pose proof (rd32_le 0 [] num (le_bytes 4 len ++ data) eq_refl ltac:(lia)) as H0.
  change (Z.of_nat 0) with 0 in H0. rewrite app_nil_l in H0. rewrite H0. cbn [mbind option_bind].
  unfold EVENT_TYPE_MIN, MAX_EVENTS_BURST, SD_HEAD.
  destruct (Z.leb_spec num 0), (Z.leb_spec 512 num); try lia. cbn [orb].
  rewrite !length_app, !le_bytes_length.
  destruct (Z.ltb_spec (Z.of_nat (4 + (4 + length data))) 8); [lia |].
  pose proof (rd32_le 4 (le_bytes 4 num) len data (le_bytes_length 4 _) ltac:(lia)) as H4.
  change (Z.of_nat 4) with 4 in H4. rewrite H4. cbn [mbind option_bind]. rewrite !(wrap_small 32) by lia.
  destruct (Z.ltb_spec (Z.of_nat (4 + (4 + length data))) (len + 8)); [lia |].
  destruct (Z.ltb_spec 32 num), (Z.ltb_spec len (153 * num)); try lia.
  by replace (drop 8 (le_bytes 4 num ++ le_bytes 4 len ++ data)) with data
    by (by rewrite app_assoc, drop_app_ge by (rewrite length_app, !le_bytes_length; lia)).
Qed.
Lemma record_read evs rest : Forall event_ok evs -> evs <> [] -> Z.of_nat (length evs) <= MAX_EVENTS_BURST ->
  Z.of_nat (length (flat evs) + length rest) <= BUF_DATA ->
  reader_raw_cb (le_bytes 4 (Z.of_nat (length evs)) ++ le_bytes 4 (Z.of_nat (length (flat evs))) ++ flat evs ++ rest) = Some (Some evs).
Proof.
  intros Hev Hne Hn Hl. pose proof (flat_length_ge evs Hev) as Hge.
  assert (0 < length evs)%nat by (destruct evs; [done | simpl; lia]).
  rewrite record_checked by (rewrite ?length_app; unfold SD_HEAD; lia).
  rewrite Nat2Z.id. pose proof (reader_walk_flat evs [] rest Hev) as Hw.
  change (Z.of_nat (length [])) with 0 in Hw. rewrite app_nil_l in Hw.
  destruct evs as [| e evs]; [done |]. inversion Hev as [| ? ? (He1 & He2 & He3) _]; subst.
  rewrite flat_cons, <- !app_assoc in Hw |- *.
  pose proof (slice_app [] e.1 (e.2 ++ flat evs ++ rest) HEAD He1) as Hs.
  change (Z.of_nat (length [])) with 0 in Hs. rewrite app_nil_l in Hs. rewrite Hs. cbn [mbind option_bind].
  destruct (Z.eqb_spec (vget_msg_type e.1) (msg_num MSG_UNKNOWN)); [done |]. rewrite andb_false_r. by rewrite Hw.
Qed.
(** A record with one event of HTTP/2 whose type was never set is refused. *)
Lemma record_refused v data : length v = HEAD -> http2_source v = true -> vget_msg_type v = 0 -> Z.of_nat (HEAD + length data) <= BUF_DATA ->
  forall len, SD_HEAD <= len <= Z.of_nat (HEAD + length data) -> reader_raw_cb (le_bytes 4 1 ++ le_bytes 4 len ++ v ++ data) = Some None.
Proof.
  intros Hv Hs Ht Hl len Hlen. rewrite record_checked by (rewrite ?length_app, ?Hv; unfold MAX_EVENTS_BURST; lia).
  pose proof (slice_app [] v data HEAD Hv) as Hsl. change (Z.of_nat (length [])) with 0 in Hsl. rewrite app_nil_l in Hsl.
  rewrite Hsl. cbn [mbind option_bind]. by rewrite Hs, Ht.
Qed.

Lemma push_record_read b evs :
  holds b evs -> evs <> [] -> b_events_num b <= MAX_EVENTS_BURST ->
  reader_raw_cb (push_record b) = Some (Some evs).
Proof.
  intros Hh Hne Hn. destruct (push_record_split b evs Hh) as (rest & -> & Hl).
  rewrite (h_len b evs Hh), (h_num b evs Hh) in *. by apply record_read; [apply (h_evs b evs Hh) | | |].
Qed.

(** ** Appending an event *)

Lemma msg_type_data_len n v : length v = HEAD -> vget_msg_type (vput v_data_len n v) = vget_msg_type v.
Proof. intros Hv. unfold vget_msg_type. by rewrite vget_vput_ne by (done || rewrite Hv; simpl; lia). Qed.

Lemma close_event_ok b evs v data n :
  holds b evs -> 0 <= n <= BURST_DATA_BUF_SIZE -> b_len b + SD_HEAD + n <= BUF_DATA ->
  length v = HEAD -> bytes_ok v -> vget_msg_type v <> 0 ->
  length data = length (b_data b) -> bytes_ok data ->
  take (Z.to_nat (b_len b)) data = take (Z.to_nat (b_len b)) (b_data b) ->
  let d := take (Z.to_nat n) (drop (Z.to_nat (b_len b + SD_HEAD)) data) in
  exists b', close_event (b <| b_data := data |>) v n = Some b' /\
    holds b' (evs ++ [(vput v_data_len n v, d)]) /\
    b_len b' = b_len b + SD_HEAD + n /\ b_events_num b' = b_events_num b + 1.
Proof.
  intros Hh Hn Hroom Hv Hvb Hm Hl Hb Hpre d. unfold close_event, BURST_DATA_BUF_SIZE, SD_HEAD, BUF_DATA in *. simpl.
  pose proof (h_size b evs Hh) as Hsz. pose proof (h_len b evs Hh) as Hlen. pose proof (h_num b evs Hh) as Hnum.
  pose proof (flat_length_ge evs (h_evs b evs Hh)) as Hge. unfold BUF_DATA in Hsz.
  assert (length (vput v_data_len n v) = HEAD) as Hv' by (rewrite vput_length; [done | rewrite Hv; simpl; lia]).
  assert (vget v_data_len (vput v_data_len n v) = n) as Hdl.
  { rewrite vget_vput by (rewrite Hv; simpl; lia). apply Z.mod_small. simpl. lia. }
  destruct (write_at_ok data (b_len b) (vput v_data_len n v)) as (data' & -> & L1 & L2); [lia | rewrite Hv'; lia |].
  cbn [mbind option_bind]. rewrite Hdl, !wrap_small by lia.
  eexists. split; [done |]. rewrite Hv' in L2.
  assert (length d = Z.to_nat n) as Hd by (unfold d; rewrite length_take, length_drop; lia).
  split; [| cbn [b_len b_events_num]; lia]. constructor; cbn [b_data b_len b_events_num].
  - unfold BUF_DATA. lia.
  - subst data'. apply Forall_app. split; [by apply Forall_take |].
    apply Forall_app. split; [by apply vput_ok | by apply Forall_drop].
  - rewrite flat_snoc, !length_app. cbn [fst snd]. rewrite Hv', Hd. lia.
  - rewrite flat_snoc, !length_app. cbn [fst snd]. rewrite Hv', Hd, L2.
    rewrite Hpre, Hlen, Nat2Z.id, (h_data b evs Hh).
    rewrite (take_app_ge (flat evs)) by lia. f_equal.
    rewrite (take_app_ge (vput _ _ _)) by lia. f_equal. unfold d. rewrite Hv'.
    f_equal; [lia |]. f_equal. lia.
  - rewrite length_app. simpl length. lia.
  - apply Forall_app. split; [apply (h_evs b evs Hh) |]. constructor; [| done].
    split_and!; cbn [fst snd]; [done | rewrite Hdl, Hd; lia | by rewrite msg_type_data_len].
Qed.

Section append.
Context (E : env) (K : kenv) (HE : env_ok E) (HK : kenv_ok K).

Definition buffer_ok (buffer : Z + list Z) : Prop :=
  match buffer with inl _ => True | inr io => bytes_ok io end.

Lemma read_data_ok buffer n : buffer_ok buffer ->
  length (read_data E K buffer n).2 = n /\ bytes_ok (read_data E K buffer n).2.
Proof.
  destruct buffer as [a | io]; cbn [read_data buffer_ok]; intros Hio.
  - split; [apply (read_user_len E HE) | apply (read_user_bytes E HE)].
  - unfold read_io. pose proof (k_read_len K HK (k_io_addr K) n) as Hl. pose proof (k_read_bytes K HK (k_io_addr K) n) as Hb.
    destruct (k_read K (k_io_addr K) n) as [st bytes]. cbn [snd] in *. split.
    + rewrite length_take, length_app, length_drop. lia.
    + apply Forall_take, Forall_app. split; [done | by apply Forall_drop].
Qed.

Lemma push_len_range s max_size r : 0 <= r < 2 ^ 32 -> 0 <= push_len s max_size r < 2 ^ 32.
Proof. intros Hr. unfold push_len. case_match; [done |]. by apply wrap_range. Qed.

Lemma land_mask x : 0 <= x -> Z.land x (BURST_DATA_BUF_SIZE - 1) = x mod 16384.
Proof. intros Hx. change (BURST_DATA_BUF_SIZE - 1) with (Z.ones 14). by rewrite Z.land_ones by lia. Qed.

(** ** The events of a call of [__output_data_common] *)

(** The bytes of the vectors that go into an event at [o] of the buffer. A vector is
    left out when the event is so far behind that a copy of the largest size would
    leave the buffer. *)
Definition iov_payload (iov : iov_args) (L o : Z) : list Z :=
  gathered E BURST_DATA_BUF_SIZE (BUF_DATA - BURST_DATA_BUF_SIZE - (o + SD_HEAD)) (Z.min BURST_DATA_BUF_SIZE L) iov
    0 LOOP_LIMIT [].

(** The first [L] bytes of a buffer, up to the size of an event; none when they
    cannot be read. *)
Definition plain_payload (buffer : Z + list Z) (L : Z) : option (list Z) :=
  let '(st, bytes) := read_data E K buffer (Z.to_nat (if BURST_DATA_BUF_SIZE <=? L then BURST_DATA_BUF_SIZE else L + 1)) in
  if st =? 0 then Some (take (Z.to_nat (Z.min BURST_DATA_BUF_SIZE L)) bytes) else None.

(** The payload of the event with header [v] at [o] of the buffer: none for a close,
    that of the vectors or of the buffer of the call otherwise. *)
Definition call_payload (vecs : bool) (args : data_args) (buffer : Z + list Z) (L o : Z) : option (list Z) :=
  if vecs then Some (iov_payload (da_iov args) L o) else plain_payload buffer L.
Definition payload (io : option (list Z)) (args : option data_args) (vecs : bool) (v : list Z) (L o : Z)
    (is_close : bool) : option (list Z) :=
  if is_close then Some [] else
  a ← args; buffer ← event_buffer v io a; call_payload vecs a buffer L o.

(** The event, with its length in the header, and the second message of a
    [sendmmsg] of DNS over UDP, at the start of the buffer that was just pushed. *)
Definition with_payload (v d : list Z) : list Z * list Z := (vput v_data_len (Z.of_nat (length d)) v, d).
Definition second_event (args : option data_args) (L : Z) (e : list Z * list Z) : list (list Z * list Z) :=
  match args with
  | Some a =>
      if (a_iovlen (da_extra_iov a) =? 0) || negb (vget v_data_type e.1 =? proto_num PROTO_DNS) ||
         negb (vget v_l4_protocol e.1 =? IPPROTO_UDP) then []
      else [with_payload (vput v_data_seq (vget v_data_seq e.1 + 1) e.1) (iov_payload (da_extra_iov a) L 0)]
  | None => []
  end.
Definition new_events (io : option (list Z)) (args : option data_args) (vecs : bool) (v : list Z) (L o : Z)
    (is_close : bool) : list (list Z * list Z) :=
  match payload io args vecs v L o is_close with
  | Some d => with_payload v d :: second_event args L (with_payload v d)
  | None => []
  end.

(** What a copy of a payload leaves in the buffer. *)
Definition copied (b : out_buf) (data : list Z) : Prop :=
  length data = length (b_data b) /\ bytes_ok data /\
  take (Z.to_nat (b_len b + SD_HEAD)) data = take (Z.to_nat (b_len b + SD_HEAD)) (b_data b).
(** The payload [d], of at most [max] bytes, is in place; its length is [n]. *)
Definition placed (b : out_buf) (max n : Z) (data d : list Z) : Prop :=
  n = Z.of_nat (length d) /\ n <= Z.min BURST_DATA_BUF_SIZE max /\
  take (length d) (drop (Z.to_nat (b_len b + SD_HEAD)) data) = d.

Lemma output_iov_copy_ok iov b evs v max_size reasm :
  holds b evs -> b_len b <= BUF_DATA - SD_SIZE -> 0 <= reasm < 2 ^ 32 ->
  let L := push_len (vget v_syscall_len v) max_size reasm in
  exists n data, output_iov_data_copy E iov b v max_size reasm = Some (n, data) /\
    copied b data /\ placed b L n data (iov_payload iov L (b_len b)).
Proof.
  intros Hh Hroom Hr L. unfold output_iov_data_copy. fold L. assert (0 <= L < 2 ^ 32) as HL by (by apply push_len_range).
  pose proof (h_size b evs Hh) as Hsz. pose proof (h_len b evs Hh) as Hlen.
  unfold SD_SIZE, SD_HEAD, BUF_DATA, copied, placed, iov_payload, BURST_DATA_BUF_SIZE, SD_HEAD in *.
  pose proof (land_mask L ltac:(lia)) as Hm. unfold BURST_DATA_BUF_SIZE in Hm. rewrite Hm.
  pose proof (Z.mod_pos_bound L 16384 ltac:(lia)) as Hmod.
  destruct (iovecs_copy_ok E (b_data b) (b_len b + 153) iov L (L mod 16384))
    as (g & -> & G1 & G2 & G3 & G4 & G5 & G6); try done; try (unfold BURST_DATA_BUF_SIZE; lia).
  { apply (h_bytes b evs Hh). }
  unfold BURST_DATA_BUF_SIZE in G3, G5, G6. assert ((if 16384 <=? L then 16384 else L mod 16384) = Z.min 16384 L) as Ht.
  { destruct (Z.leb_spec 16384 L); [lia |]. rewrite Z.mod_small by lia. lia. }
  rewrite Ht in G3, G5, G6. exists (g_bytes g), (g_data g). unfold BUF_DATA. split_and!; try done; lia.
Qed.

Lemma output_copy_ok args vecs b evs v max_size reasm buffer :
  holds b evs -> b_len b <= BUF_DATA - SD_SIZE -> 0 <= reasm < 2 ^ 32 -> buffer_ok buffer ->
  let L := push_len (vget v_syscall_len v) max_size reasm in
  exists n data, output_data_copy E K args vecs b v max_size reasm buffer = Some (n, data) /\ copied b data /\
    match call_payload vecs args buffer L (b_len b) with Some d => placed b L n data d | None => n = -1 end.
Proof.
  intros Hh Hroom Hr Hbuf L. unfold output_data_copy, call_payload. fold L. destruct vecs.
  { by apply (output_iov_copy_ok (da_iov args) b evs v max_size reasm). }
  assert (0 <= L < 2 ^ 32) as HL by (by apply push_len_range). rewrite land_mask by lia.
  pose proof (h_size b evs Hh) as Hsz. pose proof (h_len b evs Hh) as Hlen.
  unfold SD_SIZE, SD_HEAD, BUF_DATA, copied, placed, plain_payload, BURST_DATA_BUF_SIZE, SD_HEAD in *.
  assert (exists N n, (if 16384 <=? L then (16384, 16384) else (L mod 16384 + 1, L mod 16384)) = (N, n) /\
    N = (if 16384 <=? L then 16384 else L + 1) /\ n = Z.min 16384 L /\ n <= N <= 16384) as (N & n & -> & HN & Hn & HNn).
  { destruct (Z.leb_spec 16384 L); [| rewrite !Z.mod_small by lia]; eexists _, _; split_and!; try done; lia. }
  rewrite <- HN. destruct (read_data E K buffer (Z.to_nat N)) as [st bytes] eqn:Hrd.
  pose proof (read_data_ok buffer (Z.to_nat N) Hbuf) as [R1 R2]. rewrite Hrd in R1, R2. simpl in R1, R2.
  destruct (write_at_ok (b_data b) (b_len b + 153) bytes) as (data & -> & L1 & L2); [lia.. |].
  eexists _, data. cbn [mbind option_bind]. split; [done |]. split.
  - split_and!; [done | |].
    + subst data. apply Forall_app. split; [apply Forall_take, (h_bytes b evs Hh) |].
      apply Forall_app. split; [done | apply Forall_drop, (h_bytes b evs Hh)].
    + subst data. rewrite take_app_le by (rewrite length_take; lia). by rewrite take_take, Nat.min_id.
  - destruct (st =? 0); [| done]. rewrite <- Hn, length_take. split_and!; [lia.. |].
    assert (length (take (Z.to_nat (b_len b + 153)) (b_data b)) = Z.to_nat (b_len b + 153)) as Hp by (rewrite length_take; lia).
    subst data. rewrite drop_app_ge, Hp, Nat.sub_diag, drop_0, take_app_le by lia. f_equal. lia.
Qed.

Lemma slice_Some b o n v : slice b o n = Some v ->
  0 <= o /\ o + Z.of_nat n <= Z.of_nat (length b) /\ v = take n (drop (Z.to_nat o) b) /\ length v = n.
Proof.
  unfold slice. destruct (Z.leb_spec 0 o), (Z.leb_spec (o + Z.of_nat n) (Z.of_nat (length b))); simpl; try done.
  intros [= <-]. split_and!; try done. rewrite length_take, length_drop. lia.
Qed.

(** Completing the event at the end of the buffer, when its data is in place. *)
Lemma close_appended b evs v data n L d :
  holds b evs -> b_len b <= BUF_DATA - SD_SIZE -> slice (b_data b) (b_len b) HEAD = Some v ->
  vget_msg_type v <> 0 -> copied b data -> placed b L n data d ->
  exists b', close_event (b <| b_data := data |>) v n = Some b' /\
    holds b' (evs ++ [with_payload v d]) /\ slice (b_data b') (b_len b) HEAD = Some (with_payload v d).1 /\
    b_events_num b' = b_events_num b + 1.
Proof.
  intros Hh Hroom Hv Hm (C1 & C2 & C3) (P1 & P2 & P3). apply slice_Some in Hv as (S1 & S2 & S3 & S4).
  destruct (close_event_ok b evs v data n) as (b' & Hc & Hh' & Hl & Hnum); try done; try (unfold SD_SIZE in Hroom; lia).
  { subst v. apply Forall_take, Forall_drop, (h_bytes b evs Hh). }
  { apply (f_equal (take (Z.to_nat (b_len b)))) in C3. rewrite !take_take in C3.
    rewrite !Nat.min_l in C3 by (unfold SD_HEAD; lia). done. }
  rewrite P1, Nat2Z.id, P3 in Hh'. exists b'. split; [done |]. split; [done |]. split; [| done].
  destruct (holds_split b' _ Hh') as (rest & Hb' & _). rewrite Hb', flat_snoc, <- !app_assoc. cbn [with_payload fst snd].
  rewrite (h_len b evs Hh). apply slice_app. rewrite vput_length; [done |]. rewrite S4. simpl. lia.
Qed.

(** The buffer of file events. *)
Definition io_ok (io : option (list Z)) : Prop := forall i, io = Some i -> Z.of_nat (length i) = IO_SIZE /\ bytes_ok i.

Lemma append_event_ok io args vecs b evs v max_size is_close reasm :
  io_ok io -> holds b evs -> b_len b <= BUF_DATA - SD_SIZE -> 0 <= reasm < 2 ^ 32 ->
  slice (b_data b) (b_len b) HEAD = Some v -> vget_msg_type v <> 0 ->
  let L := push_len (vget v_syscall_len v) max_size reasm in
  exists b' go, append_event E K b io args vecs max_size is_close reasm = Some (b', go) /\
    match payload io args vecs v L (b_len b) is_close with
    | Some d => go = true /\ holds b' (evs ++ [with_payload v d]) /\
        slice (b_data b') (b_len b) HEAD = Some (with_payload v d).1 /\ b_events_num b' = b_events_num b + 1
    | None => go = false /\ holds b' evs /\ b_events_num b' = b_events_num b
    end.
Proof.
  intros Hio Hh Hroom Hr Hv Hm L. unfold append_event, payload. rewrite Hv. cbn [mbind option_bind]. destruct is_close.
  { destruct (close_appended b evs v (b_data b) 0 0 []) as (b' & Hc & H1); try done.
    - split_and!; try done. apply (h_bytes b evs Hh).
    - assert (b <| b_data := b_data b |> = b) as Hb by (by destruct b). rewrite Hb in Hc.
      exists b', true. by rewrite Hc. }
  destruct args as [a |]; [| by exists b, false].
  cbn [mbind option_bind]. destruct (event_buffer v io a) as [buffer |] eqn:Hbuf; [| by exists b, false].
  destruct (output_copy_ok a vecs b evs v max_size reasm buffer) as (n & data & -> & Hc & Hpay); try done.
  { unfold event_buffer in Hbuf. case_match; [| by injection Hbuf as <-].
    destruct io as [i |]; [| done]. injection Hbuf as <-. by destruct (Hio i eq_refl). }
  cbn [mbind option_bind fst snd]. fold L in Hpay. destruct (call_payload vecs a buffer L (b_len b)) as [d |].
  - pose proof Hpay as (P1 & _). destruct (Z.ltb_spec n 0); [lia |].
    destruct (close_appended b evs v data n L d) as (b' & Hcl & H1); try done. exists b', true. by rewrite Hcl.
  - subst n. exists (b <| b_data := data |>), false. split; [done |]. split; [done |]. cbn. split; [| done].
    destruct Hc as (C1 & C2 & C3). destruct Hh as [H1 H2 H3 H4 H5 H6]. constructor; try done.
    + cbn. by rewrite C1.
    + cbn. rewrite <- H4. apply (f_equal (take (length (flat evs)))) in C3. rewrite !take_take in C3.
      rewrite !Nat.min_l in C3 by (unfold SD_HEAD; lia). congruence.
Qed.
End append.

(** ** The log of events *)

(** What was pushed, as the reader sees it, and what the buffer still holds.
    Records that are not socket data carry no event. *)
Definition batch_ok (es : list (list Z * list Z)) : Prop :=
  es <> [] /\ Forall event_ok es /\ Z.of_nat (length es) <= MAX_EVENTS_BURST /\ Z.of_nat (length (flat es)) <= BUF_DATA.
Definition delivered (w : world) (sent : list (list (list Z * list Z))) : Prop :=
  exists rs, Forall2 (fun r o => reader_raw_cb r = Some o) (w_out w) rs /\ omap id rs = sent /\ Forall batch_ok sent.
Record logged_in (w : world) (b : out_buf) (sent : list (list (list Z * list Z)))
    (pend : list (list Z * list Z)) : Prop := {
  l_buf : w_buf w = Some b; l_holds : holds b pend; l_num : b_events_num b < MAX_EVENTS_BURST;
  l_sent : delivered w sent; l_io : io_ok (w_io w) }.
Definition logged (w : world) (evs : list (list Z * list Z)) : Prop :=
  exists b sent pend, logged_in w b sent pend /\ evs = concat sent ++ pend.

Lemma delivered_same w w' sent : w_out w' = w_out w -> delivered w sent -> delivered w' sent.
Proof. unfold delivered. by intros ->. Qed.
Lemma delivered_push w w' sent r o :
  delivered w sent -> w_out w' = w_out w ++ [r] -> reader_raw_cb r = Some o -> (forall es, o = Some es -> batch_ok es) ->
  delivered w' (sent ++ match o with Some es => [es] | None => [] end).
Proof.
  intros (rs & H1 & <- & H2) Hw Hr Hb. exists (rs ++ [o]). rewrite Hw. split_and!.
  - apply Forall2_app; [done |]. by constructor.
  - rewrite omap_app. by destruct o.
  - apply Forall_app. split; [done |]. destruct o; constructor; [by apply Hb | constructor].
Qed.
Lemma holds_batch b evs : holds b evs -> evs <> [] -> b_events_num b <= MAX_EVENTS_BURST -> batch_ok evs.
Proof.
  intros [H1 H2 H3 H4 H5 H6] Hne Hn. split_and!; try done; [lia |].
  apply (f_equal length) in H4. rewrite length_take in H4. lia.
Qed.
Lemma logged_same w w' evs :
  w_out w' = w_out w -> w_buf w' = w_buf w -> w_io w' = w_io w -> logged w evs -> logged w' evs.
Proof.
  intros H1 H2 H3 (b & sent & pend & [] & ->). exists b, sent, pend. split; [| done].
  constructor; rewrite ?H1, ?H2, ?H3; try done. by eapply delivered_same.
Qed.

(** Output changes the buffer and the times of the last pushes only. *)
Definition ctx_core (t : tracer_ctx) : Z * Z * Z * Z * Z * bool * (Z * Z * bool) :=
  (t_socket_id t, t_thread_trace_id t, t_data_limit_max t, t_go_tracing_timeout t,
   t_push_buffer_refcnt t, t_disable_tracing t,
   (t_io_event_collect_mode t, t_io_event_minimal_duration t, t_virtual_file_collect_enabled t)).
Definition w_fixed (w : world)
    : gmap Z data_args * gmap Z data_args * option (list Z) * option member_offsets * go_maps * up_maps :=
  (w_rargs w, w_wargs w, w_io w, w_offset w, w_go w, w_up w).
Record out_frame (w w' : world) : Prop := {
  of_sock : w_sock w' = w_sock w; of_role : w_role w' = w_role w; of_trace : w_trace w' = w_trace w;
  of_seqmap : w_seqmap w' = w_seqmap w; of_cache : w_cache w' = w_cache w;
  of_stats : w_stats w' = w_stats w; of_ctx : ctx_core <$> w_ctx w' = ctx_core <$> w_ctx w;
  of_fixed : w_fixed w' = w_fixed w }.

Lemma out_frame_trans w1 w2 w3 : out_frame w1 w2 -> out_frame w2 w3 -> out_frame w1 w3.
Proof. intros [] []. constructor; congruence. Qed.
Lemma out_frame_buf w b : out_frame w (w <| w_buf := b |>).
Proof. by constructor. Qed.
#[export] Hint Resolve out_frame_buf : core.

Lemma holds_nil b : Z.of_nat (length (b_data b)) = BUF_DATA -> bytes_ok (b_data b) ->
  b_len b = 0 -> b_events_num b = 0 -> holds b [].
Proof. by constructor. Qed.

(** A push empties the buffer and hands its events to the perf buffer. *)
Lemma push_batch_ok w w' b pend sent :
  w_buf w = Some b -> holds b pend -> pend <> [] -> b_events_num b <= MAX_EVENTS_BURST -> delivered w sent ->
  io_ok (w_io w) -> w_out w' = w_out w ++ [push_record b] ->
  w_buf w' = Some (b <| b_events_num := 0 |> <| b_len := 0 |>) -> w_io w' = w_io w ->
  logged_in w' (b <| b_events_num := 0 |> <| b_len := 0 |>) (sent ++ [pend]) [].
Proof.
  intros Hb Hh Hne Hn Hs Hio H1 H2 H3. constructor; try done.
  - apply holds_nil; try done; [apply (h_size b pend Hh) | apply (h_bytes b pend Hh)].
  - apply (delivered_push w w' sent (push_record b) (Some pend)); try done; [by apply push_record_read |].
    intros es [= <-]. by apply (holds_batch b).
  - by rewrite H3.
Qed.

Lemma flush_ok (cond : bool) curr diff w b pend sent :
  w_buf w = Some b -> holds b pend -> pend <> [] -> b_events_num b <= MAX_EVENTS_BURST ->
  delivered w sent -> io_ok (w_io w) -> (cond = false -> b_events_num b < MAX_EVENTS_BURST) ->
  wp (if cond then finalize_data_output curr diff else mret tt) w (fun _ w' => out_frame w w' /\
    exists b' sent' pend', logged_in w' b' sent' pend' /\ b_data b' = b_data b /\
      concat sent' ++ pend' = concat sent ++ pend /\ (cond = true -> pend' = [])).
Proof.
  intros Hb Hh Hne Hn Hs Hio Hroom. destruct cond.
  - unfold finalize_data_output. apply wp_bind, wp_modify. rewrite Hb.
    set (b0 := b <| b_events_num := 0 |> <| b_len := 0 |>). set (w1 := _ <| w_buf := Some b0 |>).
    assert (forall w', w_out w' = w_out w1 -> w_buf w' = w_buf w1 -> w_io w' = w_io w -> exists b' sent' pend',
      logged_in w' b' sent' pend' /\ b_data b' = b_data b /\
      concat sent' ++ pend' = concat sent ++ pend /\ (true = true -> pend' = [])) as Hend.
    { intros w' Hout Hbuf Hio'. exists b0, (sent ++ [pend]), []. split_and!; try done.
      - by apply (push_batch_ok w).
      - rewrite concat_app. simpl. by rewrite !app_nil_r. }
    destruct (_ <? diff); [apply wp_modify | apply wp_ret].
    + split; [| by apply Hend]. constructor; try done. cbn. by destruct (w_ctx w).
    + split; [by constructor | by apply Hend].
  - apply wp_ret. split; [by constructor |]. exists b, sent, pend. split_and!; try done. constructor; try done. by apply Hroom.
Qed.

Section log.
Context (E : env) (K : kenv) (HE : env_ok E) (HK : kenv_ok K).

(** The second message, into an empty buffer. *)
Lemma extra_append iov max_size reasm w b v :
  holds b [] -> length v = HEAD -> bytes_ok v -> vget_msg_type v <> 0 -> 0 <= reasm < 2 ^ 32 ->
  let L := push_len (vget v_syscall_len v) max_size reasm in
  wp (data ← lift (write_at (b_data b) (b_len b) v);
      let b := b <| b_data := data |> in
      r ← lift (output_iov_data_copy E iov b v max_size reasm);
      let b := b <| b_data := r.2 |> in
      if r.1 <? 0 then modify (fun w => w <| w_buf := Some b |>) else
      b ← lift (close_event b v r.1);
      modify (fun w => w <| w_buf := Some b |>)) w
    (fun _ w' => exists b', w' = w <| w_buf := Some b' |> /\ holds b' [with_payload v (iov_payload E iov L 0)] /\
       b_events_num b' < MAX_EVENTS_BURST).
Proof.
  intros Hh Hv Hvb Hm Hr L. pose proof (h_len b [] Hh) as Hl0. change (b_len b = 0) in Hl0.
  pose proof (h_size b [] Hh) as Hsz. unfold BUF_DATA in Hsz.
  destruct (write_at_ok (b_data b) (b_len b) v) as (data & Hw & L1 & L2); [lia | rewrite Hv; lia |].
  apply wp_bind. eapply wp_lift; [exact Hw |]. cbv zeta. set (b1 := b <| b_data := data |>).
  assert (bytes_ok data) as Hdb.
  { subst data. apply Forall_app. split; [apply Forall_take, (h_bytes b [] Hh) |].
    apply Forall_app. split; [done | apply Forall_drop, (h_bytes b [] Hh)]. }
  assert (holds b1 []) as Hh1.
  { apply holds_nil; cbn; [unfold BUF_DATA; lia | done | done | apply (h_num b [] Hh)]. }
  assert (b_len b1 <= BUF_DATA - SD_SIZE) as Hroom by (unfold b1; cbn; rewrite Hl0; done).
  destruct (output_iov_copy_ok E HE iov b1 [] v max_size reasm) as (n & data2 & Hc & Hcop & Hpl); try done.
  apply wp_bind. eapply wp_lift; [exact Hc |]. cbn [fst snd]. fold L in Hpl.
  change (b_len b1) with (b_len b) in Hpl. rewrite Hl0 in Hpl. pose proof Hpl as (P1 & _). destruct (Z.ltb_spec n 0); [lia |].
  assert (slice (b_data b1) (b_len b1) HEAD = Some v) as Hsl.
  { unfold b1. cbn. rewrite L2, Hl0. simpl Z.to_nat. rewrite take_0.
    pose proof (slice_app [] v (drop (0 + length v) (b_data b)) HEAD Hv) as H'. done. }
  destruct (close_appended b1 [] v data2 n L (iov_payload E iov L 0)) as (b' & Hcl & H1 & _ & H2); try done.
  apply wp_bind. eapply wp_lift; [exact Hcl |]. apply wp_modify. exists b'. split; [done |]. split; [done |].
  change (b_events_num b1) with (b_events_num b) in H2. pose proof (h_num b [] Hh) as Hn0. simpl in Hn0.
  unfold MAX_EVENTS_BURST. lia.
Qed.

Lemma extra_ok args h max_size reasm w b evs sent v d :
  logged_in w b sent evs -> 0 <= reasm < 2 ^ 32 ->
  let e := with_payload v d in let L := push_len (vget v_syscall_len v) max_size reasm in
  slice (b_data b) h HEAD = Some e.1 -> length v = HEAD -> vget_msg_type v <> 0 ->
  (forall a, args = Some a -> a_iovlen (da_extra_iov a) <> 0 -> evs = []) ->
  wp (output_extra_data_common E args h max_size reasm) w (fun _ w' => out_frame w w' /\
    logged w' (concat sent ++ evs ++ second_event E args L e)).
Proof.
  intros Hlog Hr e L Hsl Hv Hm Hempty. unfold output_extra_data_common, second_event. pose proof Hlog as [Hb Hh Hnum Hs Hio].
  assert (out_frame w w /\ logged w (concat sent ++ evs ++ [])) as Hskip.
  { split; [by constructor |]. rewrite app_nil_r. by exists b, sent, evs. }
  apply wp_bind, wp_gets. rewrite Hb. destruct args as [a |]; [| by apply wp_ret].
  destruct (Z.eqb_spec (a_iovlen (da_extra_iov a)) 0) as [H0 | H0]; [by apply wp_ret |]. cbn [orb].
  apply wp_bind. eapply wp_lift; [exact Hsl |]. pose proof (Hempty a eq_refl H0) as ->.
  destruct (_ || _); [by apply wp_ret |].
  pose proof (h_len b [] Hh) as Hl0. change (b_len b = 0) in Hl0.
  destruct (Z.ltb_spec (BUF_DATA - SD_SIZE) (b_len b)); [rewrite Hl0 in *; done |].
  set (v' := vput v_data_seq _ e.1). apply slice_Some in Hsl as (S1 & S2 & S3 & S4).
  assert (forall f, disjoint f v_data_len = true -> disjoint f v_data_seq = true -> (f_off f + f_len f <= HEAD)%nat ->
    vget f v' = vget f v) as Hf.
  { intros f Hd Hd' Hl. unfold v'. rewrite vget_vput_ne by first [done | by rewrite S4 | rewrite S4; simpl; lia].
    apply vget_vput_ne; [done | rewrite Hv; simpl; lia | by rewrite Hv]. }
  assert (length v' = HEAD) as Hv' by (unfold v'; rewrite vput_length; [done | rewrite S4; simpl; lia]).
  assert (bytes_ok v') as Hvb.
  { apply vput_ok. rewrite S3. apply Forall_take, Forall_drop, (h_bytes b [] Hh). }
  assert (vget_msg_type v' <> 0) as Hm' by (unfold vget_msg_type in *; by rewrite Hf by (done || simpl; lia)).
  eapply wp_mono; [by apply (extra_append (da_extra_iov a) max_size reasm w b v') |].
  rewrite Hf by (done || simpl; lia). fold L. intros [] w' (b' & -> & Hb' & Hr'). split; [done |].
  exists b', sent, [with_payload v' (iov_payload E (da_extra_iov a) L 0)]. by split.
Qed.

Lemma output_event_ok args vecs max_size is_close reasm now w b pend sent v :
  logged_in w b sent pend -> roomy b ->
  slice (b_data b) (b_len b) HEAD = Some v -> vget_msg_type v <> 0 -> 0 <= reasm < 2 ^ 32 ->
  let L := push_len (vget v_syscall_len v) max_size reasm in
  wp (output_event E K args vecs max_size is_close reasm now) w (fun _ w' => out_frame w w' /\
    logged w' ((concat sent ++ pend) ++ new_events E K (w_io w) args vecs v L (b_len b) is_close)).
Proof.
  intros Hlog Hlen Hv Hm Hr L. unfold output_event, new_events. pose proof Hlog as [Hb Hh Hnum Hs Hio].
  apply wp_bind, wp_gets. rewrite Hb. unfold roomy in Hlen.
  pose proof (h_len b pend Hh) as Hl.
  destruct (Z.ltb_spec BUF_DATA (b_len b + SD_HEAD)).
  { unfold SD_SIZE, BURST_DATA_BUF_SIZE in Hlen. lia. }
  destruct (Z.ltb_spec (BUF_DATA - SD_SIZE) (b_len b)); [lia |].
  destruct (append_event_ok E K HE HK (w_io w) args vecs b pend v max_size is_close reasm)
    as (b' & go & Hap & Hpost); try done. fold L in Hpost.
  apply wp_bind, wp_gets, wp_bind. eapply wp_lift; [exact Hap |]. apply wp_bind, wp_modify.
  set (w1 := w <| w_buf := Some b' |>). destruct (payload E K (w_io w) args vecs v L (b_len b) is_close) as [d |].
  2: { destruct Hpost as (-> & P1 & P2). apply wp_ret. split; [done |]. rewrite app_nil_r.
       exists b', sent, pend. split; [| done]. constructor; try done. by rewrite P2. }
  destruct Hpost as (-> & P1 & P2 & P3). cbn [negb]. apply wp_bind, wp_gets.
  set (diff := u64 _). set (extra := match args with Some a => _ | None => false end).
  set (cond := _ || _ || extra || _). set (e := with_payload v d) in *.
  apply wp_bind. eapply wp_mono.
  { apply (flush_ok cond now diff w1 b' (pend ++ [e]) sent); try done.
    - by destruct pend.
    - unfold MAX_EVENTS_BURST in *. lia.
    - unfold cond. rewrite !orb_false_iff. intros [[[_ H2] _] _]. by apply Z.leb_gt in H2. }
  intros [] w2 (F2 & b2 & sent2 & pend2 & B1 & B2 & B6 & B7).
  apply slice_Some in Hv as (_ & _ & _ & Hvl).
  eapply wp_mono.
  { apply (extra_ok args (b_len b) max_size reasm w2 b2 pend2 sent2 v d); try done.
    - by rewrite B2.
    - intros a -> Ha. apply B7. unfold cond, extra.
      destruct (Z.eqb_spec (a_iovlen (da_extra_iov a)) 0); [done |]. by rewrite !orb_true_r. }
  intros [] w3 (F3 & M1). split.
  { eapply out_frame_trans; [| exact F3]. eapply out_frame_trans; [| exact F2]. done. }
  fold e L in M1. rewrite app_assoc, B6, <- !app_assoc in M1. rewrite <- app_assoc. exact M1.
Qed.
End log.

(** What the periodic push leaves alone. *)
Record push_frame (w w' : world) : Prop := {
  pf_sock : w_sock w' = w_sock w; pf_role : w_role w' = w_role w; pf_trace : w_trace w' = w_trace w;
  pf_seqmap : w_seqmap w' = w_seqmap w; pf_cache : w_cache w' = w_cache w;
  pf_stats : (fun n => (n_socket_map n, n_trace_map n)) <$> w_stats w' =
             (fun n => (n_socket_map n, n_trace_map n)) <$> w_stats w;
  pf_ctx : ctx_core <$> w_ctx w' = ctx_core <$> w_ctx w; pf_fixed : w_fixed w' = w_fixed w }.

(** All of the log is in the records handed to the perf buffer. *)
Definition all_delivered (w : world) (evs : list (list Z * list Z)) : Prop :=
  exists sent, delivered w sent /\ concat sent = evs.

(** The kernel drops a record for which the perf buffer has no room; the programs do
    not look at the result of [bpf_perf_event_output]. [kept] says which of the
    records [l] the buffer took. *)
Fixpoint taken {A} (kept : list bool) (l : list A) : list A :=
  match kept, l with
  | k :: kept, x :: l => if k : bool then x :: taken kept l else taken kept l
  | _, _ => []
  end.
(** The events that the reader finds in [records]. *)
Fixpoint reads (records : list (list Z)) : option (list (list Z * list Z)) :=
  match records with
  | [] => Some []
  | r :: records => o ← reader_raw_cb r; l ← reads records; Some (default [] o ++ l)
  end.
(** The records pushed so far hold the events [evs]: each record holds a batch of
    them, and whatever records the perf buffer drops, the reader finds exactly the
    batches of those that it took, in order. *)
Definition received (w : world) (evs : list (list Z * list Z)) : Prop :=
  exists batches, concat batches = evs /\ length batches = length (w_out w) /\
    forall kept, length kept = length (w_out w) -> reads (taken kept (w_out w)) = Some (concat (taken kept batches)).

Lemma reads_taken rs os kept : Forall2 (fun r o => reader_raw_cb r = Some o) rs os -> length kept = length rs ->
  reads (taken kept rs) = Some (concat (taken kept (default [] <$> os))).
Proof.
  intros H. revert kept. induction H as [| r o rs os Hr _ IH]; intros [| k kept] Hl; try done.
  cbn [taken fmap list_fmap]. specialize (IH kept ltac:(by injection Hl)). destruct k; [| done].
  cbn [reads concat]. by rewrite Hr, IH.
Qed.
Lemma all_delivered_received w evs : all_delivered w evs -> received w evs.
Proof.
  intros (sent & (rs & H1 & H2 & _) & <-). exists (default [] <$> rs). split_and!.
  - rewrite <- H2. clear. induction rs as [| [es |] rs IH]; [done | |]; cbn [fmap list_fmap concat]; rewrite IH; done.
  - rewrite length_fmap. by apply Forall2_length in H1.
  - intros kept Hk. by apply reads_taken.
Qed.

(** The periodic push loses nothing, and without a conflict leaves nothing
    behind. *)
Lemma push_socket_data_ok E K now w evs :
  logged w evs -> wp (push_socket_data E K now) w (fun _ w' => logged w' evs /\ push_frame w w' /\
    (forall t, check_pid_validity E K = true -> w_ctx w = Some t -> is_Some (w_stats w) -> t_push_buffer_refcnt t = 0 -> all_delivered w' evs)).
Proof.
  intros (b & sent & pend & [Hb Hh Hnum Hs Hio] & ->). unfold push_socket_data.
  assert (forall w', w_out w' = w_out w -> w_buf w' = w_buf w -> w_io w' = w_io w -> logged w' (concat sent ++ pend)) as Hsame.
  { intros w' H1 H2 H3. apply (logged_same w); try done. by exists b, sent, pend. }
  destruct (check_pid_validity E K); [| apply wp_ret; split_and!; [by apply Hsame | done | by intros t [=]]]. cbn [negb].
  apply wp_bind, wp_gets, wp_bind, wp_gets.
  destruct (w_ctx w) as [t |] eqn:Ht; [| apply wp_ret; split_and!; [by apply Hsame | done | by intros t]].
  destruct (w_stats w) as [n |] eqn:Hn; [| apply wp_ret; split_and!; [by apply Hsame | done | by intros ? ? ? []]].
  apply wp_bind, wp_modify, wp_bind, wp_modify.
  cbn [w_ctx w_stats set]. rewrite Ht, Hn. cbn [fmap option_fmap option_map].
  set (w1 := _ <| w_stats := Some _ |>).
  assert (push_frame w w1) as F1 by (constructor; cbn; rewrite ?Ht, ?Hn; done).
  assert (forall w2, push_frame w1 w2 -> push_frame w w2) as Hpf
    by (intros w2 []; destruct F1; constructor; congruence).
  destruct (Z.eqb_spec (t_push_buffer_refcnt t) 0) as [H0 | H0]; cbn [negb].
  2: { apply wp_modify. split_and!; [by apply Hsame | by apply Hpf | by intros t' _ [= <-]]. }
  apply wp_bind, wp_gets. change (w_buf w1) with (w_buf w). rewrite Hb.
  destruct (Z.ltb_spec 0 (b_events_num b)).
  2: { apply wp_ret. split_and!; [by apply Hsame | done |]. intros _ _ _ _ _. exists sent. split; [done |].
       pose proof (h_num b pend Hh). destruct pend; [by rewrite app_nil_r | simpl in *; lia]. }
  assert (concat (sent ++ [pend]) = concat sent ++ pend) as Hcat by (rewrite concat_app; simpl; by rewrite app_nil_r).
  assert (pend <> []) as Hne by (intros ->; pose proof (h_num b [] Hh) as Hn'; simpl in Hn'; lia).
  assert (forall w', w_out w' = w_out w ++ [push_record b] ->
    w_buf w' = Some (b <| b_events_num := 0 |> <| b_len := 0 |>) -> w_io w' = w_io w ->
    logged w' (concat sent ++ pend) /\ all_delivered w' (concat sent ++ pend)) as Hpush.
  { intros w' H1 H2 H3. pose proof (push_batch_ok w w' b pend sent Hb Hh Hne ltac:(lia) Hs Hio H1 H2 H3) as Hl.
    split; [| exists (sent ++ [pend]); split; [apply Hl | done]].
    exists (b <| b_events_num := 0 |> <| b_len := 0 |>), (sent ++ [pend]), []. split; [done | by rewrite app_nil_r, Hcat]. }
  apply wp_bind, wp_modify. change (w_buf w1) with (w_buf w). rewrite Hb.
  destruct (_ <? _); [apply wp_modify | apply wp_ret];
    match goal with |- logged ?w' _ /\ _ => destruct (Hpush w' eq_refl eq_refl eq_refl) end; (split_and!; [done | by apply Hpf | done]).
Qed.

(** ** The contract *)

Section contract.
Context (E : env) (K : kenv) (HE : env_ok E) (HK : kenv_ok K).

Lemma output_common_ok args vecs max_size is_close reasm now w b pend sent v :
  logged_in w b sent pend -> roomy b ->
  slice (b_data b) (b_len b) HEAD = Some v -> vget_msg_type v <> 0 -> 0 <= reasm < 2 ^ 32 ->
  let L := push_len (vget v_syscall_len v) max_size reasm in
  wp (__output_data_common E K args vecs max_size is_close reasm now) w (fun _ w' =>
    logged w' ((concat sent ++ pend) ++ new_events E K (w_io w) args vecs v L (b_len b) is_close) /\
    w_sock w' = w_sock w /\ w_trace w' = w_trace w).
Proof.
  intros Hlog Hr Hv Hm Hre L. unfold __output_data_common. apply wp_bind.
  eapply wp_mono; [by apply (output_event_ok E K HE HK args vecs max_size is_close reasm now w b pend sent v) |].
  intros [] w' ([] & Hl). apply wp_modify. split; [| done]. by apply (logged_same w').
Qed.

(** C14: no event is lost, duplicated, reordered or changed between the programs and
    the batches they push. When the header [v] of an event is in place at the end of
    the buffer and there is room for an event, [__output_data_common] accesses nothing
    out of bounds, and the events in the batches pushed so far followed by those still
    in the buffer are what they were, followed by exactly [new_events]: no event when
    the data of the call cannot be read, otherwise the header [v] with the first bytes
    of the buffer of the call, or of its vectors one after the other, as many as the
    limits allow (no bytes for a close), and for DNS over UDP the second message of a
    [sendmmsg]. *)
Theorem output_lossless args vecs max_size is_close reasm now w b pend sent v :
  logged_in w b sent pend -> roomy b ->
  slice (b_data b) (b_len b) HEAD = Some v -> vget_msg_type v <> 0 -> 0 <= reasm < 2 ^ 32 ->
  let L := push_len (vget v_syscall_len v) max_size reasm in
  exists w', __output_data_common E K args vecs max_size is_close reasm now w = Some (tt, w') /\
    logged w' ((concat sent ++ pend) ++ new_events E K (w_io w) args vecs v L (b_len b) is_close) /\
    w_sock w' = w_sock w /\ w_trace w' = w_trace w.
Proof.
  intros Hlog Hr Hv Hm Hre L. pose proof (output_common_ok args vecs max_size is_close reasm now w b pend sent v Hlog Hr Hv Hm Hre) as H.
  apply wp_total in H as ([] & w' & Hrun & Hpost). by exists w'.
Qed.

(** The vectors of a call as one message: when the memory of the process holds the
    vectors [iovs] and the event begins so far in front that all of its payload can
    be copied, the payload is the first bytes of the first 18 vectors, one after the
    other, up to the limit [L]. *)
Lemma iov_payload_stream mem iov iovs L o :
  (forall a n, (e_read_user E a n).2 = mem_bytes mem a n) ->
  (forall i, (i < length iovs)%nat -> iov_at mem iov i = iovs !! i) -> a_iovlen iov = Z.of_nat (length iovs) ->
  0 <= o -> 0 <= L -> o + SD_HEAD + Z.min BURST_DATA_BUF_SIZE L <= BUF_DATA - BURST_DATA_BUF_SIZE ->
  iov_payload E iov L o = take (Z.to_nat (Z.min BURST_DATA_BUF_SIZE L)) (stream mem (take LOOP_LIMIT iovs)).
Proof.
  intros Hmem Hiovs Hlen Ho HL Hroom. unfold iov_payload. set (total := Z.min BURST_DATA_BUF_SIZE L) in *.
  rewrite <- (gathered_stream E HE mem Hmem iov iovs Hiovs Hlen total BURST_DATA_BUF_SIZE
    (BUF_DATA - BURST_DATA_BUF_SIZE - (o + SD_HEAD)) total LOOP_LIMIT) by (unfold BURST_DATA_BUF_SIZE in *; lia).
  rewrite take_ge; [done |]. pose proof (gathered_length E BURST_DATA_BUF_SIZE (BUF_DATA - BURST_DATA_BUF_SIZE - (o + SD_HEAD))
    total iov LOOP_LIMIT 0 [] ltac:(simpl; unfold BURST_DATA_BUF_SIZE in *; lia)). lia.
Qed.

(** C15: the message of a vectored call is reported as one. When the header [v] of an
    event of a socket is in place at the end of the buffer, with room for an event, the
    memory of the process holds the vectors [iovs] of the call, and the event begins so
    far in front that a whole event fits behind its payload, then the event that
    [__output_data_common] adds after those of before has the header [v] with the length
    of its payload, and as payload the first bytes of the first 18 vectors, one after the
    other: as many as the length [push_len] allows, at most 16384. Further events are
    added only when the call has a second message ([sendmmsg]). *)
Theorem message_gathered mem args iovs max_size reasm now w b pend sent v :
  (forall a n, (e_read_user E a n).2 = mem_bytes mem a n) ->
  (forall i, (i < length iovs)%nat -> iov_at mem (da_iov args) i = iovs !! i) -> a_iovlen (da_iov args) = Z.of_nat (length iovs) ->
  logged_in w b sent pend -> roomy b ->
  slice (b_data b) (b_len b) HEAD = Some v -> vget_msg_type v <> 0 -> vget v_source v <> source_num DATA_SOURCE_IO_EVENT ->
  0 <= reasm < 2 ^ 32 ->
  let n := Z.min BURST_DATA_BUF_SIZE (push_len (vget v_syscall_len v) max_size reasm) in
  b_len b + SD_HEAD + n <= BUF_DATA - BURST_DATA_BUF_SIZE ->
  exists w' more, __output_data_common E K (Some args) true max_size false reasm now w = Some (tt, w') /\
    logged w' ((concat sent ++ pend) ++ with_payload v (take (Z.to_nat n) (stream mem (take LOOP_LIMIT iovs))) :: more) /\
    (a_iovlen (da_extra_iov args) = 0 -> more = []).
Proof.
  intros Hmem Hiovs Hlen Hlog Hr Hv Hm Hsrc Hre n Hroom.
  pose proof (output_common_ok (Some args) true max_size false reasm now w b pend sent v Hlog Hr Hv Hm Hre) as H.
  apply wp_total in H as ([] & w' & Hrun & Hl & _). set (L := push_len (vget v_syscall_len v) max_size reasm) in *.
  assert (0 <= L) as HL by (by apply push_len_range).
  assert (0 <= b_len b) as Hb by (destruct Hlog as [_ [] _ _ _]; lia).
  unfold new_events, payload, event_buffer in Hl. rewrite (proj2 (Z.eqb_neq _ _) Hsrc) in Hl. cbn [mbind option_bind call_payload] in Hl.
  rewrite (iov_payload_stream mem (da_iov args) iovs L (b_len b)) in Hl by done.
  eexists w', _. split; [done |]. split; [exact Hl |]. intros He. unfold second_event. by rewrite He.
Qed.
End contract.

(** The periodic push hands the events out: when no program is in the middle of the
    buffer ([push_buffer_refcnt] is 0), every event logged so far is afterwards in the
    records handed to the perf buffer, in order; when one is, nothing is lost and the
    conflict is left for the next period. *)
Theorem periodic_push_delivers E K now w evs t :
  check_pid_validity E K = true -> logged w evs -> w_ctx w = Some t -> is_Some (w_stats w) ->
  exists w', push_socket_data E K now w = Some (tt, w') /\ logged w' evs /\
    (t_push_buffer_refcnt t = 0 -> all_delivered w' evs) /\
    w_sock w' = w_sock w /\ w_trace w' = w_trace w.
Proof.
  intros Hp Hl Ht Hn. pose proof (push_socket_data_ok E K now w evs Hl) as H.
  apply wp_total in H as ([] & w' & Hrun & Hl' & [] & Hd). exists w'. split_and!; try done. intros H0. by apply (Hd t).
Qed.

(** An empty buffer with the header of a message at its end. *)
Definition example_head : list Z := vput v_syscall_len 40 (vput_msg_type 7 (replicate HEAD 0)).
Definition example_pending : world :=
  example_world <| w_buf := Some (mk_buf 0 0 (example_head ++ replicate (Z.to_nat (BUF_DATA - SD_HEAD)) 0)) |>.
Lemma example_pending_logged :
  logged_in example_pending (mk_buf 0 0 (example_head ++ replicate (Z.to_nat (BUF_DATA - SD_HEAD)) 0)) [] [].
Proof.
  constructor; try done; cbn [b_data].
  - apply holds_nil; try done. apply Forall_app. split; [| by apply Forall_replicate].
    apply vput_ok, vput_ok. by apply Forall_replicate.
  - by exists [].
  - intros i [= <-]. split; [done | by apply bytes_okb].
Qed.

(** A [writev] of the two vectors of the example, of 40 bytes. *)
Lemma output_lossless_witness :
  let E := example_env [] example_vectors in
  let args := zero_args <| da_iov := mk_iov_args 4096 2 |> in
  exists w', __output_data_common E example_kenv (Some args) true 1024 false 0 5 example_pending = Some (tt, w') /\
    logged w' [with_payload example_head (str "GET /index HTTP/1.1" ++ replicate 21 97)] /\
    w_sock w' = w_sock example_pending /\ w_trace w' = w_trace example_pending.
Proof.
  intros E args.
  assert (new_events E example_kenv (w_io example_pending) (Some args) true example_head
    (push_len (vget v_syscall_len example_head) 1024 0) 0 false =
    [with_payload example_head (str "GET /index HTTP/1.1" ++ replicate 21 97)]) as <- by (vm_compute; reflexivity).
  apply (output_lossless E example_kenv example_vectors_ok example_kenv_ok (Some args) true 1024 false 0 5
    example_pending (mk_buf 0 0 (example_head ++ replicate (Z.to_nat (BUF_DATA - SD_HEAD)) 0)) [] [] example_head);
    [exact example_pending_logged | done..].
Defined.

Lemma message_gathered_witness :
  let E := example_env [] example_vectors in
  let args := zero_args <| da_iov := mk_iov_args 4096 2 |> in
  exists w' more, __output_data_common E example_kenv (Some args) true 1024 false 0 5 example_pending = Some (tt, w') /\
    logged w' (with_payload example_head (take 40 (str "GET /index HTTP/1.1" ++ replicate 26 97)) :: more) /\
    (a_iovlen (da_extra_iov args) = 0 -> more = []).
Proof.
  intros E args.
  assert (str "GET /index HTTP/1.1" ++ replicate 26 97 = stream (region_mem example_vectors) (take LOOP_LIMIT [(8192, 5); (12288, 40)])) as ->
    by (vm_compute; reflexivity).
  apply (message_gathered E example_kenv example_vectors_ok example_kenv_ok (region_mem example_vectors) args [(8192, 5); (12288, 40)] 1024 0 5
    example_pending (mk_buf 0 0 (example_head ++ replicate (Z.to_nat (BUF_DATA - SD_HEAD)) 0)) [] [] example_head); try done.
  - intros i Hi. do 2 (destruct i as [| i]; [reflexivity |]). simpl in Hi. lia.
  - exact example_pending_logged.
Defined.

(** How much of the vectors is reported depends on how full the buffer is: the same
    call gives 40 bytes in an event at the start of the buffer, and the bytes of its
    first vector only in the last event that has room. *)
Theorem vectors_cut :
  let E := example_env [] example_vectors in
  length (iov_payload E (mk_iov_args 4096 2) 40 0) = 40%nat /\
  iov_payload E (mk_iov_args 4096 2) 40 (BUF_DATA - SD_SIZE) = str "GET /".
Proof. by split; vm_compute. Qed.

Lemma periodic_push_delivers_witness :
  exists w', push_socket_data (example_env [] []) example_kenv 9 example_pending = Some (tt, w') /\ logged w' [] /\
    (0 = 0 -> all_delivered w' []) /\ w_sock w' = w_sock example_pending /\ w_trace w' = w_trace example_pending.
Proof.
  apply (periodic_push_delivers (example_env [] []) example_kenv 9 example_pending [] example_ctx); try done.
  eexists _, [], []. split; [exact example_pending_logged | done].
Defined.
