(* ===== verification/Goroutine.v ===== *)
(** * Goroutines and processes

    kernel/uprobe_base.bpf.c: which goroutine a thread runs, which goroutine
    created it, and the goroutine that stands for the request a system call
    belongs to ([get_rw_goid]); the events of processes that start and end. *)

From S2P Require Import Prelude Bitmap Conn Iovec World Output.

Definition EVENT_TYPE_PROC_EXEC : Z := 512.
Definition EVENT_TYPE_PROC_EXIT : Z := 1024.
Definition GO_VERSION (a b c : Z) : Z := Z.shiftl a 16 + Z.shiftl b 8 + (if 255 <? c then 255 else c).
Definition OFFSET_IDX_GOID_RUNTIME_G : nat := 0.

(** The registers of a uprobe: the parameters of the Go ABI and the stack. *)
Record go_regs := mk_regs {
  r_parm1 : Z; r_parm2 : Z; r_parm3 : Z; r_parm4 : Z; r_parm5 : Z; r_parm6 : Z; r_sp : Z }.

Definition set_go (f : go_maps -> go_maps) : W unit := modify (fun w => w <| w_go := f (w_go w) |>).

Section goroutine.
Context (E : env) (K : kenv).

(** The two halves of [bpf_get_current_pid_tgid()]. *)
Definition cur_tgid : Z := u32 (Z.shiftr (e_pid_tgid E) 32).
Definition cur_pid : Z := u32 (e_pid_tgid E).

(** [bpf_map_update_elem] on a LRU map. *)
Definition lru_update (key : Z * Z) (v : Z) (m : gmap (Z * Z) Z) : gmap (Z * Z) Z := <[key := v]> (k_lru K m).

(** A 64-bit load from the process. *)
Definition read_user64 (a : Z) : Z := le_word (e_read_user E a 8).2.

(** ** The goroutine of a request *)

Definition get_current_goroutine (g : go_maps) : Z := default 0 (g_routine g !! e_pid_tgid E).

Definition is_final_ancestor (g : go_maps) (tgid goid now timeout : Z) : bool :=
  match g_rw_ts g !! (tgid, goid) with
  | None => false
  | Some ts => now <? u64 (ts + timeout)
  end.

(** The loop of [get_rw_goid] with [n] iterations left; [None] when it ends
    without a result. *)
Fixpoint ancestor_loop (g : go_maps) (tgid now timeout : Z) (n : nat) (ancestor : Z) : option Z :=
  match n with
  | O => None
  | S n =>
      if is_final_ancestor g tgid ancestor now timeout then Some ancestor else
      match g_ancestor g !! (tgid, ancestor) with
      | None => None
      | Some newancestor => ancestor_loop g tgid now timeout n newancestor
      end
  end.

Definition get_rw_goid (timeout : Z) (is_socket_io : bool) : W Z :=
  g ← gets w_go;
  let ts := k_go_time K in
  let goid := get_current_goroutine g in
  if goid =? 0 then mret 0 else
  match ancestor_loop g cur_tgid ts timeout 6 goid with
  | Some ancestor => mret ancestor
  | None =>
      if negb is_socket_io then mret 0 else
      _ ← set_go (fun g => g <| g_rw_ts := lru_update (cur_tgid, goid) ts (g_rw_ts g) |>);
      mret goid
  end.

Definition is_current_go_process : W bool :=
  gets (fun w => match g_proc (w_go w) !! cur_tgid with Some p => negb (p_version p =? 0) | None => false end).

(** ** Uprobes of the Go runtime *)

Definition is_register_based_call (p : proc_info) : bool := GO_VERSION 1 17 0 <=? p_version p.

(** [retrieve_ready_kern_offset() == NULL]. *)
Definition offset_not_ready : W bool :=
  gets (fun w => match w_offset w with Some o => negb (o_ready o) | None => true end).

(** The process of the uprobe and the offset of [goid] in a goroutine. *)
Definition go_process : W (option (proc_info * Z)) :=
  nr ← offset_not_ready;
  if nr : bool then mret None else
  op ← gets (fun w => g_proc (w_go w) !! cur_tgid);
  match op with
  | None => mret None
  | Some p =>
      off ← lift (p_offsets p !! OFFSET_IDX_GOID_RUNTIME_G);
      mret (if off <? 0 then None else Some (p, off))
  end.

(** The number of the goroutine that is scheduled, of the one that calls
    [newproc1] and of the new one, by the calling convention of the version. *)
Definition execute_goid (p : proc_info) (off : Z) (r : go_regs) : Z :=
  let g_ptr := if is_register_based_call p then r_parm1 r else read_user64 (r_sp r + 8) in
  read_user64 (g_ptr + off).
Definition caller_goid (p : proc_info) (off : Z) (r : go_regs) : Z :=
  let v18 := GO_VERSION 1 18 0 <=? p_version p in
  let g_ptr := if is_register_based_call p then (if v18 then r_parm2 r else r_parm4 r)
               else read_user64 (r_sp r + (if v18 then 16 else 32)) in
  read_user64 (g_ptr + off).
Definition child_goid (p : proc_info) (off : Z) (r : go_regs) (sp : Z) : Z :=
  let v18 := GO_VERSION 1 18 0 <=? p_version p in
  let g_ptr := if is_register_based_call p then r_parm1 r else read_user64 (sp + (if v18 then 32 else 48)) in
  read_user64 (g_ptr + off).

Definition runtime_execute (r : go_regs) : W unit :=
  op ← go_process;
  match op with
  | None => mret tt
  | Some (p, off) =>
      let goid := execute_goid p off r in
      set_go (fun g => g <| g_routine := (htab_update (k_max_routine K) (e_pid_tgid E) goid (g_routine g)).2 |>)
  end.

Definition enter_runtime_newproc1 (r : go_regs) : W unit :=
  op ← go_process;
  match op with
  | None => mret tt
  | Some (p, off) =>
      if p_version p <? GO_VERSION 1 15 0 then mret tt else
      let goid := caller_goid p off r in
      if goid =? 0 then mret tt else
      set_go (fun g => g <| g_caller := (htab_update (k_max_caller K) (e_pid_tgid E) (goid, r_sp r) (g_caller g)).2 |>)
  end.

Definition exit_runtime_newproc1 (r : go_regs) : W unit :=
  op ← go_process;
  match op with
  | None => mret tt
  | Some (p, off) =>
      if p_version p <? GO_VERSION 1 15 0 then mret tt else
      oc ← gets (fun w => g_caller (w_go w) !! e_pid_tgid E);
      match oc with
      | None => mret tt
      | Some (caller, sp) =>
          let goid := child_goid p off r sp in
          _ ← (if goid =? 0 then mret tt else
               set_go (fun g => g <| g_ancestor := lru_update (cur_tgid, goid) caller (g_ancestor g) |>));
          set_go (fun g => g <| g_caller := delete (e_pid_tgid E) (g_caller g) |>)
      end
  end.

(** ** Processes that start and end *)

(** [struct process_event_t]. *)
Definition process_event (event_type pid : Z) (maybe_thread : bool) : list Z :=
  le_bytes 4 event_type ++ le_bytes 4 (pid mod 2 ^ 31 + (if maybe_thread then 2 ^ 31 else 0)) ++ (e_comm E).2.
Definition output_process_event (r : list Z) : W unit := modify (fun w => w <| w_out := w_out w ++ [r] |>).

(** [junk] is the bit of the stack that [maybe_thread] is left with. *)
Definition do_process_exit (junk : bool) : W unit :=
  nr ← offset_not_ready;
  if nr : bool then mret tt else
  _ ← (if cur_tgid =? cur_pid then
         _ ← set_go (fun g => g <| g_proc := delete cur_tgid (g_proc g) |>);
         output_process_event (process_event EVENT_TYPE_PROC_EXIT cur_tgid junk)
       else mret tt);
  set_go (fun g => g <| g_routine := delete (e_pid_tgid E) (g_routine g) |>).

Definition kernel_clone_exit (is_kprobe maybe_thread : bool) (ret : Z) : W unit :=
  if negb (ret =? 0) && negb is_kprobe then mret tt else
  if negb (cur_pid =? cur_tgid) then mret tt else
  nr ← offset_not_ready;
  if nr : bool then mret tt else
  output_process_event (process_event EVENT_TYPE_PROC_EXEC (if 0 <? ret then ret else cur_pid) maybe_thread).

Definition __process_exec : W unit :=
  nr ← offset_not_ready;
  if nr : bool then mret tt else
  if cur_tgid =? cur_pid then output_process_event (process_event EVENT_TYPE_PROC_EXEC cur_tgid false) else mret tt.
End goroutine.

(** ** The goroutine of a request *)

(** The [n]-th ancestor of a goroutine. *)
Fixpoint nth_ancestor (g : go_maps) (tgid : Z) (n : nat) (goid : Z) : option Z :=
  match n with
  | O => Some goid
  | S n => parent ← g_ancestor g !! (tgid, goid); nth_ancestor g tgid n parent
  end.

Lemma ancestor_loop_some g tgid now timeout n : forall a r,
  ancestor_loop g tgid now timeout n a = Some r ->
  exists i, (i < n)%nat /\ nth_ancestor g tgid i a = Some r /\ is_final_ancestor g tgid r now timeout = true /\
    forall j b, (j < i)%nat -> nth_ancestor g tgid j a = Some b -> is_final_ancestor g tgid b now timeout = false.
Proof.
  induction n as [| n IH]; intros a r H; [done |]. cbn [ancestor_loop] in H.
  destruct (is_final_ancestor g tgid a now timeout) eqn:Ha.
  { injection H as <-. exists 0%nat. split_and!; [lia | done | done | lia]. }
  destruct (g_ancestor g !! (tgid, a)) as [p |] eqn:Hp; [| done].
  destruct (IH p r H) as (i & Hi & H1 & H2 & H3). exists (S i). split_and!; [lia | | done |].
  - cbn [nth_ancestor]. by rewrite Hp.
  - intros [| j] b Hj Hb; [cbn in Hb; congruence |]. cbn [nth_ancestor] in Hb. rewrite Hp in Hb.
    by apply (H3 j b); [lia |].
Qed.

Lemma ancestor_loop_none g tgid now timeout n : forall a j b,
  ancestor_loop g tgid now timeout n a = None -> (j < n)%nat -> nth_ancestor g tgid j a = Some b ->
  is_final_ancestor g tgid b now timeout = false.
Proof.
  induction n as [| n IH]; intros a j b H Hj Hb; [lia |]. cbn [ancestor_loop] in H.
  destruct (is_final_ancestor g tgid a now timeout) eqn:Ha; [done |].
  destruct j as [| j]; [cbn in Hb; congruence |]. cbn [nth_ancestor] in Hb.
  destruct (g_ancestor g !! (tgid, a)) as [p |]; [| done]. by apply (IH p j b); [| lia |].
Qed.

(** [get_rw_goid] names the goroutine of a request by the nearest goroutine
    among the current one and its ancestors, five generations up, that had
    traced input or output within the timeout. When there is none, a system call
    on a socket makes the current goroutine that one, and for a file the result
    is 0 and nothing is recorded. *)
Theorem get_rw_goid_spec E K timeout is_socket_io w :
  let g := w_go w in
  let goid := get_current_goroutine E g in
  let active a := is_final_ancestor g (cur_tgid E) a (k_go_time K) timeout in
  exists r w', get_rw_goid E K timeout is_socket_io w = Some (r, w') /\
    (goid = 0 -> r = 0 /\ w' = w) /\
    (goid <> 0 ->
     (exists i, (i < 6)%nat /\ nth_ancestor g (cur_tgid E) i goid = Some r /\ active r = true /\ w' = w /\
        forall j b, (j < i)%nat -> nth_ancestor g (cur_tgid E) j goid = Some b -> active b = false) \/
     (forall j b, (j < 6)%nat -> nth_ancestor g (cur_tgid E) j goid = Some b -> active b = false) /\
     (if is_socket_io
      then r = goid /\ w' = w <| w_go := g <| g_rw_ts := lru_update K (cur_tgid E, goid) (k_go_time K) (g_rw_ts g) |> |>
      else r = 0 /\ w' = w)).
Proof.
  cbv zeta. unfold get_rw_goid, mbind, M_bind, gets. set (g := w_go w). set (goid := get_current_goroutine E g).
  destruct (Z.eqb_spec goid 0) as [H0 | H0].
  { exists 0, w. by split_and!. }
  destruct (ancestor_loop g (cur_tgid E) (k_go_time K) timeout 6 goid) as [a |] eqn:Hl.
  { exists a, w. split; [done |]. split; [done |]. intros _. left.
    destruct (ancestor_loop_some _ _ _ _ _ _ _ Hl) as (i & H1 & H2 & H3 & H4). by exists i. }
  destruct is_socket_io; cbn [negb]; eexists _, _; (split; [reflexivity |]); (split; [done |]); intros _; right;
    (split; [| done]); intros j b; by apply ancestor_loop_none.
Qed.

(** All that [get_rw_goid] may change is the time of the goroutine. *)
Record go_frame (g g' : go_maps) : Prop := {
  gf_routine : g_routine g' = g_routine g; gf_ancestor : g_ancestor g' = g_ancestor g;
  gf_caller : g_caller g' = g_caller g; gf_proc : g_proc g' = g_proc g }.

Lemma get_rw_goid_run E K timeout is_socket_io w :
  exists r g, get_rw_goid E K timeout is_socket_io w = Some (r, w <| w_go := g |>) /\ go_frame (w_go w) g.
Proof.
  assert (w = w <| w_go := w_go w |>) as Hw by (by destruct w).
  unfold get_rw_goid, mbind, M_bind, gets. destruct (get_current_goroutine E (w_go w) =? 0).
  { exists 0, (w_go w). by rewrite <- Hw. }
  destruct (ancestor_loop _ _ _ _ _ _) as [a |]; [exists a, (w_go w); by rewrite <- Hw |].
  destruct is_socket_io; cbn [negb]; [| exists 0, (w_go w); by rewrite <- Hw].
  eexists _, _. split; [reflexivity | by constructor].
Qed.

(** A second system call of the same thread, later and within the timeout, gets the
    same goroutine. *)
Lemma ancestor_loop_later g tgid now now' timeout n : forall a r, now <= now' ->
  ancestor_loop g tgid now timeout n a = Some r -> is_final_ancestor g tgid r now' timeout = true ->
  ancestor_loop g tgid now' timeout n a = Some r.
Proof.
  induction n as [| n IH]; intros a r Hn H Hr; [done |]. cbn [ancestor_loop] in *.
  destruct (is_final_ancestor g tgid a now timeout) eqn:Ha; [injection H as ->; by rewrite Hr |].
  replace (is_final_ancestor g tgid a now' timeout) with false.
  - destruct (g_ancestor g !! (tgid, a)); [by apply IH | done].
  - unfold is_final_ancestor in *. destruct (g_rw_ts g !! (tgid, a)); [| done].
    apply Z.ltb_ge in Ha. symmetry. apply Z.ltb_ge. lia.
Qed.
Lemma get_rw_goid_again E K E' K' timeout w r w1 w2 :
  get_rw_goid E K timeout true w = Some (r, w1) -> e_pid_tgid E' = e_pid_tgid E -> k_go_time K <= k_go_time K' ->
  (get_current_goroutine E (w_go w) <> 0 -> is_final_ancestor (w_go w1) (cur_tgid E) r (k_go_time K') timeout = true) ->
  w_go w2 = w_go w1 -> get_rw_goid E' K' timeout true w2 = Some (r, w2).
Proof.
  intros H Hid Hn Hts Hgo. unfold get_rw_goid, get_current_goroutine, cur_tgid, mbind, M_bind, gets in *. rewrite Hgo, Hid.
  destruct (Z.eqb_spec (default 0 (g_routine (w_go w) !! e_pid_tgid E)) 0) as [H0 | H0].
  { injection H as <- <-. by rewrite H0. }
  specialize (Hts H0). destruct (ancestor_loop (w_go w) _ _ _ _ _) as [a |] eqn:Hl.
  { injection H as <- <-. destruct (Z.eqb_spec (default 0 (g_routine (w_go w) !! e_pid_tgid E)) 0); [done |].
    by rewrite (ancestor_loop_later _ _ _ _ _ _ _ _ Hn Hl Hts). }
  cbn [negb set_go modify] in H. injection H as <- <-. cbn [w_go g_routine set] in Hts |- *.
  destruct (Z.eqb_spec (default 0 (g_routine (w_go w) !! e_pid_tgid E)) 0); [done |].
  cbn [ancestor_loop]. by rewrite Hts.
Qed.

(** ** Requests that a goroutine hands to another *)

(** The uprobes run: the offsets of the kernel are known and the process is one
    whose goroutines can be followed. *)
Definition go_ready (w : world) (tgid : Z) (p : proc_info) (off : Z) : Prop :=
  (exists o, w_offset w = Some o /\ o_ready o = true) /\ g_proc (w_go w) !! tgid = Some p /\
  p_offsets p !! OFFSET_IDX_GOID_RUNTIME_G = Some off /\ 0 <= off /\ GO_VERSION 1 15 0 <= p_version p.

Lemma go_process_ready E w p off :
  go_ready w (cur_tgid E) p off -> go_process E w = Some (Some (p, off), w).
Proof.
  intros ((o & Ho & Hr) & Hp & Hoff & H0 & _). unfold go_process, offset_not_ready, mbind, M_bind, gets, lift.
  rewrite Ho, Hr. cbn [negb]. rewrite Hp, Hoff. cbn. by destruct (Z.ltb_spec off 0); [lia |].
Qed.

(** A hash map with room takes an entry. *)
Lemma htab_update_room {A} max key (a : A) (m : gmap Z A) :
  is_Some (m !! key) \/ Z.of_nat (size m) < max -> (htab_update max key a m).2 = <[key := a]> m.
Proof.
  intros H. unfold htab_update. destruct H as [H | H].
  - by rewrite bool_decide_true.
  - destruct (Z.ltb_spec (Z.of_nat (size m)) max); [| lia]. by rewrite orb_true_r.
Qed.

Lemma newproc1_links E K r r' w p off caller child :
  go_ready w (cur_tgid E) p off -> caller_goid E p off r = caller -> caller <> 0 ->
  child_goid E p off r' (r_sp r) = child -> child <> 0 -> (forall m, k_lru K m = m) ->
  is_Some (g_caller (w_go w) !! e_pid_tgid E) \/ Z.of_nat (size (g_caller (w_go w))) < k_max_caller K ->
  exists w1 w2, enter_runtime_newproc1 E K r w = Some (tt, w1) /\ exit_runtime_newproc1 E K r' w1 = Some (tt, w2) /\
    exists callers, w2 = w <| w_go := (w_go w) <| g_ancestor := <[(cur_tgid E, child) := caller]> (g_ancestor (w_go w)) |>
                                          <| g_caller := callers |> |>.
Proof.
  intros Hr Hc H0 Hch H1 Hlru Hroom. pose proof Hr as (_ & _ & _ & _ & Hv).
  set (w1 := w <| w_go := (w_go w) <| g_caller := <[e_pid_tgid E := (caller, r_sp r)]> (g_caller (w_go w)) |> |>).
  assert (go_ready w1 (cur_tgid E) p off) as Hr1 by done.
  exists w1, (w <| w_go := (w_go w) <| g_ancestor := <[(cur_tgid E, child) := caller]> (g_ancestor (w_go w)) |>
    <| g_caller := delete (e_pid_tgid E) (g_caller (w_go w1)) |> |>). split; [| split; [| by eexists]].
  - unfold enter_runtime_newproc1, mbind, M_bind. rewrite (go_process_ready E w p off Hr).
    destruct (Z.ltb_spec (p_version p) (GO_VERSION 1 15 0)); [lia |]. rewrite Hc.
    destruct (Z.eqb_spec caller 0); [done |]. unfold set_go, modify. by rewrite htab_update_room.
  - unfold exit_runtime_newproc1, mbind, M_bind, gets. rewrite (go_process_ready E w1 p off Hr1).
    destruct (Z.ltb_spec (p_version p) (GO_VERSION 1 15 0)); [lia |].
    unfold w1 at 1. cbn [w_go g_caller set]. rewrite lookup_insert_eq, Hch. destruct (Z.eqb_spec child 0); [done |].
    unfold set_go, modify, lru_update. by rewrite Hlru.
Qed.

Lemma execute_runs E K r w p off goid :
  go_ready w (cur_tgid E) p off -> execute_goid E p off r = goid ->
  is_Some (g_routine (w_go w) !! e_pid_tgid E) \/ Z.of_nat (size (g_routine (w_go w))) < k_max_routine K ->
  runtime_execute E K r w =
    Some (tt, w <| w_go := (w_go w) <| g_routine := <[e_pid_tgid E := goid]> (g_routine (w_go w)) |> |>).
Proof.
  intros Hr Hg Hroom. unfold runtime_execute, mbind, M_bind. rewrite (go_process_ready E w p off Hr), Hg.
  unfold set_go, modify. by rewrite htab_update_room.
Qed.

(** C38: a request stays with its goroutine when it hands work to a new one. A
    system call makes goroutine [parent] the one of its request; [parent] creates
    [child], which some thread of the process then runs; within the timeout of
    the request, the system calls of [child] belong to [parent] as well, unless
    [child] has had a request of its own. Nothing is evicted from the maps
    meanwhile. *)
Theorem child_joins_request E K timeout w p off parent child r r' E' K' r'' is_socket_io :
  go_ready w (cur_tgid E) p off -> (forall m, k_lru K m = m) ->
  (* the request of the parent *)
  get_current_goroutine E (w_go w) = parent -> parent <> 0 ->
  ancestor_loop (w_go w) (cur_tgid E) (k_go_time K) timeout 6 parent = None ->
  (* newproc1 *)
  caller_goid E p off r = parent -> child_goid E p off r' (r_sp r) = child -> child <> 0 -> child <> parent ->
  is_Some (g_caller (w_go w) !! e_pid_tgid E) \/ Z.of_nat (size (g_caller (w_go w))) < k_max_caller K ->
  (* the child is scheduled *)
  cur_tgid E' = cur_tgid E -> execute_goid E' p off r'' = child ->
  is_Some (g_routine (w_go w) !! e_pid_tgid E') \/ Z.of_nat (size (g_routine (w_go w))) < k_max_routine K' ->
  k_go_time K' < k_go_time K + timeout < 2 ^ 64 -> 0 <= k_go_time K + timeout ->
  is_final_ancestor (w_go w) (cur_tgid E) child (k_go_time K') timeout = false ->
  exists w1 w2 w3 w4, get_rw_goid E K timeout true w = Some (parent, w1) /\
    enter_runtime_newproc1 E K r w1 = Some (tt, w2) /\ exit_runtime_newproc1 E K r' w2 = Some (tt, w3) /\
    runtime_execute E' K' r'' w3 = Some (tt, w4) /\
    get_rw_goid E' K' timeout is_socket_io w4 = Some (parent, w4).
Proof.
  intros Hr Hlru Hp H0 Hloop Hc Hch Hch0 Hne Hroom Htg Hex Hroom' Hnow Hts Hidle.
  set (w1 := w <| w_go := (w_go w) <| g_rw_ts := <[(cur_tgid E, parent) := k_go_time K]> (g_rw_ts (w_go w)) |> |>).
  destruct (newproc1_links E K r r' w1 p off parent child) as (w2 & w3 & Hen & Hxt & callers & ->); try done.
  eexists w1, w2, _, _. split; [| split; [exact Hen | split; [exact Hxt | split]]].
  - unfold get_rw_goid, mbind, M_bind, gets. rewrite Hp, Hloop. destruct (Z.eqb_spec parent 0); [done |].
    unfold set_go, modify, lru_update. cbn [negb]. by rewrite Hlru.
  - by apply (execute_runs E' K' r'' _ p off child); [rewrite Htg | |].
  - unfold get_rw_goid, get_current_goroutine, mbind, M_bind, gets. cbn [w_go g_routine set]. rewrite lookup_insert_eq.
    change (default 0 (Some child)) with child.
    destruct (Z.eqb_spec child 0); [done |]. rewrite Htg. unfold w1. cbn [ancestor_loop]. unfold is_final_ancestor in *.
    cbn [w_go g_rw_ts g_ancestor set]. rewrite (lookup_insert_ne (g_rw_ts (w_go w))) by (intros [=]; congruence).
    rewrite Hidle, !lookup_insert_eq, wrap_small by lia.
    destruct (Z.ltb_spec (k_go_time K') (k_go_time K + timeout)); [done | lia].
Qed.

(** Goroutine 7 of a Go 1.18 process creates goroutine 9. *)
Definition example_go_env : env := example_env [] [(4096, [7; 0; 0; 0; 0; 0; 0; 0]); (8192, [9; 0; 0; 0; 0; 0; 0; 0])].
Definition example_go_proc : proc_info := mk_proc (GO_VERSION 1 18 3) (replicate 17 0) 0 0 0.
Definition example_go_world : world :=
  example_world <| w_go := mk_go {[ 0 := 7 ]} ∅ ∅ ∅ {[ 0 := example_go_proc ]} |>.
Definition example_go_regs : go_regs := mk_regs 8192 4096 0 0 0 0 0.

Lemma child_joins_request_witness :
  let E := example_go_env in let K := example_kenv in let r := example_go_regs in
  exists w1 w2 w3 w4, get_rw_goid E K 50 true example_go_world = Some (7, w1) /\
    enter_runtime_newproc1 E K r w1 = Some (tt, w2) /\ exit_runtime_newproc1 E K r w2 = Some (tt, w3) /\
    runtime_execute E K r w3 = Some (tt, w4) /\
    get_rw_goid E K 50 false w4 = Some (7, w4).
Proof.
  intros E K r.
  apply (child_joins_request E K 50 example_go_world example_go_proc 0 7 9 r r E K r false); try done.
  - split_and!; try done. by exists example_offsets.
  - right. done.
  - left. by exists 7.
Defined.
