(* ===== verification/KernelObjects.v ===== *)
(** * The objects of the kernel

    How the programs find the socket or the file of a descriptor in the memory of
    the kernel (kernel/include/task_struct_utils.h), what they read from it
    (kernel/socket_trace.bpf.c), and how they find out at run time at which
    offsets the members of the structures are ([infer_offset_phase_1] and [_2],
    [infer_mount_offset] of files_rw.bpf.c). *)

From S2P Require Import Prelude Bitmap Conn Iovec World Output Goroutine.

Definition SOCK_STREAM : Z := 1.
Definition SOCK_DGRAM : Z := 2.
Definition PF_UNIX : Z := 1.
Definition PF_INET : Z := 2.
Definition PF_INET6 : Z := 10.
Definition S_IFMT : Z := 61440.
Definition S_IFREG : Z := 32768.
Definition TCPF_ESTABLISHED : Z := 2.
Definition TCPF_FIN_WAIT2 : Z := 32.
Definition TCPF_CLOSE_WAIT : Z := 256.
Definition INVALID_OFFSET : Z := 65535.

Inductive sock_check := SOCK_CHECK_TYPE_ERROR | SOCK_CHECK_TYPE_UDP | SOCK_CHECK_TYPE_TCP_ES | SOCK_CHECK_TYPE_UNIX.
#[export] Instance sock_check_eq_dec : EqDecision sock_check.
Proof. solve_decision. Defined.

(** ** From a descriptor to its objects; a NULL pointer is 0 *)

Section objects.
Context (E : env) (K : kenv).

(** Loads of 1, 2, 4 and 8 bytes. *)
Definition kr (n : nat) (a : Z) : Z := le_word (k_read K a n).2.

(** [retry_get_socket_file_addr], with the bound check of
    [get_socket_file_addr_with_check] when [check]. *)
Definition socket_file_addr (check : bool) (fd_num files_off fdt_off : Z) : Z :=
  let files := kr 8 (k_task K + files_off) in
  if files =? 0 then 0 else
  let fdt := kr 8 (files + fdt_off) in
  let __fdt := (k_read K fdt 16).2 in
  let max_fds := s32 (le_word (take 4 __fdt)) in
  let fd := le_word (drop 8 __fdt) in
  if check && (max_fds <=? s32 fd_num) then 0 else kr 8 (fd + s32 fd_num * 8).

(** [struct socket]: [type], [wq], [file] and [sk]. *)
Record socket_s := mk_socket { so_type : Z; so_wq : Z; so_file : Z; so_sk : Z }.
Definition read_socket (a : Z) : socket_s :=
  let b := (k_read K a 48).2 in
  mk_socket (swrap 16 (le_word (take 2 (drop 4 b)))) (le_word (take 8 (drop 16 b)))
    (le_word (take 8 (drop 24 b))) (le_word (take 8 (drop 32 b))).

(** The [struct sock] of a file whose [private_data] is that of a socket; since
    Linux 5.3 [wq] is gone and the members behind it are 8 bytes lower. *)
Definition sock_of_file (file private_data : Z) : Z :=
  let s := read_socket private_data in
  let '(check_file, sk) := if negb (so_file s =? file) then (so_wq s, so_file s) else (so_file s, so_sk s) in
  if ((so_type s =? SOCK_STREAM) || (so_type s =? SOCK_DGRAM)) && (check_file =? file) then sk else 0.

Definition get_socket_from_fd (fd_num : Z) (o : member_offsets) : Z :=
  let file := socket_file_addr true fd_num (o_task_files o) (o_fdt o) in
  if file =? 0 then 0 else
  let private_data := kr 8 (file + o_private_data o) in
  if private_data =? 0 then 0 else sock_of_file file private_data.

Definition fd_to_file (fd_num : Z) (offset : option member_offsets) : Z :=
  match offset with
  | None => 0
  | Some o => socket_file_addr true fd_num (o_task_files o) (o_fdt o)
  end.

Definition file_to_i_mode (file : Z) (o : member_offsets) : Z :=
  if file =? 0 then 0 else
  let f_inode := kr 8 (file + o_f_inode o) in
  if f_inode =? 0 then 0 else kr 4 (f_inode + o_i_mode o).

(** Sequence numbers of the connection of a descriptor. *)
Definition get_tcp_write_seq (offset : option member_offsets) (fd : Z) : Z :=
  match offset with
  | None => 0
  | Some o => let sock := get_socket_from_fd fd o in if sock =? 0 then 0 else kr 4 (sock + o_write_seq o)
  end.
Definition get_tcp_read_seq (offset : option member_offsets) (fd : Z) : Z :=
  match offset with
  | None => 0
  | Some o => let sock := get_socket_from_fd fd o in if sock =? 0 then 0 else kr 4 (sock + o_copied_seq o)
  end.

(** ** What is read from a socket *)

(** [sk_padding], [sk_kern_sock] and [sk_type] of the flags of a socket. *)
Definition flags_padding (flags : Z) : Z := Z.land flags 1.
Definition flags_kern_sock (flags : Z) : Z := Z.land (Z.shiftr flags 1) 1.
Definition flags_type (flags : Z) : Z := Z.shiftr flags 16.

Definition get_sock_flags (sk : Z) (o : member_offsets) : Z := flags_type (kr 4 (sk + o_sock_flags o)).

(** The family of a socket, [PF_INET] for an IPv4 address mapped to IPv6. *)
Definition ipv4_mapped_on_ipv6_confirm (sk : Z) (o : member_offsets) (family : Z) : Z :=
  let __addr := (k_read K (sk + o_ip6saddr o) 16).2 in
  if le_word (take 4 (drop 8 __addr)) =? 0xffff0000 then PF_INET else family.

(** The kind of the socket, with [skc_family], [sk_type] and [l4_protocol] as
    they are left in [conn_info]. *)
Definition is_tcp_udp_data (sk : Z) (o : member_offsets) (c : conn_info) : sock_check * conn_info :=
  let skc_ipv6only := Z.land (Z.shiftr (kr 1 (sk + o_ipv6only o)) 5) 1 in
  let family := kr 2 (sk + o_family o) in
  let c := c <| c_skc_family := family |> in
  if family =? PF_UNIX then
    (if o_enable_unix_socket o then SOCK_CHECK_TYPE_UNIX else SOCK_CHECK_TYPE_ERROR, c)
  else if negb ((family =? PF_INET) || (family =? PF_INET6)) then (SOCK_CHECK_TYPE_ERROR, c) else
  let c := if (family =? PF_INET6) && (skc_ipv6only =? 0)
           then c <| c_skc_family := ipv4_mapped_on_ipv6_confirm sk o family |> else c in
  let c := c <| c_sk_type := get_sock_flags sk o |> in
  let with_l4 p := c <| c_tuple := let t := c_tuple c in mk_tuple (daddr t) (rcv_saddr t) (addr_len t) p (dport t) (num t) |> in
  if c_sk_type c =? SOCK_DGRAM then (SOCK_CHECK_TYPE_UDP, with_l4 IPPROTO_UDP) else
  if negb (c_sk_type c =? SOCK_STREAM) then (SOCK_CHECK_TYPE_ERROR, c) else
  let skc_state := kr 1 (sk + o_skc_state o) in
  if negb (Z.land (Z.shiftl 1 (Z.land skc_state 31))
             (Z.lnot (Z.lor TCPF_ESTABLISHED (Z.lor TCPF_CLOSE_WAIT TCPF_FIN_WAIT2))) =? 0)
  then (SOCK_CHECK_TYPE_ERROR, c)
  else (SOCK_CHECK_TYPE_TCP_ES, with_l4 IPPROTO_TCP).

(** [sk_info] is the entry of the connection. *)
Definition init_conn_info (fd sk : Z) (sk_info : option socket_info) (o : member_offsets) (c : conn_info) : conn_info :=
  let c := c <| c_union := u32 (-1) |> <| c_fd := fd |> <| c_sk := sk |> in
  let c := match sk_info with
           | Some k => if is_socket_info_valid sk_info then c <| c_no_trace := s_no_trace k |> else c
           | None => c
           end in
  let inet_dport := kr 2 (sk + o_dport o) in
  let inet_sport := kr 2 (sk + o_sport o) in
  let t := c_tuple c in
  c <| c_tuple := mk_tuple (daddr t) (rcv_saddr t) (addr_len t) (l4_protocol t) (bswap16 inet_dport) inet_sport |>.

(** The peer of a datagram, from a [struct sockaddr] of the process. *)
Definition extract_network_address_info (args : data_args) (ptr : Z) : data_args :=
  if ptr =? 0 then args else
  let addr := (e_read_user E ptr 16).2 in
  let family := le_word (take 2 addr) in
  let args := args <| da_port := bswap16 (le_word (take 2 (drop 2 addr))) |> in
  if (0 <? da_port args) && (family =? PF_INET)
  then args <| da_addr := take 4 (drop 4 addr) ++ drop 4 (da_addr args) |>
  else if (0 <? da_port args) && (family =? PF_INET6)
  then args <| da_addr := take 16 (drop 8 (e_read_user E ptr 28).2) |>
  else args.

(** ** Inference of offsets *)

(** The candidates of the build for Linux 5.2 and later. *)
Definition files_offset_array : list Z :=
  [0x790; 0xa80; 0xa88; 0xa90; 0xa98; 0xaa0; 0xaa8; 0xab0; 0xab8; 0xac0;
   0xac8; 0xad0; 0xad8; 0xae0; 0xae8; 0xaf0; 0xaf8; 0xb00; 0xb08; 0xb10;
   0xb18; 0xb20; 0xb28; 0xb48; 0xb50; 0xb58; 0xb60; 0xb68; 0xb70; 0xb78;
   0xb80; 0xb88; 0xb90; 0xb98; 0xba0; 0xba8; 0xbb0; 0xbb8; 0xbc0; 0xbc8;
   0xbd0; 0xbd8; 0xbe0; 0xbe8; 0xbf0; 0xbf8; 0xc00; 0xc08; 0xc10; 0xc18;
   0xcc8; 0xa48; 0xc60; 0x730].
Definition sock_flags_offset_array : list Z :=
  [0x1f0; 0x1f8; 0x200; 0x208; 0x210; 0x218; 0x220; 0x230; 0x238].
Definition copied_seq_offsets : list Z :=
  [0x514; 0x51c; 0x524; 0x52c; 0x534; 0x53c; 0x544; 0x54c; 0x554; 0x55c;
   0x564; 0x56c; 0x574; 0x57c; 0x584; 0x58c; 0x594; 0x59c; 0x5dc; 0x644;
   0x654; 0x63c; 0x5f4].
Definition write_seq_offsets : list Z :=
  [0x66c; 0x674; 0x67c; 0x684; 0x68c; 0x694; 0x69c; 0x6a4; 0x6ac; 0x6b4; 0x6bc; 0x6c4;
   0x6cc; 0x6d4; 0x6dc; 0x6e4; 0x6ec; 0x6f4; 0x6fc; 0x704; 0x70c; 0x714; 0x71c; 0x74c;
   0x7b4; 0x7d4; 0x7bc; 0x774].

(** Whether the file found at an offset of [files] is that of a socket. *)
Definition files_offset_ok (fd_num : Z) (o : member_offsets) (files_off : Z) : bool :=
  let file := socket_file_addr false fd_num files_off (o_fdt o) in
  if file =? 0 then false else
  let private_data := kr 8 (file + o_private_data o) in
  if private_data =? 0 then false else
  let s := read_socket private_data in
  (so_file s =? file) || (file =? so_wq s).

(** The socket, and the offsets with [task__files_offset] when it was found. *)
Definition infer_and_get_socket_from_fd (fd_num : Z) (o : member_offsets) : Z * member_offsets :=
  let o := if o_task_files o =? 0
           then match find (files_offset_ok fd_num o) files_offset_array with
                | Some off => o <| o_task_files := off |>
                | None => o
                end
           else o in
  if o_task_files o =? 0 then (0, o) else
  let file := socket_file_addr false fd_num (o_task_files o) (o_fdt o) in
  if file =? 0 then (0, o) else
  let private_data := kr 8 (file + o_private_data o) in
  if private_data =? 0 then (0, o) else (sock_of_file file private_data, o).

Definition sock_flags_ok (sk off : Z) : bool :=
  let flags := kr 4 (sk + off) in
  ((flags_type flags =? SOCK_DGRAM) || (flags_type flags =? SOCK_STREAM)) &&
  (flags_kern_sock flags =? 0) && (flags_padding flags =? 0).
Definition infer_sock_flags (sk : Z) (o : member_offsets) : member_offsets :=
  match find (sock_flags_ok sk) sock_flags_offset_array with
  | Some off => o <| o_sock_flags := off |>
  | None => o
  end.

Definition retry_get_write_seq (sk off snd_nxt_offset : Z) : Z :=
  let write_seq := kr 4 (sk + off) in
  let snd_nxt := kr 4 (sk + snd_nxt_offset) in
  if (snd_nxt =? write_seq) && negb (snd_nxt =? 0) && negb (write_seq =? 0) then write_seq else 0.
Definition retry_get_copied_seq (sk off : Z) : Z :=
  let copied_seq := kr 4 (sk + off) in
  let rcv_nxt := kr 4 (sk + off - 4) in
  let rcv_wup := kr 4 (sk + off + 4) in
  let tcp_header_len := kr 2 (sk + off - 28) in
  if negb ((20 <=? tcp_header_len) && (tcp_header_len <=? 60) && negb (copied_seq =? 0)) then 0 else
  if (copied_seq =? rcv_nxt) && (rcv_wup =? rcv_nxt) then copied_seq else 0.

Definition infer_tcp_seq_offset (sk : Z) (o : member_offsets) : member_offsets :=
  let o := if o_copied_seq o =? 0
           then match find (fun off => negb (retry_get_copied_seq sk off =? 0)) copied_seq_offsets with
                | Some off => o <| o_copied_seq := off |>
                | None => o
                end
           else o in
  let snd_nxt_offset := o_copied_seq o + 8 in
  if snd_nxt_offset =? 8 then o else
  if o_write_seq o =? 0
  then match find (fun off => negb (retry_get_write_seq sk off snd_nxt_offset =? 0)) write_seq_offsets with
       | Some off => o <| o_write_seq := off |>
       | None => o
       end
  else o.

(** The phases; the result is [OFFSET_READY]. *)
Definition infer_offset_phase_1 (fd : Z) : W bool :=
  offset ← gets w_offset;
  match offset with
  | None => mret false
  | Some o =>
      if o_ready o then mret true else
      if negb (check_pid_validity E K) then mret false else
      let '(infer_sk, o) := infer_and_get_socket_from_fd fd o in
      let o := if negb (infer_sk =? 0) && (o_sock_flags o =? 0) then infer_sock_flags infer_sk o else o in
      _ ← modify (fun w => w <| w_offset := Some o |>);
      mret false
  end.

Definition infer_offset_phase_2 (fd : Z) : W bool :=
  offset ← gets w_offset;
  match offset with
  | None => mret false
  | Some o =>
      if o_ready o then mret true else
      if negb (check_pid_validity E K) then mret false else
      if (o_sock_flags o =? 0) || (o_task_files o =? 0) then mret false else
      let sk := get_socket_from_fd fd o in
      if (sk =? 0) || negb ((o_copied_seq o =? 0) || (o_write_seq o =? 0)) then mret false else
      let o := infer_tcp_seq_offset sk o in
      let o := if negb (o_copied_seq o =? 0) && negb (o_write_seq o =? 0) &&
                  negb (o_sock_flags o =? 0) && negb (o_task_files o =? 0)
               then o <| o_ready := true |> else o in
      _ ← modify (fun w => w <| w_offset := Some o |>);
      mret (o_ready o)
  end.

(** ** Offsets of files *)

Definition get_mount_ptr (file : Z) (o : member_offsets) : Z :=
  let vfsmount := kr 8 (file + o_f_path o + o_path_mnt o) in
  if vfsmount =? 0 then 0 else vfsmount - o_mount_mnt o.

Definition mnt_id_offsets : list Z := [0x10c; 0x114; 0x11c; 0x124].

(** The two tries with an offset of [mnt_ns] of the loop of
    [infer_mount_offset]. *)
Definition mnt_ns_try (a : adapt_data) (mount : Z) (o : member_offsets) (mnt_ns_offset : Z) : option member_offsets :=
  let mnt_ns := kr 8 (mount + mnt_ns_offset) in
  if mnt_ns =? 0 then None else
  if kr 4 (mnt_ns + o_ns_inum o) =? ad_mntns_id a
  then Some (o <| o_mount_mnt_ns := mnt_ns_offset |> <| o_mnt_ns_ns := 0 |> <| o_files_infer_done := true |>)
  else if kr 4 (mnt_ns + 8 + o_ns_inum o) =? ad_mntns_id a
  then Some (o <| o_mount_mnt_ns := mnt_ns_offset |> <| o_mnt_ns_ns := 8 |> <| o_files_infer_done := true |>)
  else None.

Definition mount_offset_error (o : member_offsets) : member_offsets :=
  o <| o_mount_mnt_id := INVALID_OFFSET |> <| o_mount_mnt_ns := INVALID_OFFSET |>
    <| o_mnt_ns_ns := INVALID_OFFSET |> <| o_files_infer_done := true |>.

Definition infer_mount_offset (fd : Z) (o : member_offsets) : Z * member_offsets :=
  if o_files_infer_done o then (0, o) else
  match k_adapt K with
  | None => (-1, mount_offset_error o)
  | Some a =>
      if negb (ad_id a =? e_pid_tgid E) then (-1, o) else
      let file := fd_to_file fd (Some o) in
      if file =? 0 then (-1, mount_offset_error o) else
      let mount := get_mount_ptr file o in
      if mount =? 0 then (-1, mount_offset_error o) else
      let o := o <| o_mount_mnt_id :=
                 default INVALID_OFFSET (find (fun off => s32 (kr 4 (mount + off)) =? ad_mnt_id a) mnt_id_offsets) |> in
      let o := o <| o_mount_mnt_ns := INVALID_OFFSET |> <| o_mnt_ns_ns := INVALID_OFFSET |> in
      match mnt_ns_try a mount o 0xe0 with
      | Some o => (0, o)
      | None =>
          match mnt_ns_try a mount o 0xe8 with
          | Some o => (0, o)
          | None => (-1, o <| o_files_infer_done := true |>)
          end
      end
  end.
End objects.

(** ** Readiness *)

(** The offsets are used only when all that are inferred are known. *)
Definition seqs_known (o : member_offsets) : Prop :=
  o_task_files o <> 0 /\ o_sock_flags o <> 0 /\ o_copied_seq o <> 0 /\ o_write_seq o <> 0.
Definition offsets_wf (o : member_offsets) : Prop := o_ready o = true -> seqs_known o.

(** What the inference leaves alone: all but the four offsets and the flag. *)
Definition o_rest (o : member_offsets) : member_offsets :=
  o <| o_task_files := 0 |> <| o_sock_flags := 0 |> <| o_copied_seq := 0 |> <| o_write_seq := 0 |> <| o_ready := false |>.

Lemma rest_task_files o x : o_rest (o <| o_task_files := x |>) = o_rest o.
Proof. reflexivity. Qed.
Lemma rest_sock_flags o x : o_rest (o <| o_sock_flags := x |>) = o_rest o.
Proof. reflexivity. Qed.
Lemma rest_copied_seq o x : o_rest (o <| o_copied_seq := x |>) = o_rest o.
Proof. reflexivity. Qed.
Lemma rest_write_seq o x : o_rest (o <| o_write_seq := x |>) = o_rest o.
Proof. reflexivity. Qed.
Lemma rest_ready o x : o_rest (o <| o_ready := x |>) = o_rest o.
Proof. reflexivity. Qed.
Create Rewrite HintDb offsets.
#[export] Hint Rewrite rest_task_files rest_sock_flags rest_copied_seq rest_write_seq rest_ready : offsets.

Lemma infer_socket_rest K fd o :
  o_rest (infer_and_get_socket_from_fd K fd o).2 = o_rest o /\ o_ready (infer_and_get_socket_from_fd K fd o).2 = o_ready o.
Proof.
  unfold infer_and_get_socket_from_fd. set (o1 := if o_task_files o =? 0 then _ else o).
  assert (o_rest o1 = o_rest o /\ o_ready o1 = o_ready o) as H.
  { unfold o1. repeat case_match; by autorewrite with offsets. }
  clearbody o1. by repeat case_match.
Qed.

Lemma infer_flags_rest K sk o : o_rest (infer_sock_flags K sk o) = o_rest o /\ o_ready (infer_sock_flags K sk o) = o_ready o.
Proof. unfold infer_sock_flags. case_match; by autorewrite with offsets. Qed.

Lemma infer_seq_rest K sk o :
  o_rest (infer_tcp_seq_offset K sk o) = o_rest o /\ o_ready (infer_tcp_seq_offset K sk o) = o_ready o.
Proof.
  unfold infer_tcp_seq_offset. set (o1 := if o_copied_seq o =? 0 then _ else o).
  assert (o_rest o1 = o_rest o /\ o_ready o1 = o_ready o) as [<- <-].
  { unfold o1. repeat case_match; by autorewrite with offsets. }
  clearbody o1. repeat case_match; by autorewrite with offsets.
Qed.

(** The inference of offsets says it is ready exactly when it is, and never
    goes back: each phase reports whether the offsets are ready after it, leaves
    offsets that are ready as they are, makes them ready only when the four
    offsets it infers are known, and changes nothing else of the state. *)
Theorem infer_offsets_ready E K fd w o :
  w_offset w = Some o -> offsets_wf o ->
  Forall (fun phase : W bool => exists r o', phase w = Some (r, w <| w_offset := Some o' |>) /\
    r = o_ready o' /\ offsets_wf o' /\ o_rest o' = o_rest o /\ (o_ready o = true -> o' = o))
  [infer_offset_phase_1 E K fd; infer_offset_phase_2 E K fd].
Proof.
  intros Ho Hwf. assert (w = w <| w_offset := Some o |>) as Hw by (rewrite <- Ho; by destruct w).
  assert (exists r o', Some (o_ready o, w) = Some (r, w <| w_offset := Some o' |>) /\
    r = o_ready o' /\ offsets_wf o' /\ o_rest o' = o_rest o /\ (o_ready o = true -> o' = o)) as Hsame.
  { exists (o_ready o), o. by rewrite <- Hw. }
  repeat constructor.
  - unfold infer_offset_phase_1, mbind, M_bind, gets. rewrite Ho. destruct (o_ready o) eqn:Hr; [done |].
    destruct (check_pid_validity E K); [| done]. cbn [negb].
    destruct (infer_socket_rest K fd o) as [I1 R1]. destruct (infer_and_get_socket_from_fd K fd o) as [sk o1]. cbn [snd] in *.
    set (o2 := if _ && _ then _ else o1). assert (o_rest o2 = o_rest o /\ o_ready o2 = false) as [I2 R2].
    { unfold o2. destruct (_ && _); [| by rewrite R1]. destruct (infer_flags_rest K sk o1) as [I2 R2]. split; congruence. }
    clearbody o2. exists false, o2. split_and!; try done. unfold offsets_wf. by rewrite R2.
  - unfold infer_offset_phase_2, mbind, M_bind, gets. rewrite Ho. destruct (o_ready o) eqn:Hr; [done |].
    destruct (check_pid_validity E K); [| done]. cbn [negb]. destruct ((o_sock_flags o =? 0) || _); [done |].
    set (sk := get_socket_from_fd K fd o). match goal with |- context [if ?b then mret false else _] => destruct b end; [done |].
    destruct (infer_seq_rest K sk o) as [I1 R1]. set (o1 := infer_tcp_seq_offset K sk o) in *. clearbody o1.
    destruct (negb (o_copied_seq o1 =? 0) && _ && _ && _) eqn:Hk.
    + rewrite !andb_true_iff, !negb_true_iff, !Z.eqb_neq in Hk. exists true, (o1 <| o_ready := true |>).
      assert (seqs_known o1) as Hs by (unfold seqs_known; tauto). split_and!; try done. by intros _.
    + exists (o_ready o1), o1. split_and!; try done; [unfold offsets_wf; by rewrite R1, Hr].
Qed.

Lemma infer_offsets_ready_witness :
  Forall (fun phase : W bool => exists r o', phase example_world = Some (r, example_world <| w_offset := Some o' |>) /\
    r = o_ready o' /\ offsets_wf o' /\ o_rest o' = o_rest example_offsets /\ (o_ready example_offsets = true -> o' = example_offsets))
  [infer_offset_phase_1 (example_env [] []) example_kenv 5; infer_offset_phase_2 (example_env [] []) example_kenv 5].
Proof. by apply (infer_offsets_ready (example_env [] []) example_kenv 5 example_world example_offsets). Defined.

(** ** What an inferred offset means *)

(** The members of a [struct tcp_sock] around [copied_seq] at [off], and
    [write_seq] at [off'], on a connection where everything that was received was
    read and everything that was written was sent. *)
Definition idle_receive (K : kenv) (sk off : Z) : Prop :=
  20 <= kr K 2 (sk + off - 28) <= 60 /\ kr K 4 (sk + off) <> 0 /\
  kr K 4 (sk + off - 4) = kr K 4 (sk + off) /\ kr K 4 (sk + off + 4) = kr K 4 (sk + off).
Definition idle_send (K : kenv) (sk off off' : Z) : Prop :=
  kr K 4 (sk + off') <> 0 /\ kr K 4 (sk + (off + 8)) = kr K 4 (sk + off').

Lemma copied_seq_iff K sk off : retry_get_copied_seq K sk off <> 0 <-> idle_receive K sk off.
Proof.
  unfold retry_get_copied_seq, idle_receive.
  destruct (Z.leb_spec 20 (kr K 2 (sk + off - 28))), (Z.leb_spec (kr K 2 (sk + off - 28)) 60),
    (Z.eqb_spec (kr K 4 (sk + off)) 0); cbn [andb negb]; try lia.
  destruct (Z.eqb_spec (kr K 4 (sk + off)) (kr K 4 (sk + off - 4))), (Z.eqb_spec (kr K 4 (sk + off + 4)) (kr K 4 (sk + off - 4)));
    cbn [andb]; lia.
Qed.
Lemma write_seq_iff K sk off off' : retry_get_write_seq K sk off' (off + 8) <> 0 <-> idle_send K sk off off'.
Proof.
  unfold retry_get_write_seq, idle_send.
  destruct (Z.eqb_spec (kr K 4 (sk + (off + 8))) (kr K 4 (sk + off'))), (Z.eqb_spec (kr K 4 (sk + (off + 8))) 0),
    (Z.eqb_spec (kr K 4 (sk + off')) 0); cbn [andb negb]; lia.
Qed.

(** [find] gives the first element that passes. *)
Lemma find_first {A} (f : A -> bool) l :
  match find f l with
  | Some x => exists l1 l2, l = l1 ++ x :: l2 /\ f x = true /\ Forall (fun y => f y = false) l1
  | None => Forall (fun y => f y = false) l
  end.
Proof.
  induction l as [| a l IH]; [constructor |]. cbn [find]. destruct (f a) eqn:Ha.
  - by exists [], l.
  - destruct (find f l); [| by constructor]. destruct IH as (l1 & l2 & -> & H1 & H2).
    exists (a :: l1), l2. split_and!; try done. by constructor.
Qed.

(** The first candidate for which [P] holds. *)
Definition first_such (P : Z -> Prop) (candidates : list Z) (off : Z) : Prop :=
  exists l1 l2, candidates = l1 ++ off :: l2 /\ P off /\ Forall (fun y => ~ P y) l1.

Lemma find_offset (P : Z -> Prop) (f : Z -> Z) candidates :
  (forall off, f off <> 0 <-> P off) ->
  match find (fun off => negb (f off =? 0)) candidates with
  | Some off => first_such P candidates off
  | None => Forall (fun y => ~ P y) candidates
  end.
Proof.
  intros Hf. assert (forall off, negb (f off =? 0) = true <-> P off) as Ht.
  { intros off. by rewrite <- Hf, negb_true_iff, Z.eqb_neq. }
  assert (forall l, Forall (fun y => negb (f y =? 0) = false) l -> Forall (fun y => ~ P y) l) as Hl.
  { intros l. apply Forall_impl. intros y Hy HP%Ht. congruence. }
  pose proof (find_first (fun off => negb (f off =? 0)) candidates) as H. destruct (find _ _); [| by apply Hl].
  destruct H as (l1 & l2 & -> & H1 & H2). exists l1, l2. split; [done |]. split; [by apply Ht | by apply Hl].
Qed.

(** What the inference of sequence numbers finds. With no offset known, the
    offset of [copied_seq] becomes the first candidate around which the memory of
    the socket looks like an idle receiver ([rcv_nxt], [copied_seq] and [rcv_wup]
    equal and not 0, a header of 20 to 60 bytes), and stays unknown when there is
    none; the offset of [write_seq] becomes the first candidate that agrees with
    [snd_nxt], 8 bytes behind the [copied_seq] that was found. *)
Theorem infer_tcp_seq_offset_spec K sk o :
  o_copied_seq o = 0 -> o_write_seq o = 0 ->
  let o' := infer_tcp_seq_offset K sk o in
  (o_copied_seq o' = 0 /\ o_write_seq o' = 0 /\ Forall (fun off => ~ idle_receive K sk off) copied_seq_offsets) \/
  first_such (idle_receive K sk) copied_seq_offsets (o_copied_seq o') /\
  (o_write_seq o' = 0 /\ Forall (fun off => ~ idle_send K sk (o_copied_seq o') off) write_seq_offsets \/
   first_such (idle_send K sk (o_copied_seq o')) write_seq_offsets (o_write_seq o')).
Proof.
  intros Hc Hw. cbv zeta. unfold infer_tcp_seq_offset. rewrite Hc. change (0 =? 0) with true. cbv iota.
  pose proof (find_offset (idle_receive K sk) (retry_get_copied_seq K sk) copied_seq_offsets (copied_seq_iff K sk)) as H1.
  destruct (find _ copied_seq_offsets) as [off |]; [right | left; rewrite Hc; by change (0 + 8 =? 8) with true].
  set (o1 := o <| o_copied_seq := off |>). change (o_copied_seq o1) with off. change (o_write_seq o1) with (o_write_seq o). rewrite Hw.
  assert (off <> 0) as Hoff.
  { destruct H1 as (l1 & l2 & Hl & _). assert (Forall (fun x => x <> 0) copied_seq_offsets) as Hne by (by repeat constructor).
    rewrite Hl in Hne. apply Forall_app in Hne as [_ Hne]. by inversion Hne. }
  destruct (Z.eqb_spec (off + 8) 8); [lia |]. change (0 =? 0) with true. cbv iota.
  pose proof (find_offset (idle_send K sk off) (fun off' => retry_get_write_seq K sk off' (off + 8)) write_seq_offsets
    (write_seq_iff K sk off)) as H2.
  destruct (find _ write_seq_offsets) as [off' |]; (split; [exact H1 |]); [by right | left; by split].
Qed.

(** A kernel whose memory is a few regions and zero elsewhere. *)
Definition region_kenv (rs : list (Z * list Z)) : kenv :=
  example_kenv <| k_read := fun a n => (0, mem_bytes (region_mem rs) a n) |>.
Definition le64 (x : Z) : list Z := le_bytes 8 x.

(** A socket at 4096 with the members of a [struct tcp_sock] of Linux 5.15. *)
Definition example_tcp_sock : list (Z * list Z) :=
  [(4096 + 0x51c - 28, [32; 0]); (4096 + 0x51c - 4, [9; 1; 0; 0; 9; 1; 0; 0; 9; 1; 0; 0; 7; 2; 0; 0]);
   (4096 + 0x684, [7; 2; 0; 0])].
Definition unknown_offsets : member_offsets := example_offsets <| o_copied_seq := 0 |> <| o_write_seq := 0 |>.

Lemma infer_tcp_seq_offset_spec_witness :
  let K := region_kenv example_tcp_sock in
  let o' := infer_tcp_seq_offset K 4096 unknown_offsets in
  o_copied_seq o' = 0x51c /\ o_write_seq o' = 0x684 /\
  ((o_copied_seq o' = 0 /\ o_write_seq o' = 0 /\ Forall (fun off => ~ idle_receive K 4096 off) copied_seq_offsets) \/
   first_such (idle_receive K 4096) copied_seq_offsets (o_copied_seq o') /\
   (o_write_seq o' = 0 /\ Forall (fun off => ~ idle_send K 4096 (o_copied_seq o') off) write_seq_offsets \/
    first_such (idle_send K 4096 (o_copied_seq o')) write_seq_offsets (o_write_seq o'))).
Proof.
  split; [vm_compute; reflexivity |]. split; [vm_compute; reflexivity |].
  by apply (infer_tcp_seq_offset_spec (region_kenv example_tcp_sock) 4096 unknown_offsets).
Defined.

(** ** From a descriptor to its socket *)

(** The memory of the kernel has an open file for the descriptor, with an object
    behind it. *)
Record open_file (K : kenv) (o : member_offsets) (fd file private_data : Z) : Prop := {
  of_range : 0 <= fd < s32 (le_word (take 4 (k_read K (kr K 8 (kr K 8 (k_task K + o_task_files o) + o_fdt o)) 16).2));
  of_small : fd < 2 ^ 31;
  of_files : kr K 8 (k_task K + o_task_files o) <> 0;
  of_file : kr K 8 (le_word (drop 8 (k_read K (kr K 8 (kr K 8 (k_task K + o_task_files o) + o_fdt o)) 16).2) + fd * 8) = file;
  of_file_nn : file <> 0;
  of_private : kr K 8 (file + o_private_data o) = private_data;
  of_private_nn : private_data <> 0 }.

(** The pointer at an offset of a [struct socket]. *)
Definition socket_member (K : kenv) (s : Z) (off : nat) : Z := le_word (take 8 (drop off (k_read K s 48).2)).
Definition socket_type (K : kenv) (s : Z) : Z := swrap 16 (le_word (take 2 (drop 4 (k_read K s 48).2))).

(** C37: the socket of a descriptor is found on both layouts of [struct socket].
    When the descriptor is open on a stream or datagram socket, the result is the
    [sk] behind [file]: at 32 where [file] is at 24 (before Linux 5.3, with [wq]),
    at 24 where it is at 16. For an object that is not a socket of these types the
    result is NULL. *)
Theorem get_socket_from_fd_spec K o fd file s :
  open_file K o fd file s ->
  let stream_or_dgram := socket_type K s = SOCK_STREAM \/ socket_type K s = SOCK_DGRAM in
  (stream_or_dgram -> socket_member K s 24 = file -> get_socket_from_fd K fd o = socket_member K s 32) /\
  (stream_or_dgram -> socket_member K s 16 = file -> socket_member K s 24 <> file ->
     get_socket_from_fd K fd o = socket_member K s 24) /\
  (~ stream_or_dgram -> get_socket_from_fd K fd o = 0) /\
  (socket_member K s 16 <> file -> socket_member K s 24 <> file -> get_socket_from_fd K fd o = 0).
Proof.
  intros [H1 H2 H3 H4 H5 H6 H7] sd.
  assert (socket_file_addr K true fd (o_task_files o) (o_fdt o) = file) as Hfile.
  { unfold socket_file_addr. destruct (Z.eqb_spec (kr K 8 (k_task K + o_task_files o)) 0); [done |].
    rewrite (swrap_small 32 fd) by lia. cbn [andb].
    match goal with |- (if ?a <=? ?b then _ else _) = _ => destruct (Z.leb_spec a b); [lia | done] end. }
  assert (get_socket_from_fd K fd o = sock_of_file K file s) as ->.
  { unfold get_socket_from_fd. rewrite Hfile. destruct (Z.eqb_spec file 0); [done |]. rewrite H6.
    by destruct (Z.eqb_spec s 0). }
  unfold sock_of_file, read_socket. cbn [so_type so_wq so_file so_sk].
  fold (socket_type K s) (socket_member K s 16) (socket_member K s 24) (socket_member K s 32).
  subst sd. generalize (socket_type K s) (socket_member K s 16) (socket_member K s 24) (socket_member K s 32).
  intros t m16 m24 m32.
  destruct (Z.eqb_spec t SOCK_STREAM), (Z.eqb_spec t SOCK_DGRAM), (Z.eqb_spec m24 file), (Z.eqb_spec m16 file);
    cbn [negb andb orb]; split_and!; intros; try done; try tauto;
    repeat match goal with |- context [?a =? ?b] => destruct (Z.eqb_spec a b) end; try done; tauto.
Qed.

(** A task at 0 with a descriptor 3 open on a socket of Linux 5.15. *)
Definition example_fd_memory : list (Z * list Z) :=
  [(2704, le64 8192); (8192 + 32, le64 12288); (12288, le64 64 ++ le64 16384); (16384 + 3 * 8, le64 20480);
   (20480 + 200, le64 24576); (24576, le64 (2 ^ 32) ++ le64 0 ++ le64 20480 ++ le64 28672)].

Lemma get_socket_from_fd_spec_witness :
  get_socket_from_fd (region_kenv example_fd_memory) 3 example_offsets = 28672.
Proof.
  assert (open_file (region_kenv example_fd_memory) example_offsets 3 20480 24576) as H
    by (constructor; vm_compute; done).
  destruct (get_socket_from_fd_spec (region_kenv example_fd_memory) example_offsets 3 20480 24576 H) as (_ & H2 & _).
  rewrite H2; [vm_compute; reflexivity | left; vm_compute; reflexivity | vm_compute; reflexivity | vm_compute; discriminate].
Defined.
