(* ===== verification/Submit.v ===== *)
(** * Traces and submission

    [get_trace_key], [trace_process], [delete_socket_info], [get_socket_info]
    and [__data_submit] of kernel/socket_trace.bpf.c, in the build for Linux 5.2
    and later: a recognised message gets a trace identifier, its socket an entry
    in the map of sockets, and its event a header in the output buffer. *)

From S2P Require Import Prelude Bitmap Conn Iovec InferBase World Output Goroutine KernelObjects.

Definition NS_PER_SEC : Z := 1000000000.
Definition DNS_AAAA_TYPE_ID : Z := 28.

(** [struct process_data_extra]. *)
Record extra_args := mk_extra { x_vecs : bool; x_is_go_process : bool; x_source : data_source }.

Inductive submit_result := SUBMIT_OK | SUBMIT_INVALID.

(** [struct socket_info_s] set to zero. *)
Definition zero_sock : socket_info :=
  mk_sock PROTO_UNKNOWN false false false false false DATA_SOURCE_SYSCALL 0 0 (replicate 16 0)
    T_EGRESS T_EGRESS ROLE_UNKNOWN false false false 0 0 0 0 0 0.

(** ** Maps *)

Definition sock_update (K : kenv) (key : Z) (k : socket_info) : W bool := fun w =>
  let '(ok, m) := htab_update (k_max_sock K) key k (w_sock w) in Some (ok, w <| w_sock := m |>).
Definition sock_delete (key : Z) : W bool := fun w =>
  let '(ok, m) := htab_delete key (w_sock w) in Some (ok, w <| w_sock := m |>).
Definition trace_update (K : kenv) (key : trace_key) (t : trace_info) : W bool := fun w =>
  let '(ok, m) := htab_update (k_max_trace K) key t (w_trace w) in Some (ok, w <| w_trace := m |>).
Definition trace_delete (key : trace_key) : W bool := fun w =>
  let '(ok, m) := htab_delete key (w_trace w) in Some (ok, w <| w_trace := m |>).
Definition role_update (K : kenv) (key r : Z) : W unit := fun w =>
  Some (tt, w <| w_role := (htab_update (k_max_role K) key r (w_role w)).2 |>).
Definition role_delete (key : Z) : W unit := modify (fun w => w <| w_role := delete key (w_role w) |>).
(** A write through a pointer into the map of sockets. *)
Definition sock_write (key : Z) (f : socket_info -> socket_info) : W unit :=
  modify (fun w => w <| w_sock := alter f key (w_sock w) |>).

Definition delete_socket_info (conn_key : Z) (sk : option socket_info) : W unit :=
  match sk with
  | None => mret tt
  | Some _ =>
      stats ← gets w_stats;
      match stats with
      | None => mret tt
      | Some _ =>
          ok ← sock_delete conn_key;
          _ ← (if ok : bool then count_socket (-1) else mret tt);
          role_delete conn_key
      end
  end.

Section submit.
Context (E : env) (K : kenv).

Definition get_trace_key (timeout : Z) (is_socket_io : bool) : W trace_key :=
  goid ← (if timeout =? 0 then mret 0 else get_rw_goid E K (u64 (timeout * NS_PER_SEC)) is_socket_io);
  mret (if goid =? 0 then mk_key (cur_tgid E) (cur_pid E) 0 else mk_key (cur_tgid E) 0 goid).

(** ** [trace_process]; the result is [*thread_trace_id]. *)

Definition same_direction (sk : option socket_info) (c : conn_info) : bool :=
  is_socket_info_valid sk &&
  match sk with Some k => c_direction c =! s_direction k | None => false end.

Definition trace_peer_fd (sk : option socket_info) (c : conn_info) : Z :=
  if (c_message_type c =! MSG_REQUEST) && negb (c_is_reasm_seg c) then c_fd c
  else if c_message_type c =! MSG_RESPONSE then
    match sk with
    | Some k => if is_socket_info_valid sk && negb (s_peer_fd k =? 0) then s_peer_fd k else 0
    | None => 0
    end
  else 0.

(** The update of the map of traces; a new entry is counted. *)
Definition trace_store (tip : option trace_info) (key : trace_key) (t : trace_info) : W unit :=
  ok ← trace_update K key t;
  match tip with
  | None => if ok : bool then count_trace 1 else mret tt
  | Some _ => mret tt
  end.

Definition trace_process (sk : option socket_info) (c : conn_info) (socket_id : Z)
    (tip : option trace_info) (time_stamp : Z) (key : trace_key) : W Z :=
  let pre_trace_id := if same_direction sk c
                      then match tip with Some t => ti_thread_trace_id t | None => 0 end else 0 in
  if c_direction c =! T_INGRESS then
    id ← (if pre_trace_id =? 0 then
            _ ← set_ctx (fun t => t <| t_thread_trace_id := u64 (t_thread_trace_id t + 1) |>);
            gets (fun w => match w_ctx w with Some t => t_thread_trace_id t | None => 0 end)
          else mret pre_trace_id);
    _ ← trace_store tip key
          (mk_trace (u32 (time_stamp / NS_PER_SEC)) (trace_peer_fd sk c) id socket_id);
    mret id
  else
    match tip with
    | Some t =>
        if c_keep_trace c then mret (ti_thread_trace_id t) else
        ok ← trace_delete key;
        _ ← (if ok : bool then count_trace (-1) else mret tt);
        mret (ti_thread_trace_id t)
    | None => mret 0
    end.

(** ** The entry of a new socket *)

Definition is_proto_reasm_enabled (p : traffic_protocol) : bool :=
  match k_allow_reasm K p with Some b => b | None => false end.

(** The [sk_info] of a socket without a valid entry, and the trace identifier:
    the socket of an NGINX backend carries those of its frontend. *)
Definition new_sock (sk : option socket_info) (c : conn_info) (ctx : tracer_ctx) (args : data_args)
    (syscall_len time_stamp : Z) (x : extra_args) : socket_info :=
  let peer := match sk with
              | Some k => if (c_direction c =! T_EGRESS) && negb (c_no_trace c) && (0 <? s_peer_fd k)
                          then s_peer_fd k else 0
              | None => 0
              end in
  let limit := t_data_limit_max ctx in
  let udp := l4_protocol (c_tuple c) =? IPPROTO_UDP in
  let addr := udp && (0 <? da_port args) in
  let allow := is_proto_reasm_enabled (c_protocol c) in
  let k := zero_sock <| s_peer_fd := peer |> <| s_no_trace := c_no_trace c |>
             <| s_uid := u64 (t_socket_id ctx + 1) |> <| s_l7_proto := c_protocol c |>
             <| s_is_tls := (c_protocol c =! PROTO_TLS) |> <| s_allow_reassembly := allow |>
             <| s_reasm_bytes := if allow then (if limit <? syscall_len then limit else syscall_len) else 0 |>
             <| s_direction := c_direction c |> <| s_pre_direction := c_direction c |>
             <| s_role := c_role c |> <| s_data_source := x_source x |>
             <| s_update_time := u32 (time_stamp / NS_PER_SEC) |>
             <| s_need_reconfirm := c_need_reconfirm c |> <| s_union := c_union c |> in
  let k := if addr then k <| s_prev_data := da_addr args |> <| s_udp_pre_set_addr := true |>
                          <| s_union := c_union c - u16 (c_union c) + da_port args |> else k in
  let k := if udp && (0 <? a_iovlen (da_extra_iov args)) then k <| s_seq := 1 |> else k in
  if c_message_type c =! MSG_PRESTORE
  then k <| s_prev_data := c_prev_buf c |> <| s_prev_data_len := c_prev_count c |> <| s_uid := 0 |> else k.

Definition new_trace_id (sk : option socket_info) (c : conn_info) (id : Z) : Z :=
  match sk with
  | Some k => if (c_direction c =! T_EGRESS) && negb (c_no_trace c) && (0 <? s_peer_fd k)
              then s_trace_id k else id
  | None => id
  end.

(** What the rest of [__data_submit] takes from [sk_info], the trace identifier
    and [send_reasm_bytes]. *)
Record submitted := mk_submitted {
  sub_uid : Z; sub_allow : bool; sub_seq : Z; sub_trace_id : Z; sub_reasm_bytes : Z }.

Definition create_socket (conn_key : Z) (sk : option socket_info) (c : conn_info) (ctx : tracer_ctx)
    (args : data_args) (syscall_len time_stamp : Z) (x : extra_args) (id : Z) : W submitted :=
  let k := new_sock sk c ctx args syscall_len time_stamp x in
  _ ← set_ctx (fun t => t <| t_socket_id := u64 (t_socket_id t + 1) |>);
  ok ← sock_update K conn_key k;
  _ ← (match sk with
       | None => if ok : bool then count_socket 1 else mret tt
       | Some _ => mret tt
       end);
  mret (mk_submitted (s_uid k) (s_allow_reassembly k) 0 (new_trace_id sk c id) 0).

(** ** The entry of a known socket *)

Definition touch_sock (c : conn_info) (time_stamp : Z) (x : extra_args) (k : socket_info) : socket_info :=
  let k := if (s_l7_proto k =! PROTO_TLS) || (s_l7_proto k =! PROTO_UNKNOWN)
           then k <| s_l7_proto := c_protocol c |> <| s_data_source := x_source x |> else k in
  k <| s_seq := u64 (s_seq k + 1) |> <| s_direction := c_direction c |>
    <| s_update_time := u32 (time_stamp / NS_PER_SEC) |>.

(** The trace identifier, the bytes still to send under reassembly, and the
    entry after it. *)
Definition reasm_sock (c : conn_info) (limit syscall_len : Z) (k : socket_info) (id : Z)
    : socket_info * Z * Z :=
  let '(k, id) := if (c_direction c =! T_EGRESS) && negb (s_trace_id k =? 0)
                  then (k <| s_trace_id := 0 |>, s_trace_id k) else (k, id) in
  let k := if c_is_reasm_seg c then k else k <| s_reasm_bytes := 0 |> <| s_finish_reasm := false |> in
  if s_allow_reassembly k && (s_reasm_bytes k <? limit) then
    let remain_bytes := u32 (limit - s_reasm_bytes k) in
    let send := if remain_bytes <? syscall_len then remain_bytes else syscall_len in
    (k <| s_reasm_bytes := u32 (s_reasm_bytes k + send) |>, id, send)
  else (k, id, 0).

Definition update_socket (conn_key : Z) (k : socket_info) (c : conn_info) (limit syscall_len time_stamp : Z)
    (x : extra_args) (id : Z) : W submitted :=
  let k1 := touch_sock c time_stamp x k in
  _ ← sock_write conn_key (fun _ => k1);
  _ ← (if negb (s_peer_fd k1 =? 0) && (c_direction c =! T_INGRESS) then
         let peer_key := gen_conn_key_id (cur_tgid E) (s_peer_fd k1) in
         peer ← gets (fun w => w_sock w !! peer_key);
         if is_socket_info_valid peer then sock_write peer_key (fun p => p <| s_trace_id := id |>) else mret tt
       else mret tt);
  ok ← gets (fun w => w_sock w !! conn_key);
  k2 ← lift ok;
  let '(k3, id, send) := reasm_sock c limit syscall_len k2 id in
  _ ← sock_write conn_key (fun _ => k3);
  mret (mk_submitted (s_uid k) (s_allow_reassembly k) (s_seq k1) id send).

(** ** The header of an event *)

(** The addresses of the socket. [None] is the result [false]. *)
Definition get_socket_info (offset : option member_offsets) (c : conn_info) (v : list Z) : option (list Z) :=
  if c_sk_type c =? SOCK_UNIX then Some (vput v_addr_len 0 v) else
  if c_sk c =? 0 then None else
  match offset with
  | None => None
  | Some o =>
      let addresses (saddr daddr : Z) (n : nat) :=
        let v := vput_bytes v_rcv_saddr (k_read K (c_sk c + saddr) n).2 v in
        let v := vput_bytes v_daddr (k_read K (c_sk c + daddr) n).2 v in
        Some (vput v_addr_len (Z.of_nat n) v) in
      if c_skc_family c =? PF_INET then addresses (o_saddr o) (o_daddr o) 4%nat
      else if c_skc_family c =? PF_INET6 then addresses (o_ip6saddr o) (o_ip6daddr o) 16%nat
      else None
  end.

(** The tuple of the message; a datagram may name its destination. *)
Definition put_tuple (c : conn_info) (args : data_args) (v : list Z) : list Z :=
  let t := c_tuple c in
  let v := vput v_l4_protocol (l4_protocol t) v in
  let v := vput v_dport (dport t) v in
  let v := vput v_num (num t) v in
  let v := vput v_data_type (proto_num (c_protocol c)) v in
  if (l4_protocol t =? IPPROTO_UDP) && (0 <? da_port args) then
    if c_skc_family c =? PF_INET then vput v_addr_len 4 (vput_bytes v_daddr (take 4 (da_addr args)) v)
    else if c_skc_family c =? PF_INET6 then
      if (le_word (take 8 (da_addr args)) =? 0) && (le_word (take 4 (drop 8 (da_addr args))) =? 0xffff0000)
      then vput v_addr_len 4 (vput_bytes v_daddr (take 4 (drop 12 (da_addr args))) v)
      else vput v_addr_len 16 (vput_bytes v_daddr (take 16 (da_addr args)) v)
    else v
  else v.

Definition event_msg_type (allow is_reasm_seg : bool) : message_type :=
  if allow then (if is_reasm_seg then MSG_REASM_SEG else MSG_REASM_START) else MSG_COMMON.

(** The sequence number, the carried bytes and how many they are. *)
Definition put_sequence (c : conn_info) (args : data_args) (source : data_source) (v : list Z) : list Z :=
  let tcp := l4_protocol (c_tuple c) =? IPPROTO_TCP in
  let seq := if (source =! DATA_SOURCE_GO_TLS_UPROBE) || (source =! DATA_SOURCE_OPENSSL_UPROBE) || tcp
             then da_tcp_seq args else 0 in
  let dns := tcp && (c_protocol c =! PROTO_DNS) && (c_prev_count c =? 2) in
  let '(seq, prev_count) := if dns then (u32 (seq - 2), 0) else (seq, c_prev_count c) in
  if 0 <? prev_count then
    let v := vput_bytes v_extra_data (c_prev_buf c) v in
    vput v_tcp_seq (u32 (seq - prev_count)) (vput v_extra_data_count prev_count v)
  else vput v_tcp_seq seq (vput v_extra_data_count 0 v).

Definition put_event (c : conn_info) (args : data_args) (sub : submitted) (role goid syscall_len : Z)
    (time_stamp cap : Z) (source : data_source) (v : list Z) : list Z :=
  let v := put_tuple c args v in
  let v := vput v_socket_role role v in
  let v := vput v_socket_id (sub_uid sub) v in
  let v := vput v_data_seq (sub_seq sub) v in
  let v := vput v_tgid (cur_tgid E) v in
  let v := vput_is_tls 0 v in
  let v := vput v_pid (cur_pid E) v in
  let v := vput v_fd (da_fd args) v in
  let v := vput v_timestamp time_stamp v in
  let v := vput v_cap_timestamp cap v in
  let v := vput_direction (dir_num (c_direction c)) v in
  let v := vput v_syscall_len syscall_len v in
  let v := vput_msg_type (msg_num (event_msg_type (sub_allow sub) (c_is_reasm_seg c))) v in
  let v := vput v_thread_trace_id (sub_trace_id sub) v in
  let v := vput_bytes v_comm (e_comm E).2 v in
  let v := put_sequence c args source v in
  let v := vput v_coroutine_id goid v in
  vput v_source (source_num (if c_sk_type c =? SOCK_UNIX then DATA_SOURCE_UNIX_SOCKET else source)) v.

(** The protocol of the thread, for the fast path of the inference. *)
Definition cache_update (p : traffic_protocol) : W unit :=
  let cache_key := Z.shiftr (cur_pid E) 16 in
  if cache_key <? PROTO_INFER_CACHE_SIZE then
    modify (fun w => w <| w_cache := fun key => if key =? cache_key
      then (fun f idx => if idx =? u16 (cur_pid E) then p else f idx) <$> w_cache w key else w_cache w key |>)
  else mret tt.

(** ** [__data_submit] *)

(** The header is completed in the buffer and the event is output. *)
Definition emit_event (conn_key : Z) (c : conn_info) (args : data_args) (syscall_len time_stamp goid : Z)
    (x : extra_args) (limit : Z) (v : list Z) (sub : submitted) : W submit_result :=
  role ← gets (fun w => default 0 (w_role w !! conn_key));
  let tick := if c_direction c =! T_INGRESS then 1%nat else 0%nat in
  let stamp := if c_direction c =! T_INGRESS then k_ktime K 0 else time_stamp in
  let v := put_event c args sub role goid syscall_len stamp (k_ktime K tick) (x_source x) v in
  let reasm := if sub_allow sub && negb (c_is_reasm_seg c) then 0 else sub_reasm_bytes sub in
  ob ← gets w_buf;
  b ← lift ob;
  data ← lift (write_at (b_data b) (b_len b) v);
  _ ← modify (fun w => w <| w_buf := Some (b <| b_data := data |>) |>);
  _ ← cache_update (c_protocol c);
  _ ← __output_data_common E K (Some args) (x_vecs x) (s32 limit) false reasm (k_ktime K (S tick));
  mret SUBMIT_OK.

(** Whether the message takes part in tracing. *)
Definition traced (c : conn_info) (ctx : tracer_ctx) (x : extra_args) : bool :=
  (c_message_type c <>! MSG_PRESTORE) && (c_message_type c <>! MSG_RECONFIRM) && negb (c_no_trace c) &&
  (negb (t_go_tracing_timeout ctx =? 0) || negb (x_is_go_process x)) &&
  negb ((c_protocol c =! PROTO_DNS) && (c_dns_q_type c =? DNS_AAAA_TYPE_ID)).

(** From the buffer of events on; [sub] is that of a new socket. *)
Definition submit_event (conn_key : Z) (sk : option socket_info) (c : conn_info) (args : data_args)
    (syscall_len time_stamp goid : Z) (x : extra_args) (limit : Z) (sub : submitted) : W submit_result :=
  ob ← gets w_buf;
  match ob with
  | None => mret SUBMIT_INVALID
  | Some b =>
      _ ← add_refcnt 1;
      if BUF_DATA - SD_SIZE <? b_len b then _ ← add_refcnt (-1); mret SUBMIT_INVALID else
      v ← lift (slice (b_data b) (b_len b) HEAD);
      offset ← gets w_offset;
      match get_socket_info offset c v with
      | None => _ ← add_refcnt (-1); mret SUBMIT_INVALID
      | Some v =>
          sub ← (match sk with
                 | Some k => if is_socket_info_valid sk
                             then update_socket conn_key k c limit syscall_len time_stamp x (sub_trace_id sub)
                             else mret sub
                 | None => mret sub
                 end);
          emit_event conn_key c args syscall_len time_stamp goid x limit v sub
      end
  end.

(** [conn_info->socket_info_ptr] is the entry of the connection. *)
Definition __data_submit (c : conn_info) (args : data_args) (syscall_len time_stamp : Z)
    (x : extra_args) : W submit_result :=
  if (c_sk c =? 0) || (c_message_type c =! MSG_UNKNOWN) then mret SUBMIT_INVALID else
  octx ← gets w_ctx;
  match octx with
  | None => mret SUBMIT_INVALID
  | Some ctx =>
      let conn_key := gen_conn_key_id (cur_tgid E) (c_fd c) in
      sk ← gets (fun w => w_sock w !! conn_key);
      if c_message_type c =! MSG_CLEAR then _ ← delete_socket_info conn_key sk; mret SUBMIT_INVALID else
      let c := if t_disable_tracing ctx then c <| c_no_trace := true |> else c in
      let limit := t_data_limit_max ctx in
      ostats ← gets w_stats;
      match ostats with
      | None => mret SUBMIT_INVALID
      | Some _ =>
          key ← (if c_no_trace c then mret (mk_key 0 0 0) else get_trace_key (t_go_tracing_timeout ctx) true);
          tip ← gets (fun w => if c_no_trace c then None else w_trace w !! key);
          let socket_id := match sk with
                           | Some k => if is_socket_info_valid sk then s_uid k else u64 (t_socket_id ctx + 1)
                           | None => u64 (t_socket_id ctx + 1)
                           end in
          id ← (if traced c ctx x then trace_process sk c socket_id tip time_stamp key else mret 0);
          sub ← (if is_socket_info_valid sk then mret (mk_submitted 0 false 0 id 0)
                 else create_socket conn_key sk c ctx args syscall_len time_stamp x id);
          if (c_message_type c =! MSG_PRESTORE) || (c_message_type c =! MSG_RECONFIRM)
          then mret SUBMIT_INVALID
          else submit_event conn_key sk c args syscall_len time_stamp (k_goid key) x limit sub
      end
  end.
End submit.

(** ** Maps and their counters *)

Section htab_facts.
Context {K A : Type} `{Countable K}.
Implicit Types m : gmap K A.

Lemma htab_update_cases max k (a : A) m :
  htab_update max k a m = (true, <[k := a]> m) /\ (is_Some (m !! k) \/ Z.of_nat (size m) < max) \/
  htab_update max k a m = (false, m) /\ m !! k = None /\ max <= Z.of_nat (size m).
Proof.
  unfold htab_update. destruct (bool_decide_reflect (is_Some (m !! k))) as [Hk | Hk]; cbn [orb].
  - left. by split; [| left].
  - destruct (Z.ltb_spec (Z.of_nat (size m)) max); [left; by split; [| right] |].
    right. split; [done |]. split; [by apply eq_None_not_Some | done].
Qed.

Lemma htab_insert_size max k (a : A) m :
  Z.of_nat (size m) <= max -> is_Some (m !! k) \/ Z.of_nat (size m) < max ->
  Z.of_nat (size (<[k := a]> m)) <= max /\
  Z.of_nat (size (<[k := a]> m)) = Z.of_nat (size m) + match m !! k with Some _ => 0 | None => 1 end.
Proof.
  intros Hs Hk. rewrite map_size_insert. destruct (m !! k); [unfold id; lia |].
  destruct Hk as [[? [=]] | Hk]. lia.
Qed.

Lemma htab_delete_cases k m :
  htab_delete k m = (true, delete k m) /\ is_Some (m !! k) /\
    Z.of_nat (size (delete k m)) = Z.of_nat (size m) - 1 \/
  htab_delete k m = (false, m) /\ m !! k = None.
Proof.
  unfold htab_delete. destruct (bool_decide_reflect (is_Some (m !! k))) as [[x Hk] | Hk].
  - left. split; [done |]. split; [by exists x |]. rewrite map_size_delete, Hk.
    assert (size m <> 0%nat) by (intros E%map_size_empty_inv; subst m; by rewrite lookup_empty in Hk). lia.
  - right. split; [done |]. by apply eq_None_not_Some.
Qed.
End htab_facts.

(** An entry of the map of sockets. *)
Definition entry_ok (k : socket_info) : Prop := sock_ok k /\ 0 <= s_reasm_bytes k < 2 ^ 32.

(** Some programs count an entry of the map of sockets whether or not there was one
    before ([exit_socket] and the ones on HTTP/2). Everything but the counter of sockets
    holds for every sequence of programs; that the counter is the size of the map holds
    ([exact_counts]) for those in which no entry is counted twice. *)
Class Counting := exact_counts : bool.
#[export] Instance counting_exactly : Counting | 100 := true.

(** The maps of sockets and of traces are within their capacity, the counters
    that user space reads are their sizes (that of sockets if they are exact), and a
    socket identifier that is in use belongs to one connection and is not above the
    last one given out. *)
Record maps_ok {X : Counting} (K : kenv) (w : world) : Prop := {
  mo_socks : Z.of_nat (size (w_sock w)) <= k_max_sock K;
  mo_traces : Z.of_nat (size (w_trace w)) <= k_max_trace K;
  mo_count : forall n, w_stats w = Some n ->
    (exact_counts = true -> n_socket_map n = Z.of_nat (size (w_sock w))) /\ n_trace_map n = Z.of_nat (size (w_trace w));
  mo_limit : forall t, w_ctx w = Some t -> 0 <= t_data_limit_max t < 2 ^ 32;
  mo_uid : forall t key k, w_ctx w = Some t -> w_sock w !! key = Some k -> 0 <= s_uid k <= t_socket_id t;
  mo_inj : forall key key' k k', w_sock w !! key = Some k -> w_sock w !! key' = Some k' ->
    s_uid k = s_uid k' -> s_uid k <> 0 -> key = key';
  mo_sock : forall key k, w_sock w !! key = Some k -> entry_ok k }.

(** The capacities are the [max_entries] of the maps. *)
Record caps_ok (K : kenv) : Prop := {
  cap_sock : 0 <= k_max_sock K < 2 ^ 32; cap_trace : 0 <= k_max_trace K < 2 ^ 32 }.

(** The identifiers of sockets have not run out. *)
Definition ids_left (w : world) : Prop := forall t, w_ctx w = Some t -> 0 <= t_socket_id t < 2 ^ 64 - 1.

(** Nothing that [maps_ok] is about changed. *)
Record same_maps (w w' : world) : Prop := {
  sm_sock : w_sock w' = w_sock w; sm_trace : w_trace w' = w_trace w;
  sm_stats : (fun n => (n_socket_map n, n_trace_map n)) <$> w_stats w' =
             (fun n => (n_socket_map n, n_trace_map n)) <$> w_stats w;
  sm_ctx : (fun t => (t_socket_id t, t_data_limit_max t)) <$> w_ctx w' =
           (fun t => (t_socket_id t, t_data_limit_max t)) <$> w_ctx w }.

Lemma maps_ok_same {X : Counting} K w w' : same_maps w w' -> maps_ok K w -> maps_ok K w'.
Proof.
  intros [E1 E2 E3 E4] [H1 H2 H3 HL H4 H5 H6]. constructor; rewrite ?E1, ?E2; try done.
  - intros n Hn. rewrite Hn in E3. destruct (w_stats w) as [n' |]; [| done].
    injection E3 as -> ->. by apply H3.
  - intros t Ht. rewrite Ht in E4. destruct (w_ctx w) as [t' |]; [| done].
    injection E4 as _ ->. by apply HL.
  - intros t key k Ht Hk. rewrite Ht in E4. destruct (w_ctx w) as [t' |]; [| done].
    injection E4 as -> _. by eapply H4.
Qed.

Section counters.
Context {X : Counting} (E : env) (K : kenv) (HK : caps_ok K).

(** Writing to an entry keeps its identifier. *)
Lemma sock_write_maps key f w :
  (forall k, w_sock w !! key = Some k -> s_uid (f k) = s_uid k /\ entry_ok (f k)) ->
  maps_ok K w -> maps_ok K (w <| w_sock := alter f key (w_sock w) |>).
Proof.
  intros Hf [H1 H2 H3 HL H4 H5 H6].
  assert (forall key' k', alter f key (w_sock w) !! key' = Some k' ->
    exists k, w_sock w !! key' = Some k /\ s_uid k' = s_uid k /\ entry_ok k') as Hl.
  { intros key' k' Hk'. destruct (decide (key' = key)) as [-> | Hne].
    - rewrite lookup_alter_eq in Hk'. apply fmap_Some in Hk' as (k & Hk & ->).
      exists k. split; [done |]. by apply Hf.
    - rewrite lookup_alter_ne in Hk' by done. exists k'. split; [done |]. split; [done |]. by eapply H6. }
  assert (size (alter f key (w_sock w)) = size (w_sock w)) as Hs.
  { rewrite <- !size_dom. by rewrite dom_alter_L. }
  constructor; cbn [w_sock w_trace w_stats w_ctx set]; rewrite ?Hs; try done.
  - intros t key' k' Ht Hk'. apply Hl in Hk' as (k & Hk & -> & _). by eapply H4.
  - intros k1 k2 x1 x2 L1 L2 Hu Hn. apply Hl in L1 as (y1 & L1 & U1 & _). apply Hl in L2 as (y2 & L2 & U2 & _).
    eapply H5; [exact L1 | exact L2 | congruence | congruence].
  - intros key' k' Hk'. apply Hl in Hk' as (k & _ & _ & Ho). done.
Qed.

Lemma sock_insert_maps key k w n n' :
  maps_ok K w -> w_stats w = Some n -> entry_ok k -> n_trace_map n' = n_trace_map n ->
  (exact_counts = true -> n_socket_map n' = u64 (n_socket_map n + match w_sock w !! key with Some _ => 0 | None => 1 end)) ->
  is_Some (w_sock w !! key) \/ Z.of_nat (size (w_sock w)) < k_max_sock K ->
  (forall t, w_ctx w = Some t -> 0 <= s_uid k <= t_socket_id t) ->
  (forall key' k', w_sock w !! key' = Some k' -> s_uid k = s_uid k' -> s_uid k <> 0 -> key = key') ->
  maps_ok K (w <| w_sock := <[key := k]> (w_sock w) |> <| w_stats := Some n' |>).
Proof.
  intros [H1 H2 H3 HL H4 H5 H6] Hn Hk Ht' Hc Hroom Hu Hinj.
  destruct (htab_insert_size (k_max_sock K) key k (w_sock w) H1 Hroom) as [S1 S2].
  destruct (H3 n Hn) as [C1 C2]. destruct (cap_sock K HK).
  constructor; cbn [w_sock w_trace w_stats w_ctx set]; try done.
  - intros n0 [= <-]. split; [| by rewrite Ht']. intros He. rewrite Hc, C1, <- S2 by done. apply wrap_small. lia.
  - intros t key' k' Ht Hk'. apply lookup_insert_Some in Hk' as [[<- <-] | [_ Hk']]; [by apply Hu | by eapply H4].
  - intros k1 k2 x1 x2 L1 L2 He Hne.
    apply lookup_insert_Some in L1 as [[<- <-] | [N1 L1]]; apply lookup_insert_Some in L2 as [[<- <-] | [N2 L2]].
    + done.
    + by eapply Hinj.
    + symmetry. eapply Hinj; [exact L1 | congruence..].
    + by eapply H5.
  - intros key' k' Hk'. apply lookup_insert_Some in Hk' as [[<- <-] | [_ Hk']]; [done | by eapply H6].
Qed.

Lemma sock_delete_maps key w n :
  maps_ok K w -> w_stats w = Some n ->
  Z.of_nat (size (delete key (w_sock w))) = Z.of_nat (size (w_sock w)) - 1 ->
  maps_ok K (w <| w_sock := delete key (w_sock w) |>
               <| w_stats := Some (n <| n_socket_map := u64 (n_socket_map n + -1) |>) |>).
Proof.
  intros [H1 H2 H3 HL H4 H5 H6] Hn Hs. destruct (H3 n Hn) as [C1 C2]. destruct (cap_sock K HK).
  constructor; cbn [w_sock w_trace w_stats w_ctx set]; try done; [lia | ..].
  - intros n' [= <-]. cbn. split; [| done]. intros He. rewrite C1, wrap_small by (done || lia). lia.
  - intros t key' k Ht Hk. apply lookup_delete_Some in Hk as [_ Hk]. by eapply H4.
  - intros k1 k2 x1 x2 L1 L2. apply lookup_delete_Some in L1 as [_ L1]. apply lookup_delete_Some in L2 as [_ L2].
    by eapply H5.
  - intros key' k Hk. apply lookup_delete_Some in Hk as [_ Hk]. by eapply H6.
Qed.

Lemma trace_maps w m n d :
  maps_ok K w -> w_stats w = Some n -> Z.of_nat (size m) <= k_max_trace K ->
  Z.of_nat (size m) = Z.of_nat (size (w_trace w)) + d ->
  maps_ok K (w <| w_trace := m |> <| w_stats := Some (n <| n_trace_map := u64 (n_trace_map n + d) |>) |>).
Proof.
  intros [H1 H2 H3 HL H4 H5 H6] Hn Hm Hd. destruct (H3 n Hn) as [C1 C2]. destruct (cap_trace K HK).
  constructor; cbn [w_sock w_trace w_stats w_ctx set]; try done.
  intros n' [= <-]. cbn. split; [done |]. rewrite C2, wrap_small by lia. lia.
Qed.
End counters.

(** What the bookkeeping before the output leaves alone. *)
Definition ctx_rest (t : tracer_ctx) : Z * Z * Z * Z * Z * bool * (Z * Z * bool) :=
  (t_data_limit_max t, t_go_tracing_timeout t, t_push_buffer_refcnt t, t_last_period_timestamp t,
   t_period_timestamp t, t_disable_tracing t,
   (t_io_event_collect_mode t, t_io_event_minimal_duration t, t_virtual_file_collect_enabled t)).
Record w_quiet (w w' : world) : Prop := {
  q_seqmap : w_seqmap w' = w_seqmap w; q_cache : w_cache w' = w_cache w; q_buf : w_buf w' = w_buf w;
  q_out : w_out w' = w_out w; q_ctx : ctx_rest <$> w_ctx w' = ctx_rest <$> w_ctx w;
  q_stats : is_Some (w_stats w') <-> is_Some (w_stats w); q_fixed : w_fixed w' = w_fixed w }.

Lemma w_quiet_refl w : w_quiet w w.
Proof. by constructor. Qed.
Lemma w_quiet_trans w1 w2 w3 : w_quiet w1 w2 -> w_quiet w2 w3 -> w_quiet w1 w3.
Proof. intros [] []. constructor; congruence || tauto. Qed.
#[export] Hint Resolve w_quiet_refl : core.
Lemma w_quiet_ids w w' : w_quiet w w' -> t_socket_id <$> w_ctx w' = t_socket_id <$> w_ctx w ->
  (fun t => (t_socket_id t, t_data_limit_max t)) <$> w_ctx w' =
  (fun t => (t_socket_id t, t_data_limit_max t)) <$> w_ctx w.
Proof.
  intros Hq%q_ctx Hi. destruct (w_ctx w), (w_ctx w'); try done. cbn in *. unfold ctx_rest in Hq. congruence.
Qed.

Section operations.
Context {X : Counting} (E : env) (K : kenv) (HK : caps_ok K).

Lemma w_stats_id w n : w_stats w = Some n -> w <| w_stats := Some n |> = w.
Proof. destruct w; cbn. by intros ->. Qed.

(** [delete_socket_info] on the entry of the connection. *)
Lemma delete_socket_info_ok key w :
  maps_ok K w ->
  wp (delete_socket_info key (w_sock w !! key)) w (fun _ w' =>
    maps_ok K w' /\ w_quiet w w' /\ w_trace w' = w_trace w /\ w_ctx w' = w_ctx w /\
    (is_Some (w_stats w) -> w_sock w' = delete key (w_sock w)) /\
    (is_Some (w_stats w) -> is_Some (w_sock w !! key) -> w_role w' = delete key (w_role w))).
Proof.
  intros Hw. unfold delete_socket_info. destruct (w_sock w !! key) as [k |] eqn:Hk.
  2: { apply wp_ret. split_and!; try done; try (by intros _ []). intros _. by rewrite delete_id. }
  apply wp_bind, wp_gets. destruct (w_stats w) as [n |] eqn:Hn.
  2: { apply wp_ret. split_and!; try done; try (by intros []). }
  destruct (htab_delete_cases key (w_sock w)) as [(Hd & _ & Hs) | (_ & Hd)]; [| congruence].
  unfold sock_delete. apply wp_bind. unfold wp at 1. rewrite Hd.
  apply wp_bind, wp_modify, wp_modify.
  cbn [w_sock w_trace w_stats w_ctx w_role w_buf w_out w_cache w_seqmap set]. rewrite Hn. cbn [fmap option_fmap option_map].
  split_and!; try done.
  - eapply maps_ok_same; [| exact (sock_delete_maps K HK key w n Hw Hn Hs)]. by constructor.
Qed.

(** What [trace_process] does to the maps, and the identifier it gives. *)
Definition trace_frame (key : trace_key) (w w' : world) : Prop :=
  maps_ok K w' /\ w_quiet w w' /\ w_sock w' = w_sock w /\ w_role w' = w_role w /\
  t_socket_id <$> w_ctx w' = t_socket_id <$> w_ctx w /\
  (forall key', key' <> key -> w_trace w' !! key' = w_trace w !! key').

Lemma trace_egress_ok sk c socket_id time_stamp key w n :
  maps_ok K w -> w_stats w = Some n -> c_direction c = T_EGRESS ->
  wp (trace_process K sk c socket_id (w_trace w !! key) time_stamp key) w (fun id w' =>
    trace_frame key w w' /\
    id = match w_trace w !! key with Some t => ti_thread_trace_id t | None => 0 end /\
    w_trace w' = (if c_keep_trace c then w_trace w else delete key (w_trace w))).
Proof.
  intros Hw Hn Hc. unfold trace_process, trace_frame. rewrite Hc. case_bool_decide; [done |].
  destruct (w_trace w !! key) as [t |] eqn:Ht.
  2: { apply wp_ret. split_and!; try done. destruct (c_keep_trace c); [done |]. by rewrite delete_id. }
  destruct (c_keep_trace c); [by apply wp_ret |].
  destruct (htab_delete_cases key (w_trace w)) as [(Hd & _ & Hs) | (_ & Hd)]; [| congruence].
  unfold trace_delete. apply wp_bind. unfold wp at 1. rewrite Hd. apply wp_bind, wp_modify, wp_ret.
  cbn [w_sock w_trace w_stats w_ctx w_role w_buf w_out w_cache w_seqmap set]. rewrite Hn. cbn [fmap option_fmap option_map].
  split_and!; try done.
  - apply trace_maps; try done; pose proof (mo_traces K w Hw); lia.
  - intros key' Hne. by rewrite lookup_delete_ne.
Qed.

(** A new entry of the map of traces, counted when the key is new. *)
Lemma trace_store_ok key t w n :
  maps_ok K w -> w_stats w = Some n ->
  wp (trace_store K (w_trace w !! key) key t) w (fun _ w' => trace_frame key w w' /\
    (is_Some (w_trace w !! key) \/ Z.of_nat (size (w_trace w)) < k_max_trace K -> w_trace w' !! key = Some t)).
Proof.
  intros Hw Hn. unfold trace_store. apply wp_bind. unfold trace_update, wp at 1, trace_frame.
  destruct (htab_update_cases (k_max_trace K) key t (w_trace w)) as [(-> & Hroom) | (-> & Hnone & Hfull)].
  2: { rewrite Hnone. apply wp_ret. assert (w <| w_trace := w_trace w |> = w) as -> by (by destruct w).
       split_and!; try done. intros [[? [=]] | ?]. lia. }
  destruct (htab_insert_size (k_max_trace K) key t (w_trace w) (mo_traces K w Hw) Hroom) as [S1 S2].
  pose proof (trace_maps K HK w (<[key := t]> (w_trace w)) n _ Hw Hn S1 S2) as Hm.
  assert (forall key', key' <> key -> <[key := t]> (w_trace w) !! key' = w_trace w !! key')
    by (intros; by rewrite lookup_insert_ne).
  destruct (w_trace w !! key); [apply wp_ret | apply wp_modify];
    cbn [w_sock w_trace w_stats w_ctx w_role w_buf w_out w_cache w_seqmap set];
    split_and!; try done; try (intros _; by rewrite lookup_insert_eq).
  - eapply maps_ok_same; [| exact Hm]. constructor; try done. cbn. rewrite Hn. cbn.
    destruct (mo_count K w Hw n Hn) as [_ C2]. pose proof (mo_traces K w Hw). destruct (cap_trace K HK).
    rewrite wrap_small by lia. by rewrite Z.add_0_r.
  - by rewrite Hn.
  - constructor; cbn; rewrite ?Hn; try done; split; by eexists.
Qed.

Lemma trace_ingress_ok sk c socket_id time_stamp key w n :
  maps_ok K w -> w_stats w = Some n -> c_direction c = T_INGRESS ->
  wp (trace_process K sk c socket_id (w_trace w !! key) time_stamp key) w (fun id w' =>
    trace_frame key w w' /\
    (is_Some (w_trace w !! key) \/ Z.of_nat (size (w_trace w)) < k_max_trace K ->
     exists t, w_trace w' !! key = Some t /\ ti_thread_trace_id t = id /\ ti_socket_id t = socket_id /\
       ti_peer_fd t = trace_peer_fd sk c)).
Proof.
  intros Hw Hn Hc. unfold trace_process. rewrite Hc. set (pre := if same_direction sk c then _ else 0).
  case_bool_decide; [| done]. apply wp_bind.
  apply (wp_mono _ _ (fun id w1 => w_trace w1 = w_trace w /\ w_stats w1 = Some n /\ w_quiet w w1 /\
    w_sock w1 = w_sock w /\ w_role w1 = w_role w /\ t_socket_id <$> w_ctx w1 = t_socket_id <$> w_ctx w)).
  { destruct (pre =? 0); [| by apply wp_ret].
    apply wp_bind, wp_modify, wp_gets. cbn [w_sock w_trace w_stats w_ctx w_role set].
    split_and!; try done; [constructor; try done; cbn |]; by destruct (w_ctx w). }
  intros id w1 (T1 & T2 & T3 & T4 & T5 & T6).
  assert (maps_ok K w1) as Hw1.
  { eapply maps_ok_same; [| exact Hw]. constructor; try done; [by rewrite T2, Hn | by apply w_quiet_ids]. }
  set (t := mk_trace _ _ id socket_id). rewrite <- T1.
  apply wp_bind. eapply wp_mono; [by apply (trace_store_ok key t w1 n) |].
  intros [] w2 ((F1 & F2 & F3 & F4 & F5 & F6) & Hst). apply wp_ret. split.
  - split_and!; try congruence; [by eapply w_quiet_trans | intros; rewrite <- T1; auto].
  - intros Hroom. exists t. by split; [apply Hst |].
Qed.

(** ** Entries of sockets *)

(** What the callers guarantee of the connection and of the arguments. *)
Record input_ok (c : conn_info) (args : data_args) (syscall_len : Z) : Prop := {
  in_prev : length (c_prev_buf c) = EBPF_CACHE_SIZE /\ bytes_ok (c_prev_buf c);
  in_count : 0 <= c_prev_count c <= 16;
  in_addr : length (da_addr args) = EBPF_CACHE_SIZE /\ bytes_ok (da_addr args);
  in_len : 0 <= syscall_len < 2 ^ 32 }.

Lemma new_sock_ok sk c ctx args syscall_len time_stamp x :
  input_ok c args syscall_len -> 0 <= t_data_limit_max ctx < 2 ^ 32 ->
  entry_ok (new_sock K sk c ctx args syscall_len time_stamp x).
Proof.
  intros [[P1 P2] P3 [P4 P5] P6] Hl. unfold new_sock, entry_ok, sock_ok.
  assert (0 <= (if is_proto_reasm_enabled K (c_protocol c) then
    if t_data_limit_max ctx <? syscall_len then t_data_limit_max ctx else syscall_len else 0) < 2 ^ 32).
  { by repeat case_match. }
  destruct (c_message_type c =! MSG_PRESTORE), (_ && (0 <? da_port args)), (_ && (0 <? a_iovlen _));
    cbn [s_prev_data s_prev_data_len s_reasm_bytes set zero_sock]; split_and!; try done; try apply H; try lia.
  all: by apply Forall_replicate.
Qed.

Lemma new_sock_uid sk c ctx args syscall_len time_stamp x :
  s_uid (new_sock K sk c ctx args syscall_len time_stamp x) =
  if c_message_type c =! MSG_PRESTORE then 0 else u64 (t_socket_id ctx + 1).
Proof.
  unfold new_sock. by destruct (c_message_type c =! MSG_PRESTORE), (_ && (0 <? da_port args)), (_ && (0 <? a_iovlen _)).
Qed.

(** The descriptor of the frontend that the entry of a new socket has. *)
Definition new_peer_fd (sk : option socket_info) (c : conn_info) : Z :=
  match sk with
  | Some k => if (c_direction c =! T_EGRESS) && negb (c_no_trace c) && (0 <? s_peer_fd k) then s_peer_fd k else 0
  | None => 0
  end.

Lemma create_socket_ok key c ctx args syscall_len time_stamp x id w n t :
  maps_ok K w -> ids_left w -> w_stats w = Some n -> w_ctx w = Some t ->
  t_socket_id t = t_socket_id ctx -> t_data_limit_max t = t_data_limit_max ctx -> input_ok c args syscall_len ->
  wp (create_socket K key (w_sock w !! key) c ctx args syscall_len time_stamp x id) w (fun sub w' =>
    maps_ok K w' /\ w_quiet w w' /\ w_trace w' = w_trace w /\ w_role w' = w_role w /\
    t_socket_id <$> w_ctx w' = Some (t_socket_id t + 1) /\
    sub_uid sub = (if c_message_type c =! MSG_PRESTORE then 0 else t_socket_id t + 1) /\
    sub_trace_id sub = new_trace_id (w_sock w !! key) c id /\
    sub_seq sub = 0 /\ sub_reasm_bytes sub = 0 /\
    sub_allow sub = is_proto_reasm_enabled K (c_protocol c) /\
    (is_Some (w_sock w !! key) \/ Z.of_nat (size (w_sock w)) < k_max_sock K ->
     exists k, w_sock w' = <[key := k]> (w_sock w) /\ s_uid k = sub_uid sub /\ s_l7_proto k = c_protocol c /\
       s_peer_fd k = new_peer_fd (w_sock w !! key) c)).
Proof.
  intros Hw Hids Hn Ht Htc Htl Hin. unfold create_socket. set (k := new_sock _ _ _ _ _ _ _ _).
  pose proof (new_sock_ok (w_sock w !! key) c ctx args syscall_len time_stamp x Hin
    ltac:(rewrite <- Htl; by apply (mo_limit K w Hw)) : entry_ok k) as Hk.
  pose proof (new_sock_uid (w_sock w !! key) c ctx args syscall_len time_stamp x : s_uid k = _) as Hu.
  pose proof (Hids t Ht) as Hid. rewrite <- Htc, wrap_small in Hu by lia.
  assert (s_allow_reassembly k = is_proto_reasm_enabled K (c_protocol c) /\ s_l7_proto k = c_protocol c /\
    s_peer_fd k = new_peer_fd (w_sock w !! key) c) as (Hal & Hp & Hpf).
  { unfold k, new_sock. by destruct (c_message_type c =! MSG_PRESTORE), (_ && (0 <? da_port args)), (_ && (0 <? a_iovlen _)). }
  apply wp_bind, wp_modify. rewrite Ht. cbn [fmap option_fmap option_map]. rewrite wrap_small by lia.
  set (w1 := w <| w_ctx := _ |>).
  assert (maps_ok K w1) as Hw1.
  { destruct Hw as [H1 H2 H3 HL H4 H5 H6]. constructor; try done.
    - intros t' [= <-]. cbn. by apply HL.
    - intros t' key' k' [= <-] Hk'. cbn. specialize (H4 t key' k' Ht Hk'). lia. }
  apply wp_bind. unfold sock_update, wp at 1. change (w_sock w1) with (w_sock w).
  destruct (htab_update_cases (k_max_sock K) key k (w_sock w)) as [(-> & Hroom) | (-> & Hnone & Hfull)].
  2: { rewrite Hnone. apply wp_bind, wp_ret, wp_ret. split_and!; try done; [| by intros [[? [=]] | ?]; lia].
       constructor; try done. cbn. by rewrite Ht. }
  assert (forall n', n_trace_map n' = n_trace_map n ->
    (exact_counts = true -> n_socket_map n' = u64 (n_socket_map n + match w_sock w !! key with Some _ => 0 | None => 1 end)) ->
    maps_ok K (w1 <| w_sock := <[key := k]> (w_sock w) |> <| w_stats := Some n' |>)) as Hm.
  { intros n' Ht' Hc'. apply (sock_insert_maps K HK key k w1 n n'); try done.
    { intros t' [= <-]. cbn. rewrite Hu. case_bool_decide; lia. }
    intros key' k' Hk' Heq Hne. pose proof (mo_uid K w Hw t key' k' Ht Hk') as Hle. rewrite Hu in Heq, Hne.
    case_bool_decide; [done | lia]. }
  apply wp_bind. destruct (mo_count K w Hw n Hn) as [C1 _]. pose proof (mo_socks K w Hw). destruct (cap_sock K HK).
  destruct (w_sock w !! key); [apply wp_ret | apply wp_modify]; apply wp_ret; split_and!; try done.
  all: try (by intros _; exists k).
  - eapply maps_ok_same; [| apply (Hm n); [done |]]; [by constructor; cbn; rewrite ?Hn |]. intros He. rewrite Z.add_0_r, C1, wrap_small by (done || lia). done.
  - constructor; try done. cbn. by rewrite Ht.
  - cbn [w_stats set]. change (w_stats w1) with (w_stats w). rewrite Hn. by apply Hm.
  - constructor; cbn; rewrite ?Ht, ?Hn; try done; split; by eexists.
Qed.

(** The trace identifier an outgoing message takes from its socket. *)
Definition own_trace_id (k : socket_info) (c : conn_info) (id : Z) : Z :=
  if (c_direction c =! T_EGRESS) && negb (s_trace_id k =? 0) then s_trace_id k else id.

(** The bytes that a message may still send under reassembly: what is left of the
    limit for a segment, all of it for the start of a message. *)
Definition reasm_send (k : socket_info) (is_reasm_seg : bool) (limit syscall_len : Z) : Z :=
  let sent := if is_reasm_seg then s_reasm_bytes k else 0 in
  if s_allow_reassembly k && (sent <? limit) then Z.min (limit - sent) syscall_len else 0.

Lemma touch_sock_ok c time_stamp x k :
  entry_ok k -> let k1 := touch_sock c time_stamp x k in
  entry_ok k1 /\ s_uid k1 = s_uid k /\ s_trace_id k1 = s_trace_id k /\ s_peer_fd k1 = s_peer_fd k /\
  s_allow_reassembly k1 = s_allow_reassembly k /\ s_reasm_bytes k1 = s_reasm_bytes k /\
  s_seq k1 = u64 (s_seq k + 1) /\
  s_l7_proto k1 = (if (s_l7_proto k =! PROTO_TLS) || (s_l7_proto k =! PROTO_UNKNOWN)
                   then c_protocol c else s_l7_proto k).
Proof. intros Hk. unfold touch_sock. by destruct (_ || _). Qed.

Lemma reasm_sock_ok c limit syscall_len k id :
  entry_ok k -> 0 <= syscall_len < 2 ^ 32 -> 0 <= limit < 2 ^ 32 ->
  exists k' send, reasm_sock c limit syscall_len k id = (k', own_trace_id k c id, send) /\
    entry_ok k' /\ s_uid k' = s_uid k /\ s_l7_proto k' = s_l7_proto k /\
    s_allow_reassembly k' = s_allow_reassembly k /\ s_seq k' = s_seq k /\
    0 <= send < 2 ^ 32 /\ send <= syscall_len /\
    (0 < send -> s_reasm_bytes k' <= limit) /\
    send = reasm_send k (c_is_reasm_seg c) limit syscall_len.
Proof.
  intros [Hk Hr] Hs Hl. unfold reasm_sock, own_trace_id.
  assert (exists k1 id1, (if (c_direction c =! T_EGRESS) && negb (s_trace_id k =? 0)
      then (k <| s_trace_id := 0 |>, s_trace_id k) else (k, id)) =
    (k1, if (c_direction c =! T_EGRESS) && negb (s_trace_id k =? 0) then s_trace_id k else id) /\
    id1 = id /\ sock_ok k1 /\ s_uid k1 = s_uid k /\ s_l7_proto k1 = s_l7_proto k /\
    s_allow_reassembly k1 = s_allow_reassembly k /\ s_seq k1 = s_seq k /\
    s_reasm_bytes k1 = s_reasm_bytes k) as (k1 & _ & -> & _ & A1 & A2 & A3 & A4 & A5 & A6).
  { destruct (_ && _); by eexists _, _. }
  set (k2 := if c_is_reasm_seg c then k1 else _).
  assert (sock_ok k2 /\ s_uid k2 = s_uid k /\ s_l7_proto k2 = s_l7_proto k /\
    s_allow_reassembly k2 = s_allow_reassembly k /\ s_seq k2 = s_seq k /\ 0 <= s_reasm_bytes k2 < 2 ^ 32 /\
    s_reasm_bytes k2 = (if c_is_reasm_seg c then s_reasm_bytes k else 0)) as (B1 & B2 & B3 & B4 & B5 & B6 & B7).
  { unfold k2. destruct (c_is_reasm_seg c); cbn [s_uid s_l7_proto s_allow_reassembly s_seq s_reasm_bytes set];
      split_and!; try done; lia. }
  clearbody k2. unfold reasm_send. rewrite B4, <- B7.
  destruct (s_allow_reassembly k), (Z.ltb_spec (s_reasm_bytes k2) limit); cbn [andb].
  2-4: eexists k2, 0; split_and!; try done; lia.
  rewrite (wrap_small 32 (limit - _)) by lia.
  set (send := if limit - s_reasm_bytes k2 <? syscall_len then _ else _).
  assert (send = Z.min (limit - s_reasm_bytes k2) syscall_len) as Hse by (unfold send; destruct (Z.ltb_spec (limit - s_reasm_bytes k2) syscall_len); lia).
  rewrite (wrap_small 32) by lia. eexists _, send. cbn [s_uid s_l7_proto s_allow_reassembly s_seq s_reasm_bytes set].
  clearbody send. split_and!; try done; try (by split; [| cbn; lia]); cbn; lia.
Qed.

(** A write to an entry of the map, and what is left alone. *)
Lemma wp_sock_write key f w Q :
  (forall k, w_sock w !! key = Some k -> s_uid (f k) = s_uid k /\ entry_ok (f k)) -> maps_ok K w ->
  (forall w', maps_ok K w' -> w' = w <| w_sock := alter f key (w_sock w) |> -> Q tt w') ->
  wp (sock_write key f) w Q.
Proof. intros Hf Hw HQ. apply wp_modify, HQ; [| done]. by apply sock_write_maps. Qed.

(** Only the entries of sockets changed, and none of their protocols but that
    of [key]. *)
Record sock_only (key : Z) (w w' : world) : Prop := {
  so_quiet : w_quiet w w'; so_trace : w_trace w' = w_trace w; so_role : w_role w' = w_role w;
  so_ctx : w_ctx w' = w_ctx w; so_stats : w_stats w' = w_stats w;
  so_others : forall key', key' <> key -> s_l7_proto <$> w_sock w' !! key' = s_l7_proto <$> w_sock w !! key' }.

Lemma sock_only_alter key f w : sock_only key w (w <| w_sock := alter f key (w_sock w) |>).
Proof. constructor; try done. intros key' Hne. cbn. by rewrite lookup_alter_ne. Qed.
Lemma sock_only_trans key w1 w2 w3 : sock_only key w1 w2 -> sock_only key w2 w3 -> sock_only key w1 w3.
Proof.
  intros [] []. constructor; try congruence; [by eapply w_quiet_trans |].
  intros key' Hne. rewrite so_others1, so_others0 by done. done.
Qed.

(** The frontend of a proxied connection learns the identifier of the reply. *)
Lemma peer_write_ok key c id w k1 :
  maps_ok K w -> w_sock w !! key = Some k1 ->
  wp (if negb (s_peer_fd k1 =? 0) && (c_direction c =! T_INGRESS) then
        let peer_key := gen_conn_key_id (cur_tgid E) (s_peer_fd k1) in
        peer ← gets (fun w => w_sock w !! peer_key);
        if is_socket_info_valid peer then sock_write peer_key (fun p => p <| s_trace_id := id |>) else mret tt
      else mret tt) w
    (fun _ w' => maps_ok K w' /\ sock_only key w w' /\
       exists k2, w_sock w' !! key = Some k2 /\
         (k2 = k1 \/ c_direction c = T_INGRESS /\ k2 = k1 <| s_trace_id := id |>)).
Proof.
  intros Hw Hk. assert (sock_only key w w) as Hrefl by done.
  destruct (negb _ && _) eqn:Hc; [| apply wp_ret; split_and!; try done; by exists k1; split; [| left]].
  apply andb_true_iff in Hc as [_ Hc%bool_decide_eq_true]. cbv zeta. apply wp_bind, wp_gets.
  set (pk := gen_conn_key_id _ _). destruct (is_socket_info_valid (w_sock w !! pk)).
  2: { apply wp_ret. split_and!; try done. by exists k1; split; [| left]. }
  apply wp_sock_write; [| done |].
  { intros p Hp. split; [done |]. exact (mo_sock K w Hw pk p Hp). }
  intros w' Hw' ->. split; [done |]. split.
  - constructor; try done. intros key' Hne. cbn. destruct (decide (key' = pk)) as [-> | ?].
    + rewrite lookup_alter_eq. by destruct (w_sock w !! pk).
    + by rewrite lookup_alter_ne.
  - cbn. destruct (decide (key = pk)) as [<- | ?].
    + rewrite lookup_alter_eq, Hk. eexists. split; [done |]. by right.
    + rewrite lookup_alter_ne by done. exists k1. by split; [| left].
Qed.

Lemma update_socket_ok key k c limit syscall_len time_stamp x id w :
  maps_ok K w -> w_sock w !! key = Some k -> 0 <= syscall_len < 2 ^ 32 -> 0 <= limit < 2 ^ 32 ->
  wp (update_socket E key k c limit syscall_len time_stamp x id) w (fun sub w' =>
    maps_ok K w' /\ sock_only key w w' /\
    sub_uid sub = s_uid k /\ sub_allow sub = s_allow_reassembly k /\ sub_seq sub = u64 (s_seq k + 1) /\
    sub_trace_id sub = own_trace_id k c id /\ 0 <= sub_reasm_bytes sub <= syscall_len /\
    sub_reasm_bytes sub = reasm_send k (c_is_reasm_seg c) limit syscall_len /\
    exists k', w_sock w' !! key = Some k' /\ s_uid k' = s_uid k /\
      (0 < sub_reasm_bytes sub -> s_reasm_bytes k' <= limit) /\
      s_l7_proto k' = (if (s_l7_proto k =! PROTO_TLS) || (s_l7_proto k =! PROTO_UNKNOWN)
                       then c_protocol c else s_l7_proto k)).
Proof.
  intros Hw Hk Hs Hl. unfold update_socket. pose proof (mo_sock K w Hw key k Hk) as [Hk1 Hk2].
  destruct (touch_sock_ok c time_stamp x k (conj Hk1 Hk2)) as (A1 & A2 & A3 & A4 & A5 & A6 & A7 & A8).
  set (k1 := touch_sock c time_stamp x k) in *. apply wp_bind, wp_sock_write; [| done |].
  { intros k0 Hk0. rewrite Hk in Hk0. by injection Hk0 as <-. }
  intros w1 Hw1 Hw1e. assert (w_sock w1 !! key = Some k1) as L1.
  { rewrite Hw1e. cbn. by rewrite lookup_alter_eq, Hk. }
  assert (sock_only key w w1) as S1 by (rewrite Hw1e; apply sock_only_alter). clear Hw1e.
  apply wp_bind. eapply wp_mono; [by apply (peer_write_ok key) |].
  intros [] w2 (Hw2 & S2 & k2 & L2 & Hk2e). apply wp_bind, wp_gets, wp_bind. eapply wp_lift; [exact L2 |].
  destruct (reasm_sock_ok c limit syscall_len k2 id) as (k3 & send & -> & B1 & B2 & B3 & B4 & B5 & B6 & B7 & B8 & B9);
    [by apply (mo_sock K w2 Hw2 key) | done | done |].
  apply wp_bind, wp_sock_write; [| done |].
  { intros k0 Hk0. rewrite L2 in Hk0. by injection Hk0 as <-. }
  intros w3 Hw3 Hw3e. assert (w_sock w3 !! key = Some k3) as L3.
  { rewrite Hw3e. cbn. by rewrite lookup_alter_eq, L2. }
  assert (s_uid k2 = s_uid k /\ s_l7_proto k2 = s_l7_proto k1 /\ own_trace_id k2 c id = own_trace_id k c id /\
    reasm_send k2 (c_is_reasm_seg c) limit syscall_len = reasm_send k (c_is_reasm_seg c) limit syscall_len) as (C1 & C2 & C3 & C4).
  { unfold own_trace_id, reasm_send. clearbody k1. destruct Hk2e as [-> | [Hd ->]]; cbn; [by rewrite A3, A5, A6 |]. by rewrite Hd, A5, A6. }
  apply wp_ret. cbn [sub_uid sub_allow sub_seq sub_trace_id sub_reasm_bytes]. split_and!; try done; try lia.
  - eapply sock_only_trans; [exact S1 |]. eapply sock_only_trans; [exact S2 |]. rewrite Hw3e. apply sock_only_alter.
  - exists k3. split_and!; try done; congruence.
Qed.
End operations.
