(* ===== verification/SubmitLog.v ===== *)
(** * What a submission logs

    The header that [__data_submit] writes into the buffer of events, and the
    theorems on the whole of it: the counters of the maps stay exact, socket
    identifiers stay unique, the reference count of the buffer is balanced, and
    the log of events grows by the event of the message. *)

From S2P Require Import Prelude Bitmap Conn Iovec InferBase World Output Goroutine KernelObjects Submit.

(** ** Fields of the header *)

(** A field within the header. *)
Definition fits (f : field) : bool := (f_off f + f_len f <=? HEAD)%nat.

Lemma vput_bytes_length f b v :
  fits f = true -> length v = HEAD -> length (vput_bytes f b v) = HEAD.
Proof.
  intros Hf%Nat.leb_le Hv. unfold vput_bytes.
  rewrite !length_app, !length_take, length_app, !length_drop. lia.
Qed.

Lemma vput_bytes_ok f b v : bytes_ok b -> bytes_ok v -> bytes_ok (vput_bytes f b v).
Proof.
  intros Hb Hv. unfold vput_bytes. apply Forall_app. split; [by apply Forall_take |].
  apply Forall_app. split; [| by apply Forall_drop]. apply Forall_take, Forall_app.
  split; [done | by apply Forall_drop].
Qed.

(** Writing one field does not change another. *)
Lemma vbytes_put_ne f g b v :
  disjoint f g = true -> fits f = true -> fits g = true -> length v = HEAD ->
  vbytes f (vput_bytes g b v) = vbytes f v.
Proof.
  intros Hd Hf%Nat.leb_le Hg%Nat.leb_le Hv. unfold vbytes, vput_bytes.
  apply orb_true_iff in Hd as [Hd | Hd]; apply Nat.leb_le in Hd.
  - rewrite drop_app_le by (rewrite length_take; lia). rewrite take_app_le by (rewrite length_drop, length_take; lia).
    rewrite skipn_firstn_comm, take_take. f_equal. lia.
  - rewrite drop_app_ge by (rewrite length_take; lia). rewrite length_take, Nat.min_l by lia.
    assert (length (take (f_len g) (b ++ drop (f_off g + length b) v)) = f_len g) as Hl
      by (rewrite length_take, length_app, length_drop; lia).
    rewrite drop_app_ge by lia. rewrite Hl, drop_drop. do 2 f_equal. lia.
Qed.

Lemma vget_put_ne f g b v :
  disjoint f g = true -> fits f = true -> fits g = true -> length v = HEAD ->
  vget f (vput_bytes g b v) = vget f v.
Proof. intros. unfold vget. by rewrite vbytes_put_ne. Qed.

Lemma vget_put_eq f x v :
  fits f = true -> length v = HEAD -> vget f (vput f x v) = x mod 2 ^ (8 * Z.of_nat (f_len f)).
Proof. intros Hf%Nat.leb_le Hv. apply vget_vput. rewrite Hv. lia. Qed.

(** A header: its length and that it is bytes. *)
Definition hdr (v : list Z) : Prop := length v = HEAD /\ bytes_ok v.

Lemma hdr_put_bytes f b v : fits f = true -> bytes_ok b -> hdr v -> hdr (vput_bytes f b v).
Proof. intros Hf Hb [H1 H2]. split; [by apply vput_bytes_length | by apply vput_bytes_ok]. Qed.
Lemma hdr_put f x v : fits f = true -> hdr v -> hdr (vput f x v).
Proof. intros Hf Hv. apply hdr_put_bytes; [done | apply le_bytes_ok | done]. Qed.
Lemma hdr_len v : hdr v -> length v = HEAD.
Proof. by intros []. Qed.
Create HintDb header.
#[export] Hint Resolve hdr_put hdr_put_bytes : header.
#[export] Hint Extern 1 (fits _ = true) => reflexivity : header.

Lemma hdr_direction x v : hdr v -> hdr (vput_direction x v).
Proof. intros. unfold vput_direction. auto with header. Qed.
Lemma hdr_is_tls x v : hdr v -> hdr (vput_is_tls x v).
Proof. intros. unfold vput_is_tls. auto with header. Qed.
Lemma hdr_msg_type x v : hdr v -> hdr (vput_msg_type x v).
Proof. intros. unfold vput_msg_type. auto with header. Qed.
#[export] Hint Resolve hdr_direction hdr_is_tls hdr_msg_type : header.

(** Writing to [f] keeps [g]. *)
Definition apart (g f : field) : bool := disjoint g f && fits g && fits f.

Lemma keep_bytes g f b v : apart g f = true -> hdr v -> vget g (vput_bytes f b v) = vget g v.
Proof. intros [[H1 H2]%andb_true_iff H3]%andb_true_iff [Hv _]. by apply vget_put_ne. Qed.
Lemma keep_put g f x v : apart g f = true -> hdr v -> vget g (vput f x v) = vget g v.
Proof. apply keep_bytes. Qed.
Lemma keep_direction g x v : apart g v_bits = true -> hdr v -> vget g (vput_direction x v) = vget g v.
Proof. apply keep_put. Qed.
Lemma keep_msg_type g x v : apart g v_bits = true -> hdr v -> vget g (vput_msg_type x v) = vget g v.
Proof. apply keep_put. Qed.
Lemma keep_is_tls g x v : apart g v_bits = true -> hdr v -> vget g (vput_is_tls x v) = vget g v.
Proof. apply keep_put. Qed.

(** ** The bits of a byte that three bit fields share *)

Lemma bits_range v : hdr v -> 0 <= vget v_bits v < 256.
Proof.
  intros [Hv Hb]. assert (length (vbytes v_bits v) = 1%nat) as Hl.
  { unfold vbytes. rewrite length_take, length_drop, Hv. simpl. lia. }
  pose proof (le_word_bound (vbytes v_bits v)) as H. rewrite Hl in H. apply H.
  by apply Forall_take, Forall_drop.
Qed.

(** The values of [direction], [msg_type] and [is_tls] in a byte. *)
Definition bits_dir (b : Z) : Z := Z.land b 1.
Definition bits_msg (b : Z) : Z := Z.land (Z.shiftr b 1) 63.
Definition bits_tls (b : Z) : Z := Z.shiftr b 7.
Definition bits_are (b d m t : Z) : bool := (bits_dir b =? d) && (bits_msg b =? m) && (bits_tls b =? t).

Definition bits_check (b : Z) : bool :=
  forallb (fun x => bits_are (Z.lor (Z.land b 254) x mod 256) x (bits_msg b) (bits_tls b)) (seqZ 0 2) &&
  forallb (fun x => bits_are (Z.lor (Z.land b 129) (Z.shiftl x 1) mod 256) (bits_dir b) x (bits_tls b)) (seqZ 0 64) &&
  forallb (fun x => bits_are (Z.lor (Z.land b 127) (Z.shiftl x 7) mod 256) (bits_dir b) (bits_msg b) x) (seqZ 0 2).
Lemma bits_checked : forallb bits_check (seqZ 0 256) = true.
Proof. by vm_compute. Qed.

Lemma bits_written b : 0 <= b < 256 ->
  (forall x, 0 <= x < 2 -> bits_are (Z.lor (Z.land b 254) x mod 256) x (bits_msg b) (bits_tls b) = true) /\
  (forall x, 0 <= x < 64 -> bits_are (Z.lor (Z.land b 129) (Z.shiftl x 1) mod 256) (bits_dir b) x (bits_tls b) = true) /\
  (forall x, 0 <= x < 2 -> bits_are (Z.lor (Z.land b 127) (Z.shiftl x 7) mod 256) (bits_dir b) (bits_msg b) x = true).
Proof.
  intros Hb. assert (bits_check b = true) as H.
  { eapply forallb_forall; [exact bits_checked |]. apply list_elem_of_In, elem_of_seqZ. lia. }
  unfold bits_check in H. rewrite !andb_true_iff, !forallb_forall in H. destruct H as [[H1 H2] H3].
  split_and!; intros x Hx; [apply H1 | apply H2 | apply H3]; rewrite <- list_elem_of_In, elem_of_seqZ; lia.
Qed.

(** The three writes on a header. *)
Lemma put_bits v : hdr v ->
  (forall x, 0 <= x < 2 -> bits_are (vget v_bits (vput_direction x v)) x (vget_msg_type v) (bits_tls (vget v_bits v)) = true) /\
  (forall x, 0 <= x < 64 -> bits_are (vget v_bits (vput_msg_type x v)) (bits_dir (vget v_bits v)) x (bits_tls (vget v_bits v)) = true) /\
  (forall x, 0 <= x < 2 -> bits_are (vget v_bits (vput_is_tls x v)) (bits_dir (vget v_bits v)) (vget_msg_type v) x = true).
Proof.
  intros Hv. destruct (bits_written (vget v_bits v) (bits_range v Hv)) as (H1 & H2 & H3). destruct Hv as [Hv _].
  assert (forall x n, 0 <= x < 2 ^ n -> 0 <= n -> Z.land x (Z.ones n) = x) as Hland
    by (intros; rewrite Z.land_ones, Z.mod_small; done).
  unfold vput_direction, vput_msg_type, vput_is_tls, vget_msg_type.
  split_and!; intros x Hx; rewrite vget_put_eq by done; change (2 ^ (8 * Z.of_nat (f_len v_bits))) with 256.
  - pose proof (Hland x 1 Hx ltac:(lia)) as Hl. change (Z.ones 1) with 1 in Hl. rewrite Hl. by apply H1.
  - pose proof (Hland x 6 Hx ltac:(lia)) as Hl. change (Z.ones 6) with 63 in Hl. rewrite Hl. by apply H2.
  - pose proof (Hland x 1 Hx ltac:(lia)) as Hl. change (Z.ones 1) with 1 in Hl. rewrite Hl. by apply H3.
Qed.

(** A field that none of the later writes touches keeps its value. *)
Ltac is_hdr := solve [repeat (assumption || first [apply hdr_put | apply hdr_put_bytes | apply hdr_direction
  | apply hdr_is_tls | apply hdr_msg_type | match goal with H : forall v, hdr v -> _ |- _ => apply H end]; try reflexivity)].
Ltac skip_put := lazymatch goal with
  | |- vget _ (vput _ _ _) = _ => rewrite keep_put; [| reflexivity | is_hdr]
  | |- vget _ (vput_bytes _ _ _) = _ => rewrite keep_bytes; [| reflexivity | is_hdr]
  | |- vget _ (vput_direction _ _) = _ => rewrite keep_direction; [| reflexivity | is_hdr]
  | |- vget _ (vput_msg_type _ _) = _ => rewrite keep_msg_type; [| reflexivity | is_hdr]
  | |- vget _ (vput_is_tls _ _) = _ => rewrite keep_is_tls; [| reflexivity | is_hdr]
  end.
Ltac put_value := repeat skip_put; rewrite vget_put_eq; [reflexivity | reflexivity | apply hdr_len; is_hdr].

(** ** The header of a submission *)

(** The sequence number of the first byte that is reported: bytes of an earlier read
    that are carried along lie before the ones of this call. *)
Definition event_seq (c : conn_info) (args : data_args) (source : data_source) : Z :=
  let tcp := l4_protocol (c_tuple c) =? IPPROTO_TCP in
  let seq := if (source =! DATA_SOURCE_GO_TLS_UPROBE) || (source =! DATA_SOURCE_OPENSSL_UPROBE) || tcp
             then da_tcp_seq args else 0 in
  if tcp && (c_protocol c =! PROTO_DNS) && (c_prev_count c =? 2) then u32 (seq - 2)
  else if 0 <? c_prev_count c then u32 (seq - c_prev_count c) else seq.

Section event_header.
Context (E : env) (K : kenv) (HK : kenv_ok K) (Hcomm : bytes_ok (e_comm E).2).

Lemma get_socket_info_hdr o c v v' : get_socket_info K o c v = Some v' -> hdr v -> hdr v'.
Proof.
  intros Hg Hv. unfold get_socket_info in Hg.
  assert (forall a n, bytes_ok (k_read K a n).2) by apply (k_read_bytes K HK).
  repeat case_match; simplify_eq; auto 10 with header.
Qed.

Section fields.
Context (c : conn_info) (args : data_args) (syscall_len : Z) (Hin : input_ok c args syscall_len).

Lemma hdr_tuple v : hdr v -> hdr (put_tuple c args v).
Proof.
  intros Hv. destruct Hin as [_ _ [_ Ha] _]. unfold put_tuple.
  assert (forall n m, bytes_ok (take n (drop m (da_addr args)))) by (intros; by apply Forall_take, Forall_drop).
  assert (forall n, bytes_ok (take n (da_addr args))) by (intros; by apply Forall_take).
  repeat case_match; auto 10 with header.
Qed.

Lemma keep_tuple g v :
  forallb (apart g) [v_l4_protocol; v_dport; v_num; v_data_type; v_daddr; v_addr_len] = true -> hdr v ->
  vget g (put_tuple c args v) = vget g v.
Proof.
  cbn [forallb]. rewrite !andb_true_iff. intros (H1 & H2 & H3 & H4 & H5 & H6 & _) Hv.
  destruct Hin as [_ _ [_ Ha] _].
  assert (forall n m, bytes_ok (take n (drop m (da_addr args)))) by (intros; by apply Forall_take, Forall_drop).
  assert (forall n, bytes_ok (take n (da_addr args))) by (intros; by apply Forall_take).
  unfold put_tuple. repeat case_match; rewrite ?keep_put, ?keep_bytes, ?keep_put by auto 10 with header; done.
Qed.

Lemma hdr_sequence source v : hdr v -> hdr (put_sequence c args source v).
Proof.
  intros Hv. destruct Hin as [[_ Hp] _ _ _]. unfold put_sequence.
  repeat case_match; auto 10 with header.
Qed.

Lemma keep_sequence g source v :
  forallb (apart g) [v_extra_data; v_extra_data_count; v_tcp_seq] = true -> hdr v ->
  vget g (put_sequence c args source v) = vget g v.
Proof.
  cbn [forallb]. rewrite !andb_true_iff. intros (H1 & H2 & H3 & _) Hv. destruct Hin as [[_ Hp] _ _ _].
  unfold put_sequence. repeat case_match; rewrite ?keep_put, ?keep_bytes by auto 10 with header; done.
Qed.

Lemma tuple_values v : hdr v -> let v' := put_tuple c args v in
  vget v_l4_protocol v' = u8 (l4_protocol (c_tuple c)) /\ vget v_dport v' = u16 (dport (c_tuple c)) /\
  vget v_num v' = u16 (num (c_tuple c)) /\ vget v_data_type v' = u16 (proto_num (c_protocol c)).
Proof.
  intros Hv. destruct Hin as [_ _ [_ Ha] _]. unfold put_tuple. cbv zeta.
  assert (forall n m, bytes_ok (take n (drop m (da_addr args)))) by (intros; by apply Forall_take, Forall_drop).
  assert (forall n, bytes_ok (take n (da_addr args))) by (intros; by apply Forall_take).
  set (v1 := vput v_data_type _ _).
  assert (hdr v1 /\ vget v_l4_protocol v1 = u8 (l4_protocol (c_tuple c)) /\ vget v_dport v1 = u16 (dport (c_tuple c)) /\
    vget v_num v1 = u16 (num (c_tuple c)) /\ vget v_data_type v1 = u16 (proto_num (c_protocol c))) as (Hv1 & V).
  { unfold v1. split; [auto 10 with header |].
    split_and!; rewrite ?keep_put by (reflexivity || auto 10 with header);
      (rewrite vget_put_eq; [done | done | apply hdr_len; auto 10 with header]). }
  clearbody v1. repeat case_match; try done.
  all: rewrite !keep_put, !keep_bytes by (reflexivity || auto 10 with header); done.
Qed.
Lemma sequence_value source v : hdr v -> vget v_tcp_seq (put_sequence c args source v) = u32 (event_seq c args source).
Proof.
  intros Hv. destruct Hin as [[_ Hp] _ _ _]. unfold put_sequence, event_seq. destruct (_ && _ && _).
  - cbn [Z.ltb Z.compare]. rewrite vget_put_eq; [done | done | apply hdr_len; auto with header].
  - destruct (Z.ltb_spec 0 (c_prev_count c)); rewrite vget_put_eq; [done | done | apply hdr_len; auto with header | done | done |].
    apply hdr_len; auto with header.
Qed.
End fields.

(** What the header of a message says. *)
Record header_ok (c : conn_info) (args : data_args) (sub : submitted) (role goid syscall_len stamp cap : Z)
    (source : data_source) (v : list Z) : Prop := {
  hd_socket_id : vget v_socket_id v = u64 (sub_uid sub);
  hd_trace_id : vget v_thread_trace_id v = u64 (sub_trace_id sub);
  hd_seq : vget v_data_seq v = u64 (sub_seq sub);
  hd_data_type : vget v_data_type v = u16 (proto_num (c_protocol c));
  hd_syscall_len : vget v_syscall_len v = u64 syscall_len;
  hd_l4 : vget v_l4_protocol v = u8 (l4_protocol (c_tuple c));
  hd_ports : vget v_dport v = u16 (dport (c_tuple c)) /\ vget v_num v = u16 (num (c_tuple c));
  hd_task : vget v_tgid v = u32 (cur_tgid E) /\ vget v_pid v = u32 (cur_pid E);
  hd_fd : vget v_fd v = u32 (da_fd args);
  hd_times : vget v_timestamp v = u64 stamp /\ vget v_cap_timestamp v = u64 cap;
  hd_goid : vget v_coroutine_id v = u64 goid;
  hd_role : vget v_socket_role v = u8 role;
  hd_source : vget v_source v =
    u8 (source_num (if c_sk_type c =? SOCK_UNIX then DATA_SOURCE_UNIX_SOCKET else source));
  hd_tcp_seq : vget v_tcp_seq v = u32 (event_seq c args source);
  hd_bits : bits_are (vget v_bits v) (dir_num (c_direction c))
    (msg_num (event_msg_type (sub_allow sub) (c_is_reasm_seg c))) 0 = true }.

Ltac skip1 := lazymatch goal with
  | |- vget v_tcp_seq (put_sequence _ _ _ _) = _ => fail
  | |- vget _ (put_sequence _ _ _ _) = _ => erewrite keep_sequence; [| eassumption | reflexivity | is_hdr]
  | |- vget _ (put_tuple _ _ _) = _ => erewrite keep_tuple; [| eassumption | reflexivity | is_hdr]
  | _ => skip_put
  end.
Ltac field_value := repeat skip1; first [assumption | put_value |
  match goal with H : forall v, hdr v -> vget v_tcp_seq _ = _ |- _ => apply H; is_hdr end].

Lemma bits_pipeline d m v0 v2 v4 :
  0 <= d < 2 -> 0 <= m < 64 -> hdr v0 -> hdr v2 -> hdr v4 ->
  vget v_bits v2 = vget v_bits (vput_is_tls 0 v0) -> vget v_bits v4 = vget v_bits (vput_direction d v2) ->
  bits_are (vget v_bits (vput_msg_type m v4)) d m 0 = true.
Proof.
  intros Hd Hm H0 H2 H4 E2 E4. destruct (put_bits v0 H0) as (_ & _ & T). specialize (T 0 ltac:(lia)).
  destruct (put_bits v2 H2) as (D & _). specialize (D d Hd). destruct (put_bits v4 H4) as (_ & M & _). specialize (M m Hm).
  rewrite <- E2 in T. rewrite <- E4 in D. unfold bits_are in *. rewrite !andb_true_iff, !Z.eqb_eq in *.
  destruct T as [[_ _] T], D as [[D1 _] D2], M as [[M1 M2] M3]. split_and!; congruence.
Qed.

Lemma put_event_ok c args sub role goid syscall_len stamp cap source v :
  input_ok c args syscall_len -> hdr v ->
  let v' := put_event E c args sub role goid syscall_len stamp cap source v in
  hdr v' /\ header_ok c args sub role goid syscall_len stamp cap source v'.
Proof.
  intros Hin Hv. unfold put_event. cbv zeta.
  pose proof (hdr_tuple c args syscall_len Hin) as Ht. pose proof (hdr_sequence c args syscall_len Hin source) as Hq.
  destruct (tuple_values c args syscall_len Hin v Hv) as (T1 & T2 & T3 & T4).
  pose proof (sequence_value c args syscall_len Hin source) as Hs. split; [is_hdr |].
  constructor; lazymatch goal with |- _ /\ _ => split; field_value | |- vget _ _ = _ => field_value | _ => idtac end.
  lazymatch goal with |- bits_are ?b _ _ _ = true => eassert (b = _) as -> by (repeat skip1; reflexivity) end.
  eapply bits_pipeline.
  7: { repeat skip1. reflexivity. }
  6: { repeat skip1. reflexivity. }
  all: try is_hdr.
  - destruct (c_direction c); simpl; lia.
  - unfold event_msg_type. repeat case_match; simpl; lia.
Qed.

Lemma header_data_len c args sub role goid syscall_len stamp cap source v n :
  hdr v -> header_ok c args sub role goid syscall_len stamp cap source v ->
  header_ok c args sub role goid syscall_len stamp cap source (vput v_data_len n v).
Proof.
  intros Hv []. by constructor; rewrite ?keep_put.
Qed.

(** Writing a header at the end of the buffer. *)
Lemma header_written b pend v :
  holds b pend -> roomy b -> hdr v -> exists data,
    write_at (b_data b) (b_len b) v = Some data /\ holds (b <| b_data := data |>) pend /\
    slice data (b_len b) HEAD = Some v.
Proof.
  intros Hh Hr [Hv Hvb]. unfold roomy in Hr. pose proof (h_size b pend Hh) as Hsz. pose proof (h_len b pend Hh) as Hl.
  unfold SD_SIZE, SD_HEAD, BUF_DATA, BURST_DATA_BUF_SIZE in *.
  destruct (write_at_ok (b_data b) (b_len b) v) as (data & Hd & L1 & L2); [lia | rewrite Hv; lia |].
  assert (length (take (Z.to_nat (b_len b)) (b_data b)) = Z.to_nat (b_len b)) as Htl by (rewrite length_take; lia).
  exists data. split; [done |]. split.
  - destruct Hh as [H1 H2 H3 H4 H5 H6]. constructor; cbn [b_data b_len b_events_num set]; try done.
    + by rewrite L1.
    + rewrite L2. apply Forall_app. split; [by apply Forall_take |]. apply Forall_app. split; [done | by apply Forall_drop].
    + rewrite L2, take_app_le by lia. rewrite Hl, Nat2Z.id, take_take, Nat.min_id. done.
  - rewrite L2. replace (b_len b) with (Z.of_nat (length (take (Z.to_nat (b_len b)) (b_data b)))) at 3 by lia.
    by apply slice_app.
Qed.

(** The bytes that a message puts into its event. *)
Lemma push_len_le n limit r : 0 <= n < 2 ^ 32 -> 0 <= limit < 2 ^ 32 -> 0 <= r <= n -> push_len n (s32 limit) r <= n.
Proof.
  intros Hn Hl Hr. unfold push_len. destruct (Z.ltb_spec 0 r); [lia |].
  destruct (Z.lt_ge_cases limit (2 ^ 31)).
  - rewrite (swrap_small 32), (wrap_small 64) by lia. destruct (Z.ltb_spec limit n); rewrite wrap_small; lia.
  - assert (s32 limit = limit - 2 ^ 32) as ->.
    { unfold swrap. rewrite wrap_small by lia. destruct (Z.ltb_spec limit (2 ^ (32 - 1))); lia. }
    assert (u64 (limit - 2 ^ 32) = limit - 2 ^ 32 + 2 ^ 64) as ->.
    { unfold wrap. rewrite <- (Z_mod_plus_full _ 1), Z.mod_small; lia. }
    destruct (Z.ltb_spec (limit - 2 ^ 32 + 2 ^ 64) n); [lia |]. rewrite wrap_small; lia.
Qed.
End event_header.

(** ** Output of the event *)

Section emit.
Context {X : Counting} (E : env) (K : kenv) (HE : env_ok E) (HK : kenv_ok K) (Hcomm : bytes_ok (e_comm E).2).

(** [cache_update] as a function of the state. *)
Definition cache_after (p : traffic_protocol) (w : world) : Z -> option (Z -> traffic_protocol) := fun key =>
  let cache_key := Z.shiftr (cur_pid E) 16 in
  if (cache_key <? PROTO_INFER_CACHE_SIZE) && (key =? cache_key)
  then (fun f idx => if idx =? u16 (cur_pid E) then p else f idx) <$> w_cache w key else w_cache w key.

Lemma wp_cache_update p w Q :
  (forall w', w_cache w' = cache_after p w \/ w_cache w' = w_cache w ->
     w' = w <| w_cache := w_cache w' |> -> (forall key, w_cache w' key = cache_after p w key) -> Q tt w') ->
  wp (cache_update E p) w Q.
Proof.
  intros HQ. unfold cache_update, cache_after in *. destruct (_ <? _).
  - apply wp_modify, HQ; try done. by left.
  - apply wp_ret, HQ; try done; [by right | by destruct w].
Qed.

(** How many bytes of a message of [syscall_len] bytes its event may have: the limit
    of the configuration or, for a segment of a message under reassembly, what is left
    of it. *)
Definition event_limit (sk : option socket_info) (is_reasm_seg : bool) (limit syscall_len : Z) : Z :=
  push_len syscall_len (s32 limit)
    (match sk with
     | Some k => if is_socket_info_valid sk && is_reasm_seg then reasm_send k true limit syscall_len else 0
     | None => 0
     end).

(** The header says that the message is a segment of one under reassembly. *)
Definition is_segment (v : list Z) : bool := bits_msg (vget v_bits v) =? msg_num MSG_REASM_SEG.

(** Where the next event goes in the buffer. *)
Definition buf_len (w : world) : Z := match w_buf w with Some b => b_len b | None => 0 end.

(** What a submission in [w] adds to the log [evs]: the events for a header [v] that
    describes the message, at most [L] bytes each. *)
Definition log_grows (c : conn_info) (args : data_args) (sub : submitted) (role goid syscall_len time_stamp : Z)
    (x : extra_args) (L : Z) (w : world) (evs : list (list Z * list Z)) (w' : world) : Prop :=
  exists v, hdr v /\ header_ok E c args sub role goid syscall_len
      (if c_direction c =! T_INGRESS then k_ktime K 0 else time_stamp)
      (k_ktime K (if c_direction c =! T_INGRESS then 1%nat else 0%nat)) (x_source x) v /\
    0 <= L <= syscall_len /\
    logged w' (evs ++ new_events E K (w_io w) (Some args) (x_vecs x) v L (buf_len w) false).

(** A header that is put at the end of the buffer and output: the buffer and the
    reference count are all that changes, and the log grows by its event at most. *)
Lemma header_output_ok args vecs max_size is_close reasm now w b sent pend v t :
  logged_in w b sent pend -> roomy b -> hdr v -> vget_msg_type v <> 0 -> 0 <= reasm < 2 ^ 32 -> w_ctx w = Some t ->
  let L := push_len (vget v_syscall_len v) max_size reasm in
  exists data, write_at (b_data b) (b_len b) v = Some data /\
  wp (__output_data_common E K args vecs max_size is_close reasm now) (w <| w_buf := Some (b <| b_data := data |>) |>)
    (fun _ w' => w_sock w' = w_sock w /\ w_role w' = w_role w /\ w_trace w' = w_trace w /\ w_seqmap w' = w_seqmap w /\
       w_cache w' = w_cache w /\ w_stats w' = w_stats w /\ w_fixed w' = w_fixed w /\
       ctx_core <$> w_ctx w' = Some (ctx_core (t <| t_push_buffer_refcnt := s32 (t_push_buffer_refcnt t + -1) |>)) /\
       logged w' ((concat sent ++ pend) ++ new_events E K (w_io w) args vecs v L (b_len b) is_close)).
Proof.
  intros [Hb Hh Hnum Hs Hio] Hroom Hv Hm Hr Ht L. destruct (header_written b pend v Hh Hroom Hv) as (data & Hd & Hh' & Hsl).
  exists data. split; [done |]. set (w1 := w <| w_buf := _ |>). unfold __output_data_common. apply wp_bind. eapply wp_mono.
  { by apply (output_event_ok E K HE HK args vecs max_size is_close reasm now w1 (b <| b_data := data |>) pend sent v). }
  intros [] w2 ([F1 F2 F3 F4 F5 F6 F7 F8] & Hlog). apply wp_modify.
  cbn [w_sock w_role w_trace w_seqmap w_stats w_cache w_ctx set]. split_and!; try done.
  - change (w_ctx w1) with (w_ctx w) in F7. rewrite Ht in F7. destruct (w_ctx w2) as [t2 |]; [| done].
    unfold ctx_core in *. cbn in *. congruence.
  - by apply (logged_same w2).
Qed.

Lemma data_source_num s : u8 (source_num s) = source_num DATA_SOURCE_IO_EVENT -> s = DATA_SOURCE_IO_EVENT.
Proof. by destruct s. Qed.

Lemma emit_event_ok conn_key c args syscall_len time_stamp goid x limit v sub w b sent pend t :
  input_ok c args syscall_len -> 0 <= limit < 2 ^ 32 -> 0 <= sub_reasm_bytes sub <= syscall_len ->
  hdr v -> logged_in w b sent pend -> roomy b -> w_ctx w = Some t ->
  wp (emit_event E K conn_key c args syscall_len time_stamp goid x limit v sub) w (fun r w' =>
    r = SUBMIT_OK /\ w_sock w' = w_sock w /\ w_trace w' = w_trace w /\ w_role w' = w_role w /\
    w_stats w' = w_stats w /\ (forall key, w_cache w' key = cache_after (c_protocol c) w key) /\
    ctx_core <$> w_ctx w' = Some (ctx_core (t <| t_push_buffer_refcnt := s32 (t_push_buffer_refcnt t + -1) |>)) /\
    w_fixed w' = w_fixed w /\
    log_grows c args sub (default 0 (w_role w !! conn_key)) goid syscall_len time_stamp x
      (push_len syscall_len (s32 limit) (if sub_allow sub && negb (c_is_reasm_seg c) then 0 else sub_reasm_bytes sub))
      w (concat sent ++ pend) w').
Proof.
  intros Hin Hl Hr Hv [Hb Hh Hnum Hs Hio] Hroom Ht. unfold emit_event.
  apply wp_bind, wp_gets. set (stamp := if c_direction c =! T_INGRESS then k_ktime K 0 else time_stamp). set (cap := k_ktime K (if c_direction c =! T_INGRESS then 1%nat else 0%nat)).
  set (role := default 0 _). set (reasm := if sub_allow sub && negb (c_is_reasm_seg c) then 0 else sub_reasm_bytes sub).
  set (v' := put_event _ _ _ _ _ _ _ _ _ _ v).
  destruct (put_event_ok E Hcomm c args sub role goid syscall_len stamp cap (x_source x) v Hin Hv) as [Hv' Hhd].
  fold v' in Hv', Hhd. clearbody v'. destruct (header_written b pend v' Hh Hroom Hv') as (data & Hd & Hh' & Hsl).
  apply wp_bind, wp_gets, wp_bind. eapply wp_lift; [exact Hb |]. apply wp_bind. eapply wp_lift; [exact Hd |].
  apply wp_bind, wp_modify, wp_bind, wp_cache_update. intros w1 _ Hw1 Hc1. cbn [w_cache set] in Hc1.
  apply wp_bind. unfold __output_data_common. apply wp_bind.
  pose proof (in_len c args syscall_len Hin) as Hn. assert (0 <= reasm <= syscall_len) as Hre by (unfold reasm; case_match; lia).
  pose proof (hd_syscall_len _ _ _ _ _ _ _ _ _ _ _ Hhd) as Hsy. rewrite wrap_small in Hsy by lia.
  eapply wp_mono.
  { apply (output_event_ok E K HE HK (Some args) (x_vecs x) (s32 limit) false reasm (k_ktime K _) w1
      (b <| b_data := data |>) pend sent v'); try done; try lia.
    - rewrite Hw1. by constructor.
    - pose proof (hd_bits _ _ _ _ _ _ _ _ _ _ _ Hhd) as Hbits. unfold bits_are in Hbits.
      rewrite !andb_true_iff, !Z.eqb_eq in Hbits. destruct Hbits as [[_ Hm] _]. unfold vget_msg_type.
      unfold bits_msg in Hm. rewrite Hm. unfold event_msg_type. by repeat case_match.
  }
  rewrite Hsy. intros [] w2 (F & Hlog). apply wp_modify, wp_ret. destruct F as [F1 F2 F3 F4 F5 F6 F7 F8].
  assert (w_sock w1 = w_sock w /\ w_role w1 = w_role w /\ w_trace w1 = w_trace w /\ w_stats w1 = w_stats w /\ w_ctx w1 = w_ctx w /\ w_fixed w1 = w_fixed w)
    as (G1 & G2 & G3 & G4 & G5 & G6) by (by rewrite Hw1).
  cbn [w_sock w_role w_trace w_stats w_cache w_ctx set]. split_and!; try congruence.
  - intros key. by rewrite F5, Hc1.
  - rewrite G5, Ht in F7. destruct (w_ctx w2) as [t2 |]; [| done]. unfold ctx_core in *. cbn in *. congruence.
  - rewrite <- G6, <- F8. done.
  - exists v'. unfold buf_len. rewrite Hb. split_and!; try done.
    + apply push_len_range. lia.
    + by apply push_len_le.
    + apply (logged_same w2); try done. assert (w_io w1 = w_io w) as Hi by (by rewrite Hw1). by rewrite Hi in Hlog.
Qed.

(** What the event carries from the entry of its socket. *)
Definition carries (sk : option socket_info) (c : conn_info) (limit syscall_len : Z) (sub sub' : submitted) : Prop :=
  match sk with
  | Some k => if is_socket_info_valid sk
              then sub_uid sub' = s_uid k /\ sub_allow sub' = s_allow_reassembly k /\
                   sub_seq sub' = u64 (s_seq k + 1) /\ sub_trace_id sub' = own_trace_id k c (sub_trace_id sub) /\
                   sub_reasm_bytes sub' = reasm_send k (c_is_reasm_seg c) limit syscall_len
              else sub' = sub
  | None => sub' = sub
  end.

(** The reference count of the buffer is an [int]. *)
Definition refcnt_typed (w : world) : Prop :=
  forall t, w_ctx w = Some t -> - 2 ^ 31 <= t_push_buffer_refcnt t < 2 ^ 31.
Lemma refcnt_back r : - 2 ^ 31 <= r < 2 ^ 31 -> s32 (s32 (r + 1) + -1) = r.
Proof.
  intros Hr. destruct (Z.eq_dec r (2 ^ 31 - 1)) as [-> | ?]; [done |].
  rewrite (swrap_small 32 (r + 1)), swrap_small by lia. lia.
Qed.

Lemma fixed_io w w' : w_fixed w' = w_fixed w -> w_io w' = w_io w.
Proof. unfold w_fixed. congruence. Qed.
Lemma logged_quiet w w' evs : w_quiet w w' -> logged w evs -> logged w' evs.
Proof. intros []. apply logged_same; try done. by apply fixed_io. Qed.

(** The entry of the socket as the event takes it. *)
Lemma entry_step (HC : caps_ok K) key sk c limit syscall_len time_stamp x sub w :
  maps_ok K w -> (is_socket_info_valid sk = true -> w_sock w !! key = sk) ->
  0 <= syscall_len < 2 ^ 32 -> 0 <= limit < 2 ^ 32 -> 0 <= sub_reasm_bytes sub <= syscall_len ->
  wp (match sk with
      | Some k => if is_socket_info_valid sk
                  then update_socket E key k c limit syscall_len time_stamp x (sub_trace_id sub)
                  else mret sub
      | None => mret sub
      end) w (fun sub' w' => maps_ok K w' /\ sock_only key w w' /\ carries sk c limit syscall_len sub sub' /\
                             0 <= sub_reasm_bytes sub' <= syscall_len /\ (is_socket_info_valid sk = false -> w' = w)).
Proof.
  intros Hw Hsk Hn Hl Hr. destruct sk as [k |]; [| by apply wp_ret]. unfold carries.
  destruct (is_socket_info_valid (Some k)); [| by apply wp_ret].
  eapply wp_mono; [apply (update_socket_ok E K); auto |].
  intros sub' w' (U1 & U2 & U3 & U4 & U5 & U6 & U7 & U8 & _). split_and!; try done; lia.
Qed.

(** The limit on the event, from what it carries. *)
Lemma carried_limit sk c limit syscall_len sub sub' : sub_reasm_bytes sub = 0 -> carries sk c limit syscall_len sub sub' ->
  push_len syscall_len (s32 limit) (if sub_allow sub' && negb (c_is_reasm_seg c) then 0 else sub_reasm_bytes sub') =
  event_limit sk (sub_allow sub' && c_is_reasm_seg c) limit syscall_len.
Proof.
  intros Hs. unfold carries, event_limit. destruct sk as [k |]; [destruct (is_socket_info_valid (Some k)) |].
  - intros (_ & -> & _ & _ & ->). destruct (s_allow_reassembly k) eqn:Ha, (c_is_reasm_seg c); cbn [andb negb]; try done;
      unfold reasm_send; by rewrite Ha.
  - intros ->. rewrite Hs. by destruct (_ && _).
  - intros ->. rewrite Hs. by destruct (_ && _).
Qed.

Lemma submit_event_ok (HC : caps_ok K) key sk c args syscall_len time_stamp goid x limit sub w evs t :
  maps_ok K w -> (is_socket_info_valid sk = true -> w_sock w !! key = sk) ->
  input_ok c args syscall_len -> 0 <= limit < 2 ^ 32 ->
  sub_reasm_bytes sub = 0 -> logged w evs -> w_ctx w = Some t -> refcnt_typed w ->
  wp (submit_event E K key sk c args syscall_len time_stamp goid x limit sub) w (fun r w' =>
    maps_ok K w' /\ w_trace w' = w_trace w /\ w_role w' = w_role w /\ w_stats w' = w_stats w /\
    ctx_core <$> w_ctx w' = Some (ctx_core t) /\ w_fixed w' = w_fixed w /\
    (is_socket_info_valid sk = false -> w_sock w' = w_sock w) /\
    (r = SUBMIT_INVALID /\ logged w' evs /\ w_cache w' = w_cache w \/
     r = SUBMIT_OK /\ exists sub', carries sk c limit syscall_len sub sub' /\
       (forall p, w_cache w' p = cache_after (c_protocol c) w p) /\
       log_grows c args sub' (default 0 (w_role w !! key)) goid syscall_len time_stamp x
         (event_limit sk (sub_allow sub' && c_is_reasm_seg c) limit syscall_len) w evs w')).
Proof.
  intros Hw Hsk Hin Hl Hr Hlog Ht Href. unfold submit_event.
  pose proof Hlog as (b & sent & pend & Hli & Hevs). pose proof Hli as [Hb Hh _ _ _].
  apply wp_bind, wp_gets. rewrite Hb. apply wp_bind, wp_modify. rewrite Ht. cbn [fmap option_fmap option_map].
  set (t1 := t <| t_push_buffer_refcnt := _ |>). set (w1 := w <| w_ctx := Some t1 |>).
  pose proof (refcnt_back _ (Href t Ht)) as Hback.
  assert (maps_ok K w1) as Hw1.
  { eapply maps_ok_same; [| exact Hw]. constructor; try done. cbn. by rewrite Ht. }
  assert (logged w1 evs) as Hlog1 by (by apply (logged_same w)).
  assert (forall w2, w2 = w1 <| w_ctx := Some (t1 <| t_push_buffer_refcnt := s32 (t_push_buffer_refcnt t1 + -1) |>) |> ->
    maps_ok K w2 /\ w_trace w2 = w_trace w /\ w_role w2 = w_role w /\ ctx_core <$> w_ctx w2 = Some (ctx_core t) /\ logged w2 evs) as Hback2.
  { intros w2 ->. split_and!; try done; [| | by apply (logged_same w)].
    - eapply maps_ok_same; [| exact Hw1]. by constructor.
    - cbn. unfold ctx_core. cbn. by rewrite Hback. }
  destruct (Z.ltb_spec (BUF_DATA - SD_SIZE) (b_len b)) as [_ | Hroom].
  { apply wp_bind, wp_modify, wp_ret. edestruct Hback2 as (B1 & B2 & B3 & B4 & B5); [reflexivity |]. split_and!; try done. by left. }
  destruct (slice (b_data b) (b_len b) HEAD) as [v |] eqn:Hv.
  2: { unfold slice in Hv. pose proof (h_size b pend Hh). pose proof (h_len b pend Hh).
       unfold SD_SIZE, SD_HEAD, BUF_DATA, BURST_DATA_BUF_SIZE in *.
       destruct (Z.leb_spec 0 (b_len b)), (Z.leb_spec (b_len b + Z.of_nat HEAD) (Z.of_nat (length (b_data b)))); done || lia. }
  apply wp_bind. eapply wp_lift; [reflexivity |]. apply slice_Some in Hv as (_ & _ & Hve & Hvl).
  assert (hdr v) as Hhv by (split; [done | subst v; apply Forall_take, Forall_drop, (h_bytes b pend Hh)]).
  apply wp_bind, wp_gets. destruct (get_socket_info K (w_offset w1) c v) as [v1 |] eqn:Hg.
  2: { apply wp_bind, wp_modify, wp_ret. edestruct Hback2 as (B1 & B2 & B3 & B4 & B5); [reflexivity |]. split_and!; try done. by left. }
  apply (get_socket_info_hdr K HK) in Hg; [| done]. apply wp_bind.
  eapply wp_mono; [apply (entry_step HC key sk c limit syscall_len time_stamp x sub w1); try done; [apply Hin | rewrite Hr; destruct Hin; lia] |].
  intros sub' w2 (Hw2 & [Q2 T2 R2 C2 S2 _] & Hcar & Hr' & Hsame).
  change (w_stats w1) with (w_stats w) in S2. change (w_trace w1) with (w_trace w) in T2. change (w_role w1) with (w_role w) in R2.
  eapply wp_mono.
  { apply (emit_event_ok key c args syscall_len time_stamp goid x limit v1 sub' w2 b sent pend t1); try done.
    destruct Hli. pose proof (fixed_io _ _ (q_fixed _ _ Q2)) as Hi. constructor; try done.
    - by rewrite (q_buf _ _ Q2).
    - eapply delivered_same; [apply Q2 |]. done.
    - by rewrite Hi. }
  intros r w3 (-> & G1 & G2 & G3 & G4 & G5 & G6 & G8 & G7). rewrite <- Hevs in G7.
  assert (ctx_core <$> w_ctx w3 = Some (ctx_core t)) as Hc3.
  { rewrite G6. unfold ctx_core. cbn. by rewrite Hback. }
  split_and!; try done; try congruence.
  - eapply maps_ok_same; [| exact Hw2]. constructor; try congruence. rewrite C2. cbn.
    destruct (w_ctx w3); [| done]. unfold ctx_core in Hc3. cbn in Hc3 |- *. congruence.
  - rewrite G8. exact (q_fixed _ _ Q2).
  - intros Hv'. by rewrite G1, (Hsame Hv').
  - right. split; [done |]. exists sub'. split; [done |]. rewrite R2, (carried_limit sk c limit syscall_len sub sub' Hr Hcar) in G7.
    split; [intros p; rewrite G5; unfold cache_after; by rewrite (q_cache _ _ Q2) |].
    unfold log_grows, buf_len in *. rewrite (q_buf _ _ Q2), (fixed_io _ _ (q_fixed _ _ Q2)) in G7. exact G7.
Qed.
End emit.

(** ** [__data_submit] *)

Section data_submit.
Context {X : Counting} (E : env) (K : kenv) (HE : env_ok E) (HK : kenv_ok K) (HC : caps_ok K) (Hcomm : bytes_ok (e_comm E).2).

(** The connection with tracing switched off when the tracer says so, and the
    key of the thread. *)
Definition submit_conn (ctx : tracer_ctx) (c : conn_info) : conn_info :=
  if t_disable_tracing ctx then c <| c_no_trace := true |> else c.
Definition find_key (ctx : tracer_ctx) (c : conn_info) : W trace_key :=
  if c_no_trace c then mret (mk_key 0 0 0) else get_trace_key E K (t_go_tracing_timeout ctx) true.
Definition submit_key (ctx : tracer_ctx) (c : conn_info) (w : world) : trace_key :=
  match find_key ctx c w with Some (key, _) => key | None => mk_key 0 0 0 end.

Lemma find_key_run ctx c w : exists g,
  find_key ctx c w = Some (submit_key ctx c w, w <| w_go := g |>) /\ go_frame (w_go w) g.
Proof.
  assert (w = w <| w_go := w_go w |>) as Hw by (by destruct w).
  unfold submit_key, find_key. destruct (c_no_trace c); [exists (w_go w); by rewrite <- Hw |].
  unfold get_trace_key, mbind, M_bind. destruct (t_go_tracing_timeout ctx =? 0); [exists (w_go w); by rewrite <- Hw |].
  destruct (get_rw_goid_run E K (u64 (t_go_tracing_timeout ctx * NS_PER_SEC)) true w) as (r & g & -> & Hg). by exists g.
Qed.

(** The effect of a message on the map of traces, and the identifier [id] it
    gets there: a message that comes in opens a trace, or goes on with the one
    of its thread; a message that goes out takes the trace of its thread and
    closes it, unless it is to be kept. *)
Definition trace_effect (is_traced : bool) (c : conn_info) (key : trace_key) (peer id : Z)
    (m m' : gmap trace_key trace_info) : Prop :=
  if is_traced then
    match c_direction c with
    | T_INGRESS => (is_Some (m !! key) \/ Z.of_nat (size m) < k_max_trace K ->
                    exists t, m' !! key = Some t /\ ti_thread_trace_id t = id /\ ti_peer_fd t = peer) /\
                   (forall key', key' <> key -> m' !! key' = m !! key')
    | T_EGRESS => id = match m !! key with Some t => ti_thread_trace_id t | None => 0 end /\
                  m' = (if c_keep_trace c then m else delete key m)
    end
  else id = 0 /\ m' = m.

(** The identifier that the event carries. *)
Definition final_trace_id (sk : option socket_info) (c : conn_info) (id : Z) : Z :=
  match sk with
  | Some k => if is_socket_info_valid sk then own_trace_id k c id else new_trace_id sk c id
  | None => id
  end.

Lemma trace_step (is_traced : bool) sk c socket_id tip time_stamp key w n :
  maps_ok K w -> w_stats w = Some n -> (is_traced = true -> tip = w_trace w !! key) ->
  wp (if is_traced then trace_process K sk c socket_id tip time_stamp key else mret 0) w (fun id w' =>
    trace_frame K key w w' /\ trace_effect is_traced c key (trace_peer_fd sk c) id (w_trace w) (w_trace w')).
Proof.
  intros Hw Hn Htip. unfold trace_effect. destruct is_traced; [| by apply wp_ret]. rewrite Htip by done.
  destruct (c_direction c) eqn:Hd; eapply wp_mono.
  - by eapply (trace_egress_ok K HC).
  - intros id w' (F & H1 & H2). done.
  - by eapply (trace_ingress_ok K HC).
  - intros id w' (F & H1). split; [done |]. split; [| apply F]. intros Hr. destruct (H1 Hr) as (t & Ht & Hi & _ & Hp). by exists t.
Qed.

(** The context after a step that leaves most of it alone. *)
Lemma quiet_ctx w w' t : w_quiet w w' -> w_ctx w = Some t ->
  exists t', w_ctx w' = Some t' /\ ctx_rest t' = ctx_rest t.
Proof.
  intros Hq%q_ctx Ht. rewrite Ht in Hq. destruct (w_ctx w') as [t' |]; [| done]. apply (inj Some) in Hq. by exists t'.
Qed.

(** The entry of a new socket, or nothing. *)
Lemma create_step key c ctx args syscall_len time_stamp x id w n t :
  maps_ok K w -> ids_left w -> w_stats w = Some n -> w_ctx w = Some t ->
  t_socket_id t = t_socket_id ctx -> t_data_limit_max t = t_data_limit_max ctx -> input_ok c args syscall_len ->
  let sk := w_sock w !! key in
  wp (if is_socket_info_valid sk then mret (mk_submitted 0 false 0 id 0)
      else create_socket K key sk c ctx args syscall_len time_stamp x id) w (fun sub w' =>
    maps_ok K w' /\ w_quiet w w' /\ w_trace w' = w_trace w /\ w_role w' = w_role w /\
    (exists d, 0 <= d <= 1 /\ t_socket_id <$> w_ctx w' = Some (t_socket_id t + d)) /\
    (is_socket_info_valid sk = true -> w_sock w' = w_sock w /\ sub_trace_id sub = id) /\
    (is_socket_info_valid sk = false -> sub_trace_id sub = new_trace_id sk c id /\
       sub_uid sub = (if c_message_type c =! MSG_PRESTORE then 0 else t_socket_id t + 1)) /\
    sub_reasm_bytes sub = 0 /\
    (is_socket_info_valid sk = false -> is_Some sk \/ Z.of_nat (size (w_sock w)) < k_max_sock K ->
      exists k, w_sock w' !! key = Some k /\ s_peer_fd k = new_peer_fd sk c)).
Proof.
  intros Hw Hids Hn Ht Hti Htl Hin sk. destruct (is_socket_info_valid sk) eqn:Hsk.
  - apply wp_ret. split_and!; try done. exists 0. split; [lia |]. rewrite Ht. cbn. by rewrite Z.add_0_r.
  - eapply wp_mono; [by apply (create_socket_ok K HC key c ctx args syscall_len time_stamp x id w n t) |].
    intros sub w' (U1 & U2 & U3 & U4 & U5 & U6 & U7 & U8 & U9 & U10 & U11). split_and!; try done; [by exists 1 |].
    intros _ Hr. destruct (U11 Hr) as (k & -> & _ & _ & Hp). exists k. by rewrite lookup_insert_eq.
Qed.

(** The identity of the socket of the event. *)
Definition event_uid (sk : option socket_info) (ctx : tracer_ctx) : Z :=
  match sk with
  | Some k => if is_socket_info_valid sk then s_uid k else t_socket_id ctx + 1
  | None => t_socket_id ctx + 1
  end.

Lemma cache_after_some p w q : is_Some (w_cache w q) -> is_Some (cache_after E p w q).
Proof. unfold cache_after. case_match; [| done]. by intros [f ->]. Qed.

Lemma data_submit_ok c args syscall_len time_stamp x w evs ctx n :
  maps_ok K w -> ids_left w -> refcnt_typed w -> logged w evs -> w_ctx w = Some ctx -> w_stats w = Some n ->
  c_sk c <> 0 -> c_message_type c <> MSG_UNKNOWN -> c_message_type c <> MSG_CLEAR ->
  input_ok c args syscall_len ->
  let key := gen_conn_key_id (cur_tgid E) (c_fd c) in
  let c' := submit_conn ctx c in
  let sk := w_sock w !! key in
  wp (__data_submit E K c args syscall_len time_stamp x) w (fun r w' =>
    maps_ok K w' /\ w_role w' = w_role w /\
    (exists t', w_ctx w' = Some t' /\ t_push_buffer_refcnt t' = t_push_buffer_refcnt ctx /\
       t_socket_id ctx <= t_socket_id t' <= t_socket_id ctx + 1 /\
       t_disable_tracing t' = t_disable_tracing ctx /\ t_go_tracing_timeout t' = t_go_tracing_timeout ctx) /\
    is_Some (w_stats w') /\
    (exists g, find_key ctx c' w = Some (submit_key ctx c' w, w <| w_go := g |>) /\ go_frame (w_go w) g /\
       w_fixed w' = w_fixed (w <| w_go := g |>)) /\
    (is_socket_info_valid sk = false -> is_Some sk \/ Z.of_nat (size (w_sock w)) < k_max_sock K ->
      exists k, w_sock w' !! key = Some k /\ s_peer_fd k = new_peer_fd sk c') /\
    exists id, trace_effect (traced c' ctx x) c' (submit_key ctx c' w) (trace_peer_fd sk c') id (w_trace w) (w_trace w') /\
      (r = SUBMIT_INVALID /\ logged w' evs /\ w_cache w' = w_cache w \/
       r = SUBMIT_OK /\ exists sub, sub_trace_id sub = final_trace_id sk c' id /\ sub_uid sub = event_uid sk ctx /\
         (forall p, w_cache w' p = cache_after E (c_protocol c) w p) /\
         log_grows E K c' args sub (default 0 (w_role w !! key)) (k_goid (submit_key ctx c' w)) syscall_len time_stamp x
           (event_limit sk (sub_allow sub && c_is_reasm_seg c) (t_data_limit_max ctx) syscall_len) w evs w')).
Proof.
  intros Hw Hids Href Hlog Hctx Hn Hsk Hmu Hmc Hin key c' sk. unfold __data_submit.
  destruct (Z.eqb_spec (c_sk c) 0); [done |]. case_bool_decide; [done |]. cbn [orb].
  apply wp_bind, wp_gets. rewrite Hctx. apply wp_bind, wp_gets. case_bool_decide; [done |].
  apply wp_bind, wp_gets. rewrite Hn. fold key. fold sk. fold (submit_conn ctx c). fold c'. fold (find_key ctx c').
  assert (c_message_type c' = c_message_type c /\ c_protocol c' = c_protocol c /\ c_is_reasm_seg c' = c_is_reasm_seg c /\
    input_ok c' args syscall_len) as (M1 & M2 & M3 & Hin') by (unfold c', submit_conn; destruct (t_disable_tracing ctx); by destruct Hin).
  clearbody c'. destruct (find_key_run ctx c' w) as (g & Hg & Hgf). set (tkey := submit_key ctx c' w) in *. clearbody tkey.
  apply wp_bind, (wp_value _ _ _ _ _ Hg). set (w0 := w <| w_go := g |>) in *.
  apply (maps_ok_same K w w0) in Hw; [| done]. apply (logged_same w w0) in Hlog; try done.
  change (w_ctx w) with (w_ctx w0) in Hctx. change (w_stats w) with (w_stats w0) in Hn. change (refcnt_typed w0) in Href.
  change (ids_left w0) in Hids. change (w_sock w) with (w_sock w0) in sk. change (w_role w) with (w_role w0).
  change (w_trace w) with (w_trace w0).
  assert (w0 = w <| w_go := g |>) as Hw0 by done. clearbody w0.
  apply wp_bind, wp_gets. set (socket_id := match sk with Some _ => _ | None => _ end). set (tip := if c_no_trace c' then None else _).
  apply wp_bind. eapply wp_mono.
  { apply (trace_step (traced c' ctx x) sk c' socket_id tip time_stamp tkey w0 n Hw Hn).
    unfold traced, tip. by destruct (c_no_trace c'); rewrite ?andb_false_r. }
  intros id w1 ((F1 & F2 & F3 & F4 & F5 & F6) & Heff).
  destruct (quiet_ctx w0 w1 ctx F2 Hctx) as (t1 & Ht1 & R1). rewrite Ht1, Hctx in F5. cbn in F5. injection F5 as F5.
  destruct (q_stats _ _ F2) as [_ Hst1]. destruct Hst1 as [n1 Hn1]; [by rewrite Hn |].
  assert (t_data_limit_max t1 = t_data_limit_max ctx) as Hl1 by (by injection R1).
  unfold sk in Heff |- *. rewrite <- F3. rewrite <- F3 in Heff. apply wp_bind. eapply wp_mono.
  { apply (create_step key c' ctx args syscall_len time_stamp x id w1 n1 t1); try done.
    intros t Ht. rewrite Ht1 in Ht. injection Ht as <-. rewrite F5. by apply Hids. }
  intros sub w2 (U1 & U2 & U3 & U4 & (d & Hd & U5) & U6 & U7 & U8 & U9).
  destruct (quiet_ctx w1 w2 t1 U2 Ht1) as (t2 & Ht2 & R2). rewrite Ht2 in U5. cbn in U5. injection U5 as U5.
  assert (ctx_rest t2 = ctx_rest ctx) as R by congruence.
  pose proof (w_quiet_trans _ _ _ F2 U2) as Q2. assert (logged w2 evs) as Hlog2 by (by eapply logged_quiet).
  assert (is_Some (w_stats w2)) as Hst2 by (apply (q_stats _ _ Q2); by rewrite Hn).
  assert (is_socket_info_valid (w_sock w1 !! key) = false -> is_Some (w_sock w1 !! key) \/ Z.of_nat (size (w_sock w)) < k_max_sock K ->
    exists k, w_sock w2 !! key = Some k /\ s_peer_fd k = new_peer_fd (w_sock w1 !! key) c') as Hpeer
    by (rewrite F3, Hw0 in U9; rewrite F3, Hw0; exact U9).
  match goal with |- wp (if ?b then _ else _) _ _ => destruct b eqn:Hpre end.
  { apply wp_ret. split_and!; try done; [congruence | | | exists id; rewrite U3; split; [done | left; split_and!; try done; by rewrite (q_cache _ _ Q2), Hw0]].
    - exists t2. unfold ctx_rest in R. split_and!; congruence || lia.
    - exists g. rewrite <- Hw0. split_and!; try done. exact (q_fixed _ _ Q2). }
  eapply wp_mono.
  { apply (submit_event_ok E K HE HK Hcomm HC key (w_sock w1 !! key) c' args syscall_len time_stamp
      (k_goid tkey) x (t_data_limit_max ctx) sub w2 evs t2); try done.
    - intros Hv. by destruct (U6 Hv) as [-> _].
    - rewrite <- Hl1. by apply (mo_limit K w1 F1).
    - intros t Ht. rewrite Ht2 in Ht. injection Ht as <-. replace (t_push_buffer_refcnt t2) with (t_push_buffer_refcnt ctx) by (unfold ctx_rest in R; congruence). by apply Href. }
  apply orb_false_iff in Hpre as [Hpre _].
  intros r w3 (V1 & V2 & V3 & Vs & V4 & Vf & Vk & Hres). rewrite Hpre in U7. split_and!; try done; try congruence.
  - destruct (w_ctx w3) as [t3 |]; [| done]. cbn in V4. exists t3. unfold ctx_core, ctx_rest in *.
    assert (t_socket_id t3 = t_socket_id t2) as T3 by congruence. split_and!; congruence || lia.
  - exists g. rewrite <- Hw0, Vf. split_and!; try done. exact (q_fixed _ _ Q2).
  - intros Hi Hr. rewrite (Vk Hi). by apply Hpeer.
  - exists id. rewrite V2, U3. split; [done |]. destruct Hres as [(-> & Hl & Hca) | (-> & sub' & Hcar & Hca & Hlg)];
      [left; split_and!; try done; by rewrite Hca, (q_cache _ _ Q2), Hw0 |].
    right. split; [done |]. exists sub'. unfold carries in Hcar. unfold final_trace_id, event_uid.
    rewrite U4, F4 in Hlg. split_and!; try done.
    + destruct (w_sock w1 !! key) as [k |] eqn:Hk; [| subst sub'; by destruct (U7 eq_refl)].
      destruct (is_socket_info_valid (Some k)); [| subst sub'; by destruct (U7 eq_refl)].
      destruct Hcar as (_ & _ & _ & -> & _). by destruct (U6 eq_refl) as [_ ->].
    + destruct (w_sock w1 !! key) as [k |] eqn:Hk; [| subst sub'; destruct (U7 eq_refl) as [_ ->]; congruence].
      destruct (is_socket_info_valid (Some k)); [by destruct Hcar | subst sub'; destruct (U7 eq_refl) as [_ ->]; congruence].
    + intros p. rewrite Hca, M2. unfold cache_after. by rewrite (q_cache _ _ Q2), Hw0.
    + rewrite M3 in Hlg. unfold sk, log_grows, buf_len in *. rewrite (q_buf _ _ Q2), (fixed_io _ _ (q_fixed _ _ Q2)), Hw0 in Hlg.
      rewrite Hw0. exact Hlg.
Qed.

(** ** The invariant between two programs *)

Definition args_ok (a : data_args) : Prop :=
  (length (da_addr a) = EBPF_CACHE_SIZE /\ bytes_ok (da_addr a)) /\ port_ok (da_port a).
Definition OFFSET_IDX_MAX : nat := 17.
Definition stack_ok (s : http2_stack) : Prop :=
  (length (hs_head s) = HEAD /\ bytes_ok (hs_head s)) /\ Z.of_nat (length (hs_data s)) = BURST_DATA_BUF_SIZE /\ bytes_ok (hs_data s).
Record world_ok (w : world) (evs : list (list Z * list Z)) : Prop := {
  wo_maps : maps_ok K w; wo_refcnt : refcnt_typed w; wo_log : logged w evs;
  wo_cache : forall p, 0 <= p < PROTO_INFER_CACHE_SIZE -> is_Some (w_cache w p);
  wo_rargs : forall id a, w_rargs w !! id = Some a -> args_ok a;
  wo_wargs : forall id a, w_wargs w !! id = Some a -> args_ok a;
  wo_proc : forall tgid p, g_proc (w_go w) !! tgid = Some p -> length (p_offsets p) = OFFSET_IDX_MAX;
  wo_stack : forall s, u_stack (w_up w) = Some s -> stack_ok s }.

(** A step that leaves the entries of system calls and processes alone. *)
Lemma world_ok_step w w' evs evs' g :
  world_ok w evs -> maps_ok K w' -> refcnt_typed w' -> logged w' evs' ->
  (forall p, is_Some (w_cache w p) -> is_Some (w_cache w' p)) ->
  go_frame (w_go w) g -> w_fixed w' = w_fixed (w <| w_go := g |>) -> world_ok w' evs'.
Proof.
  intros [] Hm Hr Hl Hc [_ _ _ Hp] Hf. unfold w_fixed in Hf. cbn in Hf. injection Hf as F1 F2 F3 F4 F5 F6.
  constructor; rewrite ?F1, ?F2, ?F5, ?F6, ?Hp; auto.
Qed.

(** The state after a submission: events may have been added, the rest of the
    bookkeeping is in order. *)
Definition others_kept (id : Z) (w w' : world) : Prop :=
  forall i, i <> id -> w_rargs w' !! i = w_rargs w !! i /\ w_wargs w' !! i = w_wargs w !! i /\
    u_ssl (w_up w') !! i = u_ssl (w_up w) !! i.
Definition args_kept (w w' : world) : Prop :=
  w_rargs w' = w_rargs w /\ w_wargs w' = w_wargs w /\ w_offset w' = w_offset w /\ w_up w' = w_up w.
Definition submit_post (w w' : world) (evs new : list (list Z * list Z)) : Prop :=
  world_ok w' (evs ++ new) /\ args_kept w w' /\
  t_push_buffer_refcnt <$> w_ctx w' = t_push_buffer_refcnt <$> w_ctx w /\
  (forall t t', w_ctx w = Some t -> w_ctx w' = Some t' -> t_socket_id t <= t_socket_id t' <= t_socket_id t + 1).

(** The event of a message submitted in [w], with a payload of at most [L] bytes. *)
Definition event_of (c : conn_info) (args : data_args) (syscall_len time_stamp : Z) (x : extra_args) (w : world) (L : Z)
    (e : list Z * list Z) : Prop :=
  exists ctx sub role goid, w_ctx w = Some ctx /\
    header_ok E (submit_conn ctx c) args sub role goid syscall_len
      (if c_direction c =! T_INGRESS then k_ktime K 0 else time_stamp)
      (k_ktime K (if c_direction c =! T_INGRESS then 1%nat else 0%nat)) (x_source x) e.1 /\
    sub_uid sub = event_uid (w_sock w !! gen_conn_key_id (cur_tgid E) (c_fd c)) ctx /\
    (exists id, sub_trace_id sub = final_trace_id (w_sock w !! gen_conn_key_id (cur_tgid E) (c_fd c)) (submit_conn ctx c) id) /\
    L = event_limit (w_sock w !! gen_conn_key_id (cur_tgid E) (c_fd c)) (is_segment e.1) (t_data_limit_max ctx) syscall_len /\
    0 <= L <= syscall_len /\ hdr e.1 /\
    (x_source x <> DATA_SOURCE_IO_EVENT -> call_payload E K (x_vecs x) args (inl (da_buf args)) L (buf_len w) = Some e.2).
(** All that a submission adds to the log. *)
Definition events_of (c : conn_info) (args : data_args) (syscall_len time_stamp : Z) (x : extra_args) (w : world)
    (new : list (list Z * list Z)) : Prop :=
  new = [] \/ exists e L, event_of c args syscall_len time_stamp x w L e /\ new = e :: second_event E (Some args) L e.

Lemma header_segment c args sub role goid syscall_len stamp cap source v :
  header_ok E c args sub role goid syscall_len stamp cap source v -> is_segment v = sub_allow sub && c_is_reasm_seg c.
Proof.
  intros Hh. pose proof (hd_bits _ _ _ _ _ _ _ _ _ _ _ Hh) as Hb. unfold bits_are in Hb. rewrite !andb_true_iff, !Z.eqb_eq in Hb.
  destruct Hb as [[_ Hm] _]. unfold is_segment. rewrite Hm. by destruct (sub_allow sub), (c_is_reasm_seg c).
Qed.

Lemma log_grows_new c args sub role goid syscall_len time_stamp x L w evs w' :
  log_grows E K c args sub role goid syscall_len time_stamp x L w evs w' ->
  exists new, logged w' (evs ++ new) /\ (new = [] \/ exists e, new = e :: second_event E (Some args) L e /\
    header_ok E c args sub role goid syscall_len (if c_direction c =! T_INGRESS then k_ktime K 0 else time_stamp)
      (k_ktime K (if c_direction c =! T_INGRESS then 1%nat else 0%nat)) (x_source x) e.1 /\
    0 <= L <= syscall_len /\ hdr e.1 /\
    (x_source x <> DATA_SOURCE_IO_EVENT -> call_payload E K (x_vecs x) args (inl (da_buf args)) L (buf_len w) = Some e.2)).
Proof.
  intros (v & Hv & Hh & HL & Hlog). eexists. split; [exact Hlog |]. unfold new_events, payload. cbn [mbind option_bind].
  assert (x_source x <> DATA_SOURCE_IO_EVENT -> event_buffer v (w_io w) args = Some (inl (da_buf args))) as Hbuf.
  { intros Hsrc. unfold event_buffer. rewrite (hd_source _ _ _ _ _ _ _ _ _ _ _ Hh).
    destruct (Z.eqb_spec (u8 (source_num (if c_sk_type c =? SOCK_UNIX then DATA_SOURCE_UNIX_SOCKET else x_source x)))
      (source_num DATA_SOURCE_IO_EVENT)) as [Hn'%data_source_num | _]; [by destruct (c_sk_type c =? SOCK_UNIX) | done]. }
  destruct (event_buffer v (w_io w) args) as [buffer |] eqn:Hb; [| by left]. cbn [mbind option_bind].
  destruct (call_payload E K (x_vecs x) args buffer L (buf_len w)) as [d |] eqn:Hd; [| by left]. right.
  exists (with_payload v d). split; [done |]. split; [by apply header_data_len |]. split; [done |]. split; [by apply hdr_put |].
  intros Hsrc. specialize (Hbuf Hsrc). injection Hbuf as ->. exact Hd.
Qed.

(** The second message has the header of the first but for its number and length. *)
Lemma second_event_field args L e f e' : hdr e.1 -> apart f v_data_seq = true -> apart f v_data_len = true ->
  e' ∈ second_event E args L e -> vget f e'.1 = vget f e.1.
Proof.
  intros Hv H1 H2 He. unfold second_event in He. destruct args as [a |]; [| by apply elem_of_nil in He].
  destruct (_ || _); [by apply elem_of_nil in He |]. apply list_elem_of_singleton in He as ->. cbn [with_payload fst].
  rewrite keep_put by (done || by apply hdr_put). by apply keep_put.
Qed.

Lemma submit_refused_ok c args syscall_len time_stamp x w evs :
  world_ok w evs ->
  c_sk c = 0 \/ c_message_type c = MSG_UNKNOWN \/ c_message_type c = MSG_CLEAR \/ w_ctx w = None \/ w_stats w = None ->
  wp (__data_submit E K c args syscall_len time_stamp x) w (fun r w' =>
    r = SUBMIT_INVALID /\ submit_post w w' evs []).
Proof.
  intros Hw Hc. unfold __data_submit. pose proof Hw as [Hm Hr Hl _ _ _ _].
  assert (submit_post w w evs []) as Hrefl.
  { unfold submit_post. rewrite app_nil_r. split_and!; try done. intros t t' Ht Ht'. rewrite Ht in Ht'.
    injection Ht' as <-. lia. }
  destruct (Z.eqb_spec (c_sk c) 0), (c_message_type c =! MSG_UNKNOWN) eqn:Hu; cbn [orb]; try (by apply wp_ret).
  apply bool_decide_eq_false in Hu. apply wp_bind, wp_gets. destruct (w_ctx w) as [ctx |] eqn:Hctx; [| by apply wp_ret].
  apply wp_bind, wp_gets. case_bool_decide as Hcl.
  - apply wp_bind. eapply wp_mono; [by apply (delete_socket_info_ok K HC) |].
    intros [] w' (D1 & D2 & D3 & D4 & D5). apply wp_ret. split; [done |]. unfold submit_post. rewrite app_nil_r, D4, Hctx.
    split_and!; try done.
    + apply (world_ok_step w w' evs evs (w_go w)); try done.
      * unfold refcnt_typed in *. by rewrite D4.
      * by apply (logged_quiet w).
      * by rewrite (q_cache _ _ D2).
      * rewrite (q_fixed _ _ D2). by destruct w.
    + pose proof (q_fixed _ _ D2) as Hf. unfold w_fixed in Hf. unfold args_kept. split_and!; congruence.
    + intros t t' [= <-] [= <-]. lia.
  - apply wp_bind, wp_gets. destruct (w_stats w) eqn:Hst; [| by apply wp_ret].
    by destruct Hc as [? | [? | [? | [? | ?]]]].
Qed.

Lemma submit_ok c args syscall_len time_stamp x w evs :
  world_ok w evs -> ids_left w -> input_ok c args syscall_len ->
  wp (__data_submit E K c args syscall_len time_stamp x) w (fun r w' =>
    exists new, submit_post w w' evs new /\ (r = SUBMIT_INVALID -> new = []) /\ events_of c args syscall_len time_stamp x w new).
Proof.
  intros Hw Hids Hin.
  assert (forall P : Prop, P -> (P -> wp (__data_submit E K c args syscall_len time_stamp x) w (fun r w' =>
    r = SUBMIT_INVALID /\ submit_post w w' evs [])) -> wp (__data_submit E K c args syscall_len time_stamp x) w (fun r w' =>
    exists new, submit_post w w' evs new /\ (r = SUBMIT_INVALID -> new = []) /\ events_of c args syscall_len time_stamp x w new)) as Href.
  { intros P HP H. eapply wp_mono; [by apply H |]. intros r w' [-> Hp]. exists []. split_and!; try done. by left. }
  destruct (w_ctx w) as [ctx |] eqn:Hctx; [| apply (Href _ Hctx); intros; apply submit_refused_ok; auto].
  destruct (w_stats w) as [n |] eqn:Hst; [| apply (Href _ Hst); intros; apply submit_refused_ok; auto 10].
  destruct (decide (c_sk c = 0)) as [H0 | H0]; [apply (Href _ H0); intros; apply submit_refused_ok; auto |].
  destruct (decide (c_message_type c = MSG_UNKNOWN)) as [H1 | H1]; [apply (Href _ H1); intros; apply submit_refused_ok; auto |].
  destruct (decide (c_message_type c = MSG_CLEAR)) as [H2 | H2]; [apply (Href _ H2); intros; apply submit_refused_ok; auto |].
  clear Href. pose proof Hw as [Hm Hr Hl _ _ _ _]. eapply wp_mono; [by apply (data_submit_ok c args syscall_len time_stamp x w evs ctx n) |].
  intros r w' (V1 & V2 & (t' & Ht' & T1 & T2 & T3 & T4) & V4 & (g & _ & Vg & Vf) & _ & id & _ & Hres).
  assert (forall p, is_Some (w_cache w p) -> is_Some (w_cache w' p)) as Hcache.
  { intros p Hp. destruct Hres as [(_ & _ & ->) | (_ & _ & _ & _ & -> & _)]; [done | by apply cache_after_some]. }
  assert (exists new, logged w' (evs ++ new) /\ (r = SUBMIT_INVALID -> new = []) /\
    events_of c args syscall_len time_stamp x w new) as (new & Hnew & Hinv).
  { destruct Hres as [(-> & Hlog & _) | (-> & sub & Hid & Hu & _ & Hg)];
      [exists []; rewrite app_nil_r; split_and!; try done; by left |].
    destruct (log_grows_new _ _ _ _ _ _ _ _ _ _ _ _ Hg) as (new & Hn & Hnew). exists new. split_and!; [done.. |].
    destruct Hnew as [-> | (e & He & P1 & P2 & P3 & P4)]; [by left |]. right. eexists e, _. split; [| exact He].
    assert (c_direction (submit_conn ctx c) = c_direction c) as Hd by (unfold submit_conn; by destruct (t_disable_tracing ctx)).
    pose proof (header_segment _ _ _ _ _ _ _ _ _ _ P1) as Hseg.
    assert (c_is_reasm_seg (submit_conn ctx c) = c_is_reasm_seg c) as Hrs by (unfold submit_conn; by destruct (t_disable_tracing ctx)).
    rewrite Hrs in Hseg. rewrite Hd in P1. exists ctx, sub. do 2 eexists. split; [done |]. split; [exact P1 |]. rewrite Hseg. split_and!; first [done | by exists id | apply P2 | apply P3]. }
  exists new. split; [| done]. unfold submit_post. rewrite Hctx, Ht'. split_and!.
  - apply (world_ok_step w w' evs _ g); try done.
    intros t Ht. rewrite Ht' in Ht. injection Ht as <-. rewrite T1. by apply Hr.
  - unfold w_fixed in Vf. cbn in Vf. unfold args_kept. split_and!; congruence.
  - cbn. congruence.
  - intros t t'' [= <-] [= <-]. done.
Qed.

(** C16: a submission of any message, from a state that is in order, accesses
    nothing out of bounds and ends in a state that is in order: the counters of
    sockets and of traces that user space reads are the sizes of the maps, no
    two connections share a socket identifier, the reference count of the
    buffer of events is what it was, and the log of events only grows, and does
    not grow when the submission is refused. *)
Theorem data_submit_invariant c args syscall_len time_stamp x w evs :
  world_ok w evs -> ids_left w -> input_ok c args syscall_len ->
  exists r w' new, __data_submit E K c args syscall_len time_stamp x w = Some (r, w') /\
    world_ok w' (evs ++ new) /\ (r = SUBMIT_INVALID -> new = []) /\
    t_push_buffer_refcnt <$> w_ctx w' = t_push_buffer_refcnt <$> w_ctx w.
Proof.
  intros Hw Hids Hin. pose proof (submit_ok c args syscall_len time_stamp x w evs Hw Hids Hin) as H.
  apply wp_total in H as (r & w' & Hrun & new & (P1 & _ & P2 & _) & P3 & _). by exists r, w', new.
Qed.

(** The event of a message that is submitted: its header names the socket
    (the identifier of its entry, or the next new one), the protocol, the
    ports, the task and the direction, and its payload is that of the system call up to
    the configured limit; the second message of a [sendmmsg] may follow it. *)
Theorem data_submit_event c args syscall_len time_stamp x w evs ctx n :
  world_ok w evs -> ids_left w -> w_ctx w = Some ctx -> w_stats w = Some n -> x_source x <> DATA_SOURCE_IO_EVENT ->
  c_sk c <> 0 -> c_message_type c <> MSG_UNKNOWN -> c_message_type c <> MSG_CLEAR ->
  input_ok c args syscall_len ->
  let key := gen_conn_key_id (cur_tgid E) (c_fd c) in
  let limit seg := event_limit (w_sock w !! key) seg (t_data_limit_max ctx) syscall_len in
  exists r w', __data_submit E K c args syscall_len time_stamp x w = Some (r, w') /\
    (r = SUBMIT_OK -> logged w' evs \/
     exists e, let L := limit (is_segment e.1) in logged w' (evs ++ e :: second_event E (Some args) L e) /\
       vget v_socket_id e.1 = u64 (event_uid (w_sock w !! key) ctx) /\
       vget v_data_type e.1 = u16 (proto_num (c_protocol c)) /\
       vget v_dport e.1 = u16 (dport (c_tuple c)) /\ vget v_num e.1 = u16 (num (c_tuple c)) /\
       vget v_tgid e.1 = u32 (cur_tgid E) /\ vget v_pid e.1 = u32 (cur_pid E) /\
       vget v_syscall_len e.1 = syscall_len /\
       bits_dir (vget v_bits e.1) = dir_num (c_direction c) /\
       0 <= L <= syscall_len /\ call_payload E K (x_vecs x) args (inl (da_buf args)) L (buf_len w) = Some e.2).
Proof.
  intros [Hm Hr Hl _ _ _ _] Hids Hctx Hn Hsrc H0 H1 H2 Hin key limit.
  pose proof (data_submit_ok c args syscall_len time_stamp x w evs ctx n Hm Hids Hr Hl Hctx Hn H0 H1 H2 Hin) as H.
  apply wp_total in H as (r & w' & Hrun & V1 & V2 & _ & _ & _ & _ & id & _ & Hres). exists r, w'. split; [done |].
  intros ->. destruct Hres as [([=] & _) | (_ & sub & S1 & S2 & _ & Hg)].
  destruct (log_grows_new _ _ _ _ _ _ _ _ _ _ _ _ Hg) as (new & Hnl & [-> | (e & -> & G2 & G0 & _ & G4)]);
    [left; by rewrite app_nil_r in Hnl |].
  right. exists e. pose proof (in_len _ _ _ Hin) as Hsl. rewrite (header_segment _ _ _ _ _ _ _ _ _ _ G2).
  assert (c_is_reasm_seg (submit_conn ctx c) = c_is_reasm_seg c) as -> by (unfold submit_conn; by destruct (t_disable_tracing ctx)).
  assert (c_protocol (submit_conn ctx c) = c_protocol c /\ c_tuple (submit_conn ctx c) = c_tuple c /\
    c_direction (submit_conn ctx c) = c_direction c) as (P1 & P2 & P3)
    by (unfold submit_conn; by destruct (t_disable_tracing ctx)).
  destruct G2 as [W1 _ _ W2 W3 _ [W4 W5] [W6 W7] _ _ _ _ _ _ W8]. rewrite P1 in W2. rewrite P2 in W4, W5. rewrite P3 in W8.
  unfold bits_are in W8. rewrite !andb_true_iff, !Z.eqb_eq in W8. rewrite S2 in W1. rewrite wrap_small in W3 by lia.
  split_and!; try done; try apply W8; try apply G0. by apply G4.
Qed.

(** The socket of an outgoing message has no identifier of its own for it. *)
Definition no_own_trace (sk : option socket_info) : Prop :=
  forall k, sk = Some k -> s_trace_id k = 0 /\ s_peer_fd k = 0.

Lemma final_trace_plain sk c id :
  c_direction c = T_INGRESS \/ no_own_trace sk -> final_trace_id sk c id = id.
Proof.
  intros H. destruct sk as [k |]; [| done]. unfold final_trace_id, own_trace_id, new_trace_id.
  destruct H as [-> | H]; [by destruct (is_socket_info_valid (Some k)) |].
  destruct (H k eq_refl) as [-> ->]. rewrite !andb_false_r. by destruct (is_socket_info_valid (Some k)).
Qed.

(** One submission, as the trace of its thread sees it. *)
Lemma submit_trace c args syscall_len time_stamp x w evs ctx n :
  world_ok w evs -> ids_left w -> w_ctx w = Some ctx -> w_stats w = Some n ->
  c_sk c <> 0 -> c_message_type c <> MSG_UNKNOWN -> c_message_type c <> MSG_CLEAR ->
  input_ok c args syscall_len ->
  let key := gen_conn_key_id (cur_tgid E) (c_fd c) in
  let sk := w_sock w !! key in
  wp (__data_submit E K c args syscall_len time_stamp x) w (fun r w' => exists new id t',
    world_ok w' (evs ++ new) /\ w_ctx w' = Some t' /\ is_Some (w_stats w') /\
    t_socket_id t' <= t_socket_id ctx + 1 /\ 0 <= t_socket_id t' /\
    t_disable_tracing t' = t_disable_tracing ctx /\ t_go_tracing_timeout t' = t_go_tracing_timeout ctx /\
    find_key ctx (submit_conn ctx c) w = Some (submit_key ctx (submit_conn ctx c) w, w <| w_go := w_go w' |>) /\
    trace_effect (traced (submit_conn ctx c) ctx x) (submit_conn ctx c) (submit_key ctx (submit_conn ctx c) w)
      (trace_peer_fd sk (submit_conn ctx c)) id (w_trace w) (w_trace w') /\
    (forall e, e ∈ new -> vget v_thread_trace_id e.1 = u64 (final_trace_id sk (submit_conn ctx c) id)) /\
    (is_socket_info_valid sk = false -> is_Some sk \/ Z.of_nat (size (w_sock w)) < k_max_sock K ->
      exists k, w_sock w' !! key = Some k /\ s_peer_fd k = new_peer_fd sk (submit_conn ctx c))).
Proof.
  intros Hw Hids Hctx Hn H0 H1 H2 Hin key sk. pose proof Hw as [Hm Hr Hl _ _ _ _].
  eapply wp_mono; [by apply (data_submit_ok c args syscall_len time_stamp x w evs ctx n) |].
  intros r w' (V1 & V2 & (t' & Ht' & T1 & T2 & T3 & T4) & V4 & (g & Vk & Vg & Vf) & Vp & id & Heff & Hres).
  assert (w_go w' = g) as Hgo by (unfold w_fixed in Vf; cbn in Vf; congruence).
  assert (forall p, is_Some (w_cache w p) -> is_Some (w_cache w' p)) as Hcache.
  { intros p Hp. destruct Hres as [(_ & _ & ->) | (_ & _ & _ & _ & -> & _)]; [done | by apply cache_after_some]. }
  assert (exists new, logged w' (evs ++ new) /\
      forall e, e ∈ new -> vget v_thread_trace_id e.1 = u64 (final_trace_id sk (submit_conn ctx c) id))
    as (new & Hlog & Hnew).
  { destruct Hres as [(_ & Hlog & _) | (_ & sub & S1 & _ & _ & Hg)];
      [exists []; rewrite app_nil_r; split; [done |]; by intros e ?%elem_of_nil |].
    destruct (log_grows_new _ _ _ _ _ _ _ _ _ _ _ _ Hg) as (new & Hnl & Hh). exists new. split; [done |].
    destruct Hh as [-> | (e & -> & Hh & _ & Hv & _)]; [by intros e ?%elem_of_nil |].
    assert (vget v_thread_trace_id e.1 = u64 (final_trace_id sk (submit_conn ctx c) id)) as He
      by (by rewrite (hd_trace_id _ _ _ _ _ _ _ _ _ _ _ Hh), S1).
    intros e' [-> | He']%elem_of_cons; [done |]. by rewrite (second_event_field _ _ e v_thread_trace_id e' Hv eq_refl eq_refl He'). }
  exists new, id, t'. pose proof (Hids ctx Hctx). rewrite Hgo. split_and!; try done; try lia.
  apply (world_ok_step w w' evs _ g); try done.
  intros t Ht. rewrite Ht' in Ht. injection Ht as <-. rewrite T1. by apply Hr.
Qed.

Lemma traced_no_trace c ctx x : traced c ctx x = true -> c_no_trace c = false.
Proof. unfold traced. by destruct (c_no_trace c); rewrite ?andb_false_r. Qed.

End data_submit.

Lemma world_ok_caps {X : Counting} K K' w evs : k_max_sock K' = k_max_sock K -> k_max_trace K' = k_max_trace K ->
  world_ok K w evs -> world_ok K' w evs.
Proof. intros H1 H2 [[] M2 M3 M4 M5 M6 M7 M8]. constructor; try done. constructor; try done; congruence. Qed.

(** ** The trace of a request *)

(** The request of the key [key] is still traced at the time of [K]: there is no
    goroutine, or it had traced input or output within the timeout. *)
Definition still_traced (E : env) (K : kenv) (ctx : tracer_ctx) (key : trace_key) (w w1 : world) : Prop :=
  t_go_tracing_timeout ctx <> 0 -> get_current_goroutine E (w_go w) <> 0 ->
  is_final_ancestor (w_go w1) (cur_tgid E) (k_goid key) (k_go_time K) (u64 (t_go_tracing_timeout ctx * NS_PER_SEC)) = true.

(** The key of a thread does not change between two system calls of a request. *)
Lemma submit_key_again E K E' K' ctx t1 c1 c2 w g w1 :
  find_key E K ctx c1 w = Some (submit_key E K ctx c1 w, w <| w_go := g |>) -> w_go w1 = g ->
  c_no_trace c1 = false -> c_no_trace c2 = false -> t_go_tracing_timeout t1 = t_go_tracing_timeout ctx ->
  e_pid_tgid E' = e_pid_tgid E -> k_go_time K <= k_go_time K' -> still_traced E K' ctx (submit_key E K ctx c1 w) w w1 ->
  submit_key E' K' t1 c2 w1 = submit_key E K ctx c1 w.
Proof.
  intros Hf Hg H1 H2 Ht Hid Hk Hst. unfold still_traced, submit_key, find_key in *. rewrite H1, H2, Ht in *.
  unfold get_trace_key, mbind, M_bind, mret, M_ret in *.
  destruct (Z.eqb_spec (t_go_tracing_timeout ctx) 0) as [_ | H0]; [unfold cur_tgid, cur_pid; by rewrite Hid |].
  specialize (Hst H0). destruct (get_rw_goid E K _ true w) as [[r w0] |] eqn:Hr; [| done].
  assert (w_go w1 = w_go w0) as Hgo by (assert (w0 = w <| w_go := g |>) as -> by congruence; done).
  assert (get_current_goroutine E (w_go w) <> 0 ->
    is_final_ancestor (w_go w0) (cur_tgid E) r (k_go_time K') (u64 (t_go_tracing_timeout ctx * NS_PER_SEC)) = true) as Hfin.
  { intros Hc. specialize (Hst Hc). rewrite Hgo in Hst. by destruct (Z.eqb_spec r 0) as [-> |]. }
  rewrite (get_rw_goid_again E K E' K' _ w r w0 w1 Hr Hid Hk Hfin Hgo). unfold cur_tgid, cur_pid. by rewrite Hid.
Qed.

(** C17: tracing within a thread or a goroutine. A message comes in on a socket and is
    submitted by a thread; the next submission is one of the same thread, later, of a
    message that goes out on a socket to which no proxied request is attached. Both take
    part in tracing (they are not exempt, as DNS queries for AAAA are, and tracing is
    on), there is room for a trace, and a goroutine is still within its timeout. Then
    all events of the two carry the same trace identifier, and the message that goes out
    ends the trace of the thread, unless it is one that keeps it (such as the closing of
    a prepared statement of MySQL). *)
Theorem trace_follows_thread {X : Counting} E K E' K' c1 args1 len1 ts1 x1 c2 args2 len2 ts2 x2 w evs ctx n :
  env_ok E -> kenv_ok K -> caps_ok K -> bytes_ok (e_comm E).2 -> env_ok E' -> kenv_ok K' -> bytes_ok (e_comm E').2 ->
  k_max_sock K' = k_max_sock K -> k_max_trace K' = k_max_trace K -> e_pid_tgid E' = e_pid_tgid E -> k_go_time K <= k_go_time K' ->
  world_ok K w evs -> w_ctx w = Some ctx -> w_stats w = Some n -> 0 <= t_socket_id ctx < 2 ^ 64 - 2 ->
  c_sk c1 <> 0 -> c_message_type c1 <> MSG_UNKNOWN -> c_message_type c1 <> MSG_CLEAR ->
  c_sk c2 <> 0 -> c_message_type c2 <> MSG_UNKNOWN -> c_message_type c2 <> MSG_CLEAR ->
  input_ok c1 args1 len1 -> input_ok c2 args2 len2 ->
  c_direction c1 = T_INGRESS -> c_direction c2 = T_EGRESS ->
  traced (submit_conn ctx c1) ctx x1 = true -> traced (submit_conn ctx c2) ctx x2 = true ->
  Z.of_nat (size (w_trace w)) < k_max_trace K ->
  let key := submit_key E K ctx (submit_conn ctx c1) w in
  exists r1 w1 new1, __data_submit E K c1 args1 len1 ts1 x1 w = Some (r1, w1) /\ world_ok K w1 (evs ++ new1) /\
    (no_own_trace (w_sock w1 !! gen_conn_key_id (cur_tgid E') (c_fd c2)) -> still_traced E K' ctx key w w1 ->
     exists r2 w2 new2, __data_submit E' K' c2 args2 len2 ts2 x2 w1 = Some (r2, w2) /\
       world_ok K' w2 ((evs ++ new1) ++ new2) /\
       (exists id, forall e, e ∈ new1 ++ new2 -> vget v_thread_trace_id e.1 = u64 id) /\
       (c_keep_trace c2 = false -> w_trace w2 !! key = None)).
Proof.
  intros HE HK HC Hcm HE' HK' Hcm' Hms Hmt Hpid Htime Hw Hctx Hn Hid A1 A2 A3 B1 B2 B3 I1 I2 Hin Hout T1 T2 Hroom key.
  assert (caps_ok K') as HC' by (destruct HC; constructor; congruence).
  assert (ids_left w) as Hids by (intros t Ht; rewrite Hctx in Ht; injection Ht as <-; lia).
  pose proof (submit_trace E K HE HK HC Hcm c1 args1 len1 ts1 x1 w evs ctx n Hw Hids Hctx Hn A1 A2 A3 I1) as H.
  apply wp_total in H as (r1 & w1 & Hrun1 & new1 & id1 & t1 & Hw1 & Ht1 & [n1 Hn1] & L1 & L1' & Q1 & Q2 & Hf1 & Heff1 & Hnew1 & _).
  exists r1, w1, new1. split; [done |]. split; [done |]. intros Hno Hst.
  assert (ids_left w1) as Hids1 by (intros t Ht; rewrite Ht1 in Ht; injection Ht as <-; lia).
  apply (world_ok_caps K K') in Hw1; [| done | done].
  pose proof (submit_trace E' K' HE' HK' HC' Hcm' c2 args2 len2 ts2 x2 w1 (evs ++ new1) t1 n1 Hw1 Hids1 Ht1 Hn1 B1 B2 B3 I2) as H.
  apply wp_total in H as (r2 & w2 & Hrun2 & new2 & id2 & t2 & Hw2 & _ & _ & _ & _ & _ & _ & _ & Heff2 & Hnew2 & _).
  exists r2, w2, new2. split; [done |]. split; [done |].
  assert (submit_conn t1 c2 = submit_conn ctx c2 /\ traced (submit_conn ctx c2) t1 x2 = true) as (S1 & S2).
  { unfold submit_conn, traced in *. by rewrite Q1, Q2. }
  rewrite S1, S2 in Heff2. rewrite T1 in Heff1. fold key in Heff1.
  rewrite (submit_key_again E K E' K' ctx t1 (submit_conn ctx c1) (submit_conn ctx c2) w (w_go w1) w1 Hf1 eq_refl) in Heff2
    by (done || by eapply traced_no_trace). fold key in Heff2. unfold trace_effect in *.
  assert (c_direction (submit_conn ctx c1) = T_INGRESS /\ c_direction (submit_conn ctx c2) = T_EGRESS /\
    c_keep_trace (submit_conn ctx c2) = c_keep_trace c2) as (E1 & E2 & E3)
    by (unfold submit_conn; by destruct (t_disable_tracing ctx)).
  rewrite E1 in Heff1. rewrite E2, E3 in Heff2. destruct Heff1 as [Heff1 _].
  destruct Heff2 as [Hid2 Hm2]. destruct (Heff1 (or_intror Hroom)) as (t & Hk & Hti & _). rewrite Hk in Hid2.
  split.
  - exists id1. intros e [He | He]%elem_of_app; [rewrite (Hnew1 e He) | rewrite (Hnew2 e He), S1];
      rewrite final_trace_plain by (rewrite ?E1, ?E2; auto); congruence.
  - intros Hkeep. rewrite Hm2, Hkeep. by rewrite lookup_delete_eq.
Qed.

(** ** The contract of a step *)

(** A record as the reader takes it: it stays inside the record. *)
Definition record_typed (r : list Z) : Prop := exists o, reader_raw_cb r = Some o /\ forall es, o = Some es -> batch_ok es.
(** The records of HTTP/2 events that a step adds. *)
Definition http2_adds (w w' : world) : Prop :=
  exists recs, u_http2 (w_up w') = u_http2 (w_up w) ++ recs /\ Forall (fun r => record_typed r.2) recs.
Lemma http2_same (w w' : world) : u_http2 (w_up w') = u_http2 (w_up w) -> http2_adds w w'.
Proof. intros Hu. exists []. by rewrite Hu, app_nil_r. Qed.
#[export] Hint Extern 0 (http2_adds _ _) => apply http2_same; reflexivity : core.

(** What every program keeps, whatever it is for: the invariants, what other
    threads have under way, the reference count of the buffer, that the reader can
    read what was sent, and, unless the program is one of OpenSSL, the calls of
    OpenSSL. *)
Record step_post {X : Counting} (id : Z) (ssl : bool) (K : kenv) (w w' : world) (evs new : list (list Z * list Z)) : Prop := {
  sp_ok : world_ok K w' (evs ++ new);
  sp_others : others_kept id w w';
  sp_ssl : ssl = false -> u_ssl (w_up w') = u_ssl (w_up w);
  sp_http2 : http2_adds w w';
  sp_refcnt : t_push_buffer_refcnt <$> w_ctx w' = t_push_buffer_refcnt <$> w_ctx w;
  sp_ids : forall t t', w_ctx w = Some t -> w_ctx w' = Some t' -> t_socket_id t <= t_socket_id t' <= t_socket_id t + 1 }.

Lemma same_ids (w w' : world) : t_socket_id <$> w_ctx w' = t_socket_id <$> w_ctx w ->
  forall t t', w_ctx w = Some t -> w_ctx w' = Some t' -> t_socket_id t <= t_socket_id t' <= t_socket_id t + 1.
Proof. intros H t t' Ht Ht'. rewrite Ht, Ht' in H. injection H as ->. lia. Qed.

(** ** Instances *)

Lemma example_caps : caps_ok example_kenv.
Proof. by constructor. Qed.
Lemma example_no_sock key k : w_sock example_world !! key <> Some k.
Proof. change (w_sock example_world) with (∅ : gmap Z socket_info). by rewrite lookup_empty. Qed.
Lemma start_world_ok {X : Counting} K ctx : 0 <= k_max_sock K -> 0 <= k_max_trace K -> 0 <= t_data_limit_max ctx < 2 ^ 32 ->
  - 2 ^ 31 <= t_push_buffer_refcnt ctx < 2 ^ 31 -> world_ok K (example_world <| w_ctx := Some ctx |>) [].
Proof.
  intros H1 H2 H3 H4. constructor; try done; try (intros; by rewrite lookup_empty in *).
  - constructor; try done; try (by intros ? [= <-]);
      intros; exfalso; by eapply example_no_sock.
  - by intros t [= <-].
  - exists (mk_buf 0 0 (replicate (Z.to_nat BUF_DATA) 0)), [], []. split; [| done]. constructor; try done.
    + apply holds_nil; try done. by apply Forall_replicate.
    + by exists [].
    + intros i [= <-]. split; [done | by apply bytes_okb].
  - intros s [= <-]. split_and!; try (vm_compute; reflexivity); by apply bytes_okb.
Qed.
Lemma example_world_ok : world_ok example_kenv example_world [].
Proof. by apply (start_world_ok example_kenv example_ctx). Qed.
Lemma example_ids : ids_left example_world.
Proof. by intros t [= <-]. Qed.
Definition example_args : data_args :=
  zero_args <| da_fd := 3 |> <| da_buf := 4096 |> <| da_enter_ts := 5000000000 |> <| da_tcp_seq := 77 |>.
Definition example_message (d : traffic_direction) : conn_info :=
  (example_conn d) <| c_protocol := PROTO_HTTP1 |> <| c_message_type := MSG_REQUEST |>.
Definition example_extra : extra_args := mk_extra false false DATA_SOURCE_SYSCALL.
Lemma example_input d : input_ok (example_message d) example_args 40.
Proof. constructor; try done; (split; [done | by apply Forall_replicate]). Qed.
Lemma example_comm : bytes_ok (e_comm (example_env [] [])).2.
Proof. apply Forall_take. by apply Forall_replicate. Qed.

Lemma data_submit_invariant_witness :
  exists r w' new, __data_submit (example_env [] []) example_kenv (example_message T_INGRESS) example_args 40 9 example_extra
      example_world = Some (r, w') /\
    world_ok example_kenv w' ([] ++ new) /\ (r = SUBMIT_INVALID -> new = []) /\
    t_push_buffer_refcnt <$> w_ctx w' = Some 0.
Proof.
  apply (data_submit_invariant (example_env [] []) example_kenv (example_env_ok [] [] ltac:(constructor)) example_kenv_ok
    example_caps example_comm (example_message T_INGRESS) example_args 40 9 example_extra example_world []).
  - exact example_world_ok.
  - exact example_ids.
  - exact (example_input T_INGRESS).
Defined.

Lemma data_submit_event_witness :
  exists r w', __data_submit (example_env [] []) example_kenv (example_message T_EGRESS) example_args 40 9 example_extra
      example_world = Some (r, w') /\
    (r = SUBMIT_OK -> logged w' [] \/
     exists e, let L := event_limit None (is_segment e.1) 1024 40 in logged w' ([] ++ e :: second_event (example_env [] []) (Some example_args) L e) /\
       vget v_socket_id e.1 = 101 /\ vget v_data_type e.1 = proto_num PROTO_HTTP1 /\
       vget v_dport e.1 = 80 /\ vget v_num e.1 = 40000 /\ vget v_tgid e.1 = 0 /\ vget v_pid e.1 = 0 /\
       vget v_syscall_len e.1 = 40 /\ bits_dir (vget v_bits e.1) = 0 /\
       0 <= L <= 40 /\ call_payload (example_env [] []) example_kenv false example_args (inl 4096) L 0 = Some e.2).
Proof.
  apply (data_submit_event (example_env [] []) example_kenv (example_env_ok [] [] ltac:(constructor)) example_kenv_ok
    example_caps example_comm (example_message T_EGRESS) example_args 40 9 example_extra example_world [] example_ctx example_stats);
    try done.
  - exact example_world_ok.
  - exact example_ids.
  - exact (example_input T_EGRESS).
Defined.

Lemma trace_follows_thread_witness :
  let E := example_env [] [] in
  let K' := example_kenv <| k_go_time := k_go_time example_kenv + 7 |> in
  let c2 := (example_message T_EGRESS) <| c_fd := 5 |> in
  let key := submit_key E example_kenv example_ctx (submit_conn example_ctx (example_message T_INGRESS)) example_world in
  exists r1 w1 new1, __data_submit E example_kenv (example_message T_INGRESS) example_args 40 9 example_extra example_world
      = Some (r1, w1) /\ world_ok example_kenv w1 ([] ++ new1) /\
    (no_own_trace (w_sock w1 !! gen_conn_key_id (cur_tgid E) (c_fd c2)) -> still_traced E K' example_ctx key example_world w1 ->
     exists r2 w2 new2, __data_submit E K' c2 example_args 40 9 example_extra w1
         = Some (r2, w2) /\ world_ok K' w2 (([] ++ new1) ++ new2) /\
       (exists id, forall e, e ∈ new1 ++ new2 -> vget v_thread_trace_id e.1 = u64 id) /\
       (c_keep_trace c2 = false -> w_trace w2 !! key = None)).
Proof.
  intros E K' c2 key.
  apply (trace_follows_thread E example_kenv E K' (example_message T_INGRESS) example_args 40 9 example_extra
    c2 example_args 40 9 example_extra example_world [] example_ctx example_stats); try done.
  - exact (example_env_ok [] [] ltac:(constructor)).
  - exact example_kenv_ok.
  - exact example_comm.
  - exact (example_env_ok [] [] ltac:(constructor)).
  - destruct example_kenv_ok. by constructor.
  - exact example_comm.
  - exact example_world_ok.
  - exact (example_input T_INGRESS).
  - constructor; try done; (split; [done | by apply Forall_replicate]).
Defined.
