(* ===== verification/FileEvents.v ===== *)
(** * File events

    kernel/files_rw.bpf.c: a read or a write of a regular file that takes part in
    a trace is reported with its latency, its offset and its path. *)

From S2P Require Import Prelude Bitmap Conn Iovec InferBase World Output Goroutine KernelObjects Submit SubmitLog.

Definition TIME_ROLLBACK_DEFAULT_LATENCY_NS : Z := 50000.
Definition MAX_DIRECTORY_DEPTH : nat := 18.
Abbreviation DENTRY_NAME_SIZE := 256%nat.
Definition FILE_PATH_SZ : Z := 512.

Inductive file_type := FILE_TYPE_ERROR | FILE_TYPE_REGULAR | FILE_TYPE_VIRTUAL.
#[export] Instance file_type_eq_dec : EqDecision file_type.
Proof. solve_decision. Defined.

(** [struct __io_event_buffer]. *)
Definition i_bytes_count := mk_field 0 4.
Definition i_operation := mk_field 4 4.
Definition i_latency := mk_field 8 8.
Definition i_offset := mk_field 16 8.
Definition i_mnt_id := mk_field 24 4.
Definition i_mntns_id := mk_field 28 4.
Definition i_len := mk_field 32 4.
Definition IO_FILENAME : Z := 36.

Section files.
Context (E : env) (K : kenv).

Definition check_file_type (file : Z) (offset : option member_offsets) : file_type :=
  match offset with
  | None => FILE_TYPE_ERROR
  | Some o =>
      if file =? 0 then FILE_TYPE_ERROR else
      let f_op := kr K 8 (file + o_f_op o) in
      if f_op =? 0 then FILE_TYPE_ERROR else
      if kr K 8 (f_op + o_read_iter o) =? 0 then FILE_TYPE_VIRTUAL else FILE_TYPE_REGULAR
  end.

Definition is_readable_file (fd : Z) (disable_vfile_collect : bool) (o : member_offsets) : bool :=
  let file := fd_to_file K fd (Some o) in
  if file =? 0 then false else
  if disable_vfile_collect && (check_file_type file (Some o) <>! FILE_TYPE_REGULAR) then false else
  Z.land (file_to_i_mode K file o) S_IFMT =? S_IFREG.

(** [mnt_id] and [mntns_id] of the buffer. *)
Definition get_mount_ids (file : Z) (o : member_offsets) (io : list Z) : list Z :=
  let io := vput i_mnt_id (-1) (vput i_mntns_id 0 io) in
  let mount := get_mount_ptr K file o in
  if mount =? 0 then io else
  let io := if negb (o_mount_mnt_id o =? INVALID_OFFSET)
            then vput_bytes i_mnt_id (k_read K (mount + o_mount_mnt_id o) 4).2 io else io in
  if o_mount_mnt_ns o =? INVALID_OFFSET then io else
  let mnt_ns := kr K 8 (mount + o_mount_mnt_ns o) in
  if mnt_ns =? 0 then io else
  vput_bytes i_mntns_id (k_read K (mnt_ns + o_mnt_ns_ns o + o_ns_inum o) 4).2 io.

(** The names of the path, from the file up, with [n] iterations left. *)
Fixpoint name_loop (o : member_offsets) (n : nat) (dentry : Z) (io : list Z) : option (list Z) :=
  match n with
  | O => Some io
  | S n =>
      let name := kr K 8 (dentry + o_dentry_name o) in
      let len := vget i_len io in
      if FILE_PATH_SZ <? len + Z.of_nat DENTRY_NAME_SIZE then Some io else
      let '(ret, bytes) := k_read_str K name DENTRY_NAME_SIZE in
      io ← write_at io (IO_FILENAME + len) bytes;
      let io := vput i_len (u32 (len + ret)) io in
      let parent := kr K 8 (dentry + o_d_parent o) in
      if (parent =? dentry) || (parent =? 0) then Some io else name_loop o n parent io
  end.

(** The buffer and the header of the event; [s_dev] shares the storage of
    [tcp_seq]. *)
Definition set_file_metric_data (o : member_offsets) (fd : Z) (io v : list Z) : option (list Z * list Z) :=
  let file := fd_to_file K fd (Some o) in
  if file =? 0 then Some (io, v) else
  let f_inode := kr K 8 (file + o_f_inode o) in
  if f_inode =? 0 then Some (io, v) else
  let i_sb := kr K 8 (f_inode + o_i_sb o) in
  if i_sb =? 0 then Some (io, v) else
  let v := vput_bytes v_tcp_seq (k_read K (i_sb + o_s_dev o) 4).2 v in
  let io := vput_bytes i_offset (k_read K (file + o_f_pos o) 8).2 io in
  let dentry := kr K 8 (file + o_file_dentry o) in
  let io := vput i_len 0 (get_mount_ids file o io) in
  io ← name_loop o MAX_DIRECTORY_DEPTH dentry io;
  Some (io, v).

(** The header of the event. *)
Definition put_io_event (args : data_args) (goid trace_id cap : Z) (v : list Z) : list Z :=
  let v := vput v_fd (da_fd args) v in
  let v := vput v_tgid (cur_tgid E) v in
  let v := vput v_pid (cur_pid E) v in
  let v := vput v_coroutine_id goid v in
  let v := vput v_timestamp (da_enter_ts args) v in
  let v := vput v_cap_timestamp cap v in
  let v := vput v_syscall_len IO_SIZE v in
  let v := vput v_source (source_num DATA_SOURCE_IO_EVENT) v in
  let v := vput v_thread_trace_id trace_id v in
  let v := vput_msg_type (msg_num MSG_COMMON) v in
  vput_bytes v_comm (e_comm E).2 v.

(** The time the operation took, when it is to be reported. *)
Definition io_latency (args : data_args) (curr_ts : Z) : Z :=
  if curr_ts <? da_enter_ts args then TIME_ROLLBACK_DEFAULT_LATENCY_NS else u64 (curr_ts - da_enter_ts args).

(** From the buffer of events on. *)
Definition output_io_event (o : member_offsets) (args : data_args) (io : list Z) (goid trace_id limit : Z) : W unit :=
  ob ← gets w_buf;
  match ob with
  | None => mret tt
  | Some b =>
      _ ← add_refcnt 1;
      if BUF_DATA - SD_SIZE <? b_len b then add_refcnt (-1) else
      r ← lift (set_file_metric_data o (da_fd args) io (replicate HEAD 0));
      let v := put_io_event args goid trace_id (k_ktime K 1) r.2 in
      data ← lift (write_at (b_data b) (b_len b) v);
      _ ← modify (fun w => w <| w_io := Some r.1 |> <| w_buf := Some (b <| b_data := data |>) |>);
      __output_data_common E K (Some args) false (s32 limit) false 0 (k_ktime K 2)
  end.

(** The offsets that [is_readable_file] and [set_file_metric_data] use. *)
Definition io_offset (offset : option member_offsets) (w : world) : option member_offsets :=
  match offset with Some o => Some o | None => w_offset w end.

Definition trace_io_event_common (offset : option member_offsets) (args : data_args) (direction : traffic_direction) : W unit :=
  if da_bytes_count args <=? 0 then mret tt else
  octx ← gets w_ctx;
  match octx with
  | None => mret tt
  | Some ctx =>
      if t_io_event_collect_mode ctx =? 0 then mret tt else
      key ← get_trace_key E K (t_go_tracing_timeout ctx) false;
      trace_id ← gets (fun w => match w_trace w !! key with Some t => ti_thread_trace_id t | None => 0 end);
      if (trace_id =? 0) && (t_io_event_collect_mode ctx =? 1) then mret tt else
      oo ← gets (io_offset offset);
      match oo with
      | None => mret tt
      | Some o =>
          if negb (is_readable_file (da_fd args) (negb (t_virtual_file_collect_enabled ctx)) o) then mret tt else
          let latency := io_latency args (k_ktime K 0) in
          if latency <? t_io_event_minimal_duration ctx then mret tt else
          oio ← gets w_io;
          match oio with
          | None => mret tt
          | Some io =>
              let io := vput i_operation (dir_num direction) (vput i_latency latency (vput i_bytes_count (da_bytes_count args) io)) in
              _ ← modify (fun w => w <| w_io := Some io |>);
              output_io_event o args io (k_goid key) trace_id (t_data_limit_max ctx)
          end
      end
  end.

(** The program behind the exit of [read] and [write] on a file. *)
Definition io_event : W unit :=
  oa ← gets (fun w => w_rargs w !! e_pid_tgid E);
  match oa with
  | Some a => _ ← trace_io_event_common None a T_INGRESS; modify (fun w => w <| w_rargs := delete (e_pid_tgid E) (w_rargs w) |>)
  | None =>
      oa ← gets (fun w => w_wargs w !! e_pid_tgid E);
      match oa with
      | Some a => _ ← trace_io_event_common None a T_EGRESS; modify (fun w => w <| w_wargs := delete (e_pid_tgid E) (w_wargs w) |>)
      | None => mret tt
      end
  end.

(** ** [pread], [pwrite] and their vectored forms *)

Definition rargs_update (id : Z) (a : data_args) : W unit :=
  modify (fun w => w <| w_rargs := (htab_update (k_max_args K) id a (w_rargs w)).2 |>).
Definition wargs_update (id : Z) (a : data_args) : W unit :=
  modify (fun w => w <| w_wargs := (htab_update (k_max_args K) id a (w_wargs w)).2 |>).
Definition rargs_delete (id : Z) : W unit := modify (fun w => w <| w_rargs := delete id (w_rargs w) |>).
Definition wargs_delete (id : Z) : W unit := modify (fun w => w <| w_wargs := delete id (w_wargs w) |>).

Definition do_sys_enter_pread (fd : Z) : W unit :=
  offset ← gets w_offset;
  match offset with
  | None => mret tt
  | Some o =>
      _ ← modify (fun w => w <| w_offset := Some (infer_mount_offset E K fd o).2 |>);
      rargs_update (e_pid_tgid E) (zero_args <| da_fd := u32 fd |> <| da_enter_ts := k_ktime K 0 |>)
  end.

Definition do_sys_enter_pwrite (fd : Z) : W unit :=
  offset ← gets w_offset;
  match offset with
  | None => mret tt
  | Some _ => wargs_update (e_pid_tgid E) (zero_args <| da_fd := u32 fd |> <| da_enter_ts := k_ktime K 0 |>)
  end.

Definition do_sys_exit_pread (bytes_count : Z) : W unit :=
  offset ← gets w_offset;
  match offset with
  | None => mret tt
  | Some o =>
      oa ← gets (fun w => w_rargs w !! e_pid_tgid E);
      _ ← (match oa with
           | None => mret tt
           | Some a =>
               let a := a <| da_bytes_count := bytes_count |> in
               _ ← modify (fun w => w <| w_rargs := alter (fun _ => a) (e_pid_tgid E) (w_rargs w) |>);
               trace_io_event_common (Some o) a T_INGRESS
           end);
      rargs_delete (e_pid_tgid E)
  end.

Definition do_sys_exit_pwrite (bytes_count : Z) : W unit :=
  offset ← gets w_offset;
  match offset with
  | None => mret tt
  | Some o =>
      oa ← gets (fun w => w_wargs w !! e_pid_tgid E);
      _ ← (match oa with
           | None => mret tt
           | Some a =>
               let a := a <| da_bytes_count := bytes_count |> in
               _ ← modify (fun w => w <| w_wargs := alter (fun _ => a) (e_pid_tgid E) (w_wargs w) |>);
               trace_io_event_common (Some o) a T_EGRESS
           end);
      wargs_delete (e_pid_tgid E)
  end.
End files.

(** ** The buffer of a file event *)

Definition io_wf (io : list Z) : Prop := Z.of_nat (length io) = IO_SIZE /\ bytes_ok io.
Definition io_fits (f : field) : bool := (f_off f + f_len f <=? 548)%nat.

Lemma io_put_bytes f b io : io_fits f = true -> bytes_ok b -> io_wf io -> io_wf (vput_bytes f b io).
Proof.
  intros Hf%Nat.leb_le Hb [H1 H2]. split; [| by apply vput_bytes_ok]. unfold IO_SIZE in *. unfold vput_bytes.
  rewrite !length_app, !length_take, length_app, !length_drop. lia.
Qed.
Lemma io_put f x io : io_fits f = true -> io_wf io -> io_wf (vput f x io).
Proof. intros Hf Hio. apply io_put_bytes; [done | apply le_bytes_ok | done]. Qed.
Lemma io_write io o b io' : io_wf io -> bytes_ok b -> write_at io o b = Some io' -> io_wf io'.
Proof.
  intros [H1 H2] Hb Hw. unfold write_at in Hw. case_match; [| done]. injection Hw as <-.
  apply andb_true_iff in H as [Ho%Z.leb_le Hl%Z.leb_le]. split.
  - rewrite !length_app, length_take, length_drop. lia.
  - apply Forall_app. split; [by apply Forall_take |]. apply Forall_app. split; [done | by apply Forall_drop].
Qed.
Lemma io_len_range io : io_wf io -> 0 <= vget i_len io < 2 ^ 32.
Proof.
  intros [H1 H2]. assert (length (vbytes i_len io) = 4%nat) as Hl.
  { unfold vbytes, IO_SIZE in *. rewrite length_take, length_drop. cbn [i_len f_off f_len]. lia. }
  pose proof (le_word_bound (vbytes i_len io)) as H. rewrite Hl in H. apply H. by apply Forall_take, Forall_drop.
Qed.
#[export] Hint Resolve io_put io_put_bytes : header.
#[export] Hint Extern 1 (io_fits _ = true) => reflexivity : header.

Section invariant.
Context {X : Counting} (E : env) (K : kenv) (HE : env_ok E) (HK : kenv_ok K) (HC : caps_ok K) (Hcomm : bytes_ok (e_comm E).2).

Lemma mount_ids_ok file o io : io_wf io -> io_wf (get_mount_ids K file o io).
Proof.
  intros Hio. unfold get_mount_ids. assert (forall a n, bytes_ok (k_read K a n).2) by apply (k_read_bytes K HK).
  repeat case_match; auto 10 with header.
Qed.

Lemma name_loop_ok o n : forall dentry io, io_wf io ->
  exists io', name_loop K o n dentry io = Some io' /\ io_wf io'.
Proof.
  induction n as [| n IH]; intros dentry io Hio; [by exists io |]. cbn [name_loop].
  destruct (Z.ltb_spec FILE_PATH_SZ (vget i_len io + Z.of_nat DENTRY_NAME_SIZE)) as [_ | Hlen]; [by exists io |].
  pose proof (k_str_len K HK (kr K 8 (dentry + o_dentry_name o)) DENTRY_NAME_SIZE) as Hl.
  pose proof (k_str_bytes K HK (kr K 8 (dentry + o_dentry_name o)) DENTRY_NAME_SIZE) as Hb.
  destruct (k_read_str K (kr K 8 (dentry + o_dentry_name o)) DENTRY_NAME_SIZE) as [ret bytes]. cbn [snd] in *.
  pose proof (io_len_range io Hio) as Hr. pose proof Hio as [Hsz _]. unfold FILE_PATH_SZ, IO_FILENAME, IO_SIZE in *.
  destruct (write_at_ok io (36 + vget i_len io) bytes) as (io1 & Hw & _); [lia | lia |]. rewrite Hw. cbn [mbind option_bind].
  apply (io_write _ _ _ _ Hio Hb) in Hw. assert (io_wf (vput i_len (u32 (vget i_len io + ret)) io1)) as Hio1 by auto with header.
  destruct (_ || _); [by eexists | by apply IH].
Qed.

Lemma file_metric_ok o fd io v : io_wf io -> hdr v ->
  exists io' v', set_file_metric_data K o fd io v = Some (io', v') /\ io_wf io' /\ hdr v' /\
    forall f, apart f v_tcp_seq = true -> vget f v' = vget f v.
Proof.
  intros Hio Hv. unfold set_file_metric_data. assert (forall a n, bytes_ok (k_read K a n).2) by apply (k_read_bytes K HK).
  destruct (_ =? 0); [by exists io, v |]. destruct (_ =? 0); [by exists io, v |]. destruct (_ =? 0); [by exists io, v |].
  match goal with |- context [name_loop K o MAX_DIRECTORY_DEPTH ?d ?i] => destruct (name_loop_ok o MAX_DIRECTORY_DEPTH d i) as (io' & -> & Hio') end.
  { apply io_put; [done |]. apply mount_ids_ok. auto with header. }
  cbn [mbind option_bind]. eexists _, _. split; [done |]. split_and!; auto with header. intros f Hf. by apply keep_bytes.
Qed.

(** What the header of a file event says. *)
Record io_header_ok (args : data_args) (goid trace_id : Z) (v : list Z) : Prop := {
  ih_fd : vget v_fd v = u32 (da_fd args);
  ih_task : vget v_tgid v = u32 (cur_tgid E) /\ vget v_pid v = u32 (cur_pid E);
  ih_goid : vget v_coroutine_id v = u64 goid;
  ih_time : vget v_timestamp v = u64 (da_enter_ts args);
  ih_len : vget v_syscall_len v = IO_SIZE;
  ih_source : vget v_source v = source_num DATA_SOURCE_IO_EVENT;
  ih_trace : vget v_thread_trace_id v = u64 trace_id;
  ih_msg : vget_msg_type v = msg_num MSG_COMMON }.

Lemma put_io_event_ok args goid trace_id cap v : hdr v ->
  let v' := put_io_event E args goid trace_id cap v in
  hdr v' /\ io_header_ok args goid trace_id v' /\ vget v_data_type v' = vget v_data_type v.
Proof.
  intros Hv. unfold put_io_event. cbv zeta. split; [is_hdr |]. split; [| repeat skip_put; done].
  constructor; try (split; put_value); try put_value.
  unfold vget_msg_type. lazymatch goal with |- Z.land (Z.shiftr ?b 1) 63 = _ => eassert (b = _) as -> by (repeat skip_put; reflexivity) end.
  match goal with |- context [vget v_bits (vput_msg_type _ ?w)] => assert (hdr w) as Hw by is_hdr; clear - Hw; revert Hw; generalize w end.
  intros v1 Hv1. destruct (put_bits v1 Hv1) as (_ & M & _). specialize (M (msg_num MSG_COMMON) ltac:(done)).
  unfold bits_are in M. rewrite !andb_true_iff, !Z.eqb_eq in M. destruct M as [[_ M] _]. exact M.
Qed.

(** The event of a file operation. *)
Definition io_event_is (o : member_offsets) (args : data_args) (goid trace_id limit : Z) (io : list Z) (e : list Z * list Z) : Prop :=
  io_header_ok args goid trace_id e.1 /\
  (IO_SIZE <= limit < 2 ^ 31 -> e.2 = io).

Lemma io_header_data_len args goid trace_id v n :
  hdr v -> io_header_ok args goid trace_id v -> io_header_ok args goid trace_id (vput v_data_len n v).
Proof.
  intros Hv [? [? ?]]. constructor; unfold vget_msg_type; rewrite ?keep_put; done.
Qed.

(** The payload of a file event is the whole buffer, when the limit allows it. *)
Lemma io_payload io limit d : io_wf io -> IO_SIZE <= limit < 2 ^ 31 ->
  plain_payload E K (inr io) (push_len IO_SIZE (s32 limit) 0) = Some d -> d = io.
Proof.
  intros [Hl _] Hlim. unfold IO_SIZE in *. unfold push_len. cbn [Z.ltb Z.compare].
  rewrite (swrap_small 32), (wrap_small 64) by lia. destruct (Z.ltb_spec limit 548); [lia |].
  rewrite wrap_small by lia. unfold plain_payload, read_data, read_io. change (BURST_DATA_BUF_SIZE <=? 548) with false.
  cbv iota. destruct (k_read K _ _) as [st bytes]. destruct (st =? 0); [| done]. intros [= <-].
  change (Z.min BURST_DATA_BUF_SIZE 548) with 548. rewrite take_take, Nat.min_l by lia. rewrite take_app_le by lia. apply take_ge. lia.
Qed.

(** The maps are in order when the context came back to what it was. *)
Lemma core_kept w w' t : maps_ok K w -> refcnt_typed w -> w_ctx w = Some t -> ctx_core <$> w_ctx w' = Some (ctx_core t) ->
  w_sock w' = w_sock w -> w_trace w' = w_trace w -> w_stats w' = w_stats w -> maps_ok K w' /\ refcnt_typed w'.
Proof.
  intros Hm Hr Ht Hc E1 E2 E3. destruct (w_ctx w') as [t2 |] eqn:Ht2; [| done]. cbn in Hc. apply (inj Some) in Hc. unfold ctx_core in Hc. split.
  - eapply maps_ok_same; [| exact Hm]. constructor; try congruence. rewrite Ht2, Ht. cbn. congruence.
  - intros t3 Ht3. rewrite Ht2 in Ht3. injection Ht3 as <-.
    replace (t_push_buffer_refcnt t2) with (t_push_buffer_refcnt t) by congruence. by apply Hr.
Qed.

Lemma plain_new_events args v L o io buffer : event_buffer v io args = Some buffer ->
  new_events E K io (Some args) false v L o false = [] \/
  exists d, plain_payload E K buffer L = Some d /\
    new_events E K io (Some args) false v L o false = with_payload v d :: second_event E (Some args) L (with_payload v d).
Proof.
  intros Hb. unfold new_events, payload. cbn [mbind option_bind]. rewrite Hb. cbn [mbind option_bind call_payload].
  destruct (plain_payload E K buffer L) as [d |]; [right; by exists d | by left].
Qed.

Lemma output_io_event_ok o args io goid trace_id limit w evs t :
  world_ok K w evs -> io_wf io -> w_ctx w = Some t ->
  wp (output_io_event E K o args io goid trace_id limit) w (fun _ w' => exists new,
    world_ok K w' (evs ++ new) /\ ctx_core <$> w_ctx w' = Some (ctx_core t) /\ w_trace w' = w_trace w /\
    w_sock w' = w_sock w /\ w_stats w' = w_stats w /\ args_kept w w' /\
    (new = [] \/ exists e io' v, new = [e] /\ set_file_metric_data K o (da_fd args) io (replicate HEAD 0) = Some (io', v) /\
       io_event_is o args goid trace_id limit io' e)).
Proof.
  intros Hw Hio Ht. unfold output_io_event. pose proof Hw as [Hm Hr Hlog Hca Hra Hwa Hpr Hst].
  pose proof Hlog as (b & sent & pend & Hli & Hevs). pose proof Hli as [Hb Hh Hnum Hs Hwio].
  apply wp_bind, wp_gets. rewrite Hb. apply wp_bind, wp_modify. rewrite Ht. cbn [fmap option_fmap option_map].
  set (t1 := t <| t_push_buffer_refcnt := _ |>). pose proof (refcnt_back _ (Hr t Ht)) as Hback.
  assert (ctx_core (t1 <| t_push_buffer_refcnt := s32 (t_push_buffer_refcnt t1 + -1) |>) = ctx_core t) as Hcore
    by (unfold ctx_core, t1; cbn; by rewrite Hback).
  destruct (Z.ltb_spec (BUF_DATA - SD_SIZE) (b_len b)) as [_ | Hroom].
  { apply wp_modify. set (w1 := _ <| w_ctx := _ |>). assert (ctx_core <$> w_ctx w1 = Some (ctx_core t)) as Hc1 by (exact (f_equal Some Hcore)).
    destruct (core_kept w w1 t) as [K1 K2]; try done. exists []. rewrite app_nil_r. split_and!; try done; [| by left].
    constructor; try done. by apply (logged_same w). }
  destruct (file_metric_ok o (da_fd args) io (replicate HEAD 0) Hio) as (io' & v0 & Hrun & Hio' & Hv0 & Hkeep).
  { split; [done | by apply Forall_replicate]. }
  apply wp_bind. eapply wp_lift; [exact Hrun |]. cbn [fst snd].
  destruct (put_io_event_ok args goid trace_id (k_ktime K 1) v0 Hv0) as (Hv & Hhd & Hty).
  rewrite Hkeep in Hty by done. change (vget v_data_type (replicate HEAD 0)) with 0 in Hty. set (v := put_io_event _ _ _ _ _ _) in *. clearbody v.
  set (w2 := w <| w_ctx := Some t1 |> <| w_io := Some io' |>).
  assert (logged_in w2 b sent pend) as Hli2 by (constructor; try done; by intros i [= <-]).
  destruct (header_output_ok E K HE HK (Some args) false (s32 limit) false 0 (k_ktime K 2) w2 b sent pend v t1) as (data & Hd & Hwp);
    try done. { rewrite (ih_msg _ _ _ _ Hhd). done. }
  apply wp_bind. eapply wp_lift; [exact Hd |]. apply wp_bind, wp_modify. eapply wp_mono; [exact Hwp |].
  rewrite (ih_len _ _ _ _ Hhd). intros [] w3 (F1 & F2 & F3 & F4 & F5 & F6 & F7 & F8 & Hl).
  rewrite Hcore in F8. destruct (core_kept w w3 t) as [K1 K2]; try done.
  unfold w_fixed in F7. cbn in F7. injection F7 as G1 G2 G3 G4 G5 G6.
  assert (forall new, logged w3 (evs ++ new) -> world_ok K w3 (evs ++ new)) as Hok
    by (intros new Hn; constructor; rewrite ?F5, ?G1, ?G2, ?G5, ?G6; done).
  rewrite <- Hevs in Hl. change (w_io w2) with (Some io') in Hl. eexists. unfold args_kept. split; [apply Hok; exact Hl |]. split_and!; auto.
  destruct (plain_new_events args v (push_len IO_SIZE (s32 limit) 0) (b_len b) (Some io') (inr io')) as [-> | (d & Hpay & ->)].
  - unfold event_buffer. by rewrite (ih_source _ _ _ _ Hhd).
  - by left.
  - right. exists (with_payload v d), io', v0. split; [| split; [exact Hrun |]].
    + unfold second_event. cbn [with_payload fst]. rewrite keep_put, Hty by done. by rewrite orb_true_r.
    + split; [by apply io_header_data_len |]. intros Hlim. by apply (io_payload io' limit).
Qed.

(** The numbers at the start of the buffer are those of the operation. *)
Lemma take_put_ge n f b io : (n <= f_off f)%nat -> (f_off f <= length io)%nat -> take n (vput_bytes f b io) = take n io.
Proof. intros Hn Hf. unfold vput_bytes. rewrite take_app_le by (rewrite length_take; lia). rewrite take_take. f_equal. lia. Qed.
Lemma take_write_ge n io o b io' : write_at io o b = Some io' -> Z.of_nat n <= o -> take n io' = take n io.
Proof.
  unfold write_at. intros Hw Hn. case_match eqn:H; [| done]. injection Hw as <-. apply andb_true_iff in H as [Ho%Z.leb_le Hl%Z.leb_le].
  rewrite take_app_le by (rewrite length_take; lia). rewrite take_take. f_equal. lia.
Qed.
Lemma name_loop_start o n : forall dentry io io', io_wf io -> name_loop K o n dentry io = Some io' -> take 16 io' = take 16 io.
Proof.
  induction n as [| n IH]; intros dentry io io' Hio; cbn [name_loop]; [by intros [= <-] |].
  destruct (_ <? _); [by intros [= <-] |].
  pose proof (k_str_bytes K HK (kr K 8 (dentry + o_dentry_name o)) DENTRY_NAME_SIZE) as Hb.
  destruct (k_read_str K (kr K 8 (dentry + o_dentry_name o)) DENTRY_NAME_SIZE) as [ret bytes]. cbn [snd] in Hb.
  destruct (write_at io _ bytes) as [io1 |] eqn:Hw; [| done]. cbn [mbind option_bind].
  pose proof (io_len_range io Hio). pose proof (io_write _ _ _ _ Hio Hb Hw) as Hio1. apply (take_write_ge 16) in Hw; [| unfold IO_FILENAME; lia].
  assert (take 16 (vput i_len (u32 (vget i_len io + ret)) io1) = take 16 io) as He.
  { unfold vput. rewrite take_put_ge; [done | cbn; lia |]. destruct Hio1 as [Hl _]. unfold IO_SIZE in Hl. cbn. lia. }
  destruct (_ || _); [by intros [= <-] |]. intros Hr. apply IH in Hr; [congruence | auto with header].
Qed.
Lemma mount_ids_start file o io : io_wf io -> take 16 (get_mount_ids K file o io) = take 16 io.
Proof.
  intros Hio. unfold get_mount_ids, vput. assert (forall a n, bytes_ok (k_read K a n).2) by apply (k_read_bytes K HK).
  assert (forall i f b, io_wf i -> (16 <= f_off f <= 548)%nat -> take 16 (vput_bytes f b i) = take 16 i) as Hp.
  { intros i f b [Hl _] Hf. unfold IO_SIZE in Hl. apply take_put_ge; lia. }
  repeat case_match; rewrite ?Hp; auto 10 with header; try (cbn; lia); repeat apply io_put_bytes; auto using le_bytes_ok.
Qed.
Lemma file_metric_start o fd io v io' v' : io_wf io -> set_file_metric_data K o fd io v = Some (io', v') -> take 16 io' = take 16 io.
Proof.
  intros Hio. unfold set_file_metric_data. assert (forall a n, bytes_ok (k_read K a n).2) by apply (k_read_bytes K HK).
  destruct (_ =? 0); [by intros [= <- _] |]. destruct (_ =? 0); [by intros [= <- _] |]. destruct (_ =? 0); [by intros [= <- _] |].
  set (i1 := vput_bytes i_offset _ io). assert (io_wf i1) as H1 by (unfold i1; auto with header).
  assert (take 16 i1 = take 16 io) as He1.
  { apply take_put_ge; [cbn; lia |]. destruct Hio as [Hl _]. unfold IO_SIZE in Hl. cbn. lia. }
  match goal with |- context [get_mount_ids K ?f o i1] => pose proof (mount_ids_ok f o i1 H1) as H2; pose proof (mount_ids_start f o i1 H1) as He2;
    set (i2 := get_mount_ids K f o i1) in * end.
  destruct (name_loop _ _ _ _ _) as [i3 |] eqn:Hn; [| done]. intros [= <- _].
  apply name_loop_start in Hn; [| auto with header]. rewrite Hn. unfold vput. rewrite take_put_ge; [congruence | cbn; lia |].
  destruct H2 as [Hl _]. unfold IO_SIZE in Hl. cbn. lia.
Qed.

(** The key of the thread, and the identifier of its trace. *)
Definition io_trace_key (ctx : tracer_ctx) (w : world) : trace_key :=
  match get_trace_key E K (t_go_tracing_timeout ctx) false w with Some (key, _) => key | None => mk_key 0 0 0 end.
Definition io_trace_id (ctx : tracer_ctx) (w : world) : Z :=
  match w_trace w !! io_trace_key ctx w with Some t => ti_thread_trace_id t | None => 0 end.
Lemma trace_key_io ctx w : get_trace_key E K (t_go_tracing_timeout ctx) false w = Some (io_trace_key ctx w, w).
Proof.
  unfold io_trace_key, get_trace_key, get_rw_goid, mbind, M_bind, mret, M_ret, gets. destruct (_ =? 0); [done |].
  destruct (get_current_goroutine _ _ =? 0); [done |]. by destruct (ancestor_loop _ _ _ _ _ _).
Qed.
Lemma io_trace_key_go ctx w w' : w_go w' = w_go w -> io_trace_key ctx w' = io_trace_key ctx w.
Proof.
  intros Hg. unfold io_trace_key, get_trace_key, get_rw_goid, mbind, M_bind, mret, M_ret, gets. destruct (_ =? 0); [done |]. cbv beta iota. rewrite Hg.
  destruct (get_current_goroutine _ _ =? 0); [done |]. by destruct (ancestor_loop _ _ _ _ _ _).
Qed.

Lemma vget_start f io io' : (f_off f + f_len f <= 16)%nat -> take 16 io' = take 16 io -> vget f io' = vget f io.
Proof.
  intros Hf He. unfold vget, vbytes. assert (forall i : list Z, take (f_len f) (drop (f_off f) i) = take (f_len f) (drop (f_off f) (take 16 i))) as Hd.
  { intros i. rewrite skipn_firstn_comm, take_take. f_equal. lia. }
  rewrite (Hd io), (Hd io'). by rewrite He.
Qed.

(** What is reported of an operation that took part in the trace [id]. *)
Record io_reported (o : member_offsets) (args : data_args) (direction : traffic_direction) (ctx : tracer_ctx) (goid id : Z)
    (e : list Z * list Z) : Prop := {
  ir_moved : 0 < da_bytes_count args;
  ir_mode : t_io_event_collect_mode ctx <> 0 /\ (t_io_event_collect_mode ctx = 1 -> id <> 0);
  ir_file : is_readable_file K (da_fd args) (negb (t_virtual_file_collect_enabled ctx)) o = true;
  ir_slow : t_io_event_minimal_duration ctx <= io_latency args (k_ktime K 0);
  ir_head : io_header_ok args goid id e.1;
  ir_data : IO_SIZE <= t_data_limit_max ctx < 2 ^ 31 ->
    Z.of_nat (length e.2) = IO_SIZE /\ vget i_bytes_count e.2 = u32 (da_bytes_count args) /\
    vget i_operation e.2 = dir_num direction /\ vget i_latency e.2 = u64 (io_latency args (k_ktime K 0)) }.

Definition io_post (offset : option member_offsets) (args : data_args) (direction : traffic_direction) (w w' : world) evs new : Prop :=
  world_ok K w' (evs ++ new) /\ ctx_core <$> w_ctx w' = ctx_core <$> w_ctx w /\ w_trace w' = w_trace w /\
  args_kept w w' /\
  (new = [] \/ exists e ctx o, new = [e] /\ w_ctx w = Some ctx /\
     io_offset offset w = Some o /\ io_reported o args direction ctx (k_goid (io_trace_key ctx w)) (io_trace_id ctx w) e).

Lemma io_numbers args direction lat io io' : io_wf io ->
  let i := vput i_operation (dir_num direction) (vput i_latency lat (vput i_bytes_count (da_bytes_count args) io)) in
  take 16 io' = take 16 i ->
  vget i_bytes_count io' = u32 (da_bytes_count args) /\ vget i_operation io' = dir_num direction /\ vget i_latency io' = u64 lat.
Proof.
  intros [Hl _] i He. unfold IO_SIZE in Hl. rewrite !(fun f Hf => vget_start f _ _ Hf He) by (cbn; lia). unfold i. clear i He.
  assert (forall f x i, (f_off f + f_len f <= 16)%nat -> length i = 548%nat -> length (vput f x i) = 548%nat) as Hlen
    by (intros f x i Hf Hi; rewrite vput_length; lia).
  assert (length io = 548%nat) as Hl' by lia.
  rewrite (vget_vput_ne i_bytes_count i_operation), (vget_vput_ne i_bytes_count i_latency), (vget_vput_ne i_latency i_operation), !vget_vput;
    try done; try (repeat rewrite Hlen; first [done | cbn; lia]).
  split_and!; try done. by destruct direction.
Qed.

Lemma trace_io_event_ok offset args direction w evs :
  world_ok K w evs ->
  wp (trace_io_event_common E K offset args direction) w (fun _ w' => exists new, io_post offset args direction w w' evs new).
Proof.
  intros Hw. unfold trace_io_event_common.
  assert (exists new, io_post offset args direction w w evs new) as Hskip.
  { exists []. unfold io_post. rewrite app_nil_r. split_and!; try done. by left. }
  destruct (Z.leb_spec (da_bytes_count args) 0) as [| Hpos]; [by apply wp_ret |].
  apply wp_bind, wp_gets. destruct (w_ctx w) as [ctx |] eqn:Hctx; [| by apply wp_ret].
  destruct (Z.eqb_spec (t_io_event_collect_mode ctx) 0) as [| Hmode]; [by apply wp_ret |].
  apply wp_bind, (wp_value _ _ _ _ _ (trace_key_io ctx w)).
  apply wp_bind, wp_gets. fold (io_trace_id ctx w). set (key := io_trace_key ctx w). set (id := io_trace_id ctx w).
  destruct (_ && _) eqn:Hid; [by apply wp_ret |]. apply wp_bind, wp_gets.
  destruct (io_offset offset w) as [o |] eqn:Ho; [| by apply wp_ret]. destruct (is_readable_file _ _ _ _) eqn:Hfile; [cbn [negb] | by apply wp_ret].
  destruct (Z.ltb_spec (io_latency args (k_ktime K 0)) (t_io_event_minimal_duration ctx)) as [| Hslow]; [by apply wp_ret |].
  apply wp_bind, wp_gets. destruct (w_io w) as [io |] eqn:Hio; [| by apply wp_ret].
  assert (io_wf io) as Hwf. { destruct Hw as [_ _ (b & sent & pend & [_ _ _ _ Hi] & _) _ _ _ _]. by apply Hi. }
  set (io1 := vput i_operation _ _). assert (io_wf io1) as Hwf1 by (unfold io1; auto with header).
  apply wp_bind, wp_modify. set (w1 := w <| w_io := Some io1 |>).
  assert (world_ok K w1 evs) as Hw1.
  { destruct Hw as [H1 H2 (b & sent & pend & [] & He) H4 H5 H6 H7 H8]. constructor; try done.
    - by apply (maps_ok_same K w).
    - exists b, sent, pend. split; [| done]. constructor; try done. by intros i [= <-]. }
  eapply wp_mono; [by apply (output_io_event_ok o args io1 (k_goid key) id (t_data_limit_max ctx) w1 evs ctx) |].
  intros [] w' (new & G1 & G2 & G3 & G4 & G5 & G6 & Hnew). exists new. unfold io_post. rewrite Hctx. split_and!; try done.
  destruct Hnew as [-> | (e & io' & v & -> & Hrun & Hh & Hd)]; [by left |]. right. exists e, ctx, o. split_and!; try done.
  fold key id. constructor; try done.
  - split; [done |]. intros H1 ->. rewrite H1 in Hid. done.
  - intros Hlim. rewrite (Hd Hlim). destruct (file_metric_ok o (da_fd args) io1 (replicate HEAD 0) Hwf1) as (i2 & v2 & Hrun2 & [Hl2 _] & _).
    { split; [done | by apply Forall_replicate]. } rewrite Hrun in Hrun2. injection Hrun2 as <- <-. split; [done |].
    apply (io_numbers args direction _ io); [done |]. by apply (file_metric_start o (da_fd args) io1 (replicate HEAD 0) io' v).
Qed.

(** ** The handlers *)

Lemma args_update_ok w evs (m : gmap Z data_args) f :
  (forall id a, m !! id = Some a -> args_ok a) -> f = w <| w_rargs := m |> \/ f = w <| w_wargs := m |> ->
  world_ok K w evs -> world_ok K f evs.
Proof.
  intros Hm Hf [H1 H2 H3 H4 H5 H6 H7 H8]. destruct Hf as [-> | ->]; constructor; try done; try (by apply (maps_ok_same K w)); by apply (logged_same w).
Qed.
Lemma htab_args_ok id a (m : gmap Z data_args) :
  args_ok a -> (forall i b, m !! i = Some b -> args_ok b) -> forall i b, (htab_update (k_max_args K) id a m).2 !! i = Some b -> args_ok b.
Proof.
  intros Ha Hm i b. destruct (htab_update_cases (k_max_args K) id a m) as [[-> _] | [-> _]]; cbn [snd]; [| apply Hm].
  destruct (decide (i = id)) as [-> | Hne]; [rewrite lookup_insert_eq; by intros [= <-] | rewrite lookup_insert_ne by done; apply Hm].
Qed.
Lemma zero_args_ok f : da_addr f = replicate 16 0 -> da_port f = 0 -> args_ok f.
Proof. intros Hf Hp. unfold args_ok. rewrite Hf, Hp. split; [| done]. split; [done | by apply Forall_replicate]. Qed.

Lemma htab_others id a (m : gmap Z data_args) i : i <> id -> (htab_update (k_max_args K) id a m).2 !! i = m !! i.
Proof.
  intros Hi. destruct (htab_update_cases (k_max_args K) id a m) as [[-> _] | [-> _]]; [by apply lookup_insert_ne | done].
Qed.

Lemma enter_pread_ok fd w evs : world_ok K w evs ->
  wp (do_sys_enter_pread E K fd) w (fun _ w' => world_ok K w' evs /\ others_kept (e_pid_tgid E) w w' /\ w_up w' = w_up w /\ w_ctx w' = w_ctx w).
Proof.
  intros Hw. unfold do_sys_enter_pread. apply wp_bind, wp_gets. destruct (w_offset w) as [o |]; [| by apply wp_ret].
  apply wp_bind, wp_modify. generalize (infer_mount_offset E K fd o).2. intros o'. set (w1 := w <| w_offset := Some o' |>). apply wp_modify.
  assert (world_ok K w1 evs) as Hw1.
  { destruct Hw; constructor; try done; [by apply (maps_ok_same K w) | by apply (logged_same w)]. }
  split_and!; [| intros i Hi; cbn; by rewrite htab_others | done | done].
  eapply args_update_ok; [| by left | exact Hw1]. apply htab_args_ok; [by apply zero_args_ok | apply (wo_rargs _ _ _ Hw1)].
Qed.
Lemma enter_pwrite_ok fd w evs : world_ok K w evs ->
  wp (do_sys_enter_pwrite E K fd) w (fun _ w' => world_ok K w' evs /\ others_kept (e_pid_tgid E) w w' /\ w_up w' = w_up w /\ w_ctx w' = w_ctx w).
Proof.
  intros Hw. unfold do_sys_enter_pwrite. apply wp_bind, wp_gets. destruct (w_offset w) as [o |]; [| by apply wp_ret]. apply wp_modify.
  split_and!; [| intros i Hi; cbn; by rewrite htab_others | done | done].
  eapply args_update_ok; [| by right | exact Hw]. apply htab_args_ok; [by apply zero_args_ok | apply (wo_wargs _ _ _ Hw)].
Qed.

Lemma alter_args_ok id a (m : gmap Z data_args) :
  args_ok a -> (forall i b, m !! i = Some b -> args_ok b) -> forall i b, alter (fun _ => a) id m !! i = Some b -> args_ok b.
Proof.
  intros Ha Hm i b. destruct (decide (i = id)) as [-> | Hne]; [| rewrite lookup_alter_ne by done; apply Hm].
  rewrite lookup_alter_eq. by destruct (m !! id) as [x |]; intros [= <-].
Qed.
Lemma delete_args_ok id (m : gmap Z data_args) :
  (forall i b, m !! i = Some b -> args_ok b) -> forall i b, delete id m !! i = Some b -> args_ok b.
Proof. intros Hm i b [_ Hb]%lookup_delete_Some. by apply (Hm i). Qed.

(** The exit of an operation: its entry is taken out of the map. *)
Definition io_exit_post (offset : option member_offsets) (a : data_args) (direction : traffic_direction) (w w' : world) evs : Prop :=
  exists new, world_ok K w' (evs ++ new) /\ others_kept (e_pid_tgid E) w w' /\ w_up w' = w_up w /\ w_trace w' = w_trace w /\
    w_offset w' = w_offset w /\
    ctx_core <$> w_ctx w' = ctx_core <$> w_ctx w /\
    (new = [] \/ exists e ctx o, io_offset offset w = Some o /\ new = [e] /\ w_ctx w = Some ctx /\
       io_reported o a direction ctx (k_goid (io_trace_key ctx w)) (io_trace_id ctx w) e).

Lemma io_exit_ok offset a direction w w1 evs :
  world_ok K w evs -> args_ok a -> w1 = w \/
  w1 = w <| w_rargs := alter (fun _ => a) (e_pid_tgid E) (w_rargs w) |> \/
  w1 = w <| w_wargs := alter (fun _ => a) (e_pid_tgid E) (w_wargs w) |> ->
  wp (trace_io_event_common E K offset a direction) w1 (fun _ w2 => forall w3,
    w3 = w2 <| w_rargs := delete (e_pid_tgid E) (w_rargs w2) |> \/ w3 = w2 <| w_wargs := delete (e_pid_tgid E) (w_wargs w2) |> ->
    io_exit_post offset a direction w w3 evs).
Proof.
  intros Hw Ha Hw1. assert (world_ok K w1 evs) as Hok1.
  { destruct Hw1 as [-> | [-> | ->]]; [done | |]; (eapply args_update_ok; [| auto | exact Hw]); apply alter_args_ok; try done; apply Hw. }
  assert (w_ctx w1 = w_ctx w /\ w_trace w1 = w_trace w /\ w_go w1 = w_go w /\ w_offset w1 = w_offset w /\ w_up w1 = w_up w) as (C1 & C2 & C3 & C4 & C5)
    by (by destruct Hw1 as [-> | [-> | ->]]).
  eapply wp_mono; [by apply (trace_io_event_ok offset a direction w1 evs) |].
  intros [] w2 (new & P1 & P2 & P3 & (P4 & P5 & P6 & Pu) & P7) w3 Hw3. exists new. split.
  { destruct Hw3 as [-> | ->]; (eapply args_update_ok; [| auto | exact P1]); apply delete_args_ok; apply P1. }
  split. { intros i Hi. destruct Hw3 as [-> | ->]; cbn; rewrite ?lookup_delete_ne by done; rewrite P4, P5, Pu;
    destruct Hw1 as [-> | [-> | ->]]; cbn; by rewrite ?lookup_alter_ne by done. }
  assert (w_ctx w3 = w_ctx w2 /\ w_trace w3 = w_trace w2 /\ w_offset w3 = w_offset w2 /\ w_up w3 = w_up w2) as (-> & -> & -> & ->) by (by destruct Hw3 as [-> | ->]).
  unfold io_trace_id in *. rewrite <- C1, <- C2. split_and!; try congruence.
  destruct P7 as [-> | (e & ctx & o & -> & P9 & Po & P10)]; [by left |]. right. exists e, ctx, o. assert (io_offset offset w = Some o) as ->
    by (rewrite <- Po; unfold io_offset; by rewrite C4). rewrite (io_trace_key_go ctx w w1 C3) in P10.
  split_and!; congruence || done.
Qed.

Definition io_step_post (o : option member_offsets) (args : option data_args) (bytes_count : Z) (direction : traffic_direction) (w w' : world) evs : Prop :=
  match o, args with
  | Some o, Some a => io_exit_post (Some o) (a <| da_bytes_count := bytes_count |>) direction w w' evs
  | _, _ => world_ok K w' evs /\ others_kept (e_pid_tgid E) w w' /\ w_up w' = w_up w /\ w_trace w' = w_trace w /\ w_ctx w' = w_ctx w
  end.

Lemma exit_pread_ok n w evs : world_ok K w evs ->
  wp (do_sys_exit_pread E K n) w (fun _ w' => io_step_post (w_offset w) (w_rargs w !! e_pid_tgid E) n T_INGRESS w w' evs).
Proof.
  intros Hw. unfold do_sys_exit_pread. apply wp_bind, wp_gets. destruct (w_offset w) as [o |]; [| by apply wp_ret].
  apply wp_bind, wp_gets. destruct (w_rargs w !! e_pid_tgid E) as [a |] eqn:Ha.
  - apply wp_bind, wp_bind, wp_modify. eapply wp_mono; [apply (io_exit_ok (Some o) _ T_INGRESS w); [done | by apply (wo_rargs _ _ _ Hw _ _ Ha) | by right; left] |].
    intros [] w2 H. apply wp_modify, H. by left.
  - apply wp_bind, wp_ret, wp_modify. split_and!; try done; [| intros i Hi; cbn; by rewrite lookup_delete_ne].
    eapply args_update_ok; [| by left | exact Hw]. apply delete_args_ok, Hw.
Qed.
Lemma exit_pwrite_ok n w evs : world_ok K w evs ->
  wp (do_sys_exit_pwrite E K n) w (fun _ w' => io_step_post (w_offset w) (w_wargs w !! e_pid_tgid E) n T_EGRESS w w' evs).
Proof.
  intros Hw. unfold do_sys_exit_pwrite. apply wp_bind, wp_gets. destruct (w_offset w) as [o |]; [| by apply wp_ret].
  apply wp_bind, wp_gets. destruct (w_wargs w !! e_pid_tgid E) as [a |] eqn:Ha.
  - apply wp_bind, wp_bind, wp_modify. eapply wp_mono; [apply (io_exit_ok (Some o) _ T_EGRESS w); [done | by apply (wo_wargs _ _ _ Hw _ _ Ha) | by right; right] |].
    intros [] w2 H. apply wp_modify, H. by right.
  - apply wp_bind, wp_ret, wp_modify. split_and!; try done; [| intros i Hi; cbn; by rewrite lookup_delete_ne].
    eapply args_update_ok; [| by right | exact Hw]. apply delete_args_ok, Hw.
Qed.

(** [io_event] takes the entry of a read before that of a write. *)
Lemma io_event_ok w evs : world_ok K w evs ->
  wp (io_event E K) w (fun _ w' => world_ok K w' evs /\ w' = w \/ exists a d, io_exit_post None a d w w' evs).
Proof.
  intros Hw. unfold io_event. apply wp_bind, wp_gets. destruct (w_rargs w !! e_pid_tgid E) as [a |] eqn:Ha.
  { apply wp_bind. eapply wp_mono; [apply (io_exit_ok None a T_INGRESS w w); [done | by apply (wo_rargs _ _ _ Hw _ _ Ha) | by left] |].
    intros [] w2 H. apply wp_modify. right. exists a, T_INGRESS. apply H. by left. }
  apply wp_bind, wp_gets. destruct (w_wargs w !! e_pid_tgid E) as [a |] eqn:Ha'; [| apply wp_ret; by left].
  apply wp_bind. eapply wp_mono; [apply (io_exit_ok None a T_EGRESS w w); [done | by apply (wo_wargs _ _ _ Hw _ _ Ha') | by left] |].
  intros [] w2 H. apply wp_modify. right. exists a, T_EGRESS. apply H. by right.
Qed.
End invariant.

(** ** The path *)

(** [names] are the names from the directory entry [d] up to the root of its file
    system, each with its terminating zero, as the kernel has them. *)
Definition name_at (K : kenv) (o : member_offsets) (d : Z) (name : list Z) : Prop :=
  k_read_str K (kr K 8 (d + o_dentry_name o)) DENTRY_NAME_SIZE = (Z.of_nat (length name), name).
Definition parent_of (K : kenv) (o : member_offsets) (d : Z) : Z := kr K 8 (d + o_d_parent o).
Inductive dentry_path (K : kenv) (o : member_offsets) : Z -> list (list Z) -> Prop :=
  | dentry_root d name : name_at K o d name -> parent_of K o d = d \/ parent_of K o d = 0 -> dentry_path K o d [name]
  | dentry_up d name names : name_at K o d name -> parent_of K o d <> d -> parent_of K o d <> 0 ->
      dentry_path K o (parent_of K o d) names -> dentry_path K o d (name :: names).

(** How many of the names are taken, with [n] steps left and [len] bytes used. *)
Fixpoint names_taken (n : nat) (len : Z) (names : list (list Z)) : nat :=
  match n, names with
  | S n, name :: names => if FILE_PATH_SZ <? len + Z.of_nat DENTRY_NAME_SIZE then 0
                          else S (names_taken n (len + Z.of_nat (length name)) names)
  | _, _ => 0
  end.

Section paths.
Context (K : kenv) (HK : kenv_ok K).

(** The text of the buffer. *)
Definition io_text (io : list Z) : list Z := take (Z.to_nat (vget i_len io)) (drop (Z.to_nat IO_FILENAME) io).

Lemma io_text_append io name io1 : io_wf io -> bytes_ok name -> (length name <= DENTRY_NAME_SIZE)%nat ->
  vget i_len io + Z.of_nat DENTRY_NAME_SIZE <= FILE_PATH_SZ ->
  write_at io (IO_FILENAME + vget i_len io) name = Some io1 ->
  let io2 := vput i_len (u32 (vget i_len io + Z.of_nat (length name))) io1 in
  io_wf io2 /\ vget i_len io2 = vget i_len io + Z.of_nat (length name) /\ io_text io2 = io_text io ++ name.
Proof.
  intros Hio Hn Hl Hfit Hw io2. pose proof (io_len_range io Hio) as Hr. pose proof (io_write _ _ _ _ Hio Hn Hw) as Hio1.
  assert (io_wf io2) as Hio2 by (unfold io2; auto with header). pose proof Hio as [Hz _]. pose proof Hio1 as [Hz1 _].
  unfold FILE_PATH_SZ, IO_FILENAME, IO_SIZE in *.
  assert (vget i_len io2 = vget i_len io + Z.of_nat (length name)) as Hlen.
  { unfold io2. rewrite vget_vput by (cbn; lia). change (8 * Z.of_nat (f_len i_len)) with 32. rewrite wrap_small by lia. apply Z.mod_small. lia. }
  split; [done |]. split; [done |]. unfold io_text, IO_FILENAME. rewrite Hlen.
  assert (drop (Z.to_nat 36) io2 = drop (Z.to_nat 36) io1) as ->.
  { unfold io2, vput, vput_bytes. rewrite drop_app_ge by (rewrite length_take; cbn [i_len f_off]; lia).
    rewrite drop_app_ge; rewrite !length_take, ?length_app, ?length_drop, le_bytes_length; cbn [i_len f_off f_len]; [| lia].
    rewrite drop_drop. f_equal. lia. }
  unfold write_at in Hw. case_match eqn:Hc; [| done]. injection Hw as <-. rewrite drop_app_le by (rewrite length_take; lia).
  rewrite skipn_firstn_comm. set (t := drop (Z.to_nat 36) io).
  replace (Z.to_nat (36 + vget i_len io) - Z.to_nat 36)%nat with (Z.to_nat (vget i_len io)) by lia.
  assert (length (take (Z.to_nat (vget i_len io)) t) = Z.to_nat (vget i_len io)) as Ht by (unfold t; rewrite length_take, length_drop; lia).
  rewrite take_app_ge by lia. f_equal. rewrite Ht, take_app_le by lia. apply take_ge. lia.
Qed.

Lemma name_loop_path o names : forall n d io, dentry_path K o d names -> io_wf io ->
  let k := names_taken n (vget i_len io) names in
  exists io', name_loop K o n d io = Some io' /\ io_wf io' /\ io_text io' = io_text io ++ concat (take k names) /\
    vget i_len io' = vget i_len io + Z.of_nat (length (concat (take k names))).
Proof.
  induction names as [| name names IH]; intros n d io Hp Hio; [inversion Hp |].
  assert (exists io', Some io = Some io' /\ io_wf io' /\ io_text io' = io_text io ++ [] /\ vget i_len io' = vget i_len io + 0) as Hstop
    by (exists io; by rewrite app_nil_r, Z.add_0_r).
  destruct n as [| n]; [done |]. cbn [name_loop names_taken].
  destruct (Z.ltb_spec FILE_PATH_SZ (vget i_len io + Z.of_nat DENTRY_NAME_SIZE)) as [_ | Hfit]; [done |].
  assert (name_at K o d name) as Hname by (by inversion Hp).
  pose proof (k_str_len K HK (kr K 8 (d + o_dentry_name o)) DENTRY_NAME_SIZE) as Hl.
  pose proof (k_str_bytes K HK (kr K 8 (d + o_dentry_name o)) DENTRY_NAME_SIZE) as Hb. unfold name_at in Hname.
  rewrite Hname in *. cbn [snd] in *. pose proof (io_len_range io Hio) as Hr. pose proof Hio as [Hsz _].
  destruct (write_at_ok io (IO_FILENAME + vget i_len io) name) as (io1 & Hw & _); [unfold IO_FILENAME; lia |
    unfold FILE_PATH_SZ, IO_FILENAME, IO_SIZE in *; lia |]. rewrite Hw. cbn [mbind option_bind].
  destruct (io_text_append io name io1 Hio Hb Hl Hfit Hw) as (Hio2 & Hlen & Htext). set (io2 := vput i_len _ io1) in *.
  cbn [take concat]. rewrite length_app, Nat2Z.inj_add, Z.add_assoc, <- Hlen, app_assoc, <- Htext. clearbody io2.
  inversion Hp as [? ? ? Hpar | ? ? ? ? Hp1 Hp2 Hp3]; subst.
  - fold (parent_of K o d). assert ((parent_of K o d =? d) || (parent_of K o d =? 0) = true) as ->.
    { destruct Hpar as [-> | ->]; [by rewrite Z.eqb_refl | by rewrite orb_true_r]. }
    exists io2. rewrite take_nil. cbn [concat length]. rewrite app_nil_r, Z.add_0_r. done.
  - fold (parent_of K o d). destruct (Z.eqb_spec (parent_of K o d) d); [done |]. destruct (Z.eqb_spec (parent_of K o d) 0); [done |].
    cbn [orb]. by apply IH.
Qed.

Lemma names_taken_le n : forall len names, (names_taken n len names <= n)%nat.
Proof.
  induction n as [| n IH]; intros len [| name names]; cbn [names_taken]; try lia. case_match; [lia |].
  specialize (IH (len + Z.of_nat (length name)) names). lia.
Qed.

Lemma names_taken_all n : forall len names, (length names <= n)%nat ->
  (forall pre name post, names = pre ++ name :: post -> len + Z.of_nat (length (concat pre)) + Z.of_nat DENTRY_NAME_SIZE <= FILE_PATH_SZ) ->
  names_taken n len names = length names.
Proof.
  induction n as [| n IH]; intros len [| name names] Hn Hfit; cbn [names_taken length] in *; try done; try lia.
  pose proof (Hfit [] name names eq_refl) as H0. cbn [concat length] in H0.
  destruct (Z.ltb_spec FILE_PATH_SZ (len + Z.of_nat DENTRY_NAME_SIZE)); [lia |]. f_equal. apply IH; [lia |].
  intros pre name' post ->. specialize (Hfit (name :: pre) name' post eq_refl). cbn [concat] in Hfit. rewrite length_app in Hfit. lia.
Qed.

(** The buffer before the names are read. *)
Lemma file_metric_names o fd io v :
  let file := fd_to_file K fd (Some o) in
  let f_inode := kr K 8 (file + o_f_inode o) in
  io_wf io -> file <> 0 -> f_inode <> 0 -> kr K 8 (f_inode + o_i_sb o) <> 0 ->
  exists io1 v', io_wf io1 /\ vget i_len io1 = 0 /\ set_file_metric_data K o fd io v =
    (io ← name_loop K o MAX_DIRECTORY_DEPTH (kr K 8 (file + o_file_dentry o)) io1; Some (io, v')).
Proof.
  intros file f_inode Hio Hf Hi Hs. unfold set_file_metric_data. fold file f_inode.
  apply Z.eqb_neq in Hf as ->. apply Z.eqb_neq in Hi as ->. apply Z.eqb_neq in Hs as ->.
  set (io1 := get_mount_ids _ _ _ _). assert (io_wf io1) as Hio1.
  { apply mount_ids_ok; [done |]. apply io_put_bytes; [done | apply (k_read_bytes K HK) | done]. }
  clearbody io1. exists (vput i_len 0 io1). eexists. split; [auto with header |]. split; [| reflexivity].
  rewrite vget_vput; [done |]. destruct Hio1 as [Hl _]. unfold IO_SIZE in Hl. change (f_off i_len + f_len i_len)%nat with 36%nat. lia.
Qed.

(** C40: the path of a file event. The text of the buffer is the names from the
    file up to the root of its file system, in this order, each with its
    terminating zero, as far as 18 of them and the 512 bytes go; and all of them
    when there are at most 18 and those before the last take at most 256 bytes. *)
Theorem file_path_recorded o fd io v names :
  let file := fd_to_file K fd (Some o) in
  let f_inode := kr K 8 (file + o_f_inode o) in
  io_wf io -> file <> 0 -> f_inode <> 0 -> kr K 8 (f_inode + o_i_sb o) <> 0 ->
  dentry_path K o (kr K 8 (file + o_file_dentry o)) names ->
  exists io' v' k, set_file_metric_data K o fd io v = Some (io', v') /\
    vget i_len io' = Z.of_nat (length (concat (take k names))) /\
    io_text io' = concat (take k names) /\ (0 < k <= MAX_DIRECTORY_DEPTH)%nat /\
    ((length names <= MAX_DIRECTORY_DEPTH)%nat -> (length (concat (removelast names)) <= 256)%nat -> take k names = names).
Proof.
  intros file f_inode Hio Hf Hi Hs Hp. destruct (file_metric_names o fd io v Hio Hf Hi Hs) as (io1 & v' & Hio1 & Hl0 & ->). fold file.
  destruct (name_loop_path o names MAX_DIRECTORY_DEPTH _ io1 Hp Hio1) as (io2 & Hr & _ & Ht & Hl).
  assert (io_text io1 = []) as Ht1 by (unfold io_text; by rewrite Hl0).
  rewrite Hr, Hl0, Ht1 in *. cbn [mbind option_bind]. eexists _, _, _. split; [reflexivity |]. split; [exact Hl |]. split; [exact Ht |].
  split.
  - pose proof (names_taken_le MAX_DIRECTORY_DEPTH 0 names). split; [| done].
    destruct names as [| name names]; [inversion Hp |]. change (names_taken MAX_DIRECTORY_DEPTH 0 (name :: names)) with
      (S (names_taken 17 (0 + Z.of_nat (length name)) names)). lia.
  - intros Hn Hc. rewrite names_taken_all; [by rewrite take_ge | done |]. intros pre name post ->. clear - Hc.
    rewrite removelast_app in Hc by done. rewrite concat_app, length_app in Hc. unfold FILE_PATH_SZ. lia.
Qed.

(** The result of [bpf_probe_read_kernel_str] is added to the length of the
    path without a test for an error: when the first name cannot be read, the
    unsigned length of the event is nearly 2^32, while the field it counts has
    512 bytes. *)
Theorem file_path_length_wraps o fd io v :
  let file := fd_to_file K fd (Some o) in
  let f_inode := kr K 8 (file + o_f_inode o) in
  let d := kr K 8 (file + o_file_dentry o) in
  let ret := (k_read_str K (kr K 8 (d + o_dentry_name o)) DENTRY_NAME_SIZE).1 in
  io_wf io -> file <> 0 -> f_inode <> 0 -> kr K 8 (f_inode + o_i_sb o) <> 0 -> ret < 0 ->
  exists io' v', set_file_metric_data K o fd io v = Some (io', v') /\ vget i_len io' = 2 ^ 32 + ret.
Proof.
  intros file f_inode d ret Hio Hf Hi Hs Hret. destruct (file_metric_names o fd io v Hio Hf Hi Hs) as (io1 & v' & Hio1 & Hl0 & ->). fold file d.
  pose proof (k_str_ret K HK (kr K 8 (d + o_dentry_name o)) DENTRY_NAME_SIZE) as [Hr _]. fold ret in Hr.
  pose proof (k_str_len K HK (kr K 8 (d + o_dentry_name o)) DENTRY_NAME_SIZE) as Hl.
  pose proof (k_str_bytes K HK (kr K 8 (d + o_dentry_name o)) DENTRY_NAME_SIZE) as Hb.
  change MAX_DIRECTORY_DEPTH with (S 17). cbn [name_loop]. rewrite Hl0. change (FILE_PATH_SZ <? 0 + Z.of_nat DENTRY_NAME_SIZE) with false. cbv iota.
  destruct (k_read_str K _ _) as [r bytes] eqn:Hk. subst ret. cbn [fst snd] in *. pose proof Hio1 as [Hz1 _]. unfold IO_FILENAME, IO_SIZE in *.
  destruct (write_at_ok io1 (36 + 0) bytes) as (io2 & Hw & _); [lia | lia |]. rewrite Hw. cbn [mbind option_bind].
  pose proof (io_write _ _ _ _ Hio1 Hb Hw) as Hio2. assert (u32 (0 + r) = 2 ^ 32 + r) as Hu.
  { unfold wrap. rewrite <- (Z_mod_plus_full _ 1), Z.mod_small; lia. }
  set (io3 := vput i_len _ io2). assert (vget i_len io3 = 2 ^ 32 + r) as Hl3.
  { unfold io3. rewrite Hu, vget_vput; [apply Z.mod_small; cbn; lia |]. destruct Hio2 as [Hz2 _]. unfold IO_SIZE in Hz2.
    change (f_off i_len + f_len i_len)%nat with 36%nat. lia. }
  destruct (_ || _); [by eexists _, _ |]. cbn [name_loop]. rewrite Hl3.
  destruct (Z.ltb_spec FILE_PATH_SZ (2 ^ 32 + r + Z.of_nat DENTRY_NAME_SIZE)) as [_ | Hc]; [by eexists _, _ | unfold FILE_PATH_SZ in Hc; lia].
Qed.
End paths.

(** ** What an operation reports *)

Section reports.
Context {X : Counting} (E : env) (K : kenv) (HE : env_ok E) (HK : kenv_ok K) (Hcomm : bytes_ok (e_comm E).2).

(** C27: the return from a [pread] puts at most one event into the log, and keeps
    the state in order, with the reference count of the buffer as it was and the
    entry of the call gone. There is an event only for a regular file, when bytes
    were read, the call was slow enough and the mode asks for it: in the mode 1
    the thread or goroutine must take part in a trace. The event carries the
    identifier of that trace, the descriptor, the task, the number of bytes, the
    direction and the time the call took. *)
Theorem pread_reported n w evs o a :
  world_ok K w evs -> w_offset w = Some o -> w_rargs w !! e_pid_tgid E = Some a ->
  exists w' new, do_sys_exit_pread E K n w = Some (tt, w') /\ world_ok K w' (evs ++ new) /\
    w_rargs w' !! e_pid_tgid E = None /\ ctx_core <$> w_ctx w' = ctx_core <$> w_ctx w /\
    (new = [] \/ exists e ctx, new = [e] /\ w_ctx w = Some ctx /\
       io_reported E K o (a <| da_bytes_count := n |>) T_INGRESS ctx (k_goid (io_trace_key E K ctx w)) (io_trace_id E K ctx w) e).
Proof.
  intros Hw Ho Ha. pose proof (exit_pread_ok E K HE HK Hcomm n w evs Hw) as H. rewrite Ho, Ha in H. cbn [io_step_post] in H.
  apply wp_total in H as ([] & w' & Hrun & new & P1 & _ & _ & P2 & P3 & P4 & P5). exists w', new. split; [done |]. split; [done |]. split.
  - unfold do_sys_exit_pread, mbind, M_bind, gets, modify in Hrun. rewrite Ho, Ha in Hrun.
    destruct (trace_io_event_common _ _ _ _ _ _) as [[[] w2] |]; [| done]. injection Hrun as <-. cbn. apply lookup_delete_eq.
  - split; [done |]. destruct P5 as [-> | (e & ctx & o' & [= <-] & -> & Hc & Hr)]; [by left |]. right. by exists e, ctx.
Qed.
End reports.

(** ** Instances *)

(** Strings end at their zero. *)
Fixpoint cut_string (l : list Z) : list Z :=
  match l with [] => [] | x :: l => if x =? 0 then [0] else x :: cut_string l end.
Definition file_kenv (rs : list (Z * list Z)) : kenv :=
  (region_kenv rs) <| k_read_str := fun a n => let s := cut_string (mem_bytes (region_mem rs) a n) in
     if a =? 0 then (-14, []) else (Z.of_nat (length s), s) |>.

Lemma cut_string_prefix l : exists k, cut_string l = take k l /\ (k <= length l)%nat.
Proof.
  induction l as [| x l (k & IH & Hk)]; [by exists 0%nat |]. cbn [cut_string]. destruct (Z.eqb_spec x 0) as [-> |].
  - exists 1%nat. cbn. split; [done | lia].
  - exists (S k). cbn. rewrite IH. split; [done | lia].
Qed.
Lemma file_kenv_ok rs : Forall (fun r => bytes_ok r.2) rs -> kenv_ok (file_kenv rs).
Proof.
  intros Hrs. destruct example_kenv_ok. pose proof (fun a => region_mem_byte rs a Hrs) as Hmem.
  assert (forall a n, bytes_ok (mem_bytes (region_mem rs) a n)) as Hb by (intros a n; apply Forall_fmap, Forall_true; intros i; apply Hmem).
  constructor; try done; cbn [file_kenv region_kenv k_read k_read_str set fst snd].
  - intros a n. apply mem_bytes_length.
  - intros a n. case_match; [cbn; lia |]. cbn [snd]. destruct (cut_string_prefix (mem_bytes (region_mem rs) a n)) as (k & -> & _).
    rewrite length_take, mem_bytes_length. lia.
  - intros a n. case_match; [constructor |]. cbn [snd]. destruct (cut_string_prefix (mem_bytes (region_mem rs) a n)) as (k & -> & _).
    by apply Forall_take.
  - intros a n. case_match; cbn [fst snd]; [lia |]. destruct (cut_string_prefix (mem_bytes (region_mem rs) a n)) as (k & -> & _).
    rewrite length_take, mem_bytes_length. lia.
Qed.

(** The descriptor 3 of a task is open on [/var/log]; [d] is the entry of the file. *)
Definition example_file_memory (d : Z) : list (Z * list Z) :=
  [(2704, le64 8192); (8192 + 32, le64 12288); (12288, le64 64 ++ le64 16384); (16384 + 3 * 8, le64 20480);
   (20480 + 24, le64 d ++ le64 24576 ++ le64 36864); (24576, le64 0x8000); (24576 + 40, le64 28672); (28672 + 16, le64 7);
   (36864 + 32, le64 1);
   (32768 + 24, le64 33024 ++ le64 0 ++ le64 40960); (33024 + 24, le64 33280 ++ le64 0 ++ le64 41000);
   (33280 + 24, le64 33280 ++ le64 0 ++ le64 41040);
   (40960, [108; 111; 103; 0]); (41000, [118; 97; 114; 0]); (41040, [47; 0])].
Lemma example_file_kenv_ok d : kenv_ok (file_kenv (example_file_memory d)).
Proof.
  apply file_kenv_ok. unfold example_file_memory, le64. do 15 (apply Forall_cons_2; cbn [snd];
    [repeat first [by apply bytes_okb | apply le_bytes_ok | apply Forall_app; split] |]). apply Forall_nil_2.
Qed.
Definition example_names : list (list Z) := [[108; 111; 103; 0]; [118; 97; 114; 0]; [47; 0]].
Definition zero_io : list Z := replicate 548 0.
Lemma zero_io_wf : io_wf zero_io.
Proof. split; [done | by apply Forall_replicate]. Qed.

Lemma file_path_recorded_witness : let K := file_kenv (example_file_memory 32768) in
  exists io' v' k, set_file_metric_data K example_offsets 3 zero_io (replicate HEAD 0) = Some (io', v') /\
    vget i_len io' = Z.of_nat (length (concat (take k example_names))) /\ io_text io' = concat (take k example_names) /\
    (0 < k <= MAX_DIRECTORY_DEPTH)%nat /\
    ((length example_names <= MAX_DIRECTORY_DEPTH)%nat -> (length (concat (removelast example_names)) <= 256)%nat ->
     take k example_names = example_names).
Proof.
  intros K. apply (file_path_recorded K (example_file_kenv_ok 32768) example_offsets 3 zero_io (replicate HEAD 0) example_names).
  - exact zero_io_wf.
  - vm_compute. discriminate.
  - vm_compute. discriminate.
  - vm_compute. discriminate.
  - apply (dentry_up K example_offsets 32768); [vm_compute; reflexivity | vm_compute; discriminate | vm_compute; discriminate |].
    apply (dentry_up K example_offsets 33024); [vm_compute; reflexivity | vm_compute; discriminate | vm_compute; discriminate |].
    apply (dentry_root K example_offsets 33280); [vm_compute; reflexivity | left; vm_compute; reflexivity].
Defined.

Lemma file_path_length_wraps_witness : let K := file_kenv (example_file_memory 49152) in
  exists io' v', set_file_metric_data K example_offsets 3 zero_io (replicate HEAD 0) = Some (io', v') /\ vget i_len io' = 4294967282.
Proof.
  intros K. apply (file_path_length_wraps K (example_file_kenv_ok 49152) example_offsets 3 zero_io (replicate HEAD 0)).
  - exact zero_io_wf.
  - vm_compute. discriminate.
  - vm_compute. discriminate.
  - vm_compute. discriminate.
  - vm_compute. reflexivity.
Defined.

(** A read of 10 bytes, reported whether or not it takes part in a trace. *)
Definition example_read : data_args := zero_args <| da_fd := 3 |> <| da_enter_ts := 400 |>.
Definition example_reading : world :=
  example_world <| w_ctx := Some (example_ctx <| t_io_event_collect_mode := 2 |>) |> <| w_rargs := {[ 0 := example_read ]} |>.
Lemma example_reading_ok d : world_ok (file_kenv (example_file_memory d)) example_reading [].
Proof.
  eapply args_update_ok; [| by left | apply (start_world_ok _ (example_ctx <| t_io_event_collect_mode := 2 |>)); done].
  intros id a Ha. apply lookup_singleton_Some in Ha as [_ <-]. by apply zero_args_ok.
Qed.

Lemma pread_reported_witness : let K := file_kenv (example_file_memory 32768) in let E := example_env [] [] in
  (do_sys_exit_pread E K 10 example_reading ≫= fun r => b_events_num <$> w_buf r.2) = Some 1 /\
  exists w' new, do_sys_exit_pread E K 10 example_reading = Some (tt, w') /\ world_ok K w' ([] ++ new) /\
    w_rargs w' !! 0 = None /\ ctx_core <$> w_ctx w' = ctx_core <$> w_ctx example_reading /\
    (new = [] \/ exists e ctx, new = [e] /\ w_ctx example_reading = Some ctx /\
       io_reported E K example_offsets (example_read <| da_bytes_count := 10 |>) T_INGRESS ctx
         (k_goid (io_trace_key E K ctx example_reading)) (io_trace_id E K ctx example_reading) e).
Proof.
  intros K E. split; [vm_compute; reflexivity |].
  apply (pread_reported E K (example_env_ok [] [] ltac:(constructor)) (example_file_kenv_ok 32768) example_comm 10 example_reading []
    example_offsets example_read).
  - apply example_reading_ok.
  - reflexivity.
  - reflexivity.
Defined.
