(* ===== verification/Syscall.v ===== *)
(** * System calls that move data

    [process_data] of kernel/socket_trace.bpf.c and the programs at the entry and
    the exit of the system calls that read or write: the entry of a call stores
    its arguments under the identifier of the thread, the exit takes them out,
    finds the socket of the descriptor, fills in the connection, infers the
    protocol and submits the message; the data of a file becomes a file event.
    This is where the parts of the other files meet. *)

From S2P Require Import Prelude Bitmap Conn Iovec InferBase InferPipeline.
From S2P Require Import World Output Goroutine KernelObjects Submit SubmitLog FileEvents.

Definition MSG_PEEK : Z := 2.
(** [sizeof(struct user_msghdr)] and [sizeof(struct mmsghdr)]. *)
Definition MSGHDR_SIZE : nat := 56.
Definition MMSGHDR_SIZE : Z := 64.

(** [struct conn_info_s] set to zero. *)
Definition zero_conn : conn_info :=
  mk_conn (mk_tuple (replicate 16 0) (replicate 16 0) 0 0 0 0) 0 0 false false false T_EGRESS T_EGRESS
    ROLE_UNKNOWN PROTO_UNKNOWN 0 0 PROTO_UNKNOWN MSG_UNKNOWN false false 0 0 0 0 (replicate 16 0) 0 0.

Section syscall.
Context (E : env) (K : kenv).

(** ** Inference on the maps of the tracer *)

(** What the inference reads, with the maps as they are in [w]. *)
Definition infer_env (w : world) : env :=
  mk_env true (e_comm E) (e_pid_tgid E) (e_protocol_filter E) (e_ports_bitmap E)
    ((fun p => (p_tcp_itab p, p_tls_itab p, p_syscall_itab p)) <$> g_proc (w_go w) !! cur_tgid E)
    (t_data_limit_max <$> w_ctx w) (w_cache w) (get_tcp_read_seq K (w_offset w))
    (e_read_user E) (e_read_user_str E).

(** The inference runs on the connection, its entry and the map of sequence
    numbers. *)
Definition run_infer {A} (conn_key : Z) (c : conn_info) (m : env -> I A) : W (A * conn_info) := fun w =>
  r ← m (infer_env w) (mk_st c (w_sock w !! conn_key) (w_seqmap w));
  let '(a, s) := r in
  let socks := match si s with Some k => alter (fun _ => k) conn_key (w_sock w) | None => w_sock w end in
  Some ((a, ci s), w <| w_sock := socks |> <| w_seqmap := seqmap s |>).

(** The sequence number before the call, for the uprobes of Go programs. *)
Definition preprocess_for_uprobe (dir : traffic_direction) (fd count : Z) : W unit :=
  modify (fun w =>
    if skip_http2_kprobe (infer_env w) && (dir =! T_INGRESS) then
      let tcp_seq_end := get_tcp_read_seq K (w_offset w) fd in
      let key := (cur_tgid E, fd, tcp_seq_end) in
      match w_seqmap w !! key with
      | Some _ => w
      | None => w <| w_seqmap := <[key := u32 (tcp_seq_end - count)]> (w_seqmap w) |>
      end
    else w).

(** ** [process_data] *)

Definition set_dport (p : Z) (c : conn_info) : conn_info :=
  let t := c_tuple c in
  c <| c_tuple := mk_tuple (daddr t) (rcv_saddr t) (addr_len t) (l4_protocol t) p (num t) |>.

(** The peer of a datagram socket that is not connected: the one of the call, or
    the one that an earlier call left in the entry of the socket. *)
Definition udp_peer (sk_info : option socket_info) (c : conn_info) (args : data_args) : conn_info * data_args :=
  if (l4_protocol (c_tuple c) =? IPPROTO_UDP) && (dport (c_tuple c) =? 0) then
    let c := set_dport (da_port args) c in
    match sk_info with
    | Some k =>
        if (dport (c_tuple c) =? 0) && is_socket_info_valid sk_info && s_udp_pre_set_addr k
        then (set_dport (u16 (s_union k)) c, args <| da_port := u16 (s_union k) |> <| da_addr := s_prev_data k |>)
        else (c, args)
    | None => (c, args)
    end
  else (c, args).

(** One of the ports is in the bitmap: the one of ports to leave alone (1), the
    one of ports of user-defined protocols (0). *)
Definition port_listed (index : Z) (c : conn_info) : option bool :=
  match k_port_bitmap K index with
  | Some b => is_set_bitmap b (dport (c_tuple c)) ||| is_set_bitmap b (num (c_tuple c))
  | None => Some false
  end.

(** The data of a socket. *)
Definition process_socket_data (direction : traffic_direction) (args : data_args) (bytes_count : Z) (x : extra_args)
    (sk : Z) (o : member_offsets) (c : conn_info) : W unit :=
  let conn_key := gen_conn_key_id (cur_tgid E) (da_fd args) in
  sk_info ← gets (fun w => w_sock w !! conn_key);
  let c := init_conn_info K (da_fd args) sk sk_info o c in
  let '(c, args) := udp_peer sk_info c args in
  let c := c <| c_direction := direction |> in
  match k_infer_buf K with
  | None => mret tt
  | Some old =>
      bypass ← lift (port_listed 1 c);
      if bypass : bool then mret tt else
      allow ← lift (port_listed 0 c);
      let c := if allow : bool then c <| c_protocol := PROTO_CUSTOM |> else c in
      r ← run_infer conn_key c (fun Ei => infer_l7_class_1 Ei old
            (mk_args (da_buf args) (da_iov args) (x_vecs x) (x_source x)) (u64 bytes_count));
      let '(act, c) := r in
      match act with
      | INFER_TERMINATE => mret tt
      | _ =>
          let c := if (c_protocol c =! PROTO_CUSTOM) && c_enable_reasm c then c <| c_is_reasm_seg := true |> else c in
          if (c_protocol c <>! PROTO_UNKNOWN) || (c_message_type c <>! MSG_UNKNOWN) then
            _ ← __data_submit E K c args (u32 bytes_count) (da_enter_ts args) x; mret tt
          else mret tt
      end
  end.

Definition process_data (direction : traffic_direction) (args : data_args) (bytes_count : Z) (x : extra_args) : W unit :=
  if negb (x_vecs x) && (da_buf args =? 0) then mret tt else
  if x_vecs x && ((a_iov (da_iov args) =? 0) || (a_iovlen (da_iov args) <=? 0)) then mret tt else
  if (da_fd args <? 0) || (s32 bytes_count <=? 0) then mret tt else
  offset ← gets w_offset;
  match offset with
  | None => mret tt
  | Some o =>
      if negb (o_ready o) then mret tt else
      let sk := get_socket_from_fd K (da_fd args) o in
      let '(sock_state, c) := is_tcp_udp_data K sk o zero_conn in
      if (sk =? 0) || (sock_state =! SOCK_CHECK_TYPE_ERROR)
      then trace_io_event_common E K (Some o) args direction else
      _ ← preprocess_for_uprobe direction (da_fd args) bytes_count;
      if o_kprobe_invalid o && (x_source x =! DATA_SOURCE_SYSCALL) then mret tt else
      let c := if sock_state =! SOCK_CHECK_TYPE_UNIX then c <| c_sk_type := SOCK_UNIX |> else c in
      process_socket_data direction args bytes_count x sk o c
  end.

Definition process_syscall_data (direction : traffic_direction) (args : data_args) (bytes_count : Z) : W unit :=
  go ← is_current_go_process E;
  process_data direction args bytes_count (mk_extra false go DATA_SOURCE_SYSCALL).

Definition process_syscall_data_vecs (direction : traffic_direction) (args : data_args) (bytes_count : Z) : W unit :=
  go ← is_current_go_process E;
  process_data direction args bytes_count (mk_extra true go DATA_SOURCE_SYSCALL).

(** ** Arguments between the entry and the exit of a call *)

(** [active_write_args_map] and [active_read_args_map]. *)
Definition args_map (d : traffic_direction) (w : world) : gmap Z data_args :=
  match d with T_EGRESS => w_wargs w | T_INGRESS => w_rargs w end.
Definition set_args_map (d : traffic_direction) (m : gmap Z data_args) (w : world) : world :=
  match d with T_EGRESS => w <| w_wargs := m |> | T_INGRESS => w <| w_rargs := m |> end.
Definition args_delete (d : traffic_direction) : W unit :=
  modify (fun w => set_args_map d (delete (e_pid_tgid E) (args_map d w)) w).

(** The common end of the entries: the sequence number of the connection, and
    the update of the map. *)
Definition stash_args (d : traffic_direction) (fd : Z) (args : data_args) : W unit :=
  modify (fun w =>
    let tcp_seq := match d with
                   | T_EGRESS => get_tcp_write_seq K (w_offset w) fd
                   | T_INGRESS => get_tcp_read_seq K (w_offset w) fd
                   end in
    set_args_map d (htab_update (k_max_args K) (e_pid_tgid E) (args <| da_tcp_seq := tcp_seq |>) (args_map d w)).2 w).

(** The entry of the thread, written to through its pointer and processed. *)
Definition with_args (d : traffic_direction) (f : data_args -> data_args) (run : data_args -> W unit) : W unit :=
  oa ← gets (fun w => args_map d w !! e_pid_tgid E);
  match oa with
  | None => mret tt
  | Some a => _ ← modify (fun w => set_args_map d (alter f (e_pid_tgid E) (args_map d w)) w); run (f a)
  end.

Definition enter_args (fd : Z) : data_args := zero_args <| da_fd := u32 fd |> <| da_enter_ts := k_ktime K 0 |>.
(** The union of [addr] and [ipaddr_ptr] as a pointer. *)
Definition ipaddr_ptr (args : data_args) : Z := le_word (take 8 (da_addr args)).
Definition set_ipaddr_ptr (p : Z) (args : data_args) : data_args :=
  args <| da_addr := le_bytes 8 p ++ drop 8 (da_addr args) |>.
(** The address that the entry left as a pointer, read at the exit. *)
Definition fetch_address (args : data_args) : data_args :=
  let ptr := ipaddr_ptr args in
  if ptr =? 0 then args else extract_network_address_info E (set_ipaddr_ptr 0 args) ptr.
(** [struct user_msghdr] and [struct mmsghdr] in user memory: [msg_name], and
    [msg_iov] with [msg_iovlen]. *)
Definition user_msghdr (p : Z) : list Z := (e_read_user E p MSGHDR_SIZE).2.
Definition user_mmsghdr (p : Z) : list Z := (e_read_user E p (Z.to_nat MMSGHDR_SIZE)).2.
Definition msg_name (b : list Z) : Z := le_word (take 8 b).
Definition msg_iov (b : list Z) : iov_args := mk_iov_args (le_word (take 8 (drop 16 b))) (le_word (take 8 (drop 24 b))).
Definition user_word (p : Z) : Z := le_word (e_read_user E p 8).2.

(** ** The programs *)

Definition do_sys_enter_write (fd buf : Z) : W unit :=
  stash_args T_EGRESS fd ((enter_args fd) <| da_buf := buf |>).
Definition do_sys_exit_write (bytes_count : Z) : W unit :=
  _ ← with_args T_EGRESS (fun a => a <| da_bytes_count := bytes_count |>)
        (fun a => process_syscall_data T_EGRESS a bytes_count);
  args_delete T_EGRESS.

Definition do_sys_enter_read (fd buf : Z) : W unit :=
  stash_args T_INGRESS fd ((enter_args fd) <| da_buf := buf |>).
Definition do_sys_exit_read (bytes_count : Z) : W unit :=
  _ ← with_args T_INGRESS (fun a => a <| da_bytes_count := bytes_count |>)
        (fun a => process_syscall_data T_INGRESS a bytes_count);
  args_delete T_INGRESS.

Definition do_sys_enter_sendto (sockfd buf addr : Z) : W unit :=
  ready ← infer_offset_phase_1 E K sockfd;
  if negb ready then mret tt else
  stash_args T_EGRESS sockfd (extract_network_address_info E ((enter_args sockfd) <| da_buf := buf |>) addr).
Definition do_sys_exit_sendto (bytes_count : Z) : W unit :=
  with_args T_EGRESS (fun a => a <| da_bytes_count := bytes_count |>)
    (fun a => _ ← process_syscall_data T_EGRESS a bytes_count; args_delete T_EGRESS).

Definition enter_recvfrom (sockfd buf flags u_addr : Z) : W unit :=
  if negb (Z.land flags MSG_PEEK =? 0) then mret tt else
  let a := (enter_args sockfd) <| da_buf := buf |> in
  stash_args T_INGRESS sockfd (if u_addr =? 0 then a else set_ipaddr_ptr u_addr a).
Definition do_sys_exit_recvfrom (bytes_count : Z) : W unit :=
  with_args T_INGRESS (fun a => fetch_address (a <| da_bytes_count := bytes_count |>))
    (fun a => _ ← process_syscall_data T_INGRESS a bytes_count; args_delete T_INGRESS).

Definition enter_sendmsg (sockfd msghdr_ptr : Z) : W unit :=
  if msghdr_ptr =? 0 then mret tt else
  let msghdr := user_msghdr msghdr_ptr in
  stash_args T_EGRESS sockfd (set_ipaddr_ptr (msg_name msghdr) ((enter_args sockfd) <| da_iov := msg_iov msghdr |>)).
Definition exit_sendmsg (bytes_count : Z) : W unit :=
  with_args T_EGRESS (fun a => fetch_address (a <| da_bytes_count := bytes_count |>))
    (fun a => _ ← process_syscall_data_vecs T_EGRESS a bytes_count; args_delete T_EGRESS).

Definition enter_sendmmsg (sockfd msgvec_ptr vlen : Z) : W unit :=
  if (msgvec_ptr =? 0) || (vlen <? 1) then mret tt else
  let a := (enter_args sockfd) <| da_iov := msg_iov (user_mmsghdr msgvec_ptr) |>
             <| da_msg_len := u64 (msgvec_ptr + Z.of_nat MSGHDR_SIZE) |> in
  stash_args T_EGRESS sockfd
    (if 2 <=? vlen then a <| da_extra_iov := msg_iov (user_mmsghdr (msgvec_ptr + MMSGHDR_SIZE)) |> else a).
(** [msg_len] has 4 bytes; as many as a pointer has are read. *)
Definition exit_sendmmsg (num_msgs : Z) : W unit :=
  _ ← (if 0 <? num_msgs then with_args T_EGRESS id
         (fun a => process_syscall_data_vecs T_EGRESS a (swrap 64 (user_word (da_msg_len a)))) else mret tt);
  args_delete T_EGRESS.

Definition enter_recvmsg (sockfd msghdr flags : Z) : W unit :=
  if negb (Z.land flags MSG_PEEK =? 0) || (msghdr =? 0) then mret tt else
  let msg := user_msghdr msghdr in
  stash_args T_INGRESS sockfd (set_ipaddr_ptr (msg_name msg) ((enter_args sockfd) <| da_iov := msg_iov msg |>)).
Definition exit_recvmsg (bytes_count : Z) : W unit :=
  with_args T_INGRESS (fun a => fetch_address (a <| da_bytes_count := bytes_count |>))
    (fun a => _ ← process_syscall_data_vecs T_INGRESS a bytes_count; args_delete T_INGRESS).

Definition enter_recvmmsg (sockfd msgvec vlen flags : Z) : W unit :=
  if negb (Z.land flags MSG_PEEK =? 0) || (msgvec =? 0) || (vlen <? 1) then mret tt else
  stash_args T_INGRESS sockfd ((enter_args sockfd)
    <| da_iov := mk_iov_args (user_word (msgvec + 16)) (user_word (msgvec + 24)) |>
    <| da_msg_len := u64 (msgvec + Z.of_nat MSGHDR_SIZE) |>).
Definition exit_recvmmsg (num_msgs : Z) : W unit :=
  _ ← (if 0 <? num_msgs then with_args T_INGRESS id
         (fun a => process_syscall_data_vecs T_INGRESS a (swrap 64 (user_word (da_msg_len a)))) else mret tt);
  args_delete T_INGRESS.

Definition enter_writev (fd iov iovlen : Z) : W unit :=
  stash_args T_EGRESS fd ((enter_args fd) <| da_iov := mk_iov_args iov (u64 iovlen) |>).
Definition exit_writev (bytes_count : Z) : W unit :=
  _ ← with_args T_EGRESS (fun a => a <| da_bytes_count := bytes_count |>)
        (fun a => process_syscall_data_vecs T_EGRESS a bytes_count);
  args_delete T_EGRESS.

Definition enter_readv (fd iov iovlen : Z) : W unit :=
  stash_args T_INGRESS fd ((enter_args fd) <| da_iov := mk_iov_args iov (u64 iovlen) |>).
Definition exit_readv (bytes_count : Z) : W unit :=
  _ ← with_args T_INGRESS (fun a => a <| da_bytes_count := bytes_count |>)
        (fun a => process_syscall_data_vecs T_INGRESS a bytes_count);
  args_delete T_INGRESS.
End syscall.

(** ** What an exit reports *)

Section reports.
Context (E : env) (K : kenv).

(** The configuration lets the event [e] be one of the protocol [p]: [p] is
    enabled and one of the ports in the header is in its bitmap, or the socket is
    a unix socket. *)
Definition proto_configured (p : traffic_protocol) (e : list Z * list Z) : Prop :=
  is_protocol_enabled E p = true /\
  (vget v_source e.1 = source_num DATA_SOURCE_UNIX_SOCKET \/
   exists b, e_ports_bitmap E p = Some b /\ (has_port b (vget v_num e.1) || has_port b (vget v_dport e.1)) = true).

(** The ways to a protocol: the configuration, a port of user-defined protocols,
    or a segment of a message whose socket already has the protocol. *)
Definition proto_justified (w : world) (key : Z) (p : traffic_protocol) (e : list Z * list Z) : Prop :=
  proto_configured p e \/
  (p = PROTO_CUSTOM /\ exists b, k_port_bitmap K 0 = Some b /\ (has_port b (vget v_dport e.1) || has_port b (vget v_num e.1)) = true) \/
  s_l7_proto <$> w_sock w !! key = Some p.

(** How many bytes of the call its event may have. *)
Definition message_limit (args : data_args) (bytes_count : Z) (w : world) (e : list Z * list Z) : Z :=
  match w_ctx w with
  | Some ctx => event_limit (w_sock w !! gen_conn_key_id (cur_tgid E) (da_fd args)) (is_segment e.1) (t_data_limit_max ctx) (u32 bytes_count)
  | None => 0
  end.

(** An event of the data that a call moved. Its time is that of the entry of the call
    for data that went out, and that of the report for data that came in. *)
Record message_event (direction : traffic_direction) (args : data_args) (bytes_count : Z) (x : extra_args) (w : world)
    (e : list Z * list Z) : Prop := {
  me_proto : exists p, vget v_data_type e.1 = proto_num p /\
    (p = PROTO_UNKNOWN \/ proto_justified w (gen_conn_key_id (cur_tgid E) (da_fd args)) p e);
  me_bypass : forall b, k_port_bitmap K 1 = Some b -> has_port b (vget v_dport e.1) = false /\ has_port b (vget v_num e.1) = false;
  me_socket : exists o, w_offset w = Some o /\ o_kprobe_invalid o && (x_source x =! DATA_SOURCE_SYSCALL) = false /\
    let sk := get_socket_from_fd K (da_fd args) o in
    sk <> 0 /\ (is_tcp_udp_data K sk o zero_conn).1 <> SOCK_CHECK_TYPE_ERROR /\
    vget v_num e.1 = kr K 2 (sk + o_sport o) /\
    (vget v_dport e.1 = bswap16 (kr K 2 (sk + o_dport o)) \/ kr K 2 (sk + o_dport o) = 0 /\ vget v_l4_protocol e.1 = IPPROTO_UDP);
  me_id : exists ctx, w_ctx w = Some ctx /\
    vget v_socket_id e.1 = u64 (event_uid (w_sock w !! gen_conn_key_id (cur_tgid E) (da_fd args)) ctx);
  me_task : vget v_tgid e.1 = u32 (cur_tgid E) /\ vget v_pid e.1 = u32 (cur_pid E) /\ vget v_fd e.1 = u32 (da_fd args);
  me_len : vget v_syscall_len e.1 = u32 bytes_count /\ 0 < s32 bytes_count;
  me_direction : bits_dir (vget v_bits e.1) = dir_num direction;
  me_source : vget v_source e.1 = source_num (x_source x) \/ vget v_source e.1 = source_num DATA_SOURCE_UNIX_SOCKET;
  me_seq : x_source x = DATA_SOURCE_GO_TLS_UPROBE \/ x_source x = DATA_SOURCE_OPENSSL_UPROBE ->
    exists carried, 0 <= carried <= 16 /\ vget v_tcp_seq e.1 = u32 (da_tcp_seq args - carried);
  me_time : vget v_timestamp e.1 = u64 (match direction with T_INGRESS => k_ktime K 0 | T_EGRESS => da_enter_ts args end);
  me_data : x_source x <> DATA_SOURCE_IO_EVENT -> 0 <= message_limit args bytes_count w e <= u32 bytes_count /\
    call_payload E K (x_vecs x) args (inl (da_buf args)) (message_limit args bytes_count w e) (buf_len w) = Some e.2 }.
(** The events of a call: one of its data and, for DNS over UDP, one of the second
    message of a [sendmmsg]. *)
Definition message_events (direction : traffic_direction) (args : data_args) (bytes_count : Z) (x : extra_args) (w : world)
    (new : list (list Z * list Z)) : Prop :=
  exists e, message_event direction args bytes_count x w e /\
    new = e :: second_event E (Some args) (message_limit args bytes_count w e) e.
End reports.

(** ** The state before the inference *)

Lemma bswap16_port x : port_ok (bswap16 x).
Proof.
  unfold bswap16, port_ok. pose proof (wrap_range 16 x ltac:(lia)) as Hx. set (y := u16 x) in *.
  pose proof (Z.mod_pos_bound y 256 ltac:(lia)). pose proof (Z.div_mod y 256 ltac:(lia)).
  assert (0 <= y / 256 < 256) by (split; [apply Z.div_pos; lia | apply Z.div_lt_upper_bound; lia]). lia.
Qed.
Lemma bswap16_zero x : 0 <= x < 65536 -> bswap16 x = 0 -> x = 0.
Proof.
  intros Hx. unfold bswap16. rewrite (wrap_small 16) by lia.
  pose proof (Z.mod_pos_bound x 256 ltac:(lia)). pose proof (Z.div_mod x 256 ltac:(lia)).
  assert (0 <= x / 256) by (apply Z.div_pos; lia). lia.
Qed.
Lemma u16_port x : port_ok x -> u16 x = x.
Proof. intros. by apply wrap_small. Qed.
Lemma proto_num_u16 p : u16 (proto_num p) = proto_num p.
Proof. by destruct p. Qed.

Section invariant.
Context {X : Counting} (E : env) (K : kenv) (HE : env_ok E) (HK : kenv_ok K) (Hcomm : bytes_ok (e_comm E).2) (HC : caps_ok K).

Lemma kr_range n a : 0 <= kr K n a < 2 ^ (8 * Z.of_nat n).
Proof. unfold kr. pose proof (le_word_bound _ (k_read_bytes K HK a n)) as H. by rewrite (k_read_len K HK) in H. Qed.
Lemma kr_port a : port_ok (kr K 2 a).
Proof. apply (kr_range 2). Qed.

Lemma infer_env_ok w evs : world_ok K w evs -> env_ok (infer_env E K w).
Proof. intros Hw. destruct HE. constructor; try done. apply (wo_cache K w evs Hw). Qed.

(** The part of [st_ok] that is about the connection. *)
Record conn_ok (c : conn_info) : Prop := {
  co_buf : length (c_prev_buf c) = EBPF_CACHE_SIZE; co_bytes : bytes_ok (c_prev_buf c);
  co_count : 0 <= c_prev_count c <= 16; co_num : port_ok (num (c_tuple c)); co_dport : port_ok (dport (c_tuple c)) }.

Lemma conn_st_ok c key w evs : conn_ok c -> world_ok K w evs -> st_ok (mk_st c (w_sock w !! key) (w_seqmap w)).
Proof.
  intros [] Hw. constructor; try done. intros k Hk. by apply (mo_sock K w (wo_maps K w evs Hw) key k).
Qed.

Lemma is_tcp_udp_conn_ok sk o : conn_ok (is_tcp_udp_data K sk o zero_conn).2.
Proof.
  assert (conn_ok zero_conn) as Hz by (constructor; try done; by apply Forall_replicate).
  unfold is_tcp_udp_data. repeat case_match; destruct Hz; by constructor.
Qed.
Lemma is_tcp_udp_quiet sk o : let c := (is_tcp_udp_data K sk o zero_conn).2 in
  c_message_type c = MSG_UNKNOWN /\ c_protocol c = PROTO_UNKNOWN.
Proof. unfold is_tcp_udp_data. by repeat case_match. Qed.

(** The connection as the inference gets it. *)
Lemma init_conn_ok fd sk sk_info o c : conn_ok c -> let c' := init_conn_info K fd sk sk_info o c in
  conn_ok c' /\ c_message_type c' = c_message_type c /\ c_protocol c' = c_protocol c /\ c_fd c' = fd /\ c_sk c' = sk /\
  num (c_tuple c') = kr K 2 (sk + o_sport o) /\ dport (c_tuple c') = bswap16 (kr K 2 (sk + o_dport o)) /\
  l4_protocol (c_tuple c') = l4_protocol (c_tuple c).
Proof.
  intros [H1 H2 H3 H4 H5]. unfold init_conn_info.
  assert (forall c0, c_prev_buf c0 = c_prev_buf c -> c_prev_count c0 = c_prev_count c ->
    num (c_tuple c0) = kr K 2 (sk + o_sport o) -> dport (c_tuple c0) = bswap16 (kr K 2 (sk + o_dport o)) -> conn_ok c0) as Hok.
  { intros c0 E1 E2 E3 E4. constructor; rewrite ?E1, ?E2, ?E3, ?E4; try done; [apply kr_port | apply bswap16_port]. }
  repeat case_match; split_and!; try done; by apply Hok.
Qed.

Record udp_peer_post (c : conn_info) (args : data_args) (c' : conn_info) (args' : data_args) : Prop := {
  up_conn : conn_ok c'; up_args : args_ok args';
  up_same : da_fd args' = da_fd args /\ da_buf args' = da_buf args /\ da_iov args' = da_iov args /\
            da_extra_iov args' = da_extra_iov args /\ da_enter_ts args' = da_enter_ts args; up_seq : da_tcp_seq args' = da_tcp_seq args;
  up_type : c_message_type c' = c_message_type c /\ c_protocol c' = c_protocol c;
  up_sk : c_fd c' = c_fd c /\ c_sk c' = c_sk c /\ num (c_tuple c') = num (c_tuple c);
  up_dport : dport (c_tuple c') = dport (c_tuple c) \/
             dport (c_tuple c) = 0 /\ l4_protocol (c_tuple c') = IPPROTO_UDP }.

Lemma udp_peer_ok sk_info c args : conn_ok c -> args_ok args -> (forall k, sk_info = Some k -> entry_ok k) ->
  udp_peer_post c args (udp_peer sk_info c args).1 (udp_peer sk_info c args).2.
Proof.
  intros Hc Ha Hk. unfold udp_peer. destruct (Z.eqb_spec (l4_protocol (c_tuple c)) IPPROTO_UDP) as [Hl |]; cbn [andb].
  2: { constructor; auto. }
  destruct (Z.eqb_spec (dport (c_tuple c)) 0) as [Hd |]; cbn [andb]; [| by constructor; auto].
  assert (forall p, port_ok p -> conn_ok (set_dport p c)) as Hset by (intros p Hp; destruct Hc; by constructor).
  pose proof Ha as [_ Hp]. destruct sk_info as [k |]; [| constructor; cbn [fst snd]; auto].
  destruct (_ && _ && _) eqn:Hb; [| constructor; cbn [fst snd]; auto]. cbn [fst snd].
  assert (port_ok (u16 (s_union k))) as Hu by (apply wrap_range; lia).
  constructor; auto.
  - destruct Hc; by constructor.
  - destruct (Hk k eq_refl) as [(S1 & S2 & _) _]. by split.
Qed.

(** ** The inference on the maps *)

Lemma run_infer_ok key c old args count w evs :
  world_ok K w evs -> buf_ok old -> 0 <= count -> conn_ok c ->
  wp (run_infer E K key c (fun Ei => infer_l7_class_1 Ei old args count)) w (fun r w' =>
    world_ok K w' evs /\ args_kept w w' /\ w_ctx w' = w_ctx w /\ buf_len w' = buf_len w /\ conn_ok r.2 /\
    same_socket (mk_st c (w_sock w !! key) (w_seqmap w)) (mk_st r.2 (w_sock w' !! key) (w_seqmap w')) /\
    (r.1 = INFER_FINISH -> exists s1, verdict (infer_env E K w) (mk_st c (w_sock w !! key) (w_seqmap w)) s1
       (mk_pm (c_protocol r.2) (c_message_type r.2))) /\
    (r.1 = INFER_CONTINUE -> c_protocol r.2 = PROTO_UNKNOWN /\ c_message_type r.2 = c_message_type c)).
Proof.
  intros Hw Ho Hc Hcn. pose proof (conn_st_ok c key w evs Hcn Hw) as Hs.
  pose proof (infer_l7_class_1_wp (infer_env E K w) old args count _ (infer_env_ok w evs Hw) Ho Hc Hs) as H.
  apply wp_total in H as (act & s' & Hrun & [S1 S2 S3 S4 S5 S6] & Hsame & Hfin & Hcont).
  unfold wp, run_infer. cbn [mbind option_bind]. rewrite Hrun. cbn [mbind option_bind fst snd].
  destruct s' as [c' si' q']. cbn [ci si seqmap] in *.
  set (socks := match si' with Some k => _ | None => _ end).
  assert (socks !! key = si') as Hl.
  { pose proof (ss_sock _ _ Hsame) as Hid. cbn [si] in Hid. unfold socks. destruct si' as [k' |].
    - rewrite lookup_alter_eq. by destruct (w_sock w !! key).
    - by destruct (w_sock w !! key). }
  set (w' := w <| w_sock := socks |> <| w_seqmap := q' |>). change (w_sock w') with socks. rewrite Hl.
  split_and!; try done.
  destruct Hw as [M1 M2 M3 M4 M5 M6 M7 M8]. constructor; try done; [| by apply (logged_same w)].
  apply (maps_ok_same K (w <| w_sock := socks |>)); [by constructor |]. unfold socks.
  destruct si' as [k' |]; [| by apply (maps_ok_same K w)].
  apply sock_write_maps; [| done]. intros k Hk. pose proof (ss_sock _ _ Hsame) as Hid. cbn [si] in Hid. rewrite Hk in Hid.
  injection Hid as U1 _ U2. split; [done |]. split; [by apply S6 |]. rewrite U2. by apply (mo_sock K w M1 key).
Qed.

(** ** The event of a message *)

Lemma submit_conn_same ctx c : let c' := submit_conn ctx c in
  c_tuple c' = c_tuple c /\ c_protocol c' = c_protocol c /\ c_direction c' = c_direction c /\ c_sk_type c' = c_sk_type c.
Proof. unfold submit_conn. by destruct (t_disable_tracing ctx). Qed.

(** The ports in the header are those of the connection, and its source says
    whether the socket is a unix socket. *)
Definition header_conn (c : conn_info) (e : list Z * list Z) : Prop :=
  vget v_dport e.1 = dport (c_tuple c) /\ vget v_num e.1 = num (c_tuple c) /\
  (c_sk_type c = SOCK_UNIX -> vget v_source e.1 = source_num DATA_SOURCE_UNIX_SOCKET).

Lemma port_configured w p c e : header_conn c e -> port_allowed (infer_env E K w) p c = true -> proto_configured E p e.
Proof.
  intros (H1 & H2 & H3). unfold port_allowed, proto_configured. rewrite andb_true_iff, orb_true_iff, H1, H2.
  intros [He [Hu | Hb]]; (split; [done |]); [left; by apply H3, Z.eqb_eq | right].
  cbn [infer_env e_ports_bitmap] in Hb. destruct (e_ports_bitmap E p) as [b |]; [by exists b | done].
Qed.

Lemma verdict_justified w key c s1 e pm :
  header_conn c e -> verdict (infer_env E K w) (mk_st c (w_sock w !! key) (w_seqmap w)) s1 pm ->
  (c_protocol c = PROTO_CUSTOM -> exists b, k_port_bitmap K 0 = Some b /\
     (has_port b (dport (c_tuple c)) || has_port b (num (c_tuple c))) = true) ->
  pm_protocol pm = PROTO_UNKNOWN \/ proto_justified E K w key (pm_protocol pm) e.
Proof.
  intros He [| pm' (q & m' & -> & R2 & R3 & R4) | m' R1 R2 R3 | q R1 R2 -> | R1] Hcus; [by left | | | |]; cbn [pm_protocol si].
  - unfold result_of. destruct (_ && _); [by left |]. right. left. by eapply port_configured.
  - right. left. by eapply port_configured.
  - destruct (w_sock w !! key) as [k |] eqn:Hk; [| by left]. right. right. right. by rewrite Hk.
  - right. right. left. split; [done |]. destruct He as (-> & -> & _). by apply Hcus.
Qed.

Lemma event_uid_kept o o' ctx : sock_id o' = sock_id o -> event_uid o' ctx = event_uid o ctx.
Proof. destruct o, o'; try done. cbn. intros [= H _ _ _]. unfold event_uid, is_socket_info_valid. by rewrite H. Qed.

Lemma event_seq_carried c args source : source = DATA_SOURCE_GO_TLS_UPROBE \/ source = DATA_SOURCE_OPENSSL_UPROBE ->
  0 <= c_prev_count c <= 16 -> exists m, 0 <= m <= 16 /\ u32 (event_seq c args source) = u32 (da_tcp_seq args - m).
Proof.
  intros Hs Hc. unfold event_seq. replace (_ || _ || _) with true by (by destruct Hs as [-> | ->]).
  destruct (_ && _); [exists 2; split; [lia | apply Zmod_mod] |].
  destruct (Z.ltb_spec 0 (c_prev_count c)); [exists (c_prev_count c); split; [lia | apply Zmod_mod] |].
  exists 0. by rewrite Z.sub_0_r.
Qed.

Lemma event_limit_kept o o' seg limit len : sock_id o' = sock_id o -> event_limit o' seg limit len = event_limit o seg limit len.
Proof.
  destruct o, o'; try done. cbn. intros [= H _ H1 H2]. unfold event_limit, is_socket_info_valid, reasm_send. by rewrite H, H1, H2.
Qed.

Lemma event_header c args len ts x w L e : event_of E K c args len ts x w L e -> conn_ok c -> 0 <= len < 2 ^ 32 ->
  header_conn c e /\ vget v_data_type e.1 = proto_num (c_protocol c) /\
  vget v_l4_protocol e.1 = u8 (l4_protocol (c_tuple c)) /\
  (exists ctx, w_ctx w = Some ctx /\ vget v_socket_id e.1 = u64 (event_uid (w_sock w !! gen_conn_key_id (cur_tgid E) (c_fd c)) ctx)) /\
  (vget v_tgid e.1 = u32 (cur_tgid E) /\ vget v_pid e.1 = u32 (cur_pid E) /\ vget v_fd e.1 = u32 (da_fd args)) /\
  vget v_syscall_len e.1 = len /\ bits_dir (vget v_bits e.1) = dir_num (c_direction c) /\
  (vget v_source e.1 = source_num (x_source x) \/ vget v_source e.1 = source_num DATA_SOURCE_UNIX_SOCKET) /\
  (x_source x = DATA_SOURCE_GO_TLS_UPROBE \/ x_source x = DATA_SOURCE_OPENSSL_UPROBE ->
    exists carried, 0 <= carried <= 16 /\ vget v_tcp_seq e.1 = u32 (da_tcp_seq args - carried)) /\
  vget v_timestamp e.1 = u64 (match c_direction c with T_INGRESS => k_ktime K 0 | T_EGRESS => ts end) /\
  (exists ctx, w_ctx w = Some ctx /\
    L = event_limit (w_sock w !! gen_conn_key_id (cur_tgid E) (c_fd c)) (is_segment e.1) (t_data_limit_max ctx) len) /\
  0 <= L <= len /\
  (x_source x <> DATA_SOURCE_IO_EVENT -> call_payload E K (x_vecs x) args (inl (da_buf args)) L (buf_len w) = Some e.2).
Proof.
  intros (ctx & sub & role & goid & Hctx & [W1 _ _ W2 W3 W4 [P1 P2] [T1 T2] W5 [W8 _] _ _ W6 Wq W7] & Hu & _ & HL & H1 & _ & H3) Hc Hlen.
  destruct (submit_conn_same ctx c) as (S1 & S2 & S3 & S4). rewrite S1 in *. rewrite S2, S3, S4, proto_num_u16 in *.
  rewrite u16_port in P1, P2 by apply Hc.
  unfold bits_are in W7. rewrite !andb_true_iff, !Z.eqb_eq in W7. rewrite wrap_small in W3 by lia.
  split_and!; try done; try apply W7.
  - split_and!; try done. intros Ht. rewrite Ht in W6. done.
  - exists ctx. split; [done |]. by rewrite <- Hu.
  - rewrite W6. destruct (c_sk_type c =? SOCK_UNIX); [by right |]. left. by destruct (x_source x).
  - intros Hx. destruct (event_seq_carried (submit_conn ctx c) args (x_source x) Hx) as (m & Hm & Hs).
    { unfold submit_conn. destruct Hc. by destruct (t_disable_tracing ctx). }
    exists m. split; [done |]. by rewrite Wq.
  - rewrite W8. by destruct (c_direction c).
  - by exists ctx.
  - apply H1.
  - apply H1.
Qed.

Definition listed (index : Z) (c : conn_info) : bool :=
  match k_port_bitmap K index with
  | Some b => has_port b (dport (c_tuple c)) || has_port b (num (c_tuple c))
  | None => false
  end.
Lemma port_listed_spec i c : conn_ok c -> port_listed K i c = Some (listed i c).
Proof.
  intros Hc. unfold port_listed, listed. destruct (k_port_bitmap K i) as [b |] eqn:Hb; [| done].
  pose proof (k_ports_ok K HK i b Hb). rewrite !is_set_bitmap_spec by (done || apply Hc).
  unfold or_else. cbn. by destruct (has_port b _).
Qed.

Lemma submit_post_refl w evs : world_ok K w evs -> submit_post K w w evs [].
Proof.
  intros Hw. unfold submit_post, args_kept. rewrite app_nil_r. split_and!; try done.
  intros t t' Ht Ht'. rewrite Ht in Ht'. injection Ht' as <-. lia.
Qed.
Lemma submit_post_trans w1 w2 w3 evs new : args_kept w1 w2 -> w_ctx w2 = w_ctx w1 ->
  submit_post K w2 w3 evs new -> submit_post K w1 w3 evs new.
Proof.
  intros (A1 & A2 & A3 & A4) Hc (P1 & (B1 & B2 & B3 & B4) & P2 & P3). unfold submit_post, args_kept. rewrite <- Hc.
  split_and!; try done; congruence.
Qed.

(** The connection that the inference gets from the socket [sk] of the call. *)
Record call_conn (direction : traffic_direction) (sk : Z) (o : member_offsets) (args args' : data_args) (c : conn_info) : Prop := {
  cc_conn : conn_ok c; cc_args : args_ok args'; 
  cc_same : da_fd args' = da_fd args /\ da_buf args' = da_buf args /\ da_iov args' = da_iov args /\
            da_extra_iov args' = da_extra_iov args /\ da_enter_ts args' = da_enter_ts args; cc_seq : da_tcp_seq args' = da_tcp_seq args;
  cc_type : c_message_type c = MSG_UNKNOWN; cc_direction : c_direction c = direction;
  cc_fd : c_fd c = da_fd args; cc_num : num (c_tuple c) = kr K 2 (sk + o_sport o);
  cc_dport : dport (c_tuple c) = bswap16 (kr K 2 (sk + o_dport o)) \/
             kr K 2 (sk + o_dport o) = 0 /\ l4_protocol (c_tuple c) = IPPROTO_UDP }.

Lemma call_conn_ok direction sk o args sk_info c :
  conn_ok c -> c_message_type c = MSG_UNKNOWN -> args_ok args -> (forall k, sk_info = Some k -> entry_ok k) ->
  let r := udp_peer sk_info (init_conn_info K (da_fd args) sk sk_info o c) args in
  call_conn direction sk o args r.2 (r.1 <| c_direction := direction |>) /\ c_protocol r.1 = c_protocol c.
Proof.
  intros Hc Hm Ha Hk. destruct (init_conn_ok (da_fd args) sk sk_info o c Hc) as (I1 & I2 & I3 & I4 & I5 & I6 & I7 & I8).
  set (c1 := init_conn_info K (da_fd args) sk sk_info o c) in *. destruct (udp_peer_ok sk_info c1 args I1 Ha Hk) as [U1 U2 U3 Us U4 U5 U6].
  cbv zeta. set (r := udp_peer sk_info c1 args) in *. clearbody r c1. split; [| by destruct U4; congruence].
  constructor; try done; cbn.
  - destruct U1; by constructor.
  - destruct U4; congruence.
  - destruct U5 as (-> & _). done.
  - destruct U5 as (_ & _ & ->). done.
  - destruct U6 as [-> | [D1 D2]]; [by left |]. right. split; [| done]. apply bswap16_zero; [apply kr_port | congruence].
Qed.

(** The event of a message that the inference recognised in [w] on the
    connection [c], submitted in [w1] as [c1]. *)
Lemma event_reported direction sk o args args' n x c c1 w w1 evs L e :
  call_conn direction sk o args args' c -> w_offset w = Some o -> sk = get_socket_from_fd K (da_fd args) o -> sk <> 0 ->
  (is_tcp_udp_data K sk o zero_conn).1 <> SOCK_CHECK_TYPE_ERROR ->
  o_kprobe_invalid o && (x_source x =! DATA_SOURCE_SYSCALL) = false -> 0 < s32 n -> listed 1 c = false ->
  let key := gen_conn_key_id (cur_tgid E) (da_fd args) in
  (c_protocol c = PROTO_CUSTOM -> listed 0 c = true) -> conn_ok c1 -> w_ctx w1 = w_ctx w ->
  same_socket (mk_st c (w_sock w !! key) (w_seqmap w)) (mk_st c1 (w_sock w1 !! key) (w_seqmap w1)) ->
  (c_protocol c1 = PROTO_UNKNOWN \/ exists s1, verdict (infer_env E K w) (mk_st c (w_sock w !! key) (w_seqmap w)) s1
       (mk_pm (c_protocol c1) (c_message_type c1))) ->
  world_ok K w1 evs -> buf_len w1 = buf_len w -> event_of E K c1 args' (u32 n) (da_enter_ts args') x w1 L e ->
  message_event E K direction args n x w e /\ L = message_limit E args n w e.
Proof.
  intros [C1 C2 (C3 & C4 & Ci & Cx & Ct) Cs C5 C6 C7 C8 C9] Ho -> Hsk Hst Hkp Hn Hby key Hcus Hc1 Hctx [S1 S2 S3 S4 S5 S6] Hv Hw1 Hbl He.
  cbn [ci si] in *. apply event_header in He as (H1 & H2 & H3 & (ctx & H4 & H5) & H6 & H7 & H8 & Hso & Hsq & Htm & (ctx' & Hc' & HL) & HLr & Hpay);
    [| done | apply wrap_range; lia].
  assert (L = message_limit E args n w e) as HLm.
  { unfold message_limit. rewrite <- Hctx, Hc', HL, S4, C7. by apply event_limit_kept. }
  split; [| exact HLm].
  assert (header_conn c e) as Hh by (unfold header_conn in *; rewrite <- S1, <- S2; done). clear H1.
  pose proof Hh as (Hd & Hm & _). rewrite S4, C7 in H5. fold key in H5. rewrite (event_uid_kept _ _ ctx S6) in H5.
  rewrite Hctx in H4. rewrite S3, C6 in H8. rewrite C3 in H6. rewrite Cs in Hsq. constructor; try done.
  - exists (c_protocol c1). split; [done |]. destruct Hv as [-> | [s1 Hv]]; [by left |].
    apply (verdict_justified w key c s1 e _ Hh Hv). intros Hp. specialize (Hcus Hp). unfold listed in Hcus.
    destruct (k_port_bitmap K 0) as [b |]; [by exists b | done].
  - intros b Hb. unfold listed in Hby. rewrite Hb in Hby. rewrite Hd, Hm. by apply orb_false_iff in Hby.
  - exists o. rewrite Hm, C8. cbv zeta. split_and!; try done. rewrite Hd, H3, S1. destruct C9 as [-> | [Hz Hl]]; [by left | right].
    split; [done |]. by rewrite Hl.
  - by exists ctx.
  - rewrite Htm, S3, C6, Ct. done.
  - intros Hx. rewrite <- HLm. split; [done |]. rewrite <- (Hpay Hx), Hbl. unfold call_payload. by rewrite C4, Ci.
Qed.

Lemma process_socket_data_ok direction args n x o c w evs :
  let sk := get_socket_from_fd K (da_fd args) o in
  world_ok K w evs -> ids_left w -> args_ok args -> conn_ok c -> c_message_type c = MSG_UNKNOWN -> c_protocol c = PROTO_UNKNOWN ->
  w_offset w = Some o -> sk <> 0 -> (is_tcp_udp_data K sk o zero_conn).1 <> SOCK_CHECK_TYPE_ERROR ->
  o_kprobe_invalid o && (x_source x =! DATA_SOURCE_SYSCALL) = false -> 0 < s32 n ->
  wp (process_socket_data E K direction args n x sk o c) w (fun _ w' => exists new, submit_post K w w' evs new /\
    (new = [] \/ message_events E K direction args n x w new)).
Proof.
  intros sk Hw Hids Ha Hc Hm Hp Ho Hsk Hst Hkp Hn. unfold process_socket_data. set (key := gen_conn_key_id _ _).
  assert (exists new, submit_post K w w evs new /\ (new = [] \/ message_events E K direction args n x w new)) as Hskip
    by (exists []; split; [by apply submit_post_refl | by left]).
  apply wp_bind, wp_gets. destruct (call_conn_ok direction sk o args (w_sock w !! key) c Hc Hm Ha) as [Hcc Hpr].
  { intros k. apply (mo_sock K w (wo_maps K w evs Hw)). }
  destruct (udp_peer (w_sock w !! key) _ args) as [c1 args']. cbn [fst snd] in *. set (c2 := c1 <| c_direction := direction |>) in *.
  change (c_protocol c1) with (c_protocol c2) in Hpr. clearbody c2. destruct (k_infer_buf K) as [old |] eqn:Hbuf; [| by apply wp_ret].
  pose proof (cc_conn _ _ _ _ _ _ Hcc) as Hc2. apply wp_bind. eapply wp_lift; [by apply port_listed_spec |].
  destruct (listed 1 c2) eqn:Hby; [by apply wp_ret |]. apply wp_bind. eapply wp_lift; [by apply port_listed_spec |].
  set (c3 := if listed 0 c2 then _ else c2).
  assert (call_conn direction sk o args args' c3 /\ listed 1 c3 = false /\ (c_protocol c3 = PROTO_CUSTOM -> listed 0 c3 = true)) as (Hcc3 & Hby3 & Hcus3).
  { unfold c3. destruct (listed 0 c2) eqn:Hl; [| by rewrite Hpr, Hp]. split_and!; try done. destruct Hcc as [[] H2 H3 Hs H4 H5 H6 H7]. by constructor. }
  clearbody c3. apply wp_bind. eapply wp_mono.
  { apply (run_infer_ok key c3 old _ (u64 n) w evs Hw); [by apply (k_buf_ok K HK) | apply wrap_range; lia | apply Hcc3]. }
  intros [act c4] w1 (I1 & I2 & I3 & Ib & I4 & I5 & I6 & I7). cbn [fst snd] in *.
  assert (forall evs new, submit_post K w1 w1 evs new -> submit_post K w w1 evs new) as Htr by (intros; by eapply submit_post_trans).
  assert (exists new, submit_post K w w1 evs new /\ (new = [] \/ message_events E K direction args n x w new)) as Hskip1
    by (exists []; split; [by apply Htr, submit_post_refl | by left]).
  set (c5 := if _ && _ then _ else c4).
  assert (conn_ok c5 /\ same_socket (mk_st c3 (w_sock w !! key) (w_seqmap w)) (mk_st c5 (w_sock w1 !! key) (w_seqmap w1)) /\
    c_protocol c5 = c_protocol c4 /\ c_message_type c5 = c_message_type c4) as (F1 & F2 & F3 & F4).
  { unfold c5. destruct ((c_protocol c4 =! PROTO_CUSTOM) && c_enable_reasm c4); [| done].
    split_and!; try done; [destruct I4; by constructor | destruct I5; by constructor]. }
  clearbody c5.
  assert (act <> INFER_TERMINATE -> forall L e, event_of E K c5 args' (u32 n) (da_enter_ts args') x w1 L e ->
    message_event E K direction args n x w e /\ L = message_limit E args n w e) as Hev.
  { intros Hact L e. apply (event_reported direction sk o args args' n x c3 c5 w w1 evs L e); try done.
    rewrite F3, F4. destruct act; [right; by apply I6 | left; by apply I7 | done]. }
  assert (act <> INFER_TERMINATE -> wp (if (c_protocol c5 <>! PROTO_UNKNOWN) || (c_message_type c5 <>! MSG_UNKNOWN) then
      _ ← __data_submit E K c5 args' (u32 n) (da_enter_ts args') x; mret tt else mret tt) w1
    (fun _ w' => exists new, submit_post K w w' evs new /\ (new = [] \/ message_events E K direction args n x w new))) as Hsub.
  { intros Hact. destruct (_ || _); [| by apply wp_ret]. apply wp_bind. eapply wp_mono.
    { apply (submit_ok E K HE HK HC Hcomm c5 args' (u32 n) (da_enter_ts args') x w1 evs I1).
      - unfold ids_left. by rewrite I3.
      - constructor; [| | by apply Hcc3 | apply wrap_range; lia]; by destruct F1. }
    intros r w2 (new & P1 & _ & P2). apply wp_ret. exists new. split; [by eapply submit_post_trans |].
    destruct P2 as [-> | (e & L & He & ->)]; [by left | right]. destruct (Hev Hact L e He) as [He' ->]. exists e. split; [done |].
    f_equal. unfold second_event. destruct (cc_same _ _ _ _ _ _ Hcc3) as (_ & _ & _ & -> & _). done. }
  destruct act; [by apply Hsub | by apply Hsub | by apply wp_ret].
Qed.

(** ** [process_data] *)

Lemma preprocess_ok dir fd n w : wp (preprocess_for_uprobe E K dir fd n) w (fun _ w' => exists q, w' = w <| w_seqmap := q |>).
Proof.
  apply wp_modify. assert (w = w <| w_seqmap := w_seqmap w |>) as Hw by (by destruct w).
  destruct (_ && _); [| by eexists]. cbv zeta. case_match; by eexists.
Qed.
Lemma seqmap_ok w q evs : world_ok K w evs -> world_ok K (w <| w_seqmap := q |>) evs.
Proof. intros []. constructor; try done; [by apply (maps_ok_same K w) | by apply (logged_same w)]. Qed.

(** A file event of the call. *)
Definition file_event (direction : traffic_direction) (args : data_args) (w : world) (e : list Z * list Z) : Prop :=
  exists ctx o, w_ctx w = Some ctx /\ w_offset w = Some o /\
    io_reported E K o args direction ctx (k_goid (io_trace_key E K ctx w)) (io_trace_id E K ctx w) e.

Lemma file_event_same d a w w' e : w_ctx w' = w_ctx w -> w_offset w' = w_offset w -> w_go w' = w_go w -> w_trace w' = w_trace w ->
  file_event d a w e -> file_event d a w' e.
Proof.
  intros H1 H2 H3 H4 (ctx & o & Hctx & Ho & Hr). exists ctx, o. rewrite H1, H2. split_and!; try done.
  unfold io_trace_id in *. by rewrite H4, (io_trace_key_go E K ctx w w' H3).
Qed.

(** The events of a call: of the data of a socket, or of an operation on a file. *)
Definition reported (direction : traffic_direction) (args : data_args) (n : Z) (x : extra_args) (w : world)
    (new : list (list Z * list Z)) : Prop :=
  message_events E K direction args n x w new \/ exists e, file_event direction args w e /\ new = [e].

Lemma reported_same d a n x w w' new : w_ctx w' = w_ctx w -> w_offset w' = w_offset w -> w_go w' = w_go w ->
  w_trace w' = w_trace w -> w_sock w' = w_sock w -> w_buf w' = w_buf w ->
  reported d a n x w new -> reported d a n x w' new.
Proof.
  intros H1 H2 H3 H4 H5 H6 [(e & He & ->) | (e & He & ->)].
  - assert (message_limit E a n w' e = message_limit E a n w e) as HL by (unfold message_limit; by rewrite H1, H5).
    left. exists e. rewrite HL. split; [| done]. destruct He. constructor; try done; rewrite ?HL; unfold proto_justified, buf_len in *;
      by rewrite ?H1, ?H2, ?H5, ?H6.
  - right. exists e. split; [| done]. by apply (file_event_same d a w).
Qed.

Lemma io_submit_post o args n x direction w w' evs new :
  io_post E K (Some o) args direction w w' evs new -> w_offset w = Some o ->
  submit_post K w w' evs new /\ (new = [] \/ reported direction args n x w new).
Proof.
  intros (P1 & P2 & P3 & (P4 & P5 & P6 & Pu) & P7) Ho. split.
  - assert (forall {A} (f : _ -> A), f <$> (ctx_core <$> w_ctx w') = f <$> (ctx_core <$> w_ctx w)) as Hf by (intros; by rewrite P2).
    unfold submit_post, args_kept. split_and!; try done.
    + pose proof (Hf _ (fun t => snd (fst (fst t)))) as H. by destruct (w_ctx w), (w_ctx w').
    + intros t t' Ht Ht'. rewrite Ht, Ht' in P2. cbn in P2. unfold ctx_core in P2. injection P2 as P2. lia.
  - destruct P7 as [-> | (e & ctx & o' & -> & Hctx & Ho' & Hr)]; [by left |].
    injection Ho' as <-. right. right. exists e. split; [| done]. by exists ctx, o.
Qed.

Lemma process_data_ok direction args n x w evs :
  world_ok K w evs -> ids_left w -> args_ok args ->
  wp (process_data E K direction args n x) w (fun _ w' => exists new, submit_post K w w' evs new /\
    (new = [] \/ reported direction args n x w new)).
Proof.
  intros Hw Hids Ha. unfold process_data.
  assert (exists new, submit_post K w w evs new /\ (new = [] \/ reported direction args n x w new)) as Hskip
    by (exists []; split; [by apply submit_post_refl | by left]).
  destruct (negb (x_vecs x) && (da_buf args =? 0)); [by apply wp_ret |].
  destruct (x_vecs x && ((a_iov (da_iov args) =? 0) || (a_iovlen (da_iov args) <=? 0))); [by apply wp_ret |].
  destruct (_ <? 0); [by apply wp_ret |]. destruct (Z.leb_spec (s32 n) 0) as [| Hn]; [by apply wp_ret |]. cbn [orb].
  apply wp_bind, wp_gets. destruct (w_offset w) as [o |] eqn:Ho; [| by apply wp_ret]. destruct (o_ready o); [cbn [negb] | by apply wp_ret].
  set (sk := get_socket_from_fd K (da_fd args) o).
  pose proof (is_tcp_udp_conn_ok sk o) as Hc. destruct (is_tcp_udp_quiet sk o) as [Hm Hp].
  destruct (is_tcp_udp_data K sk o zero_conn) as [state c] eqn:Hst. cbn [fst snd] in *.
  destruct (_ || _) eqn:Hf.
  { eapply wp_mono; [by apply (trace_io_event_ok E K HE HK Hcomm (Some o) args direction w evs Hw) |].
    intros [] w' (new & Hio). exists new. by apply (io_submit_post o). }
  apply orb_false_iff in Hf as [Hsk%Z.eqb_neq Herr%bool_decide_eq_false].
  apply wp_bind. eapply wp_mono; [apply preprocess_ok |]. intros [] w1 [q ->].
  assert (submit_post K w (w <| w_seqmap := q |>) evs []) as Hq
    by (apply (submit_post_trans w (w <| w_seqmap := q |>)); try done; by apply submit_post_refl, seqmap_ok).
  destruct (o_kprobe_invalid o && (x_source x =! DATA_SOURCE_SYSCALL)) eqn:Hkp; [apply wp_ret; exists []; auto |].
  set (c1 := if state =! SOCK_CHECK_TYPE_UNIX then _ else c). assert (conn_ok c1 /\ c_message_type c1 = MSG_UNKNOWN /\ c_protocol c1 = PROTO_UNKNOWN) as (K1 & K2 & K3).
  { unfold c1. destruct (state =! SOCK_CHECK_TYPE_UNIX); [| done]. split_and!; try done. destruct Hc; by constructor. }
  eapply wp_mono; [apply (process_socket_data_ok direction args n x o c1 (w <| w_seqmap := q |>) evs); try done; [by apply seqmap_ok |] |].
  { fold sk. by rewrite Hst. }
  intros [] w' (new & P1 & P2). exists new. split; [by eapply (submit_post_trans w (w <| w_seqmap := q |>)) |].
  destruct P2 as [-> | P2]; [by left | right]. apply (reported_same direction args n x (w <| w_seqmap := q |>)); try done. by left.
Qed.

(** ** Entries and exits *)

Definition other_dir (d : traffic_direction) : traffic_direction := match d with T_EGRESS => T_INGRESS | T_INGRESS => T_EGRESS end.
Lemma args_map_set d m w : args_map d (set_args_map d m w) = m /\ args_map (other_dir d) (set_args_map d m w) = args_map (other_dir d) w.
Proof. by destruct d. Qed.
Lemma args_map_kept d w w' : args_kept w w' -> args_map d w' = args_map d w.
Proof. intros (H1 & H2 & _). by destruct d. Qed.
Lemma set_args_ok d m w evs : (forall id a, m !! id = Some a -> args_ok a) -> world_ok K w evs -> world_ok K (set_args_map d m w) evs.
Proof. intros Hm Hw. eapply args_update_ok; [exact Hm | | exact Hw]. destruct d; auto. Qed.
Lemma args_map_ok d w evs : world_ok K w evs -> forall id a, args_map d w !! id = Some a -> args_ok a.
Proof. intros []. by destruct d. Qed.

(** What the entry of a call does: it changes the entry of the thread only, and
    leaves the arguments there unless the map is full. *)
Definition enter_post (d : traffic_direction) (fd : Z) (a : data_args) (w w' : world) (evs : list (list Z * list Z)) : Prop :=
  let tcp_seq := match d with
                 | T_EGRESS => get_tcp_write_seq K (w_offset w) fd
                 | T_INGRESS => get_tcp_read_seq K (w_offset w) fd
                 end in
  world_ok K w' evs /\ (exists m, w' = set_args_map d m w /\ (forall id, id <> e_pid_tgid E -> m !! id = args_map d w !! id) /\
    (is_Some (args_map d w !! e_pid_tgid E) \/ Z.of_nat (size (args_map d w)) < k_max_args K ->
     m !! e_pid_tgid E = Some (a <| da_tcp_seq := tcp_seq |>))).

Lemma stash_ok d fd a w evs : world_ok K w evs -> args_ok a -> wp (stash_args E K d fd a) w (fun _ w' => enter_post d fd a w w' evs).
Proof.
  intros Hw Ha. apply wp_modify. cbv zeta. set (seq := match d with T_EGRESS => _ | T_INGRESS => _ end).
  set (m := (htab_update _ _ _ _).2). split.
  - apply set_args_ok; [| done]. apply htab_args_ok; [done | by eapply args_map_ok].
  - exists m. split; [done |]. unfold m. fold seq. split.
    + intros id Hid. by apply htab_others.
    + intros Hroom. rewrite htab_update_room by done. by rewrite lookup_insert_eq.
Qed.

(** What the exit of a call does, with [f] the changes to the arguments, [vecs]
    the kind of the call and [count] the length of the data: it takes out the
    arguments of the thread, and the event, if any, is one of this call. *)
Definition exit_post (d : traffic_direction) (vecs : bool) (f : data_args -> data_args) (count : data_args -> Z)
    (w w' : world) (evs : list (list Z * list Z)) : Prop :=
  exists new, world_ok K w' (evs ++ new) /\
    args_map d w' = delete (e_pid_tgid E) (args_map d w) /\ args_map (other_dir d) w' = args_map (other_dir d) w /\
    w_offset w' = w_offset w /\ w_up w' = w_up w /\ t_push_buffer_refcnt <$> w_ctx w' = t_push_buffer_refcnt <$> w_ctx w /\
    (forall t t', w_ctx w = Some t -> w_ctx w' = Some t' -> t_socket_id t <= t_socket_id t' <= t_socket_id t + 1) /\
    (new = [] \/ exists a go, args_map d w !! e_pid_tgid E = Some a /\
      reported d (f a) (count (f a)) (mk_extra vecs go DATA_SOURCE_SYSCALL) w new).

Definition process_call (vecs : bool) (d : traffic_direction) (a : data_args) (n : Z) : W unit :=
  (if vecs then process_syscall_data_vecs E K else process_syscall_data E K) d a n.

Lemma process_call_ok vecs d a n w evs :
  world_ok K w evs -> ids_left w -> args_ok a ->
  wp (process_call vecs d a n) w (fun _ w' => exists new, submit_post K w w' evs new /\
    (new = [] \/ exists go, reported d a n (mk_extra vecs go DATA_SOURCE_SYSCALL) w new)).
Proof.
  intros Hw Hids Ha. unfold process_call, process_syscall_data_vecs, process_syscall_data.
  destruct vecs; apply wp_bind, wp_gets; (eapply wp_mono; [by apply process_data_ok |]); intros [] w' (new & P1 & [-> | P2]); exists new || exists []; (split; [done |]);
    [by left | by right; eexists | by left | by right; eexists].
Qed.

Lemma exit_none_ok d vecs f count w evs : world_ok K w evs -> args_map d w !! e_pid_tgid E = None -> exit_post d vecs f count w w evs.
Proof.
  intros Hw Hn. exists []. rewrite app_nil_r, delete_id by done. split_and!; try done; [| by left].
  intros t t' Ht Ht'. rewrite Ht in Ht'. injection Ht' as <-. lia.
Qed.

Lemma with_args_ok d vecs f count w evs (Q : unit -> world -> Prop) :
  world_ok K w evs -> ids_left w -> (forall a, args_ok a -> args_ok (f a)) ->
  (args_map d w !! e_pid_tgid E = None -> Q tt w) ->
  (forall w1, exit_post d vecs f count w (set_args_map d (delete (e_pid_tgid E) (args_map d w1)) w1) evs -> Q tt w1) ->
  wp (with_args E d f (fun a => process_call vecs d a (count a))) w Q.
Proof.
  intros Hw Hids Hf Hnone Hsome. unfold with_args. apply wp_bind, wp_gets.
  destruct (args_map d w !! e_pid_tgid E) as [a |] eqn:Ha; [| by apply wp_ret, Hnone].
  apply wp_bind, wp_modify. set (m := alter f _ _). set (w0 := set_args_map d m w).
  assert (args_ok (f a)) as Hfa by (eapply Hf, args_map_ok; done).
  assert (world_ok K w0 evs) as Hw0.
  { apply set_args_ok; [| done]. intros id b Hb. unfold m in Hb. destruct (decide (id = e_pid_tgid E)) as [-> | Hne].
    - rewrite lookup_alter_eq, Ha in Hb. by injection Hb as <-.
    - rewrite lookup_alter_ne in Hb by done. by eapply args_map_ok. }
  assert (w_ctx w0 = w_ctx w /\ w_offset w0 = w_offset w /\ w_up w0 = w_up w /\ ids_left w0) as (E1 & E2 & E3 & Hids0) by (unfold w0, ids_left; by destruct d).
  eapply wp_mono; [by apply (process_call_ok vecs d (f a) (count (f a)) w0 evs) |].
  intros [] w1 (new & (P1 & P2 & P3 & P4) & Hev). apply Hsome. set (w2 := set_args_map d _ w1). exists new.
  destruct (args_map_set d (delete (e_pid_tgid E) (args_map d w1)) w1) as [M1 M2]. fold w2 in M1, M2.
  destruct (args_map_set d m w) as [N1 N2]. fold w0 in N1, N2.
  assert (w_ctx w2 = w_ctx w1 /\ w_offset w2 = w_offset w1 /\ w_up w2 = w_up w1) as (-> & -> & ->) by (unfold w2; by destruct d).
  rewrite M1, M2, (args_map_kept d w0 w1 P2), (args_map_kept _ w0 w1 P2), N1, N2. destruct P2 as (_ & _ & P2 & Pu). rewrite <- E1.
  split_and!; try done.
  - apply set_args_ok; [| done]. apply delete_args_ok. by eapply args_map_ok.
  - apply map_eq. intros id. destruct (decide (id = e_pid_tgid E)) as [-> | Hne]; [by rewrite !lookup_delete_eq |].
    rewrite !lookup_delete_ne by done. unfold m. by rewrite lookup_alter_ne.
  - congruence.
  - congruence.
  - destruct Hev as [-> | [go Hr]]; [by left | right]. exists a, go. split; [done |].
    apply (reported_same d (f a) _ _ (set_args_map d m w)); try done; by destruct d.
Qed.

Lemma extract_address_ok a ptr : args_ok a -> args_ok (extract_network_address_info E a ptr).
Proof.
  intros [[H1 H2] H3]. unfold extract_network_address_info. destruct (ptr =? 0); [done |].
  pose proof (read_user_len E HE ptr 16) as L1. pose proof (read_user_bytes E HE ptr 16) as B1.
  pose proof (read_user_len E HE ptr 28) as L2. pose proof (read_user_bytes E HE ptr 28) as B2.
  destruct (e_read_user E ptr 16) as [r1 b1], (e_read_user E ptr 28) as [r2 b2]. cbn [snd] in *.
  repeat case_match; unfold args_ok; cbn [da_addr da_port set]; (split; [split |]);
    rewrite ?length_app, ?length_take, ?length_drop; try lia; try done; try apply bswap16_port;
    repeat first [apply Forall_app; split | apply Forall_take | apply Forall_drop | done].
Qed.
Lemma set_ptr_ok p a : args_ok a -> args_ok (set_ipaddr_ptr p a).
Proof.
  intros [[H1 H2] H3]. unfold args_ok. cbn [set_ipaddr_ptr da_addr da_port set]. split; [| done].
  rewrite length_app, le_bytes_length, length_drop. split; [lia |]. apply Forall_app. split; [apply le_bytes_ok | by apply Forall_drop].
Qed.
Lemma fetch_address_ok a : args_ok a -> args_ok (fetch_address E a).
Proof. intros Ha. unfold fetch_address. destruct (_ =? 0); [done |]. by apply extract_address_ok, set_ptr_ok. Qed.
Lemma enter_args_ok fd : args_ok (enter_args K fd).
Proof. by apply zero_args_ok. Qed.

(** The two shapes of an exit: the arguments are deleted in any case, or when
    there are any. *)
Lemma exit_always_ok d vecs f count w evs :
  world_ok K w evs -> ids_left w -> (forall a, args_ok a -> args_ok (f a)) ->
  wp (_ ← with_args E d f (fun a => process_call vecs d a (count a)); args_delete E d) w (fun _ w' => exit_post d vecs f count w w' evs).
Proof.
  intros Hw Hids Hf. apply wp_bind. apply (with_args_ok d vecs f count w evs); try done.
  intros Hn. apply wp_modify. rewrite delete_id by done. replace (set_args_map d (args_map d w) w) with w by (by destruct d, w).
  by apply exit_none_ok.
Qed.
Lemma exit_found_ok d vecs f count w evs :
  world_ok K w evs -> ids_left w -> (forall a, args_ok a -> args_ok (f a)) ->
  wp (with_args E d f (fun a => _ ← process_call vecs d a (count a); args_delete E d)) w (fun _ w' => exit_post d vecs f count w w' evs).
Proof.
  intros Hw Hids Hf.
  assert (wp (with_args E d f (fun a => process_call vecs d a (count a))) w (fun _ w1 =>
    (args_map d w !! e_pid_tgid E = None /\ w1 = w) \/ exit_post d vecs f count w (set_args_map d (delete (e_pid_tgid E) (args_map d w1)) w1) evs)) as H
    by (apply (with_args_ok d vecs f count w evs); auto).
  unfold with_args in *. unfold mbind, M_bind, gets, wp in *. destruct (args_map d w !! e_pid_tgid E) as [a |] eqn:Ha.
  - cbn in *. destruct (process_call vecs d (f a) (count (f a)) _) as [[[] w1] |]; [| done]. cbn. by destruct H as [[] |].
  - cbn in *. by apply exit_none_ok.
Qed.

Lemma args_delete_ok d vecs f count w evs : world_ok K w evs ->
  wp (args_delete E d) w (fun _ w' => exit_post d vecs f count w w' evs).
Proof.
  intros Hw. apply wp_modify. set (m := delete _ _). destruct (args_map_set d m w) as [M1 M2].
  exists []. rewrite app_nil_r. split_and!; try done.
  - apply set_args_ok; [| done]. apply delete_args_ok. by eapply args_map_ok.
  - by destruct d.
  - by destruct d.
  - by destruct d.
  - intros t t' Ht Ht'. assert (w_ctx w = Some t') as H by (by destruct d). rewrite Ht in H. injection H as <-. lia.
  - by left.
Qed.

(** The exits of the ten system calls, with the direction of the data, whether it
    is scattered, what is done to the arguments, and where the length comes from:
    the result of the call, or the first message of a batch. *)
Definition set_count (n : Z) (a : data_args) : data_args := a <| da_bytes_count := n |>.
Definition first_len (a : data_args) : Z := swrap 64 (user_word E (da_msg_len a)).
Definition syscall_exits (n : Z) : list (W unit * (traffic_direction * bool * (data_args -> data_args) * (data_args -> Z))) :=
  [(do_sys_exit_write E K n, (T_EGRESS, false, set_count n, fun _ => n));
   (do_sys_exit_read E K n, (T_INGRESS, false, set_count n, fun _ => n));
   (do_sys_exit_sendto E K n, (T_EGRESS, false, set_count n, fun _ => n));
   (do_sys_exit_recvfrom E K n, (T_INGRESS, false, fetch_address E ∘ set_count n, fun _ => n));
   (exit_sendmsg E K n, (T_EGRESS, true, fetch_address E ∘ set_count n, fun _ => n));
   (exit_sendmmsg E K n, (T_EGRESS, true, id, first_len));
   (exit_recvmsg E K n, (T_INGRESS, true, fetch_address E ∘ set_count n, fun _ => n));
   (exit_recvmmsg E K n, (T_INGRESS, true, id, first_len));
   (exit_writev E K n, (T_EGRESS, true, set_count n, fun _ => n));
   (exit_readv E K n, (T_INGRESS, true, set_count n, fun _ => n))].

Lemma syscall_exits_ok n w evs : world_ok K w evs -> ids_left w ->
  Forall (fun '(program, (d, vecs, f, count)) => wp program w (fun _ w' => exit_post d vecs f count w w' evs)) (syscall_exits n).
Proof.
  intros Hw Hids.
  pose proof (fun d v => exit_always_ok d v (set_count n) (fun _ => n) w evs Hw Hids (fun a Ha => Ha)) as H1.
  pose proof (fun d v => exit_found_ok d v (set_count n) (fun _ => n) w evs Hw Hids (fun a Ha => Ha)) as H2.
  pose proof (fun d v => exit_found_ok d v (fetch_address E ∘ set_count n) (fun _ => n) w evs Hw Hids
    (fun a Ha => fetch_address_ok (set_count n a) Ha)) as H3.
  assert (forall d, wp (_ ← (if 0 <? n then with_args E d id (fun a => process_call true d a (first_len a)) else mret tt);
      args_delete E d) w (fun _ w' => exit_post d true id first_len w w' evs)) as H4.
  { intros d. destruct (0 <? n); [by apply (exit_always_ok d true id first_len w evs) |].
    apply wp_bind, wp_ret. by apply args_delete_ok. }
  repeat constructor; [apply (H1 T_EGRESS false) | apply (H1 T_INGRESS false) | apply (H2 T_EGRESS false) | apply (H3 T_INGRESS false)
    | apply (H3 T_EGRESS true) | apply (H4 T_EGRESS) | apply (H3 T_INGRESS true) | apply (H4 T_INGRESS)
    | apply (H1 T_EGRESS true) | apply (H1 T_INGRESS true)].
Qed.

End invariant.

(** ** A request that is read *)

(** The memory of the kernel with a TCP connection from port 40000 to port 80
    behind the descriptor 3. *)
Definition example_socket_memory : list (Z * list Z) :=
  example_fd_memory ++ [(28672 + 496, le_bytes 4 (SOCK_STREAM * 65536)); (28672 + 16, le_bytes 2 PF_INET);
    (28672 + 18, [1]); (28672 + 12, [0; 80]); (28672 + 14, le_bytes 2 40000)].
Definition example_socket_kenv : kenv := file_kenv example_socket_memory.
Definition example_request : data_args := zero_args <| da_fd := 3 |> <| da_buf := 4096 |> <| da_enter_ts := 400 |>.
Definition example_receiving : world := example_world <| w_rargs := {[ 0 := example_request ]} |>.

Lemma example_socket_kenv_ok : kenv_ok example_socket_kenv.
Proof.
  apply file_kenv_ok. unfold example_socket_memory, example_fd_memory, le64. cbn [app]. do 11 (apply Forall_cons_2; cbn [snd];
    [repeat first [by apply bytes_okb | apply le_bytes_ok | apply Forall_app; split] |]). apply Forall_nil_2.
Qed.
Lemma example_receiving_ok : world_ok example_socket_kenv example_receiving [].
Proof.
  eapply args_update_ok; [| by left | by apply (start_world_ok _ example_ctx)].
  intros id a Ha. apply lookup_singleton_Some in Ha as [_ <-]. by apply zero_args_ok.
Qed.
Lemma example_socket_caps : caps_ok example_socket_kenv.
Proof. by constructor. Qed.
Lemma http_comm : bytes_ok (e_comm http_env).2.
Proof. by apply bytes_okb. Qed.

