(* ===== verification/Lifecycle.v ===== *)
(** * The life of a socket

    The programs of kernel/socket_trace.bpf.c at [socket], [accept], [connect]
    and [close]: the entry that carries the trace of an NGINX frontend to the
    socket of its backend, the role of a connection, and the event that ends the
    connection for the reader. *)

From S2P Require Import Prelude Bitmap Conn Iovec InferBase.
From S2P Require Import World Output Goroutine KernelObjects Submit SubmitLog FileEvents.

Section lifecycle.
Context (E : env) (K : kenv).

(** ** [close] *)

Definition put_close_event (uid seq l7_proto fd source now : Z) (v : list Z) : list Z :=
  let v := vput v_socket_id uid v in
  let v := vput v_tgid (cur_tgid E) v in
  let v := vput v_pid (cur_pid E) v in
  let v := vput v_timestamp now v in
  let v := vput v_cap_timestamp now v in
  let v := vput v_source source v in
  let v := vput v_syscall_len 0 v in
  let v := vput v_data_seq seq v in
  let v := vput_msg_type (msg_num MSG_CLOSE) v in
  let v := vput v_data_type l7_proto v in
  let v := vput v_fd fd v in
  vput_bytes v_comm (e_comm E).2 v.

Definition __push_close_event (uid seq l7_proto fd source : Z) : W unit :=
  octx ← gets w_ctx;
  match octx with
  | None => mret tt
  | Some ctx =>
      ob ← gets w_buf;
      match ob with
      | None => mret tt
      | Some b =>
          _ ← add_refcnt 1;
          if BUF_DATA - SD_SIZE <? b_len b then add_refcnt (-1) else
          let v := put_close_event uid seq l7_proto fd source (k_ktime K 0) (replicate HEAD 0) in
          data ← lift (write_at (b_data b) (b_len b) v);
          _ ← modify (fun w => w <| w_buf := Some (b <| b_data := data |>) |>);
          __output_data_common E K None false (s32 (t_data_limit_max ctx)) true 0 (k_ktime K 1)
      end
  end.

(** The entry is read through its pointer after it was deleted; the memory of a
    deleted entry keeps its contents until the program ends. *)
Definition enter_close (fd : Z) : W unit :=
  if fd <=? 2 then mret tt else
  offset ← gets w_offset;
  match offset with
  | None => mret tt
  | Some _ =>
      ready ← infer_offset_phase_2 E K fd;
      if negb ready then mret tt else
      let conn_key := gen_conn_key_id (cur_tgid E) fd in
      sk ← gets (fun w => w_sock w !! conn_key);
      match sk with
      | None => role_delete conn_key
      | Some k =>
          let live := negb (s_uid k =? 0) in
          let k' := if live then k <| s_seq := u64 (s_seq k + 1) |> else k in
          _ ← sock_write conn_key (fun _ => k');
          _ ← delete_socket_info conn_key (Some k');
          __push_close_event (s_uid k') (s_seq k') (proto_num (s_l7_proto k')) fd
            (source_num (if live then s_data_source k' else DATA_SOURCE_SYSCALL))
      end
  end.

(** ** [socket], [accept] and [connect] *)

(** [fd] is the result of [socket] as 64 bits. *)
Definition exit_socket (fd : Z) : W unit :=
  nginx ← lift (is_nginx_process E);
  if negb nginx then mret tt else
  key ← get_trace_key E K 0 true;
  trace ← gets (fun w => w_trace w !! key);
  match trace with
  | None => mret tt
  | Some t =>
      if (ti_peer_fd t =? 0) || (ti_peer_fd t =? u32 fd) then mret tt else
      let sk_info := zero_sock <| s_peer_fd := ti_peer_fd t |> <| s_trace_id := ti_thread_trace_id t |> in
      ok ← sock_update K (gen_conn_key_id (cur_tgid E) fd) sk_info;
      stats ← gets w_stats;
      match stats with
      | None => mret tt
      | Some _ => if ok : bool then count_socket 1 else mret tt
      end
  end.

Definition exit_accept (sockfd : Z) : W unit :=
  role_update K (gen_conn_key_id (cur_tgid E) sockfd) (role_num ROLE_SERVER).
Definition exit_accept4 (sockfd : Z) : W unit :=
  role_update K (gen_conn_key_id (cur_tgid E) sockfd) (role_num ROLE_SERVER).
Definition enter_connect (sockfd : Z) : W unit :=
  role_update K (gen_conn_key_id (cur_tgid E) sockfd) (role_num ROLE_CLIENT).
End lifecycle.

(** ** The event of a close *)

Section close_event.
Context {X : Counting} (E : env) (K : kenv) (HE : env_ok E) (HK : kenv_ok K) (Hcomm : bytes_ok (e_comm E).2) (HC : caps_ok K).

Record close_header (uid seq l7_proto fd source : Z) (v : list Z) : Prop := {
  ch_uid : vget v_socket_id v = u64 uid;
  ch_seq : vget v_data_seq v = u64 seq;
  ch_proto : vget v_data_type v = u16 l7_proto;
  ch_fd : vget v_fd v = u32 fd;
  ch_task : vget v_tgid v = u32 (cur_tgid E) /\ vget v_pid v = u32 (cur_pid E);
  ch_len : vget v_syscall_len v = 0;
  ch_source : vget v_source v = u8 source;
  ch_msg : vget_msg_type v = msg_num MSG_CLOSE }.

Lemma put_close_event_ok uid seq l7_proto fd source now v : hdr v ->
  let v' := put_close_event E uid seq l7_proto fd source now v in hdr v' /\ close_header uid seq l7_proto fd source v'.
Proof.
  intros Hv. unfold put_close_event. cbv zeta. split; [is_hdr |].
  constructor; try (split; put_value); try put_value.
  unfold vget_msg_type. lazymatch goal with |- Z.land (Z.shiftr ?b 1) 63 = _ => eassert (b = _) as -> by (repeat skip_put; reflexivity) end.
  match goal with |- context [vget v_bits (vput_msg_type _ ?w)] => assert (hdr w) as Hw by is_hdr; clear - Hw; revert Hw; generalize w end.
  intros v1 Hv1. destruct (put_bits v1 Hv1) as (_ & M & _). specialize (M (msg_num MSG_CLOSE) ltac:(done)).
  unfold bits_are in M. rewrite !andb_true_iff, !Z.eqb_eq in M. destruct M as [[_ M] _]. exact M.
Qed.

Lemma close_header_len uid seq l7_proto fd source v n : hdr v ->
  close_header uid seq l7_proto fd source v -> close_header uid seq l7_proto fd source (vput v_data_len n v).
Proof. intros Hv [? ? ? ? [? ?]]. constructor; unfold vget_msg_type; rewrite ?keep_put; done. Qed.

(** The buffer has room for an event. *)
Definition buffer_room (w : world) : Prop := exists b, w_buf w = Some b /\ roomy b.

(** What a close leaves alone. *)
Record close_frame (w w' : world) : Prop := {
  cf_sock : w_sock w' = w_sock w; cf_role : w_role w' = w_role w; cf_trace : w_trace w' = w_trace w;
  cf_stats : w_stats w' = w_stats w; cf_args : args_kept w w';
  cf_core : ctx_core <$> w_ctx w' = ctx_core <$> w_ctx w }.

Lemma push_close_ok uid seq l7_proto fd source w evs : world_ok K w evs ->
  wp (__push_close_event E K uid seq l7_proto fd source) w (fun _ w' => exists new, world_ok K w' (evs ++ new) /\ close_frame w w' /\
    (is_Some (w_ctx w) -> buffer_room w -> new <> []) /\
    (new = [] \/ exists e, new = [e] /\ close_header uid seq l7_proto fd source e.1 /\ e.2 = [])).
Proof.
  intros Hw. unfold __push_close_event. pose proof Hw as [Hm Hr Hlog Hca Hra Hwa Hpr Hst].
  apply wp_bind, wp_gets. destruct (w_ctx w) as [t |] eqn:Ht.
  2: { apply wp_ret. exists []. rewrite app_nil_r. split_and!; try done; try (by intros []); try (by left). }
  pose proof Hlog as (b & sent & pend & Hli & Hevs). pose proof Hli as [Hb Hh Hnum Hs Hwio].
  apply wp_bind, wp_gets. rewrite Hb. apply wp_bind, wp_modify. rewrite Ht. cbn [fmap option_fmap option_map].
  set (t1 := t <| t_push_buffer_refcnt := _ |>). pose proof (refcnt_back _ (Hr t Ht)) as Hback.
  assert (ctx_core (t1 <| t_push_buffer_refcnt := s32 (t_push_buffer_refcnt t1 + -1) |>) = ctx_core t) as Hcore
    by (unfold ctx_core, t1; cbn; by rewrite Hback).
  destruct (Z.ltb_spec (BUF_DATA - SD_SIZE) (b_len b)) as [Hfull | Hroom].
  { apply wp_modify. set (w1 := _ <| w_ctx := _ |>). assert (ctx_core <$> w_ctx w1 = Some (ctx_core t)) as Hc1 by (exact (f_equal Some Hcore)).
    destruct (core_kept K w w1 t) as [K1 K2]; try done. exists []. rewrite app_nil_r. split_and!; [| | | by left].
    - constructor; try done. by apply (logged_same w).
    - constructor; try done. by rewrite Hc1, Ht.
    - intros _ (b' & Hb' & Hr'). rewrite Hb in Hb'. injection Hb' as <-. unfold roomy in Hr'. lia. }
  destruct (put_close_event_ok uid seq l7_proto fd source (k_ktime K 0) (replicate HEAD 0)) as [Hv Hhd].
  { split; [done | by apply Forall_replicate]. }
  set (v := put_close_event _ _ _ _ _ _ _ _) in *. clearbody v. set (w2 := w <| w_ctx := Some t1 |>).
  assert (logged_in w2 b sent pend) as Hli2 by (by constructor).
  destruct (header_output_ok E K HE HK None false (s32 (t_data_limit_max t)) true 0 (k_ktime K 1) w2 b sent pend v t1) as (data & Hd & Hwp);
    try done. { by rewrite (ch_msg _ _ _ _ _ _ Hhd). }
  apply wp_bind. eapply wp_lift; [exact Hd |]. apply wp_bind, wp_modify. eapply wp_mono; [exact Hwp |].
  intros [] w3 (F1 & F2 & F3 & F4 & F5 & F6 & F7 & F8 & Hl). rewrite Hcore in F8. destruct (core_kept K w w3 t) as [K1 K2]; try done.
  unfold w_fixed in F7. cbn in F7. injection F7 as G1 G2 G3 G4 G5 G6.
  rewrite <- Hevs in Hl. change (logged w3 (evs ++ [with_payload v []])) in Hl.
  exists [with_payload v []]. split_and!; try done.
  - constructor; rewrite ?F5, ?G1, ?G2, ?G5, ?G6; done.
  - constructor; try done. by rewrite F8, Ht.
  - right. exists (with_payload v []). split_and!; try done. by apply close_header_len.
Qed.

(** ** [close] *)

Lemma phase_offset phase fd w : phase = infer_offset_phase_1 E K fd \/ phase = infer_offset_phase_2 E K fd ->
  wp phase w (fun r w' => (exists o, w' = w <| w_offset := o |>) /\ ((exists o, w_offset w = Some o /\ o_ready o = true) -> r = true /\ w' = w)).
Proof.
  assert ((exists o, w = w <| w_offset := o |>)) as Hid by (exists (w_offset w); by destruct w).
  intros [-> | ->]; [unfold infer_offset_phase_1 | unfold infer_offset_phase_2]; apply wp_bind, wp_gets;
    destruct (w_offset w) as [o |] eqn:Ho; try (apply wp_ret; split; [done |]; by intros (? & ? & ?));
    destruct (o_ready o) eqn:Hr; try (by apply wp_ret);
    assert (forall P : Prop, (exists o0, Some o = Some o0 /\ o_ready o0 = true) -> P) as Hno by (intros P (o0 & [= <-] & ?); congruence);
    repeat case_match; try (apply wp_ret; split; [done | apply Hno]); apply wp_bind, wp_modify, wp_ret; (split; [by eexists | apply Hno]).
Qed.
Lemma offset_ok w o evs : world_ok K w evs -> world_ok K (w <| w_offset := o |>) evs.
Proof. intros []. constructor; try done; [by apply (maps_ok_same K w) | by apply (logged_same w)]. Qed.

(** What is common to the programs of this file. *)
Record life_post (w w' : world) (evs new : list (list Z * list Z)) : Prop := {
  lp_ok : world_ok K w' (evs ++ new);
  lp_args : w_rargs w' = w_rargs w /\ w_wargs w' = w_wargs w /\ w_up w' = w_up w;
  lp_refcnt : t_push_buffer_refcnt <$> w_ctx w' = t_push_buffer_refcnt <$> w_ctx w;
  lp_ids : t_socket_id <$> w_ctx w' = t_socket_id <$> w_ctx w }.
Lemma life_post_same w w' evs : world_ok K w' evs -> w_rargs w' = w_rargs w -> w_wargs w' = w_wargs w -> w_up w' = w_up w ->
  w_ctx w' = w_ctx w ->
  life_post w w' evs [].
Proof. intros Hw H1 H2 H3 H4. constructor; rewrite ?app_nil_r, ?H4; done. Qed.

(** The entry of a socket is deleted and its end reported. *)
Lemma close_known_ok key k k' uid seq proto fd source w evs : world_ok K w evs -> w_sock w !! key = Some k ->
  s_uid k' = s_uid k -> entry_ok k' ->
  wp (_ ← sock_write key (fun _ => k'); _ ← delete_socket_info key (Some k'); __push_close_event E K uid seq proto fd source) w
    (fun _ w' => exists new, life_post w w' evs new /\
       (is_Some (w_stats w) -> w_sock w' = delete key (w_sock w) /\ w_role w' = delete key (w_role w)) /\
       (is_Some (w_ctx w) -> buffer_room w -> new <> []) /\
       (new = [] \/ exists e, new = [e] /\ close_header uid seq proto fd source e.1 /\ e.2 = [])).
Proof.
  intros Hw Hk Hu Hok. pose proof Hw as [Hm Hr Hl Hca Hra Hwa Hpr Hsta]. apply wp_bind, wp_modify.
  set (w1 := w <| w_sock := _ |>). assert (maps_ok K w1) as Hm1.
  { apply (sock_write_maps K); [| done]. intros k0 Hk0. rewrite Hk in Hk0. by injection Hk0 as <-. }
  assert (w_sock w1 !! key = Some k') as Hk1 by (unfold w1; cbn; by rewrite lookup_alter_eq, Hk).
  rewrite <- Hk1. apply wp_bind. eapply wp_mono; [by apply (delete_socket_info_ok K HC key w1) |].
  intros [] w2 (D1 & D2 & D3 & D4 & D5 & D6). rewrite Hk1 in D6.
  pose proof (q_fixed _ _ D2) as Hf. unfold w_fixed in Hf. injection Hf as G1 G2 G3 G4 G5 G6.
  assert (world_ok K w2 evs) as Hw2.
  { constructor; rewrite ?G1, ?G2, ?G5, ?G6, ?(q_cache _ _ D2); try done; [unfold refcnt_typed; by rewrite D4 |].
    apply (logged_quiet w1); [done |]. by apply (logged_same w). }
  eapply wp_mono; [by apply push_close_ok |]. intros [] w3 (new & P1 & [F1 F2 F3 F4 (A1 & A2 & A3 & A4) F5] & P2 & P3). exists new.
  assert (forall {A} (f : tracer_ctx -> A) g, (forall t, f t = g (ctx_core t)) -> f <$> w_ctx w3 = f <$> w_ctx w) as Hcx.
  { intros A f g Hg. change (w_ctx w) with (w_ctx w1). rewrite <- D4. apply (f_equal (fmap g)) in F5.
    destruct (w_ctx w3), (w_ctx w2); cbn in *; congruence. }
  split_and!; try done.
  - constructor; try done; [by rewrite A1, A2, A4, G1, G2, G6 | |]; unfold ctx_core in Hcx.
    + by apply (Hcx _ _ (fun c => c.1.1.2)).
    + by apply (Hcx _ _ (fun c => c.1.1.1.1.1.1)).
  - intros Hst. rewrite F1, F2. change (w_stats w) with (w_stats w1) in Hst. rewrite D5, D6 by done. split; [| done].
    unfold w1. cbn. apply map_eq. intros j. destruct (decide (j = key)) as [-> | Hne]; [by rewrite !lookup_delete_eq |].
    by rewrite !lookup_delete_ne, lookup_alter_ne by done.
  - intros Hc Hb. apply P2; [by rewrite D4 |]. destruct Hb as (b & Hb & ?). exists b. by rewrite (q_buf _ _ D2).
Qed.

(** The values that the event of a close takes from the entry. *)
Definition close_seq (k : socket_info) : Z := if s_uid k =? 0 then s_seq k else u64 (s_seq k + 1).
Definition close_source (k : socket_info) : data_source := if s_uid k =? 0 then DATA_SOURCE_SYSCALL else s_data_source k.

Lemma enter_close_ok fd w evs : world_ok K w evs ->
  let key := gen_conn_key_id (cur_tgid E) fd in
  wp (enter_close E K fd) w (fun _ w' => exists new, life_post w w' evs new /\
    (2 < fd -> (exists o, w_offset w = Some o /\ o_ready o = true) -> forall k, w_sock w !! key = Some k ->
      (is_Some (w_stats w) -> w_sock w' = delete key (w_sock w) /\ w_role w' = delete key (w_role w)) /\
      (is_Some (w_ctx w) -> buffer_room w -> new <> []) /\
      (new = [] \/ exists e, new = [e] /\
         close_header (s_uid k) (close_seq k) (proto_num (s_l7_proto k)) fd (source_num (close_source k)) e.1 /\ e.2 = []))).
Proof.
  intros Hw key. unfold enter_close. destruct (Z.leb_spec fd 2).
  { apply wp_ret. exists []. split; [by apply life_post_same | lia]. }
  apply wp_bind, wp_gets. destruct (w_offset w) as [o |] eqn:Ho.
  2: { apply wp_ret. exists []. split; [by apply life_post_same |]. by intros _ (? & ? & _). }
  apply wp_bind. eapply wp_mono; [apply (phase_offset _ fd w); by right |]. intros r w1 ((o1 & Hw1) & Hready).
  assert (world_ok K w1 evs) as Hok1 by (subst w1; by apply offset_ok). rewrite Ho in Hready.
  destruct r; cbn [negb].
  2: { apply wp_ret. exists []. split; [subst w1; by apply life_post_same |]. intros _ Hrd. by destruct (Hready Hrd). }
  apply wp_bind, wp_gets. fold key. assert (w_sock w1 = w_sock w) as -> by (by subst w1).
  destruct (w_sock w !! key) as [k |] eqn:Hk.
  2: { apply wp_modify. exists []. split; [| done]. subst w1. apply life_post_same; try done. destruct Hok1. constructor; try done.
       - by apply (maps_ok_same K (w <| w_offset := o1 |>)).
       - by apply (logged_same (w <| w_offset := o1 |>)). }
  set (k' := if negb _ then _ else k).
  assert (s_uid k' = s_uid k /\ s_seq k' = close_seq k /\ s_l7_proto k' = s_l7_proto k /\ s_data_source k' = s_data_source k /\ entry_ok k')
    as (U1 & U2 & U3 & U4 & U5).
  { pose proof (mo_sock K w (wo_maps _ _ _ Hw) key k Hk) as Hent. unfold k', close_seq. destruct (s_uid k =? 0); cbn [negb]; split_and!; try done. }
  rewrite U1, U2, U3, U4. replace (if negb (s_uid k =? 0) then s_data_source k else DATA_SOURCE_SYSCALL) with (close_source k)
    by (unfold close_source; by destruct (s_uid k =? 0)).
  eapply wp_mono; [apply (close_known_ok key k k' _ _ _ _ _ w1 evs Hok1); try done; by subst w1 |].
  intros [] w2 (new & [L1 L2 L3 L4] & P1 & P2 & P3). exists new. split; [subst w1; by constructor |].
  intros _ _ k0 [= <-]. subst w1. by split_and!.
Qed.

(** C22: closing a connection. When the descriptor of a known connection is closed
    and the buffer has room, exactly one event is added, without data: it has the
    identifier of the connection and the number after its last event, so that the
    reader sees that it ended and that nothing is missing. The entry and the role
    are gone, the counter of sockets follows, and the next message on the
    descriptor gets an identifier that no event had before. *)
Theorem close_reported fd w evs o k ctx n :
  let key := gen_conn_key_id (cur_tgid E) fd in
  world_ok K w evs -> 2 < fd -> w_offset w = Some o -> o_ready o = true -> w_sock w !! key = Some k -> s_uid k <> 0 ->
  w_ctx w = Some ctx -> w_stats w = Some n -> buffer_room w ->
  exists w' e, enter_close E K fd w = Some (tt, w') /\ world_ok K w' (evs ++ [e]) /\
    w_sock w' = delete key (w_sock w) /\ w_role w' = delete key (w_role w) /\
    close_header (s_uid k) (s_seq k + 1) (proto_num (s_l7_proto k)) fd (source_num (s_data_source k)) e.1 /\ e.2 = [] /\
    forall ctx', w_ctx w' = Some ctx' -> s_uid k < event_uid (w_sock w' !! key) ctx'.
Proof.
  intros key Hw Hfd Ho Hr Hk Hu Hctx Hn Hroom. pose proof (enter_close_ok fd w evs Hw) as H.
  apply wp_total in H as ([] & w' & Hrun & new & [L1 L2 L3 L4] & Hpost). fold key in Hpost.
  destruct (Hpost Hfd ltac:(by exists o) k Hk) as (P1 & P2 & P3). destruct P1 as [P1 P1']; [by rewrite Hn |].
  destruct P3 as [-> | (e & -> & P3 & P4)]; [by destruct P2; [rewrite Hctx | | ] |].
  exists w', e. split_and!; try done.
  - unfold close_seq, close_source in P3. destruct (Z.eqb_spec (s_uid k) 0); [done |]. destruct P3 as [Q1 Q2 Q3 Q4 Q5 Q6 Q7 Q8].
    constructor; try done. rewrite Q2. unfold wrap. by rewrite Z.mod_mod.
  - intros ctx' Hctx'. rewrite P1, lookup_delete_eq. cbn [event_uid]. rewrite Hctx, Hctx' in L4. cbn in L4. injection L4 as ->.
    pose proof (mo_uid K w (wo_maps _ _ _ Hw) ctx key k Hctx Hk). lia.
Qed.

(** ** [socket] *)

(** The key of the trace of a thread whose goroutines are not followed. *)
Definition thread_key : trace_key := mk_key (cur_tgid E) (cur_pid E) 0.
(** The entry that is made for the socket of a backend. *)
Definition backend_sock (t : trace_info) : socket_info :=
  zero_sock <| s_peer_fd := ti_peer_fd t |> <| s_trace_id := ti_thread_trace_id t |>.
Lemma backend_entry t : entry_ok (backend_sock t).
Proof. unfold entry_ok, sock_ok. cbn. split; [| lia]. split_and!; try done; try lia. by apply bytes_okb. Qed.

(** An NGINX worker that handles a request of a frontend. *)
Definition frontend (fd : Z) (w : world) (t : trace_info) : Prop :=
  is_nginx_process E = Some true /\ w_trace w !! thread_key = Some t /\ ti_peer_fd t <> 0 /\ ti_peer_fd t <> u32 fd.

Lemma is_nginx_total : is_Some (is_nginx_process E).
Proof. unfold is_nginx_process. apply def_match_at; [lia |]. rewrite (comm_len E HE). done. Qed.

(** The program adds an entry or does nothing. *)
Lemma exit_socket_run fd w :
  (exists t ok m, frontend fd w t /\ htab_update (k_max_sock K) (gen_conn_key_id (cur_tgid E) fd) (backend_sock t) (w_sock w) = (ok, m) /\
     exit_socket E K fd w = Some (tt, w <| w_sock := m |> <| w_stats := if ok : bool then
       (fun n => n <| n_socket_map := u64 (n_socket_map n + 1) |>) <$> w_stats w else w_stats w |>)) \/
  ((forall t, ~ frontend fd w t) /\ exit_socket E K fd w = Some (tt, w)).
Proof.
  unfold exit_socket, frontend, mbind, M_bind, lift, gets. destruct is_nginx_total as [nginx Hnx]. rewrite Hnx. cbn.
  destruct nginx; cbn [negb]; [| right; split; [by intros t [[=] _] | done]].
  unfold get_trace_key, mbind, M_bind, mret, M_ret. change (0 =? 0) with true. cbv beta iota. fold thread_key.
  destruct (w_trace w !! thread_key) as [t |]; [| right; split; [by intros t (_ & [=] & _) | done]].
  destruct (Z.eqb_spec (ti_peer_fd t) 0) as [E0 | E0]; cbn [orb]; [right; split; [by intros t' (_ & [= <-] & ? & _) | done] |].
  destruct (Z.eqb_spec (ti_peer_fd t) (u32 fd)) as [E1 | E1]; [right; split; [by intros t' (_ & [= <-] & _ & ?) | done] |].
  left. fold (backend_sock t). exists t. unfold sock_update. destruct (htab_update _ _ _ _) as [ok m]. exists ok, m. split_and!; try done.
  set (w1 := w <| w_sock := m |>). change (w_stats w) with (w_stats w1).
  assert (forall s, w_stats w1 = s -> w1 <| w_stats := s |> = w1) as Hid by (clearbody w1; intros s <-; by destruct w1). clearbody w1.
  unfold count_socket, set_stats, modify. destruct (w_stats w1) as [n |] eqn:Hn, ok; cbn [fmap option_fmap option_map]; rewrite ?(Hid _ eq_refl), ?Hn; reflexivity.
Qed.

(** An entry of a socket without an identifier, under a new key if the counters are to
    stay exact. *)
Lemma fresh_entry_maps key k w : maps_ok K w -> ids_left w -> entry_ok k -> s_uid k = 0 ->
  (exact_counts = true -> w_sock w !! key = None) -> is_Some (w_sock w !! key) \/ Z.of_nat (size (w_sock w)) < k_max_sock K ->
  maps_ok K (w <| w_sock := <[key := k]> (w_sock w) |>
               <| w_stats := (fun n => n <| n_socket_map := u64 (n_socket_map n + 1) |>) <$> w_stats w |>).
Proof.
  intros Hm Hids Hk Hu Hno Hroom.
  assert (exists n, maps_ok K (w <| w_stats := Some n |>) /\ forall n', w_stats w = Some n' -> n' = n) as (n & Hm1 & Hn).
  { destruct Hm as [H1 H2 H3 H4 H5 H6 H7]. destruct (w_stats w) as [n |].
    - exists n. split; [by constructor | by intros n' [= <-]].
    - exists (mk_stats (Z.of_nat (size (w_sock w))) (Z.of_nat (size (w_trace w))) 0 0 0 0). split; [constructor; try done; by intros n' [= <-] | done]. }
  set (n' := n <| n_socket_map := u64 (n_socket_map n + 1) |>).
  destruct (sock_insert_maps K HC key k (w <| w_stats := Some n |>) n n' Hm1 eq_refl Hk eq_refl) as [M1 M2 M3 M4 M5 M6 M7]; try done.
  { intros He. change (w_sock (w <| w_stats := Some n |>)) with (w_sock w). by rewrite (Hno He). }
  { intros t Ht. rewrite Hu. destruct (Hids t Ht). lia. }
  constructor; try done. intros n0 Hn0. apply M3. cbn in Hn0 |- *. destruct (w_stats w) as [n1 |]; [| done]. by rewrite (Hn n1 eq_refl) in Hn0.
Qed.

Lemma exit_socket_ok fd w evs : world_ok K w evs -> ids_left w ->
  (exact_counts = true -> (exists t, frontend fd w t) -> w_sock w !! gen_conn_key_id (cur_tgid E) fd = None) ->
  wp (exit_socket E K fd) w (fun _ w' => life_post w w' evs [] /\
    forall t, frontend fd w t -> is_Some (w_sock w !! gen_conn_key_id (cur_tgid E) fd) \/ Z.of_nat (size (w_sock w)) < k_max_sock K ->
      w_sock w' !! gen_conn_key_id (cur_tgid E) fd = Some (backend_sock t) /\
      w_ctx w' = w_ctx w /\ w_trace w' = w_trace w /\ (is_Some (w_stats w) -> is_Some (w_stats w'))).
Proof.
  intros Hw Hids Hfresh. set (key := gen_conn_key_id (cur_tgid E) fd) in *. unfold wp.
  destruct (exit_socket_run fd w) as [(t & ok & m & Hf & Hup & ->) | [Hno ->]].
  2: { split; [by apply life_post_same |]. intros t Hf. by destruct (Hno t). }
  fold key in Hup. pose proof Hw as [Hm Hr Hl Hca Hra Hwa Hpr].
  set (w' := w <| w_sock := m |> <| w_stats := _ |>).
  assert (maps_ok K w' -> life_post w w' evs []) as Hlife.
  { intros Hm'. apply life_post_same; try done. constructor; try done. by apply (logged_same w). }
  destruct (htab_update_cases (k_max_sock K) key (backend_sock t) (w_sock w)) as [[Hu Hroom] | [Hu [Hnone Hfull]]]; rewrite Hu in Hup; apply pair_equal_spec in Hup as [<- <-].
  - split.
    + apply Hlife. apply fresh_entry_maps; try done; [apply backend_entry |]. intros He. apply Hfresh; [done | by exists t].
    + intros t' (_ & Ht' & _) _. destruct Hf as (_ & Ht & _). rewrite Ht in Ht'. injection Ht' as <-. split_and!; try done.
      * unfold w'. cbn. by rewrite lookup_insert_eq.
      * unfold w'. cbn. by intros [n ->].
  - split; [| intros t' _ [[? Hx] | ?]; [congruence | lia]]. apply Hlife. by apply (maps_ok_same K w).
Qed.

(** The counter of sockets can run ahead of the map. When the descriptor of a
    backend already has an entry (which a failed [socket] of the same worker leaves
    behind, under the descriptor -1, and which [close] never removes), [socket]
    replaces the entry and counts it again. *)
Theorem socket_counter_drifts fd w t n k :
  let key := gen_conn_key_id (cur_tgid E) fd in
  frontend fd w t -> w_sock w !! key = Some k -> w_stats w = Some n ->
  exists w', exit_socket E K fd w = Some (tt, w') /\ size (w_sock w') = size (w_sock w) /\
    n_socket_map <$> w_stats w' = Some (u64 (n_socket_map n + 1)).
Proof.
  intros key Hf Hk Hn. destruct (exit_socket_run fd w) as [(t' & ok & m & _ & Hup & Hrun) | [Hno _]]; [| by destruct (Hno t)].
  eexists. split; [exact Hrun |]. fold key in Hup.
  destruct (htab_update_cases (k_max_sock K) key (backend_sock t') (w_sock w)) as [[Hu _] | [_ [Hu _]]]; [| congruence].
  rewrite Hu in Hup. apply pair_equal_spec in Hup as [<- <-]. rewrite Hn. split; [| done].
  change (size (<[key := backend_sock t']> (w_sock w)) = size (w_sock w)). by rewrite map_size_insert, Hk.
Qed.
End close_event.

(** ** The trace of a request through NGINX *)

(** A thread that runs no goroutine has the key of the thread. *)
Lemma thread_submit_key E K ctx c w : c_no_trace c = false -> get_current_goroutine E (w_go w) = 0 ->
  submit_key E K ctx c w = thread_key E.
Proof.
  intros Hc Hg. unfold submit_key, find_key, get_trace_key, get_rw_goid, mbind, M_bind, mret, M_ret, gets. rewrite Hc.
  destruct (t_go_tracing_timeout ctx =? 0); [done |]. by rewrite Hg.
Qed.

Lemma traced_on ctx c x : traced (submit_conn ctx c) ctx x = true -> t_disable_tracing ctx = false /\ submit_conn ctx c = c.
Proof.
  intros H%traced_no_trace. unfold submit_conn in *. by destruct (t_disable_tracing ctx).
Qed.

Section nginx.
Context {X : Counting} (E1 E2 E3 : env) (K1 K2 K3 : kenv).
Hypotheses (HE1 : env_ok E1) (HE2 : env_ok E2) (HE3 : env_ok E3).
Hypotheses (HK1 : kenv_ok K1) (HK3 : kenv_ok K3) (HC : caps_ok K1).
Hypotheses (Hc1 : bytes_ok (e_comm E1).2) (Hc3 : bytes_ok (e_comm E3).2).
Hypotheses (Hs2 : k_max_sock K2 = k_max_sock K1) (Ht2 : k_max_trace K2 = k_max_trace K1).
Hypotheses (Hs3 : k_max_sock K3 = k_max_sock K1) (Ht3 : k_max_trace K3 = k_max_trace K1).
Hypotheses (Hp2 : e_pid_tgid E2 = e_pid_tgid E1) (Hp3 : e_pid_tgid E3 = e_pid_tgid E1).

(** The request: it opens the trace of the thread, which names its descriptor. *)
Lemma nginx_request c args len ts x w evs ctx n :
  world_ok K1 w evs -> w_ctx w = Some ctx -> w_stats w = Some n -> 0 <= t_socket_id ctx < 2 ^ 64 - 2 ->
  get_current_goroutine E1 (w_go w) = 0 -> c_sk c <> 0 -> c_message_type c = MSG_REQUEST -> c_is_reasm_seg c = false ->
  c_direction c = T_INGRESS -> traced (submit_conn ctx c) ctx x = true -> input_ok c args len ->
  Z.of_nat (size (w_trace w)) < k_max_trace K1 ->
  wp (__data_submit E1 K1 c args len ts x) w (fun r w1 => exists new t ctx1,
    world_ok K1 w1 (evs ++ new) /\ w_ctx w1 = Some ctx1 /\ is_Some (w_stats w1) /\ ids_left w1 /\ t_disable_tracing ctx1 = false /\
    w_trace w1 !! thread_key E2 = Some t /\ ti_peer_fd t = c_fd c /\
    forall e, e ∈ new -> vget v_thread_trace_id e.1 = u64 (ti_thread_trace_id t)).
Proof.
  intros Hw Hctx Hn Hid Hg H0 Hreq Hseg Hd Htr Hin Hroom.
  destruct (traced_on ctx c x Htr) as [Hdis Hsame]. pose proof (traced_no_trace _ _ _ Htr) as Hnt. rewrite Hsame in Htr, Hnt.
  assert (ids_left w) as Hids by (intros t Ht; rewrite Hctx in Ht; injection Ht as <-; lia).
  eapply wp_mono; [apply (submit_trace E1 K1 HE1 HK1 HC Hc1 c args len ts x w evs ctx n); try done; by rewrite Hreq |].
  intros r w1 (new & id & ctx1 & Hw1 & Hctx1 & Hn1 & L1 & L1' & Q1 & _ & _ & Heff & Hnew & _).
  rewrite Hsame in Heff, Hnew. unfold trace_effect in Heff. rewrite Htr, Hd in Heff.
  destruct Heff as [Heff _]. destruct (Heff (or_intror Hroom)) as (t & Hk & Hti & Hpeer).
  exists new, t, ctx1. split_and!; try done.
  - intros t' Ht'. rewrite Hctx1 in Ht'. injection Ht' as <-. lia.
  - congruence.
  - rewrite (thread_submit_key E1 K1) in Hk by done. unfold thread_key, cur_tgid, cur_pid in *. by rewrite Hp2.
  - rewrite Hpeer. unfold trace_peer_fd. by rewrite Hreq, Hseg.
  - intros e He. rewrite (Hnew e He), final_trace_plain, Hti by auto. done.
Qed.

(** The message to the backend: its events carry the identifier that the entry of its
    socket has, and the entry keeps the descriptor of the frontend. *)
Lemma nginx_forward c args len ts x w evs ctx t :
  world_ok K3 w evs -> w_ctx w = Some ctx -> is_Some (w_stats w) -> ids_left w -> t_disable_tracing ctx = false ->
  let key := gen_conn_key_id (cur_tgid E3) (c_fd c) in
  w_sock w !! key = Some (backend_sock t) -> 0 < ti_peer_fd t ->
  c_sk c <> 0 -> c_message_type c <> MSG_UNKNOWN -> c_message_type c <> MSG_CLEAR ->
  c_direction c = T_EGRESS -> c_no_trace c = false -> input_ok c args len ->
  wp (__data_submit E3 K3 c args len ts x) w (fun r w' => exists new k,
    world_ok K3 w' (evs ++ new) /\ w_sock w' !! key = Some k /\ s_peer_fd k = ti_peer_fd t /\
    forall e, e ∈ new -> vget v_thread_trace_id e.1 = u64 (ti_thread_trace_id t)).
Proof.
  intros Hw Hctx [n Hn] Hids Hdis key Hk Hp H0 H1 H2 Hd Hnt Hin.
  assert (caps_ok K3) as HC3 by (destruct HC; constructor; congruence).
  assert (submit_conn ctx c = c) as Hsame by (unfold submit_conn; by rewrite Hdis).
  eapply wp_mono; [by apply (submit_trace E3 K3 HE3 HK3 HC3 Hc3 c args len ts x w evs ctx n) |].
  intros r w' (new & id & ctx' & Hw' & _ & _ & _ & _ & _ & _ & _ & _ & Hnew & Hpeer).
  fold key in Hnew, Hpeer. rewrite Hsame, Hk in Hnew, Hpeer.
  destruct (Hpeer eq_refl (or_introl (mk_is_Some _ _ eq_refl))) as (k & Hk' & Hpk).
  assert ((0 <? ti_peer_fd t) = true) as Hlt by lia.
  exists new, k. split_and!; try done.
  - rewrite Hpk. unfold new_peer_fd. cbn. by rewrite Hd, Hnt, Hlt.
  - intros e He. rewrite (Hnew e He). unfold final_trace_id, new_trace_id. cbn. by rewrite Hd, Hnt, Hlt.
Qed.

(** C25: the trace of a request through NGINX, in three calls of one worker, which is a
    thread that runs no goroutine. It submits a traced request that has come in on a
    descriptor, for whose trace there is room; it opens a socket, for whose entry there
    is room, with another descriptor; it sends a message, not exempt from tracing, on the
    new descriptor. Then all events of the request and of the message carry one trace
    identifier, and the entry of the new socket, which the message completes, names the
    descriptor of the request. *)
Theorem nginx_backend_trace c1 args1 len1 ts1 x1 fd c2 args2 len2 ts2 x2 w evs ctx n :
  world_ok K1 w evs -> w_ctx w = Some ctx -> w_stats w = Some n -> 0 <= t_socket_id ctx < 2 ^ 64 - 2 ->
  is_nginx_process E2 = Some true -> get_current_goroutine E1 (w_go w) = 0 ->
  c_sk c1 <> 0 -> c_message_type c1 = MSG_REQUEST -> c_is_reasm_seg c1 = false -> c_direction c1 = T_INGRESS ->
  traced (submit_conn ctx c1) ctx x1 = true -> input_ok c1 args1 len1 -> Z.of_nat (size (w_trace w)) < k_max_trace K1 ->
  0 < c_fd c1 -> c_fd c1 <> u32 fd ->
  c_sk c2 <> 0 -> c_message_type c2 <> MSG_UNKNOWN -> c_message_type c2 <> MSG_CLEAR ->
  c_direction c2 = T_EGRESS -> c_no_trace c2 = false -> c_fd c2 = fd -> input_ok c2 args2 len2 ->
  let key := gen_conn_key_id (cur_tgid E2) fd in
  exists r1 w1 new1, __data_submit E1 K1 c1 args1 len1 ts1 x1 w = Some (r1, w1) /\ world_ok K1 w1 (evs ++ new1) /\
    ((exact_counts = true -> w_sock w1 !! key = None) ->
     is_Some (w_sock w1 !! key) \/ Z.of_nat (size (w_sock w1)) < k_max_sock K1 ->
     exists w2 r3 w3 new3 k id, exit_socket E2 K2 fd w1 = Some (tt, w2) /\ world_ok K2 w2 (evs ++ new1) /\
       __data_submit E3 K3 c2 args2 len2 ts2 x2 w2 = Some (r3, w3) /\ world_ok K3 w3 ((evs ++ new1) ++ new3) /\
       (forall e, e ∈ new1 ++ new3 -> vget v_thread_trace_id e.1 = u64 id) /\
       w_sock w3 !! key = Some k /\ s_peer_fd k = c_fd c1).
Proof.
  intros Hw Hctx Hn Hid Hng Hgo A1 A2 A3 A4 A5 A6 A7 Hp Hne B1 B2 B3 B4 B5 B6 B7 key.
  pose proof (nginx_request c1 args1 len1 ts1 x1 w evs ctx n Hw Hctx Hn Hid Hgo A1 A2 A3 A4 A5 A6 A7) as H.
  apply wp_total in H as (r1 & w1 & Hrun1 & new1 & t & ctx1 & Hw1 & Hctx1 & Hn1 & Hids1 & Hdis & Ht & Hpeer & Hnew1).
  exists r1, w1, new1. split; [done |]. split; [done |]. intros Hno Hroom.
  apply (world_ok_caps K1 K2) in Hw1; [| done | done].
  assert (caps_ok K2) as HC2 by (destruct HC; constructor; congruence).
  assert (frontend E2 fd w1 t) as Hf by (unfold frontend; rewrite Hpeer; split_and!; try done; lia).
  rewrite <- Hs2 in Hroom.
  pose proof (exit_socket_ok E2 K2 HE2 HC2 fd w1 (evs ++ new1) Hw1 Hids1 (fun He _ => Hno He)) as H.
  apply wp_total in H as ([] & w2 & Hrun2 & [L1 _ _ _] & H2). destruct (H2 t Hf Hroom) as (S1 & S2 & _ & S4).
  rewrite app_nil_r in L1. pose proof (world_ok_caps K2 K3 w2 _ ltac:(congruence) ltac:(congruence) L1) as L3.
  assert (gen_conn_key_id (cur_tgid E3) (c_fd c2) = key) as Hkey by (unfold key, cur_tgid; by rewrite Hp3, Hp2, B6).
  assert (ids_left w2) as Hids2 by (unfold ids_left; by rewrite S2).
  pose proof (nginx_forward c2 args2 len2 ts2 x2 w2 (evs ++ new1) ctx1 t L3) as H. cbn zeta in H. rewrite Hkey, S2 in H.
  specialize (H Hctx1 (S4 Hn1) Hids2 Hdis S1 ltac:(by rewrite Hpeer) B1 B2 B3 B4 B5 B7).
  apply wp_total in H as (r3 & w3 & Hrun3 & new3 & k & Hw3 & Hk & Hpk & Hnew3).
  exists w2, r3, w3, new3, k, (ti_thread_trace_id t). split_and!; try done; [| by rewrite Hpk].
  intros e [He | He]%elem_of_app; [by apply Hnew1 | by apply Hnew3].
Qed.
End nginx.

(** ** Instances *)

(** A state with given sockets and traces. *)
Definition world_with (socks : gmap Z socket_info) (traces : gmap trace_key trace_info) : world :=
  example_world <| w_sock := socks |> <| w_trace := traces |>
    <| w_stats := Some (mk_stats (Z.of_nat (size socks)) (Z.of_nat (size traces)) 0 0 0 0) |>.
Lemma world_with_ok {X : Counting} K socks traces :
  Z.of_nat (size socks) <= k_max_sock K -> Z.of_nat (size traces) <= k_max_trace K ->
  (forall key k, socks !! key = Some k -> entry_ok k /\ 0 <= s_uid k <= 100) ->
  (forall key key' k k', socks !! key = Some k -> socks !! key' = Some k' -> s_uid k = s_uid k' -> s_uid k <> 0 -> key = key') ->
  world_ok K (world_with socks traces) [].
Proof.
  intros H1 H2 H3 H4. destruct (start_world_ok K example_ctx) as [M1 M2 M3 M4 M5 M6 M7 M8]; try done; try lia.
  constructor; try done; [| by apply (logged_same (example_world <| w_ctx := Some example_ctx |>))]. constructor; try done.
  - by intros n [= <-].
  - by intros t [= <-].
  - intros t key k [= <-] Hk. by apply (H3 key k).
  - intros key k Hk. by apply (H3 key k).
Qed.
Lemma one_entry {A} (P : A -> Prop) (key : Z) (a : A) : P a -> forall key' a', ({[ key := a ]} : gmap Z A) !! key' = Some a' -> P a'.
Proof. intros Ha key' a' Hk. by apply lookup_singleton_Some in Hk as [_ <-]. Qed.

Definition example_connection : socket_info := (example_sock PROTO_HTTP1) <| s_seq := 4 |>.
Lemma example_connection_ok : entry_ok example_connection /\ 0 <= s_uid example_connection <= 100.
Proof. split; [| done]. split; [| done]. split_and!; try done. by apply bytes_okb. Qed.
Lemma example_connected_ok : world_ok example_kenv (world_with {[ 5 := example_connection ]} ∅) [].
Proof.
  apply world_with_ok; try done.
  - apply one_entry, example_connection_ok.
  - intros key key' k k' [<- _]%lookup_singleton_Some [<- _]%lookup_singleton_Some. done.
Qed.

Lemma close_reported_witness : let E := example_env [] [] in let w := world_with {[ 5 := example_connection ]} ∅ in
  exists w' e, enter_close E example_kenv 5 w = Some (tt, w') /\ world_ok example_kenv w' ([] ++ [e]) /\
    w_sock w' = delete 5 (w_sock w) /\ w_role w' = delete 5 (w_role w) /\
    close_header E 7 5 (proto_num PROTO_HTTP1) 5 0 e.1 /\ e.2 = [] /\
    forall ctx', w_ctx w' = Some ctx' -> 7 < event_uid (w_sock w' !! 5) ctx'.
Proof.
  apply (close_reported (example_env [] []) example_kenv (example_env_ok [] [] ltac:(constructor)) example_kenv_ok example_comm example_caps
    5 (world_with {[ 5 := example_connection ]} ∅) [] example_offsets example_connection example_ctx (mk_stats 1 0 0 0 0 0)).
  - exact example_connected_ok.
  - lia.
  - reflexivity.
  - reflexivity.
  - reflexivity.
  - discriminate.
  - reflexivity.
  - reflexivity.
  - eexists. split; [reflexivity |]. vm_compute. discriminate.
Defined.

(** An NGINX worker that handles the request with the trace 77 of descriptor 4. *)
Definition nginx_env : env := example_env (str "nginx") [].
Definition nginx_trace : trace_info := mk_trace 1 4 77 9.
Definition nginx_world : world := world_with ∅ {[ mk_key 0 0 0 := nginx_trace ]}.
Lemma nginx_backend_trace_witness :
  let c1 := (example_message T_INGRESS) <| c_fd := 4 |> in let c2 := (example_message T_EGRESS) <| c_fd := 6 |> in
  exists r1 w1 new1 w2 r3 w3 new3 k id,
    __data_submit nginx_env example_kenv c1 example_args 40 9 example_extra example_world = Some (r1, w1) /\
    exit_socket nginx_env example_kenv 6 w1 = Some (tt, w2) /\
    __data_submit nginx_env example_kenv c2 example_args 40 9 example_extra w2 = Some (r3, w3) /\
    world_ok example_kenv w3 (([] ++ new1) ++ new3) /\
    (forall e, e ∈ new1 ++ new3 -> vget v_thread_trace_id e.1 = u64 id) /\ w_sock w3 !! 6 = Some k /\ s_peer_fd k = 4.
Proof.
  intros c1 c2.
  assert (env_ok nginx_env) as HE by (apply example_env_ok; constructor).
  assert (bytes_ok (e_comm nginx_env).2) as Hb by (by apply bytes_okb).
  assert (input_ok c1 example_args 40 /\ input_ok c2 example_args 40) as [I1 I2]
    by (split; constructor; try done; (split; [done | by apply bytes_okb])).
  destruct (nginx_backend_trace nginx_env nginx_env nginx_env example_kenv example_kenv example_kenv HE HE HE
    example_kenv_ok example_kenv_ok example_caps Hb Hb eq_refl eq_refl eq_refl eq_refl eq_refl eq_refl
    c1 example_args 40 9 example_extra 6 c2 example_args 40 9 example_extra example_world [] example_ctx example_stats
    example_world_ok eq_refl eq_refl ltac:(done) ltac:(by vm_compute) eq_refl ltac:(done) eq_refl eq_refl eq_refl ltac:(by vm_compute) I1
    ltac:(by vm_compute) ltac:(done) ltac:(done) ltac:(done) ltac:(done) ltac:(done) eq_refl eq_refl eq_refl I2)
    as (r1 & w1 & new1 & Hrun & _ & H).
  assert (match __data_submit nginx_env example_kenv c1 example_args 40 9 example_extra example_world with
    Some (_, w) => bool_decide (w_sock w !! 6 = None) && (size (w_sock w) =? 1)%nat | None => false end = true) as Hs by (vm_compute; reflexivity).
  rewrite Hrun in Hs. apply andb_prop in Hs as [Hno%bool_decide_eq_true Hsz%Nat.eqb_eq].
  destruct H as (w2 & r3 & w3 & new3 & k & id & R2 & _ & R3 & W3 & Hid & Hk); [by intros _ | right; by rewrite Hsz |].
  exists r1, w1, new1, w2, r3, w3, new3, k, id. exact (conj Hrun (conj R2 (conj R3 (conj W3 (conj Hid Hk))))).
Defined.

Lemma socket_counter_drifts_witness :
  let w := world_with {[ 2 ^ 32 - 1 := backend_sock nginx_trace ]} {[ mk_key 0 0 0 := nginx_trace ]} in
  exists w', exit_socket nginx_env example_kenv (2 ^ 64 - 1) w = Some (tt, w') /\ size (w_sock w') = size (w_sock w) /\
    n_socket_map <$> w_stats w' = Some 2.
Proof.
  apply (socket_counter_drifts nginx_env example_kenv (example_env_ok _ [] ltac:(constructor)) (2 ^ 64 - 1)
    (world_with {[ 2 ^ 32 - 1 := backend_sock nginx_trace ]} {[ mk_key 0 0 0 := nginx_trace ]}) nginx_trace (mk_stats 1 1 0 0 0 0)
    (backend_sock nginx_trace)); done.
Defined.
