(* ===== verification/Uprobe.v ===== *)
(** * TLS libraries

    The uprobes on OpenSSL (kernel/openssl.bpf.c) and on crypto/tls of Go
    (kernel/go_tls.bpf.c): the entry of a call of the library finds the descriptor
    behind the connection object in the memory of the process and keeps the buffer
    with the plain text, the exit reports the plain text through [process_data].
    Also the functions of kernel/uprobe_base.bpf.c that find the descriptor of a Go
    connection. *)

From S2P Require Import Prelude Bitmap Conn Iovec InferBase InferPipeline.
From S2P Require Import World Output Goroutine KernelObjects Submit SubmitLog FileEvents Syscall.

Definition OFFSET_IDX_CONN_TLS_CONN : nat := 1.
Definition OFFSET_IDX_SYSFD_POLL_FD : nat := 2.

Definition set_up (f : up_maps -> up_maps) : W unit := modify (fun w => w <| w_up := f (w_up w) |>).

(** The clock as the calls after [n] readings see it. *)
Definition later (n : nat) (K : kenv) : kenv := K <| k_ktime := fun i => k_ktime K (n + i) |>.

Section uprobe.
Context (E : env) (K : kenv).

(** A load of an [int] from the process. *)
Definition read_user_int (a : Z) : Z := s32 (le_word (e_read_user E a 4).2).

(** ** OpenSSL *)

Definition get_fd_from_openssl_ssl (ssl : Z) : Z :=
  let version := read_user_int ssl in
  let rbio_ssl_offset :=
    if version <? 0x0300 then
      let version := read_user_int (ssl + 0x48) in
      if (0x0300 <=? version) && (version <=? 0x0304) then 0x50 else 0x48
    else 0x10 in
  let rbio := read_user64 E (ssl + rbio_ssl_offset) in
  let fd := read_user_int (rbio + 0x38) in
  if 2 <? fd then fd else
  let fd := read_user_int (rbio + 0x30) in
  if 2 <? fd then fd else
  read_user_int (rbio + 0x28).

Definition ssl_store (c : ssl_ctx) : W unit :=
  set_up (fun u => u <| u_ssl := (htab_update (k_max_ssl K) (e_pid_tgid E) c (u_ssl u)).2 |>).
Definition ssl_delete : W unit := set_up (fun u => u <| u_ssl := delete (e_pid_tgid E) (u_ssl u) |>).
(** [active_*_args_map__update] with arguments from the stack of the program. *)
Definition args_store (d : traffic_direction) (a : data_args) : W unit :=
  modify (fun w => set_args_map d (htab_update (k_max_args K) (e_pid_tgid E) a (args_map d w)).2 w).

Definition openssl_enter (d : traffic_direction) (ssl buf num : Z) : W unit :=
  let fd := get_fd_from_openssl_ssl ssl in
  offset ← gets w_offset;
  let tcp_seq := match d with
                 | T_EGRESS => get_tcp_write_seq K offset fd
                 | T_INGRESS => get_tcp_read_seq K offset fd
                 end in
  ssl_store (mk_ssl buf (s32 num) fd tcp_seq).

(** The arguments of a call, for [process_data]. *)
Definition tls_args (buf fd tcp_seq : Z) : data_args :=
  zero_args <| da_buf := buf |> <| da_fd := u32 fd |> <| da_enter_ts := k_ktime K 0 |> <| da_tcp_seq := tcp_seq |>.
Definition openssl_args (c : ssl_ctx) : data_args := tls_args (sl_buf c) (sl_fd c) (sl_tcp_seq c).
Definition openssl_extra : extra_args := mk_extra false false DATA_SOURCE_OPENSSL_UPROBE.

Definition openssl_exit (d : traffic_direction) (rc : Z) : W unit :=
  octx ← gets (fun w => u_ssl (w_up w) !! e_pid_tgid E);
  match octx with
  | None => mret tt
  | Some c =>
      let size := s32 rc in
      if size <=? 0 then ssl_delete else
      let args := openssl_args c in
      _ ← ssl_delete;
      _ ← args_store d args;
      _ ← process_data E (later 1 K) d args size openssl_extra;
      args_delete E d
  end.

Definition openssl_write_enter (ssl buf num : Z) : W unit := openssl_enter T_EGRESS ssl buf num.
Definition openssl_write_exit (rc : Z) : W unit := openssl_exit T_EGRESS rc.
Definition openssl_read_enter (ssl buf num : Z) : W unit := openssl_enter T_INGRESS ssl buf num.
Definition openssl_read_exit (rc : Z) : W unit := openssl_exit T_INGRESS rc.

(** ** The descriptor of a Go connection *)

(** What [bpf_probe_read_user] is called with: an address of the process, or a
    variable of the program itself with its contents. *)
Inductive pointer := User (a : Z) | Local (contents : list Z).
Definition read_at (a : pointer) (n : nat) : list Z :=
  match a with User a => (e_read_user E a n).2 | Local b => (k_local K b n).2 end.

(** [struct go_interface]: the type and the pointer. *)
Definition go_interface (a : pointer) : Z * Z :=
  let b := read_at a 16 in (le_word (take 8 b), le_word (drop 8 b)).

Definition is_tcp_conn_interface (conn : pointer) (p : proc_info) : bool := (go_interface conn).1 =? p_tcp_itab p.

Definition get_fd_from_tcp_conn_interface (conn : pointer) (p : proc_info) : option Z :=
  if negb (is_tcp_conn_interface conn p) then Some (-1) else
  offset_fd_sysfd ← p_offsets p !! OFFSET_IDX_SYSFD_POLL_FD;
  if offset_fd_sysfd <? 0 then Some (-1) else
  let ptr := read_user64 E (go_interface conn).2 in
  Some (read_user_int (ptr + offset_fd_sysfd)).

Definition get_fd_from_tls_conn_struct (conn : Z) (p : proc_info) : option Z :=
  offset_conn_conn ← p_offsets p !! OFFSET_IDX_CONN_TLS_CONN;
  if offset_conn_conn <? 0 then Some (-1) else get_fd_from_tcp_conn_interface (User (conn + offset_conn_conn)) p.

Definition get_fd_from_go_proxyproto_interface (conn : pointer) (p : proc_info) : option Z :=
  get_fd_from_tcp_conn_interface (User ((go_interface conn).2 + 8)) p.

Definition is_tls_conn_interface (conn : pointer) (p : proc_info) : bool := (go_interface conn).1 =? p_tls_itab p.

Definition get_fd_from_tls_conn_interface (conn : pointer) (p : proc_info) : option Z :=
  if negb (is_tls_conn_interface conn p) then Some (-1) else
  let ptr := (go_interface conn).2 in
  fd ← get_fd_from_tls_conn_struct ptr p;
  if 0 <? fd then Some fd else
  fd ← get_fd_from_go_proxyproto_interface (User ptr) p;
  if 0 <? fd then Some fd else Some (-1).

Definition get_fd_from_h2c_rwConn_interface (conn : pointer) (p : proc_info) : option Z :=
  get_fd_from_tcp_conn_interface (User (go_interface conn).2) p.

Definition update_http2_tls (tls : bool) : W unit :=
  set_up (fun u => u <| u_stack := (fun s => s <| hs_tls := tls |>) <$> u_stack u |>).

Definition get_fd_from_tcp_or_tls_conn_interface (conn : pointer) (p : proc_info) : W Z :=
  fd ← lift (get_fd_from_tls_conn_interface conn p);
  if 0 <? fd then _ ← update_http2_tls true; mret fd else
  fd ← lift (get_fd_from_tcp_conn_interface conn p);
  if 0 <? fd then mret fd else
  fd ← lift (get_fd_from_go_proxyproto_interface conn p);
  if 0 <? fd then mret fd else
  fd ← lift (get_fd_from_h2c_rwConn_interface conn p);
  if 0 <? fd then mret fd else mret (-1).

(** ** crypto/tls *)

Definition tls_key (w : world) : Z * Z := (cur_tgid E, get_current_goroutine E (w_go w)).
Definition tls_delete (key : Z * Z) : W unit := set_up (fun u => u <| u_tls := delete key (u_tls u) |>).

Definition go_tls_enter (d : traffic_direction) (r : go_regs) : W unit :=
  op ← gets (fun w => g_proc (w_go w) !! cur_tgid E);
  match op with
  | None => mret tt
  | Some p =>
      let sp := r_sp r in
      let '(conn, buffer) := if is_register_based_call p then (r_parm1 r, r_parm2 r)
                             else (read_user64 E (sp + 8), read_user64 E (sp + 16)) in
      fd ← get_fd_from_tcp_or_tls_conn_interface (User conn) p;
      if fd <? 0 then mret tt else
      modify (fun w =>
        let tcp_seq := match d with
                       | T_EGRESS => get_tcp_write_seq K (w_offset w) fd
                       | T_INGRESS => get_tcp_read_seq K (w_offset w) fd
                       end in
        let c := mk_tls fd buffer tcp_seq sp in
        w <| w_up := (w_up w) <| u_tls := (htab_update (k_max_tls K) (tls_key w) c (u_tls (w_up w))).2 |> |>)
  end.

(** What the return of a read leaves for the HTTP/2 uprobes: the sequence number
    at the start, under that at the end. *)
Definition save_read_seq (c : tls_conn) : W unit :=
  modify (fun w =>
    let key := (cur_tgid E, u32 (tc_fd c), get_tcp_read_seq K (w_offset w) (tc_fd c)) in
    match w_seqmap w !! key with
    | Some _ => w
    | None => w <| w_seqmap := <[key := tc_tcp_seq c]> (w_seqmap w) |>
    end).

Definition go_tls_args (c : tls_conn) : data_args := tls_args (tc_buffer c) (tc_fd c) (tc_tcp_seq c).
Definition go_tls_extra : extra_args := mk_extra false true DATA_SOURCE_GO_TLS_UPROBE.

Definition go_tls_exit (d : traffic_direction) (r : go_regs) : W unit :=
  op ← gets (fun w => g_proc (w_go w) !! cur_tgid E);
  match op with
  | None => mret tt
  | Some p =>
      key ← gets tls_key;
      oc ← gets (fun w => u_tls (w_up w) !! key);
      match oc with
      | None => mret tt
      | Some c =>
          _ ← (match d with T_INGRESS => save_read_seq c | T_EGRESS => mret tt end);
          let bytes_count := swrap 64 (if is_register_based_call p then r_parm1 r else read_user64 E (tc_sp c + 40)) in
          if bytes_count =? 0 then tls_delete key else
          let args := go_tls_args c in
          _ ← tls_delete key;
          _ ← args_store d args;
          _ ← process_data E (later 1 K) d args bytes_count go_tls_extra;
          args_delete E d
      end
  end.

Definition go_tls_write_enter (r : go_regs) : W unit := go_tls_enter T_EGRESS r.
Definition go_tls_write_exit (r : go_regs) : W unit := go_tls_exit T_EGRESS r.
Definition go_tls_read_enter (r : go_regs) : W unit := go_tls_enter T_INGRESS r.
Definition go_tls_read_exit (r : go_regs) : W unit := go_tls_exit T_INGRESS r.
End uprobe.

(** ** What is kept *)

Lemma up_ok {X : Counting} K w u evs : world_ok K w evs -> (forall s, u_stack u = Some s -> stack_ok s) -> world_ok K (w <| w_up := u |>) evs.
Proof. intros [] Hu. constructor; try done; [by apply (maps_ok_same K w) | by apply (logged_same w)]. Qed.

Section tls.
Context {X : Counting} (E : env) (K : kenv) (HE : env_ok E) (HK : kenv_ok K) (Hcomm : bytes_ok (e_comm E).2) (HC : caps_ok K).
Abbreviation id := (e_pid_tgid E).

Lemma tls_args_ok buf fd seq : args_ok (tls_args K buf fd seq).
Proof. by apply zero_args_ok. Qed.

(** The plain text is reported with the arguments of the library call in place of
    those of a system call. *)
Lemma tls_report_ok d args n x w evs : world_ok K w evs -> ids_left w -> args_ok args ->
  wp (_ ← args_store E K d args; _ ← process_data E (later 1 K) d args n x; args_delete E d) w (fun _ w' => exists new,
    step_post id false K w w' evs new /\ w_up w' = w_up w /\ args_map d w' !! id = None /\
    (new = [] \/ reported E (later 1 K) d args n x w new)).
Proof.
  intros Hw Hids Ha. apply wp_bind, wp_modify. set (m := (htab_update _ _ _ _).2). set (w1 := set_args_map d m w).
  assert (world_ok (later 1 K) w1 evs) as Hw1.
  { apply (world_ok_caps K); try done. apply set_args_ok; [| done]. apply htab_args_ok; [done | by eapply args_map_ok]. }
  assert (w_ctx w1 = w_ctx w /\ w_up w1 = w_up w) as [C1 C2] by (unfold w1; by destruct d).
  apply wp_bind. eapply wp_mono.
  { apply (process_data_ok E (later 1 K) HE); try done; [by destruct HK; constructor | by destruct HC; constructor |].
    unfold ids_left. by rewrite C1. }
  intros [] w2 (new & (P1 & P2 & P3 & P4) & Hev). apply wp_modify. set (w3 := set_args_map d _ w2). exists new.
  pose proof (args_map_kept d _ _ P2) as M1. pose proof (args_map_kept (other_dir d) _ _ P2) as M2. destruct P2 as (_ & _ & Po & Pu).
  destruct (args_map_set d m w) as [N1 N2]. fold w1 in N1, N2.
  destruct (args_map_set d (delete id (args_map d w2)) w2) as [N3 N4]. fold w3 in N3, N4.
  assert (w_ctx w3 = w_ctx w2 /\ w_up w3 = w_up w2) as [D1 D2] by (unfold w3; by destruct d).
  split_and!; [| congruence | by rewrite N3, lookup_delete_eq |].
  - constructor; rewrite ?D1, ?D2, ?Pu, ?C2; try done; [| | apply http2_same; congruence |..]; rewrite <- ?C1; try done.
    + apply set_args_ok; [| by apply (world_ok_caps (later 1 K))]. apply delete_args_ok. by eapply args_map_ok.
    + intros i Hi. assert (forall d', args_map d' w3 !! i = args_map d' w !! i) as Hargs.
      { intros d'. destruct (decide (d' = d)) as [-> | Hne].
        - rewrite N3, lookup_delete_ne, M1, N1 by done. unfold m. by rewrite htab_others.
        - replace d' with (other_dir d) by (by destruct d, d'). congruence. }
      split_and!; [apply (Hargs T_INGRESS) | apply (Hargs T_EGRESS) | by rewrite D2, Pu, C2].
  - destruct Hev as [Hev | Hev]; [by left | right]. by apply (reported_same E (later 1 K) d args n x w1); try (unfold w1; by destruct d).
Qed.

(** Only the maps of the uprobes and the saved sequence numbers changed before. *)
Lemma adds_trans w w0 w' : http2_adds w w0 -> http2_adds w0 w' -> http2_adds w w'.
Proof. intros (r1 & H1 & T1) (r2 & H2 & T2). exists (r1 ++ r2). split; [by rewrite H2, H1, app_assoc | by apply Forall_app]. Qed.
Lemma step_after ssl w w0 w' evs new : w_ctx w0 = w_ctx w -> others_kept id w w0 -> (ssl = false -> u_ssl (w_up w0) = u_ssl (w_up w)) ->
  http2_adds w w0 -> step_post id false K w0 w' evs new -> step_post id ssl K w w' evs new.
Proof.
  intros Hc Ho Hs Hh [P1 P2 P3 Ph P4 P5]. constructor; rewrite <- ?Hc; try done; [| intros Hf; rewrite P3, Hs; done | by eapply adds_trans].
  intros i Hi. destruct (P2 i Hi) as (-> & -> & ->). by apply Ho.
Qed.
Lemma step_only ssl w w' evs : world_ok K w' evs -> w_ctx w' = w_ctx w -> others_kept id w w' ->
  (ssl = false -> u_ssl (w_up w') = u_ssl (w_up w)) -> http2_adds w w' -> step_post id ssl K w w' evs [].
Proof. intros Hw Hc Ho Hs Hh. constructor; rewrite ?app_nil_r, ?Hc; try done. by apply same_ids. Qed.
Lemma up_others w u : (forall i, i <> id -> u_ssl u !! i = u_ssl (w_up w) !! i) -> others_kept id w (w <| w_up := u |>).
Proof. intros Hu i Hi. split_and!; try done. by apply Hu. Qed.

(** ** OpenSSL *)

Definition tls_seq (d : traffic_direction) (w : world) (fd : Z) : Z :=
  match d with T_EGRESS => get_tcp_write_seq K (w_offset w) fd | T_INGRESS => get_tcp_read_seq K (w_offset w) fd end.

Lemma openssl_enter_ok d ssl buf num w evs : world_ok K w evs ->
  let c := mk_ssl buf (s32 num) (get_fd_from_openssl_ssl E ssl) (tls_seq d w (get_fd_from_openssl_ssl E ssl)) in
  wp (openssl_enter E K d ssl buf num) w (fun _ w' => step_post id true K w w' evs [] /\
    (Z.of_nat (size (u_ssl (w_up w))) < k_max_ssl K -> u_ssl (w_up w') !! id = Some c)).
Proof.
  intros Hw c. apply wp_bind, wp_gets, wp_modify. fold (tls_seq d w (get_fd_from_openssl_ssl E ssl)). fold c. clearbody c.
  split.
  - apply step_only; try done; [apply up_ok; [done | apply Hw] |]. apply up_others. intros i Hi. cbn.
    destruct (htab_update_cases (k_max_ssl K) id c (u_ssl (w_up w))) as [[-> _] | [-> _]]; [by apply lookup_insert_ne | done].
  - intros Hroom. cbn. rewrite htab_update_room by auto. apply lookup_insert_eq.
Qed.

Lemma openssl_exit_ok d rc w evs : world_ok K w evs -> ids_left w ->
  wp (openssl_exit E K d rc) w (fun _ w' => exists new, step_post id true K w w' evs new /\
    u_ssl (w_up w') = delete id (u_ssl (w_up w)) /\
    (new = [] \/ exists c, u_ssl (w_up w) !! id = Some c /\
      reported E (later 1 K) d (openssl_args K c) (s32 rc) openssl_extra w new)).
Proof.
  intros Hw Hids. unfold openssl_exit. apply wp_bind, wp_gets. destruct (u_ssl (w_up w) !! id) as [c |] eqn:Hc.
  2: { apply wp_ret. exists []. split_and!; try done; [by apply step_only | by rewrite delete_id | by left]. }
  set (u := (w_up w) <| u_ssl := delete id (u_ssl (w_up w)) |>).
  assert (world_ok K (w <| w_up := u |>) evs) as Hw0 by (apply up_ok; [done | apply Hw]).
  assert (others_kept id w (w <| w_up := u |>)) as Ho by (apply up_others; intros i Hi; by apply lookup_delete_ne).
  destruct (_ <=? 0).
  { apply wp_modify. exists []. split_and!; try done; [by apply step_only | by left]. }
  apply wp_bind, wp_modify. fold u. eapply wp_mono; [apply (tls_report_ok d (openssl_args K c) (s32 rc) openssl_extra); try done; apply tls_args_ok |].
  intros [] w' (new & P1 & P2 & _ & P3). exists new. split_and!; [by apply (step_after true w (w <| w_up := u |>)) | by rewrite P2 |].
  destruct P3 as [P3 | P3]; [by left | right]. exists c. split; [done |]. by apply (reported_same E (later 1 K) d _ _ _ (w <| w_up := u |>)).
Qed.

(** ** Go connections *)

Section go_connections.
Context (p : proc_info) (Hp : length (p_offsets p) = OFFSET_IDX_MAX).

Lemma offset_some i : (i < 17)%nat -> is_Some (p_offsets p !! i).
Proof. intros Hi. apply lookup_lt_is_Some. by rewrite Hp. Qed.

(** How a connection leads to the object of its TCP connection: it is this object,
    it wraps it, or it is a TLS connection on such a one. *)
Inductive behind (conn : pointer) : pointer -> bool -> Prop :=
| Behind_tcp : behind conn conn false
| Behind_proxyproto : behind conn (User ((go_interface E K conn).2 + 8)) false
| Behind_h2c : behind conn (User (go_interface E K conn).2) false
| Behind_tls off : (go_interface E K conn).1 = p_tls_itab p -> p_offsets p !! OFFSET_IDX_CONN_TLS_CONN = Some off -> 0 <= off ->
    behind conn (User ((go_interface E K conn).2 + off)) true
| Behind_tls_proxyproto : (go_interface E K conn).1 = p_tls_itab p ->
    behind conn (User ((go_interface E K (User (go_interface E K conn).2)).2 + 8)) true.

(** The object [a] is one of a TCP connection with the descriptor [fd]. *)
Definition tcp_conn_fd (a : pointer) (fd : Z) : Prop :=
  (go_interface E K a).1 = p_tcp_itab p /\ 0 < fd /\
  exists off, p_offsets p !! OFFSET_IDX_SYSFD_POLL_FD = Some off /\ 0 <= off /\
    fd = read_user_int E (read_user64 E (go_interface E K a).2 + off).

Lemma tcp_conn_spec a : exists fd, get_fd_from_tcp_conn_interface E K a p = Some fd /\ (0 < fd -> tcp_conn_fd a fd) /\
  forall fd', tcp_conn_fd a fd' -> fd' = fd.
Proof.
  unfold get_fd_from_tcp_conn_interface, is_tcp_conn_interface, tcp_conn_fd.
  destruct (Z.eqb_spec (go_interface E K a).1 (p_tcp_itab p)) as [Ht | Ht]; cbn [negb].
  2: { exists (-1). split_and!; [done | lia | by intros fd' [? _]]. }
  destruct (offset_some OFFSET_IDX_SYSFD_POLL_FD) as [off Ho]; [unfold OFFSET_IDX_SYSFD_POLL_FD; lia |]. rewrite Ho. cbn [mbind option_bind].
  destruct (Z.ltb_spec off 0).
  { exists (-1). split_and!; [done | lia |]. intros fd' (_ & _ & off' & [= <-] & ? & _). lia. }
  eexists. split_and!; [done | |].
  - intros Hfd. split_and!; try done. by exists off.
  - intros fd' (_ & _ & off' & [= <-] & _ & ->). done.
Qed.

Lemma tls_conn_spec conn : exists fd, get_fd_from_tls_conn_interface E K conn p = Some fd /\
  (0 < fd -> exists a, behind conn a true /\ tcp_conn_fd a fd) /\
  (fd <= 0 -> forall a fd', behind conn a true -> ~ tcp_conn_fd a fd').
Proof.
  unfold get_fd_from_tls_conn_interface, is_tls_conn_interface, get_fd_from_tls_conn_struct, get_fd_from_go_proxyproto_interface.
  destruct (Z.eqb_spec (go_interface E K conn).1 (p_tls_itab p)) as [Ht | Ht]; cbn [negb].
  2: { exists (-1). split_and!; [done | lia |]. intros _ a fd' Hb _. inversion Hb; congruence. }
  destruct (offset_some OFFSET_IDX_CONN_TLS_CONN) as [off Ho]; [unfold OFFSET_IDX_CONN_TLS_CONN; lia |]. rewrite Ho. cbn [mbind option_bind].
  set (first := if off <? 0 then _ else _).
  assert (exists fd1, first = Some fd1 /\ (0 < fd1 -> tcp_conn_fd (User ((go_interface E K conn).2 + off)) fd1 /\ 0 <= off) /\
    (fd1 <= 0 -> 0 <= off -> forall fd', ~ tcp_conn_fd (User ((go_interface E K conn).2 + off)) fd')) as (fd1 & -> & S1 & N1).
  { unfold first. destruct (Z.ltb_spec off 0); [exists (-1); split_and!; [done | lia | lia] |].
    destruct (tcp_conn_spec (User ((go_interface E K conn).2 + off))) as (fd & -> & H1 & H2). exists fd. split_and!; [done | auto |].
    intros Hle _ fd' Hf. specialize (H2 fd' Hf). destruct Hf as (_ & ? & _). lia. }
  cbn [mbind option_bind]. destruct (Z.ltb_spec 0 fd1) as [Hpos | Hneg].
  { exists fd1. split_and!; [done | | lia]. intros _. destruct (S1 Hpos) as [Hf Hoff]. eexists. split; [by eapply Behind_tls | done]. }
  destruct (tcp_conn_spec (User ((go_interface E K (User (go_interface E K conn).2)).2 + 8))) as (fd2 & -> & S2 & N2). cbn [mbind option_bind].
  destruct (Z.ltb_spec 0 fd2) as [Hpos2 | Hneg2].
  { exists fd2. split_and!; [done | | lia]. intros _. eexists. split; [by apply Behind_tls_proxyproto | by apply S2]. }
  exists (-1). split_and!; [done | lia |]. intros _ a fd' Hb Hf.
  inversion Hb as [| | | off' _ Ho' Hoff Ha | _ Ha]; subst a.
  - rewrite Ho in Ho'. injection Ho' as <-. by apply (N1 Hneg Hoff fd').
  - specialize (N2 fd' Hf). destruct Hf as (_ & ? & _). lia.
Qed.

Definition mark_tls (w : world) : world :=
  w <| w_up := (w_up w) <| u_stack := (fun s => s <| hs_tls := true |>) <$> u_stack (w_up w) |> |>.

Lemma go_fd_found conn w : exists fd w', get_fd_from_tcp_or_tls_conn_interface E K conn p w = Some (fd, w') /\
  (0 < fd -> exists a tls, behind conn a tls /\ tcp_conn_fd a fd /\ w' = if tls then mark_tls w else w) /\
  (fd <= 0 -> fd = -1 /\ w' = w /\ forall a tls fd', behind conn a tls -> ~ tcp_conn_fd a fd').
Proof.
  unfold get_fd_from_tcp_or_tls_conn_interface, get_fd_from_go_proxyproto_interface, get_fd_from_h2c_rwConn_interface.
  unfold mbind, M_bind, lift, set_up, update_http2_tls, modify, mret, M_ret.
  destruct (tls_conn_spec conn) as (fd0 & -> & S0 & N0). cbn [fmap option_fmap option_map]. destruct (Z.ltb_spec 0 fd0) as [H0 | H0].
  { exists fd0, (mark_tls w). split_and!; [reflexivity | | lia]. intros _. destruct (S0 H0) as (a & Ha & Hf). by exists a, true. }
  destruct (tcp_conn_spec conn) as (fd1 & -> & S1 & N1). cbn [fmap option_fmap option_map]. destruct (Z.ltb_spec 0 fd1) as [H1 | H1].
  { exists fd1, w. split_and!; [done | | lia]. intros _. exists conn, false. split_and!; try done; [constructor | auto]. }
  destruct (tcp_conn_spec (User ((go_interface E K conn).2 + 8))) as (fd2 & -> & S2 & N2). cbn [fmap option_fmap option_map]. destruct (Z.ltb_spec 0 fd2) as [H2 | H2].
  { exists fd2, w. split_and!; [done | | lia]. intros _. eexists _, false. split_and!; [apply Behind_proxyproto | auto | done]. }
  destruct (tcp_conn_spec (User (go_interface E K conn).2)) as (fd3 & -> & S3 & N3). cbn [fmap option_fmap option_map]. destruct (Z.ltb_spec 0 fd3) as [H3 | H3].
  { exists fd3, w. split_and!; [done | | lia]. intros _. eexists _, false. split_and!; [apply Behind_h2c | auto | done]. }
  exists (-1), w. split_and!; [done | lia |]. intros _. split_and!; try done. intros a tls fd' Hb Hf.
  assert (0 < fd') as Hpos by (by destruct Hf as (_ & ? & _)).
  destruct tls; [by apply (N0 H0 a fd') |].
  inversion Hb; subst a; [specialize (N1 fd' Hf) | specialize (N2 fd' Hf) | specialize (N3 fd' Hf)]; lia.
Qed.

(** C39: the descriptor of a Go connection. The search in the memory of the process
    returns, and finds a descriptor exactly when the connection is that of a TCP
    connection, wraps one or is a TLS connection on one; the descriptor it finds is
    the one in the object of this TCP connection. It notes that the connection is
    a TLS one exactly when it found the descriptor that way. *)
Theorem go_descriptor_found conn w : exists fd w', get_fd_from_tcp_or_tls_conn_interface E K conn p w = Some (fd, w') /\
  (0 < fd -> exists a tls, behind conn a tls /\ tcp_conn_fd a fd /\ w' = if tls then mark_tls w else w) /\
  (fd <= 0 -> fd = -1 /\ w' = w /\ forall a tls fd', behind conn a tls -> ~ tcp_conn_fd a fd').
Proof. apply go_fd_found. Qed.
End go_connections.

(** ** crypto/tls *)

Lemma mark_tls_ok w evs : world_ok K w evs -> world_ok K (mark_tls w) evs.
Proof.
  intros Hw. apply up_ok; [done |]. cbn. intros s Hs. destruct (u_stack (w_up w)) as [s0 |] eqn:H0; [| done]. injection Hs as <-.
  apply (wo_stack _ _ _ Hw s0 H0).
Qed.
Lemma go_fd_ok conn p w : length (p_offsets p) = OFFSET_IDX_MAX ->
  wp (get_fd_from_tcp_or_tls_conn_interface E K conn p) w (fun fd w' => w' = w \/ w' = mark_tls w).
Proof.
  intros Hp. destruct (go_fd_found p Hp conn w) as (fd & w' & Hrun & H1 & H2). unfold wp. rewrite Hrun.
  destruct (Z.lt_ge_cases 0 fd) as [H | H]; [| left; by apply H2].
  destruct (H1 H) as (a & tls & _ & _ & ->). destruct tls; auto.
Qed.

(** The connection and the buffer of a call, by the calling convention. *)
Definition tls_operands (p : proc_info) (r : go_regs) : Z * Z :=
  if is_register_based_call p then (r_parm1 r, r_parm2 r) else (read_user64 E (r_sp r + 8), read_user64 E (r_sp r + 16)).

Lemma go_tls_enter_ok d r w evs : world_ok K w evs ->
  wp (go_tls_enter E K d r) w (fun _ w' => step_post id false K w w' evs [] /\ w_go w' = w_go w /\ w_seqmap w' = w_seqmap w /\ w_ctx w' = w_ctx w /\
    forall p fd, g_proc (w_go w) !! cur_tgid E = Some p ->
      get_fd_from_tcp_or_tls_conn_interface E K (User (tls_operands p r).1) p w = Some (fd, mark_tls w) \/
      get_fd_from_tcp_or_tls_conn_interface E K (User (tls_operands p r).1) p w = Some (fd, w) -> 0 <= fd ->
      Z.of_nat (size (u_tls (w_up w))) < k_max_tls K ->
      u_tls (w_up w') !! tls_key E w = Some (mk_tls fd (tls_operands p r).2 (tls_seq d w fd) (r_sp r))).
Proof.
  intros Hw. unfold go_tls_enter. apply wp_bind, wp_gets. destruct (g_proc (w_go w) !! cur_tgid E) as [p |] eqn:Hp.
  2: { apply wp_ret. split_and!; try done. by apply step_only. }
  fold (tls_operands p r). destruct (tls_operands p r) as [conn buffer] eqn:Hop.
  assert (forall w0, w0 = w \/ w0 = mark_tls w -> step_post id false K w w0 evs [] /\ world_ok K w0 evs /\ w_go w0 = w_go w /\
    w_ctx w0 = w_ctx w /\ w_seqmap w0 = w_seqmap w /\ w_offset w0 = w_offset w /\ u_tls (w_up w0) = u_tls (w_up w) /\ tls_key E w0 = tls_key E w) as Hmark.
  { intros w0 [-> | ->]; split_and!; try done; try (by apply mark_tls_ok); [by apply step_only |]. apply step_only; try done. by apply mark_tls_ok. }
  pose proof (go_fd_ok (User conn) p w (wo_proc _ _ _ Hw _ _ Hp)) as Hfd. apply wp_total in Hfd as (fd & w1 & Hrun & Hw1).
  destruct (Hmark w1 Hw1) as (S1 & S2 & S3 & S4 & S5 & S6 & S7 & S8).
  apply wp_bind, (wp_value _ _ _ _ _ Hrun). destruct (Z.ltb_spec fd 0) as [Hneg | Hpos].
  { apply wp_ret. split_and!; try done. intros p' fd' [= <-] Hf ?. rewrite Hop in Hf. cbn [fst] in Hf. destruct Hf as [Hf | Hf]; rewrite Hrun in Hf; injection Hf as <- _; lia. }
  apply wp_modify. set (c := mk_tls _ _ _ _). set (u := (w_up w1) <| u_tls := _ |>).
  split_and!; try done.
  - apply (step_after false w w1); try done; [apply S1 | intros _; by apply S1 | apply S1 |].
    apply step_only; try done. apply up_ok; [done | apply S2].
  - intros p' fd' [= <-] Hf _ Hroom. rewrite Hop in Hf |- *. cbn [fst snd] in *.
    assert (fd' = fd) as -> by (destruct Hf as [Hf | Hf]; rewrite Hrun in Hf; injection Hf as <- _; done).
    cbn. rewrite S7, S8. unfold htab_update. rewrite (proj2 (Z.ltb_lt _ _) Hroom), orb_true_r. cbn [snd]. rewrite lookup_insert_eq.
    unfold c, tls_seq. by rewrite S6.
Qed.

Lemma save_seq_ok d c w : wp (match d with T_INGRESS => save_read_seq E K c | T_EGRESS => mret tt end) w
  (fun _ w' => exists q, w' = w <| w_seqmap := q |>).
Proof.
  assert (w = w <| w_seqmap := w_seqmap w |>) as Hid by (by destruct w).
  destruct d; [apply wp_ret; by eexists | apply wp_modify]. cbv zeta. case_match; by eexists.
Qed.

(** The number of bytes that a call returned. *)
Definition tls_count (p : proc_info) (r : go_regs) (c : tls_conn) : Z :=
  swrap 64 (if is_register_based_call p then r_parm1 r else read_user64 E (tc_sp c + 40)).

Lemma go_tls_exit_ok d r w evs : world_ok K w evs -> ids_left w ->
  wp (go_tls_exit E K d r) w (fun _ w' => exists new, step_post id false K w w' evs new /\ u_stack (w_up w') = u_stack (w_up w) /\
    (is_Some (g_proc (w_go w) !! cur_tgid E) -> u_tls (w_up w') = delete (tls_key E w) (u_tls (w_up w))) /\
    (new = [] \/ exists p c, g_proc (w_go w) !! cur_tgid E = Some p /\ u_tls (w_up w) !! tls_key E w = Some c /\
      reported E (later 1 K) d (go_tls_args K c) (tls_count p r c) go_tls_extra w new)).
Proof.
  intros Hw Hids. unfold go_tls_exit. apply wp_bind, wp_gets. destruct (g_proc (w_go w) !! cur_tgid E) as [p |].
  2: { apply wp_ret. exists []. split_and!; try done; try (by intros []); [by apply step_only | by left]. }
  apply wp_bind, wp_gets, wp_bind, wp_gets. destruct (u_tls (w_up w) !! tls_key E w) as [c |] eqn:Hc.
  2: { apply wp_ret. exists []. split_and!; try done; [by apply step_only | by rewrite delete_id | by left]. }
  apply wp_bind. eapply wp_mono; [apply save_seq_ok |]. intros [] w0 [q ->]. fold (tls_count p r c).
  set (w1 := w <| w_seqmap := q |>). set (u := (w_up w) <| u_tls := delete (tls_key E w) (u_tls (w_up w)) |>).
  assert (world_ok K (w1 <| w_up := u |>) evs) as Hw1 by (apply up_ok; [by apply seqmap_ok | apply Hw]).
  assert (others_kept id w (w1 <| w_up := u |>)) as Ho by done.
  destruct (_ =? 0); [apply wp_modify; exists []; split_and!; try done; [by apply step_only | by left] |].
  apply wp_bind, wp_modify. fold u. eapply wp_mono.
  { apply (tls_report_ok d (go_tls_args K c) (tls_count p r c) go_tls_extra (w1 <| w_up := u |>)); try done; apply tls_args_ok. }
  intros [] w' (new & P1 & P2 & _ & P3). exists new. split_and!; [by apply (step_after false w (w1 <| w_up := u |>)) | by rewrite P2 | by rewrite P2 |].
  destruct P3 as [P3 | P3]; [by left | right]. exists p, c. split_and!; try done. by apply (reported_same E (later 1 K) d _ _ _ (w1 <| w_up := u |>)).
Qed.
End tls.

(** ** Instances *)

(** The machine as another thread sees it. *)
Definition on_thread (id : Z) (E : env) : env :=
  mk_env (e_modern E) (e_comm E) id (e_protocol_filter E) (e_ports_bitmap E) (e_proc_info E) (e_data_limit_max E) (e_infer_cache E)
    (e_tcp_read_seq E) (e_read_user E) (e_read_user_str E).
Lemma on_thread_ok id E : env_ok E -> env_ok (on_thread id E).
Proof. by intros []. Qed.

(** A TCP connection at 4096 whose descriptor is 5. *)
Definition example_conn_env : env :=
  example_env (str "server") [(4096, le_bytes 8 77 ++ le_bytes 8 8192); (8192, le_bytes 8 12288); (12288, le_bytes 4 5)].
Definition example_conn_proc : proc_info := mk_proc (GO_VERSION 1 18 3) (replicate 17 0) 77 88 99.
Lemma go_descriptor_found_witness :
  fst <$> get_fd_from_tcp_or_tls_conn_interface example_conn_env example_kenv (User 4096) example_conn_proc example_world = Some 5 /\
  exists fd w', get_fd_from_tcp_or_tls_conn_interface example_conn_env example_kenv (User 4096) example_conn_proc example_world = Some (fd, w') /\
    (0 < fd -> exists a tls, behind example_conn_env example_kenv example_conn_proc (User 4096) a tls /\
      tcp_conn_fd example_conn_env example_kenv example_conn_proc a fd /\ w' = if tls then mark_tls example_world else example_world).
Proof.
  split; [vm_compute; reflexivity |].
  destruct (go_descriptor_found example_conn_env example_kenv example_conn_proc eq_refl (User 4096) example_world) as (fd & w' & H1 & H2 & _).
  exists fd, w'. split; [exact H1 | exact H2].
Defined.
