(* ===== verification/GoHttp2.v ===== *)
(** * HTTP/2 in Go

    kernel/go_http2.bpf.c: the uprobes on net/http, golang.org/x/net/http2 and
    google.golang.org/grpc. They find the descriptor of the connection and report
    the header fields that the library has decoded, one event for each and one that
    ends the block, and the data of frames. These events do not go through the
    buffer of the other programs: each is one record, put together in a per-CPU
    [struct __http2_stack]. *)

From S2P Require Import Prelude Bitmap Conn Iovec InferBase InferPipeline.
From S2P Require Import World Output Goroutine KernelObjects Submit SubmitLog FileEvents Syscall Uprobe.

Definition CAP_DATA_SIZE : Z := 1024.
Definition HTTP2_BUFFER_INFO_SIZE : Z := CAP_DATA_SIZE - 16.
Definition HTTP2_DATAFRAME_DATA_SIZE : Z := CAP_DATA_SIZE - 8.
Definition BUF_OFFSET : Z := 16.
Definition SEND_SIZE_MAX : Z := SD_HEAD + CAP_DATA_SIZE + 8.

Definition OFFSET_IDX_CONN_HTTP2_SERVER_CONN : nat := 3.
Definition OFFSET_IDX_TCONN_HTTP2_CLIENT_CONN : nat := 4.
Definition OFFSET_IDX_CC_HTTP2_CLIENT_CONN_READ_LOOP : nat := 5.
Definition OFFSET_IDX_CONN_GRPC_HTTP2_CLIENT : nat := 6.
Definition OFFSET_IDX_CONN_GRPC_HTTP2_SERVER : nat := 7.
Definition OFFSET_IDX_FRAMER_GRPC_TRANSPORT_LOOPY_WRITER : nat := 8.
Definition OFFSET_IDX_WRITER_GRPC_TRANSPORT_FRAMER : nat := 9.
Definition OFFSET_IDX_CONN_GRPC_TRANSPORT_BUFWRITER : nat := 10.
Definition OFFSET_IDX_SIDE_GRPC_TRANSPORT_LOOPY_WRITER : nat := 11.
Definition OFFSET_IDX_FIELDS_HTTP2_META_HEADERS_FRAME : nat := 12.
Definition OFFSET_IDX_STREAM_HTTP2_CLIENT_CONN : nat := 13.
Definition OFFSET_IDX_STREAM_ID_HTTP2_FRAME_HEADER : nat := 14.
Definition OFFSET_IDX_HTTP2_FRAMER_W : nat := 15.
Definition OFFSET_IDX_BUFWRITTER_CONN : nat := 16.

(** [struct go_string] and [struct http2_header_data]. *)
Record go_string := mk_gs { gs_ptr : pointer; gs_len : Z }.
#[export] Instance eta_gs : Eta go_string := fun g => mk_gs (gs_ptr g) (gs_len g).
Record http2_header := mk_h2 {
  h_read : bool; h_type : message_type; h_fd : Z; h_name : go_string; h_value : go_string; h_stream : Z }.
#[export] Instance eta_h2 : Eta http2_header := fun h =>
  mk_h2 (h_read h) (h_type h) (h_fd h) (h_name h) (h_value h) (h_stream h).
Definition no_string : go_string := mk_gs (User 0) 0.

(** [data.message_type += 2]. *)
Definition msg_end (m : message_type) : message_type :=
  match m with MSG_REQUEST => MSG_REQUEST_END | MSG_RESPONSE => MSG_RESPONSE_END | m => m end.
(** The type that a header has, as far as the routines distinguish it. *)
Definition msg_of (x : Z) : message_type :=
  if x =? msg_num MSG_REQUEST then MSG_REQUEST else if x =? msg_num MSG_RESPONSE then MSG_RESPONSE else MSG_UNKNOWN.

Section http2.
Context (E : env) (K : kenv).

(** ** Where the connection is *)

Definition get_the_first_parameter (r : go_regs) (p : proc_info) : Z :=
  if is_register_based_call p then r_parm1 r else read_user64 E (r_sp r + 8).

Definition is_grpc_syscallConn_interface (ptr : pointer) (p : proc_info) : bool :=
  (go_interface E K ptr).1 =? p_syscall_itab p.

Definition get_fd_from_http2serverConn_ctx (r : go_regs) (p : proc_info) : W Z :=
  _ ← update_http2_tls false;
  off ← lift (p_offsets p !! OFFSET_IDX_CONN_HTTP2_SERVER_CONN);
  get_fd_from_tcp_or_tls_conn_interface E K (User (get_the_first_parameter r p + off)) p.

Definition get_fd_from_http2ClientConn (ptr : Z) (p : proc_info) : W Z :=
  _ ← update_http2_tls false;
  off ← lift (p_offsets p !! OFFSET_IDX_TCONN_HTTP2_CLIENT_CONN);
  get_fd_from_tcp_or_tls_conn_interface E K (User (ptr + off)) p.

Definition get_fd_from_http2ClientConn_ctx (r : go_regs) (p : proc_info) : W Z :=
  get_fd_from_http2ClientConn (get_the_first_parameter r p) p.

(** The connection of gRPC, which may be wrapped by the one of its credentials. *)
Definition unwrap_syscallConn (ptr : Z) (p : proc_info) : W Z :=
  if is_grpc_syscallConn_interface (User ptr) p then
    _ ← update_http2_tls true;
    mret (go_interface E K (User (go_interface E K (User ptr)).2)).2
  else mret ptr.

Definition get_fd_from_grpc (idx : nat) (r : go_regs) (p : proc_info) : W Z :=
  _ ← update_http2_tls false;
  off ← lift (p_offsets p !! idx);
  ptr ← unwrap_syscallConn (get_the_first_parameter r p + off) p;
  get_fd_from_tcp_or_tls_conn_interface E K (User ptr) p.
Definition get_fd_from_grpc_http2Client_ctx : go_regs -> proc_info -> W Z := get_fd_from_grpc OFFSET_IDX_CONN_GRPC_HTTP2_CLIENT.
Definition get_fd_from_grpc_http2Server_ctx : go_regs -> proc_info -> W Z := get_fd_from_grpc OFFSET_IDX_CONN_GRPC_HTTP2_SERVER.

Definition get_side_from_grpc_loopyWriter (r : go_regs) (p : proc_info) : W Z :=
  off ← lift (p_offsets p !! OFFSET_IDX_SIDE_GRPC_TRANSPORT_LOOPY_WRITER);
  mret (read_user_int E (get_the_first_parameter r p + off)).

Definition get_fd_from_grpc_loopyWriter (r : go_regs) (p : proc_info) : W Z :=
  _ ← update_http2_tls false;
  off ← lift (p_offsets p !! OFFSET_IDX_FRAMER_GRPC_TRANSPORT_LOOPY_WRITER);
  let ptr := read_user64 E (get_the_first_parameter r p + off) in
  off ← lift (p_offsets p !! OFFSET_IDX_WRITER_GRPC_TRANSPORT_FRAMER);
  let ptr := read_user64 E (ptr + off) in
  off ← lift (p_offsets p !! OFFSET_IDX_CONN_GRPC_TRANSPORT_BUFWRITER);
  ptr ← unwrap_syscallConn (ptr + off) p;
  get_fd_from_tcp_or_tls_conn_interface E K (User ptr) p.

Definition get_fd_from_http2clientConnReadLoop_ctx (r : go_regs) (p : proc_info) : W Z :=
  off ← lift (p_offsets p !! OFFSET_IDX_CC_HTTP2_CLIENT_CONN_READ_LOOP);
  get_fd_from_http2ClientConn (read_user64 E (get_the_first_parameter r p + off)) p.

(** The interface is copied to the stack of the program, and read from there with
    the helper for the memory of the process. *)
Definition get_fd_from_grpc_http2_Framer_ctx (r : go_regs) (p : proc_info) : W Z :=
  let ptr := get_the_first_parameter r p in
  off ← lift (p_offsets p !! OFFSET_IDX_HTTP2_FRAMER_W);
  let io_writer := go_interface E K (User (ptr + off)) in
  off ← lift (p_offsets p !! OFFSET_IDX_BUFWRITTER_CONN);
  let conn_intf := read_at E K (User (io_writer.2 + off)) 16 in
  let conn_intf := if is_grpc_syscallConn_interface (Local conn_intf) p
                   then read_at E K (User (le_word (drop 8 conn_intf))) 16 else conn_intf in
  get_fd_from_tcp_or_tls_conn_interface E K (Local conn_intf) p.

Definition get_previous_read_tcp_seq (seqs : gmap (Z * Z * Z) Z) (fd seq_end : Z) : Z :=
  default 0 (seqs !! (cur_tgid E, u32 fd, seq_end)).

(** ** The header of an event *)

Definition set_stack (f : http2_stack -> http2_stack) : W unit :=
  set_up (fun u => u <| u_stack := f <$> u_stack u |>).

(** The ports and addresses of the socket; the result is whether it is one of IP. *)
Definition put_http2_tuple (sk : Z) (o : member_offsets) (v : list Z) : bool * list Z :=
  let v := vput v_l4_protocol IPPROTO_TCP v in
  let skc_ipv6only := Z.land (Z.shiftr (kr K 1 (sk + o_ipv6only o)) 5) 1 in
  let skc_family := kr K 2 (sk + o_family o) in
  let v := vput v_dport (bswap16 (kr K 2 (sk + o_dport o))) v in
  let v := vput v_num (kr K 2 (sk + o_sport o)) v in
  if negb ((skc_family =? PF_INET) || (skc_family =? PF_INET6)) then (false, v) else
  let skc_family := if (skc_family =? PF_INET6) && (skc_ipv6only =? 0)
                    then ipv4_mapped_on_ipv6_confirm K sk o skc_family else skc_family in
  let addresses (saddr daddr : Z) (n : nat) :=
    let v := vput_bytes v_rcv_saddr (k_read K (sk + saddr) n).2 v in
    let v := vput_bytes v_daddr (k_read K (sk + daddr) n).2 v in
    vput v_addr_len (Z.of_nat n) v in
  (true, if skc_family =? PF_INET then addresses (o_saddr o) (o_daddr o) 4%nat
         else addresses (o_ip6saddr o) (o_ip6daddr o) 16%nat).

Definition http2_fill_common_socket_1 (h : http2_header) (o : member_offsets) (seqs : gmap (Z * Z * Z) Z)
    (tls : bool) (v : list Z) : bool * list Z :=
  let v := vput v_pid 0 v in
  let v := vput v_source (source_num DATA_SOURCE_GO_HTTP2_UPROBE) v in
  let v := vput_is_tls (Z.b2z tls) v in
  let v := vput v_timestamp (k_ktime K 0) v in
  let v := vput v_cap_timestamp (k_ktime K 0) v in
  let v := vput_bytes v_comm (e_comm E).2 v in
  let tcp_seq := if h_read h then get_previous_read_tcp_seq seqs (h_fd h) (get_tcp_read_seq K (Some o) (h_fd h))
                 else get_tcp_write_seq K (Some o) (h_fd h) in
  let v := vput v_tcp_seq tcp_seq v in
  let v := vput_direction (dir_num (if h_read h then T_INGRESS else T_EGRESS)) v in
  let v := vput v_data_type (proto_num PROTO_HTTP2) v in
  let '(ok, v) := put_http2_tuple (get_socket_from_fd K (h_fd h) o) o v in
  if ok then (true, vput v_tgid (cur_tgid E) v) else (false, v).

(** The identifier of the socket; a socket that has none gets one. *)
Definition http2_new_socket (conn_key : Z) (ctx : tracer_ctx) : W Z :=
  let socket_id := u64 (t_socket_id ctx + 1) in
  _ ← set_ctx (fun t => t <| t_socket_id := u64 (t_socket_id t + 1) |>);
  ok ← sock_update K conn_key (zero_sock <| s_uid := socket_id |> <| s_l7_proto := PROTO_HTTP2 |>);
  _ ← (if ok : bool then count_socket 1 else mret tt);
  mret socket_id.
Definition http2_socket_id (conn_key : Z) (sk : option socket_info) (ctx : tracer_ctx) : W Z :=
  match sk with
  | Some k => if is_socket_info_valid sk then mret (s_uid k) else http2_new_socket conn_key ctx
  | None => http2_new_socket conn_key ctx
  end.

(** The trace. [trace_process] leaves the identifier in the header alone for a
    message that goes out on a thread without a trace. *)
Definition http2_trace (sk : option socket_info) (socket_id timeout : Z) (key : trace_key) (v : list Z) : W (list Z) :=
  tip ← gets (fun w => w_trace w !! key);
  let direction := if bits_dir (vget v_bits v) =? dir_num T_INGRESS then T_INGRESS else T_EGRESS in
  let c := zero_conn <| c_direction := direction |> <| c_message_type := msg_of (vget_msg_type v) |> in
  if timeout =? 0 then mret v else
  id ← trace_process K sk c socket_id tip (vget v_timestamp v) key;
  mret (match direction, tip with T_EGRESS, None => v | _, _ => vput v_thread_trace_id id v end).

Definition http2_fill_common_socket_2 (fd : Z) (v : list Z) : W (list Z) :=
  octx ← gets w_ctx;
  match octx with
  | None => mret v
  | Some ctx =>
      stats ← gets w_stats;
      match stats with
      | None => mret v
      | Some _ =>
          let conn_key := gen_conn_key_id (cur_tgid E) fd in
          sk ← gets (fun w => w_sock w !! conn_key);
          socket_id ← http2_socket_id conn_key sk ctx;
          let v := vput v_socket_id socket_id v in
          let timeout := t_go_tracing_timeout ctx in
          key ← get_trace_key E K timeout true;
          v ← http2_trace sk socket_id timeout key v;
          mret (vput v_pid (cur_pid E) (vput v_coroutine_id (k_goid key) v))
      end
  end.

Definition http2_fill_common_socket (h : http2_header) (o : member_offsets) (s : http2_stack) : W unit :=
  seqs ← gets w_seqmap;
  let '(ok, v) := http2_fill_common_socket_1 h o seqs (hs_tls s) (hs_head s) in
  v ← (if ok then http2_fill_common_socket_2 (h_fd h) v else mret v);
  set_stack (fun s => s <| hs_head := v |>).

(** ** The data of an event *)

Definition stack_bytes (s : http2_stack) : list Z :=
  le_bytes 4 (hs_events_num s) ++ le_bytes 4 (hs_len s) ++ hs_head s ++ hs_data s.

Definition report_http2_header : W unit :=
  os ← gets (fun w => u_stack (w_up w));
  match os with
  | None => mret tt
  | Some s =>
      let len := u32 (SD_HEAD + vget v_data_len (hs_head s)) in
      let s := s <| hs_events_num := 1 |> <| hs_len := len |> in
      _ ← set_stack (fun _ => s);
      let send_size := Z.land (u32 (len + 8)) (BURST_DATA_BUF_SIZE - 1) in
      if (send_size <? SEND_SIZE_MAX) && (0 <? send_size) then
        modify (fun w => w <| w_up := (w_up w) <| u_http2 := u_http2 (w_up w) ++
          [(length (w_out w), take (Z.to_nat (1 + send_size)) (stack_bytes s))] |> |>)
      else mret tt
  end.

(** The name, the value and a zero behind the four numbers. *)
Definition put_strings (header_len value_len : Z) (h : http2_header) (data : list Z) : option (list Z) :=
  data ← (if header_len <? HTTP2_BUFFER_INFO_SIZE
          then write_at data BUF_OFFSET (read_at E K (gs_ptr (h_name h)) (Z.to_nat (1 + header_len))) else Some data);
  data ← (if (header_len <? HTTP2_BUFFER_INFO_SIZE) && (value_len <? HTTP2_BUFFER_INFO_SIZE)
          then write_at data (BUF_OFFSET + header_len) (read_at E K (gs_ptr (h_value h)) (Z.to_nat (1 + value_len))) else Some data);
  if header_len + value_len <? HTTP2_BUFFER_INFO_SIZE then write_at data (BUF_OFFSET + (header_len + value_len)) [0] else Some data.

Definition http2_fill_buffer_and_send (h : http2_header) : W unit :=
  os ← gets (fun w => u_stack (w_up w));
  match os with
  | None => mret tt
  | Some s =>
      if vget v_pid (hs_head s) =? 0 then mret tt else
      let v := vput_msg_type (msg_num (h_type h)) (hs_head s) in
      let header_len := Z.land (gs_len (h_name h)) 0x03FF in
      let value_len := Z.land (gs_len (h_value h)) 0x03FF in
      data ← lift (write_at (hs_data s) 0 (le_bytes 4 (h_fd h) ++ le_bytes 4 (h_stream h) ++ le_bytes 4 header_len ++ le_bytes 4 value_len));
      let count := BUF_OFFSET + header_len + value_len in
      if HTTP2_BUFFER_INFO_SIZE <? count then set_stack (fun s => s <| hs_head := v |> <| hs_data := data |>) else
      let v := vput v_data_len count (vput v_syscall_len count v) in
      data ← lift (put_strings header_len value_len h data);
      _ ← set_stack (fun s => s <| hs_head := v |> <| hs_data := data |>);
      report_http2_header
  end.

(** ** Blocks of header fields *)

(** [sizeof(struct go_http2_header_field)]. *)
Definition FIELD_SIZE : Z := 40.
Definition read_field (a : Z) : go_string * go_string :=
  let b := (e_read_user E a (Z.to_nat FIELD_SIZE)).2 in
  let word i := le_word (take 8 (drop (8 * i) b)) in
  (mk_gs (User (word 0%nat)) (word 1%nat), mk_gs (User (word 2%nat)) (word 3%nat)).

(** The loop with [n] iterations left; the result is the last field sent. *)
Fixpoint send_fields (n : nat) (idx : Z) (fields_ptr fields_len : Z) (h : http2_header) : W http2_header :=
  match n with
  | O => mret h
  | S n =>
      if fields_len <=? idx then mret h else
      let '(name, value) := read_field (fields_ptr + FIELD_SIZE * idx) in
      let h := h <| h_name := name |> <| h_value := value |> in
      _ ← http2_fill_buffer_and_send h;
      send_fields n (idx + 1) fields_ptr fields_len h
  end.

Definition end_of (h : http2_header) : http2_header :=
  h <| h_name := (h_name h) <| gs_len := 0 |> |> <| h_value := (h_value h) <| gs_len := 0 |> |> <| h_type := msg_end (h_type h) |>.

Definition submit_http2_headers (h : http2_header) (fields_ptr fields_len : Z) (o : member_offsets) : W unit :=
  os ← gets (fun w => u_stack (w_up w));
  match os with
  | None => mret tt
  | Some s =>
      _ ← http2_fill_common_socket h o s;
      h ← send_fields 9 0 fields_ptr fields_len h;
      http2_fill_buffer_and_send (end_of h)
  end.

Definition get_stream_from_http2MetaHeadersFrame (ptr : Z) (p : proc_info) : W Z :=
  off ← lift (p_offsets p !! OFFSET_IDX_STREAM_ID_HTTP2_FRAME_HEADER);
  mret (le_word (e_read_user E (read_user64 E ptr + off) 4).2).
Definition get_fields_from_http2MetaHeadersFrame (ptr : Z) (p : proc_info) : W Z :=
  off ← lift (p_offsets p !! OFFSET_IDX_FIELDS_HTTP2_META_HEADERS_FRAME);
  mret (ptr + off).

Definition skip_http2_uprobe (info : option proc_info) : bool :=
  match info with
  | None => true
  | Some p => (p_tcp_itab p =? 0) && (p_tls_itab p =? 0) && (p_syscall_itab p =? 0)
  end.

(** The common start of the programs: offsets that are ready, and a process whose
    connections can be found. *)
Definition with_http2 (run : member_offsets -> proc_info -> W unit) : W unit :=
  oo ← gets w_offset;
  match oo with
  | None => mret tt
  | Some o =>
      if negb (o_ready o) then mret tt else
      op ← gets (fun w => g_proc (w_go w) !! cur_tgid E);
      match op with
      | Some p => if skip_http2_uprobe op then mret tt else run o p
      | None => mret tt
      end
  end.

(** ** The programs *)

(** A parameter of the call: in a register, or on the stack. *)
Definition parm (p : proc_info) (reg sp : Z) : Z := if is_register_based_call p then reg else read_user64 E sp.

(** [writeHeader(name, value string)] of a client connection. *)
Definition go_http2ClientConn_writeHeader (r : go_regs) : W unit :=
  with_http2 (fun o p =>
    fd ← get_fd_from_http2ClientConn_ctx r p;
    off ← lift (p_offsets p !! OFFSET_IDX_STREAM_HTTP2_CLIENT_CONN);
    let stream := le_word (e_read_user E (get_the_first_parameter r p + off) 4).2 in
    let stream := if GO_VERSION 1 16 0 <=? p_version p then u32 (stream - 2) else stream in
    os ← gets (fun w => u_stack (w_up w));
    match os with
    | None => mret tt
    | Some s =>
        let h := mk_h2 false MSG_REQUEST fd no_string no_string stream in
        _ ← http2_fill_common_socket h o s;
        let sp := r_sp r in
        let name := mk_gs (User (parm p (r_parm2 r) (sp + 16))) (parm p (r_parm3 r) (sp + 24)) in
        let value := mk_gs (User (parm p (r_parm4 r) (sp + 32))) (parm p (r_parm5 r) (sp + 40)) in
        http2_fill_buffer_and_send (h <| h_name := name |> <| h_value := value |>)
    end).

(** [writeHeaders(streamID uint32, endStream bool, maxFrameSize int, hdrs []byte)]. *)
Definition go_http2ClientConn_writeHeaders (r : go_regs) : W unit :=
  with_http2 (fun o p =>
    let stream := if is_register_based_call p then u32 (r_parm2 r) else le_word (e_read_user E (r_sp r + 16) 4).2 in
    fd ← get_fd_from_http2ClientConn_ctx r p;
    os ← gets (fun w => u_stack (w_up w));
    match os with
    | None => mret tt
    | Some s =>
        let h := mk_h2 false MSG_REQUEST_END fd no_string no_string stream in
        _ ← http2_fill_common_socket h o s;
        http2_fill_buffer_and_send h
    end).

(** The programs that find a decoded block of header fields in a frame. *)
Definition submit_frame (frame : Z) (get_fd : W Z) (m : message_type) (o : member_offsets) (p : proc_info) : W unit :=
  fields_ptr ← get_fields_from_http2MetaHeadersFrame frame p;
  let fields := (e_read_user E fields_ptr 24).2 in
  fd ← get_fd;
  stream ← get_stream_from_http2MetaHeadersFrame frame p;
  submit_http2_headers (mk_h2 true m fd no_string no_string stream) (le_word (take 8 fields)) (le_word (take 8 (drop 8 fields))) o.

Definition go_http2serverConn_processHeaders (r : go_regs) : W unit :=
  with_http2 (fun o p =>
    submit_frame (parm p (r_parm2 r) (r_sp r + 16)) (get_fd_from_http2serverConn_ctx r p) MSG_REQUEST o p).

Definition go_http2clientConnReadLoop_handleResponse (r : go_regs) : W unit :=
  with_http2 (fun o p =>
    submit_frame (parm p (r_parm3 r) (r_sp r + 24)) (get_fd_from_http2clientConnReadLoop_ctx r p) MSG_RESPONSE o p).

Definition go_http2Server_operateHeaders (r : go_regs) : W unit :=
  with_http2 (fun o p =>
    submit_frame (parm p (r_parm2 r) (r_sp r + 16)) (get_fd_from_grpc_http2Server_ctx r p) MSG_REQUEST o p).

Definition go_http2Client_operateHeaders (r : go_regs) : W unit :=
  with_http2 (fun o p =>
    submit_frame (parm p (r_parm2 r) (r_sp r + 16)) (get_fd_from_grpc_http2Client_ctx r p) MSG_RESPONSE o p).

Definition go_loopyWriter_writeHeader (r : go_regs) : W unit :=
  with_http2 (fun o p =>
    let fields := (e_read_user E (r_sp r + 24) 24).2 in
    let '(fields_ptr, fields_len) := if is_register_based_call p then (r_parm4 r, r_parm5 r)
                                     else (le_word (take 8 fields), le_word (take 8 (drop 8 fields))) in
    fd ← get_fd_from_grpc_loopyWriter r p;
    let stream := if is_register_based_call p then u32 (r_parm2 r) else le_word (e_read_user E (r_sp r + 16) 4).2 in
    is_server_side ← get_side_from_grpc_loopyWriter r p;
    let m := if is_server_side =? 0 then MSG_REQUEST else MSG_RESPONSE in
    submit_http2_headers (mk_h2 false m fd no_string no_string stream) fields_ptr fields_len o).

(** The three digits of a status, and one field of a response: its name is a string
    of the program itself. *)
Definition status_digits (code : Z) : list Z := [48 + code mod 1000 / 100; 48 + code mod 100 / 10; 48 + code mod 10].
Definition c_string (s : String.string) : pointer := Local (str s ++ [0]).
Definition read_go_string (a : Z) : go_string :=
  let b := (e_read_user E a 16).2 in mk_gs (User (le_word (take 8 b))) (le_word (drop 8 b)).
Definition send_response_field (name : String.string) (value : go_string) (h : http2_header) : W http2_header :=
  let h := h <| h_name := mk_gs (c_string name) (Z.of_nat (length (str name))) |> <| h_value := value |> in
  _ ← (if gs_len value =? 0 then mret tt else http2_fill_buffer_and_send h);
  mret h.

Definition go_http2serverConn_writeHeaders (r : go_regs) : W unit :=
  with_http2 (fun o p =>
    fd ← get_fd_from_http2serverConn_ctx r p;
    os ← gets (fun w => u_stack (w_up w));
    match os with
    | None => mret tt
    | Some s =>
        let h := mk_h2 false MSG_RESPONSE fd no_string no_string 0 in
        _ ← http2_fill_common_socket h o s;
        let ptr := parm p (r_parm3 r) (r_sp r + 24) in
        let h := h <| h_stream := le_word (e_read_user E ptr 4).2 |> in
        let code := le_word (e_read_user E (ptr + 0x8) 4).2 in
        _ ← (if code =? 0 then mret tt else
             http2_fill_buffer_and_send (h <| h_name := mk_gs (c_string ":status") 7 |> <| h_value := mk_gs (Local (status_digits code)) 3 |>));
        h ← send_response_field "date" (read_go_string (ptr + 0x38)) h;
        h ← send_response_field "content-type" (read_go_string (ptr + 0x48)) h;
        h ← send_response_field "content-length" (read_go_string (ptr + 0x58)) h;
        http2_fill_buffer_and_send (end_of h)
    end).

(** ** Data frames *)

Definition fill_http2_dataframe_base (fd : Z) (d : traffic_direction) (o : member_offsets) (s : http2_stack) : W bool :=
  let v := vput v_source (source_num DATA_SOURCE_GO_HTTP2_DATAFRAME_UPROBE) (hs_head s) in
  let v := vput_is_tls (Z.b2z (hs_tls s)) v in
  let v := vput_direction (dir_num d) v in
  let v := vput v_tgid (cur_tgid E) v in
  let v := vput v_pid (cur_pid E) v in
  let v := vput v_timestamp (k_ktime K 0) v in
  let v := vput v_cap_timestamp (k_ktime K 0) v in
  let v := vput_bytes v_comm (e_comm E).2 v in
  let v := vput v_tcp_seq 0 v in
  let v := vput v_data_type (proto_num PROTO_HTTP2) v in
  let '(ok, v) := put_http2_tuple (get_socket_from_fd K fd o) o v in
  _ ← set_stack (fun s => s <| hs_head := v |>);
  if negb ok then mret false else
  octx ← gets w_ctx;
  match octx with
  | None => mret false
  | Some ctx =>
      stats ← gets w_stats;
      match stats with
      | None => mret false
      | Some _ =>
          let conn_key := gen_conn_key_id (cur_tgid E) fd in
          sk ← gets (fun w => w_sock w !! conn_key);
          socket_id ← http2_socket_id conn_key sk ctx;
          _ ← set_stack (fun s => s <| hs_head := vput v_socket_id socket_id (hs_head s) |>);
          mret true
      end
  end.

Definition fill_http2_dataframe_data (buffer len stream_id : Z) (s : http2_stack) : W unit :=
  data ← lift (write_at (hs_data s) 0 (le_bytes 4 stream_id ++ le_bytes 4 0));
  data_len ← mret (if len <? HTTP2_DATAFRAME_DATA_SIZE then len else HTTP2_DATAFRAME_DATA_SIZE);
  data ← lift (if len <? HTTP2_DATAFRAME_DATA_SIZE
               then if 0 <? len then write_at data 8 (e_read_user E buffer (Z.to_nat (len + 1))).2 else Some data
               else write_at data 8 (e_read_user E buffer (Z.to_nat HTTP2_DATAFRAME_DATA_SIZE)).2);
  data ← lift (write_at data 4 (le_bytes 4 data_len));
  set_stack (fun s => s <| hs_data := data |>
    <| hs_head := vput v_data_len (data_len + 8) (vput v_syscall_len (data_len + 8) (hs_head s)) |>).

Definition report_dataframe (fd : Z) (d : traffic_direction) (buffer len stream_id : Z) (o : member_offsets) : W unit :=
  os ← gets (fun w => u_stack (w_up w));
  match os with
  | None => mret tt
  | Some s =>
      ok ← fill_http2_dataframe_base fd d o s;
      if negb ok then mret tt else
      os ← gets (fun w => u_stack (w_up w));
      s ← lift os;
      _ ← fill_http2_dataframe_data buffer len stream_id s;
      report_http2_header
  end.

Definition golang_org_x_net_http2_Framer_checkFrameOrder (r : go_regs) : W unit :=
  with_http2 (fun o p =>
    let frame := r_parm3 r in
    let type := le_word (e_read_user E (frame + 1) 1).2 in
    if negb (type =? 0) then mret tt else
    let stream_id := le_word (e_read_user E (frame + 8) 4).2 in
    let data := (e_read_user E (frame + 16) 24).2 in
    fd ← get_fd_from_grpc_http2_Framer_ctx r p;
    report_dataframe fd T_INGRESS (le_word (take 8 data)) (le_word (take 8 (drop 8 data))) stream_id o).

Definition golang_org_x_net_http2_Framer_WriteDataPadded (r : go_regs) : W unit :=
  with_http2 (fun o p =>
    fd ← get_fd_from_grpc_http2_Framer_ctx r p;
    report_dataframe fd T_EGRESS (r_parm4 r) (u64 (r_parm5 r)) (u32 (r_parm2 r)) o).
End http2.

(** ** What is put into the buffer *)

(** A write behind what is there extends it. *)
Lemma write_prefix b x y (n : nat) o : take (length x) b = x -> o = Z.of_nat (length x) -> (n <= length y)%nat -> (length x + length y <= length b)%nat ->
  bytes_ok b -> bytes_ok y ->
  exists b', write_at b o y = Some b' /\ length b' = length b /\ bytes_ok b' /\ take (length (x ++ take n y)) b' = x ++ take n y.
Proof.
  intros Hx -> Hn Hl Hb Hy. destruct (write_at_ok b (Z.of_nat (length x)) y) as (b' & Hw & Hl' & Hb'); [lia | lia |].
  exists b'. split_and!; [done | done | exact (write_at_bytes b _ y b' Hb Hy Hw) |]. rewrite Hb', Nat2Z.id, Hx. clear -Hn.
  rewrite length_app, length_take, Nat.min_l by done. rewrite take_app_add. f_equal. by rewrite take_app_le.
Qed.

(** The lengths of the name and of the value as they are sent. *)
Definition sent_len (g : go_string) : Z := Z.land (gs_len g) 0x03FF.
Definition h2_count (h : http2_header) : Z := BUF_OFFSET + sent_len (h_name h) + sent_len (h_value h).
Definition h2_fits (h : http2_header) : bool := h2_count h <=? HTTP2_BUFFER_INFO_SIZE.
Lemma sent_len_range g : 0 <= sent_len g < 1024.
Proof.
  unfold sent_len. change 0x03FF with (Z.ones 10). rewrite Z.land_ones by lia. change (2 ^ 10) with 1024. apply Z.mod_pos_bound. lia.
Qed.

Section facts.
Context {X : Counting} (E : env) (K : kenv) (HE : env_ok E) (HK : kenv_ok K) (Hcomm : bytes_ok (e_comm E).2) (HC : caps_ok K).
Abbreviation id := (e_pid_tgid E).

Lemma read_at_ok a n : length (read_at E K a n) = n /\ bytes_ok (read_at E K a n).
Proof. destruct HE, HK, a; cbn; auto. Qed.

(** The data of an event with a header field: the numbers of the connection and of
    the stream, the two lengths, the name and the value. *)
Definition string_bytes (g : go_string) : list Z :=
  take (Z.to_nat (sent_len g)) (read_at E K (gs_ptr g) (Z.to_nat (1 + sent_len g))).
Definition h2_numbers (h : http2_header) : list Z :=
  le_bytes 4 (h_fd h) ++ le_bytes 4 (h_stream h) ++ le_bytes 4 (sent_len (h_name h)) ++ le_bytes 4 (sent_len (h_value h)).
Definition h2_payload (h : http2_header) : list Z :=
  h2_numbers h ++ string_bytes (h_name h) ++ string_bytes (h_value h).
Lemma string_length g : length (string_bytes g) = Z.to_nat (sent_len g).
Proof.
  unfold string_bytes. pose proof (sent_len_range g). rewrite length_take, (proj1 (read_at_ok _ _)). lia.
Qed.
Lemma payload_length h : Z.of_nat (length (h2_payload h)) = h2_count h.
Proof.
  unfold h2_payload, h2_numbers, h2_count, BUF_OFFSET. rewrite !length_app, !string_length, !le_bytes_length.
  pose proof (sent_len_range (h_name h)). pose proof (sent_len_range (h_value h)). lia.
Qed.

Lemma put_strings_ok h data : Z.of_nat (length data) = BURST_DATA_BUF_SIZE -> bytes_ok data -> h2_fits h = true ->
  exists data1 data2, write_at data 0 (h2_numbers h) = Some data1 /\ put_strings E K (sent_len (h_name h)) (sent_len (h_value h)) h data1 = Some data2 /\
    length data2 = length data /\ bytes_ok data2 /\ take (length (h2_payload h)) data2 = h2_payload h.
Proof.
  intros Hl Hb Hf%Z.leb_le. unfold h2_count, BUF_OFFSET, HTTP2_BUFFER_INFO_SIZE, CAP_DATA_SIZE, BURST_DATA_BUF_SIZE in *.
  pose proof (sent_len_range (h_name h)) as R1. pose proof (sent_len_range (h_value h)) as R2.
  assert (length (h2_numbers h) = 16%nat) as Hn by (unfold h2_numbers; by rewrite !length_app, !le_bytes_length).
  assert (bytes_ok (h2_numbers h)) as Hnb by (unfold h2_numbers; repeat (apply Forall_app; split); apply le_bytes_ok).
  set (n := sent_len (h_name h)) in *. set (v := sent_len (h_value h)) in *.
  destruct (write_prefix data [] (h2_numbers h) 16 0) as (d1 & W1 & L1 & B1 & P1); try done; [cbn [length]; lia |].
  rewrite app_nil_l, (take_ge (h2_numbers h)) in P1 by lia.
  destruct (read_at_ok (gs_ptr (h_name h)) (Z.to_nat (1 + n))) as [L2 B2]. destruct (read_at_ok (gs_ptr (h_value h)) (Z.to_nat (1 + v))) as [L3 B3].
  destruct (write_prefix d1 (h2_numbers h) (read_at E K (gs_ptr (h_name h)) (Z.to_nat (1 + n))) (Z.to_nat n) 16) as (d2 & W2 & L4 & B4 & P2);
    try done; [lia.. |].
  fold n in P2. change (take (Z.to_nat n) (read_at E K (gs_ptr (h_name h)) (Z.to_nat (1 + n)))) with (string_bytes (h_name h)) in P2.
  assert (length (h2_numbers h ++ string_bytes (h_name h)) = (16 + Z.to_nat n)%nat) as Hl2 by (by rewrite length_app, string_length, Hn).
  destruct (write_prefix d2 (h2_numbers h ++ string_bytes (h_name h)) (read_at E K (gs_ptr (h_value h)) (Z.to_nat (1 + v))) (Z.to_nat v) (16 + n))
    as (d3 & W3 & L5 & B5 & P3); try done; [lia.. |].
  change (take (Z.to_nat v) (read_at E K (gs_ptr (h_value h)) (Z.to_nat (1 + v)))) with (string_bytes (h_value h)) in P3.
  rewrite <- app_assoc in P3. change (h2_numbers h ++ string_bytes (h_name h) ++ string_bytes (h_value h)) with (h2_payload h) in P3.
  pose proof (payload_length h) as Hp. unfold h2_count, BUF_OFFSET in Hp. fold n v in Hp.
  destruct (write_prefix d3 (h2_payload h) [0] 0 (16 + (n + v))) as (d4 & W4 & L6 & B6 & P4); try done; [lia | cbn; lia | cbn [length]; lia | by repeat constructor |].
  rewrite take_0, app_nil_r in P4.
  exists d1, d4. split_and!; [done | | congruence | done | done].
  unfold put_strings, BUF_OFFSET, HTTP2_BUFFER_INFO_SIZE, CAP_DATA_SIZE.
  rewrite !(proj2 (Z.ltb_lt _ _)) by lia. cbn [andb]. rewrite W2. cbn [mbind option_bind]. rewrite W3. cbn [mbind option_bind]. exact W4.
Qed.

(** ** Sending *)

(** The world with another buffer and more records. *)
Definition up_with (st : option http2_stack) (recs : list (nat * list Z)) (w : world) : world :=
  w <| w_up := (w_up w) <| u_stack := st |> <| u_http2 := u_http2 (w_up w) ++ recs |> |>.
Lemma up_with_trans st1 st2 r1 r2 w : up_with st2 r2 (up_with st1 r1 w) = up_with st2 (r1 ++ r2) w.
Proof. unfold up_with. cbn. by rewrite app_assoc. Qed.
Lemma up_with_id w : up_with (u_stack (w_up w)) [] w = w.
Proof. unfold up_with. rewrite app_nil_r. by destruct w as [? ? ? ? ? ? ? ? ? ? ? ? ? ? []]. Qed.

Lemma report_ok w s count : u_stack (w_up w) = Some s -> stack_ok s -> vget v_data_len (hs_head s) = count -> 0 <= count <= CAP_DATA_SIZE ->
  exists s' recs, report_http2_header w = Some (tt, up_with (Some s') recs w) /\ stack_ok s' /\
    hs_head s' = hs_head s /\ hs_data s' = hs_data s /\ hs_tls s' = hs_tls s /\
    recs = if count <? CAP_DATA_SIZE then [(length (w_out w), le_bytes 4 1 ++ le_bytes 4 (SD_HEAD + count) ++ hs_head s ++ take (Z.to_nat (1 + count)) (hs_data s))]
           else [].
Proof.
  intros Hs [[Hh Hhb] [Hd Hdb]] Hc Hr. unfold report_http2_header, mbind, M_bind, gets, set_stack, set_up, modify, mret, M_ret. rewrite Hs, Hc.
  unfold CAP_DATA_SIZE in *. assert (u32 (SD_HEAD + count) = SD_HEAD + count) as Hl by (apply wrap_small; unfold SD_HEAD; lia).
  rewrite Hl. set (s' := (s <| hs_events_num := 1 |>) <| hs_len := SD_HEAD + count |>).
  assert (Z.land (u32 (SD_HEAD + count + 8)) (BURST_DATA_BUF_SIZE - 1) = SD_HEAD + count + 8) as Hsz.
  { rewrite wrap_small by (unfold SD_HEAD; lia). rewrite land_mask by (unfold SD_HEAD; lia). apply Z.mod_small. unfold SD_HEAD. lia. }
  rewrite Hsz. exists s'. unfold SEND_SIZE_MAX, CAP_DATA_SIZE. rewrite (proj2 (Z.ltb_lt 0 _)), andb_true_r by (unfold SD_HEAD; lia).
  replace (SD_HEAD + count + 8 <? SD_HEAD + 1024 + 8) with (count <? 1024) by (destruct (Z.ltb_spec count 1024), (Z.ltb_spec (SD_HEAD + count + 8) (SD_HEAD + 1024 + 8)); lia).
  assert (take (Z.to_nat (1 + (SD_HEAD + count + 8))) (stack_bytes s') =
    le_bytes 4 1 ++ le_bytes 4 (SD_HEAD + count) ++ hs_head s ++ take (Z.to_nat (1 + count)) (hs_data s)) as Hb.
  { replace (Z.to_nat (1 + (SD_HEAD + count + 8))) with (length (le_bytes 4 1 ++ le_bytes 4 (SD_HEAD + count) ++ hs_head s) + Z.to_nat (1 + count))%nat
      by (rewrite !length_app, !le_bytes_length, Hh; unfold SD_HEAD; lia).
    unfold stack_bytes. change (hs_events_num s') with 1. change (hs_len s') with (SD_HEAD + count). change (hs_head s') with (hs_head s). change (hs_data s') with (hs_data s).
    rewrite !(app_assoc _ _ (hs_data s)), !(app_assoc _ _ (take _ _)). rewrite <- !app_assoc. rewrite !app_assoc. rewrite <- (app_assoc (le_bytes 4 1)). by rewrite take_app_add. }
  destruct (count <? 1024); eexists; (split; [| by split_and!]).
  - rewrite Hb, Hs. unfold up_with. reflexivity.
  - unfold up_with. rewrite Hs. cbn. by rewrite app_nil_r.
Qed.

(** The record of an event, as the reader takes it. *)
Definition h2_record (v data : list Z) : list Z := le_bytes 4 1 ++ le_bytes 4 (SD_HEAD + vget v_data_len v) ++ v ++ data.
Lemma h2_record_read v data : length v = HEAD -> vget_msg_type v <> 0 -> 0 <= vget v_data_len v < CAP_DATA_SIZE ->
  Z.of_nat (length data) = 1 + vget v_data_len v ->
  reader_raw_cb (h2_record v data) = Some (Some [(v, take (Z.to_nat (vget v_data_len v)) data)]).
Proof.
  intros Hv Ht Hc Hl. set (n := Z.to_nat (vget v_data_len v)). unfold CAP_DATA_SIZE in Hc.
  assert (length (take n data) = n) as Hn by (rewrite length_take; lia).
  pose proof (record_read [(v, take n data)] (drop n data)) as H. rewrite flat_cons in H. unfold flat in H. cbn [fst snd fmap list_fmap concat length] in H.
  rewrite app_nil_r, !length_app, Hn, Hv, length_drop in H. unfold h2_record.
  replace (SD_HEAD + vget v_data_len v) with (Z.of_nat (153 + n)) by (unfold SD_HEAD; lia).
  rewrite <- (take_drop n data) at 1. rewrite (app_assoc v). apply H; [| done | done | unfold BUF_DATA; lia].
  repeat constructor; [done | cbn [fst snd]; rewrite Hn; lia | done].
Qed.
Lemma h2_record_typed v data : length v = HEAD -> vget_msg_type v <> 0 \/ http2_source v = true -> 0 <= vget v_data_len v < CAP_DATA_SIZE ->
  Z.of_nat (length data) = 1 + vget v_data_len v -> record_typed (h2_record v data).
Proof.
  intros Hv Ht Hc Hl. destruct (Z.eq_dec (vget_msg_type v) 0) as [H0 | H0].
  - destruct Ht as [? | Hs]; [done |]. exists None. split; [| done]. unfold CAP_DATA_SIZE in Hc.
    apply record_refused; try done; unfold BUF_DATA, SD_HEAD; lia.
  - eexists. split; [by apply h2_record_read |]. intros es [= <-]. set (n := Z.to_nat (vget v_data_len v)). unfold CAP_DATA_SIZE in Hc.
    assert (length (take n data) = n) as Hn by (rewrite length_take; lia). split_and!; [done | | done |].
    + repeat constructor; [done | cbn [fst snd]; rewrite Hn; lia | done].
    + rewrite flat_cons. unfold flat. cbn [fst snd fmap list_fmap concat]. rewrite app_nil_r, length_app, Hn, Hv. unfold BUF_DATA. lia.
Qed.

(** The header of the event of a header field. *)
Definition h2_head (h : http2_header) (v : list Z) : list Z :=
  vput v_data_len (h2_count h) (vput v_syscall_len (h2_count h) (vput_msg_type (msg_num (h_type h)) v)).
Lemma h2_head_ok h v : hdr v -> h2_fits h = true -> hdr (h2_head h v) /\ vget v_data_len (h2_head h v) = h2_count h /\
  vget v_syscall_len (h2_head h v) = h2_count h /\
  bits_are (vget v_bits (h2_head h v)) (bits_dir (vget v_bits v)) (msg_num (h_type h)) (bits_tls (vget v_bits v)) = true /\
  forall g, apart g v_bits && apart g v_data_len && apart g v_syscall_len = true -> vget g (h2_head h v) = vget g v.
Proof.
  intros Hv Hf%Z.leb_le. unfold HTTP2_BUFFER_INFO_SIZE, CAP_DATA_SIZE in Hf. unfold h2_head.
  pose proof (sent_len_range (h_name h)). pose proof (sent_len_range (h_value h)). assert (0 <= h2_count h) by (unfold h2_count, BUF_OFFSET; lia).
  assert (0 <= msg_num (h_type h) < 64) as Hm by (destruct (h_type h); cbn; lia).
  split_and!.
  - is_hdr.
  - rewrite vget_put_eq; [| done | apply hdr_len; is_hdr]. apply Z.mod_small. cbn. lia.
  - rewrite keep_put; [| reflexivity | is_hdr]. rewrite vget_put_eq; [| done | apply hdr_len; is_hdr]. apply Z.mod_small. cbn. lia.
  - do 2 (rewrite keep_put; [| reflexivity | is_hdr]). by apply (put_bits v Hv).
  - intros g [[G1 G2]%andb_true_iff G3]%andb_true_iff. rewrite keep_put, keep_put, keep_msg_type by (try done; is_hdr). done.
Qed.

(** Two headers of events of the same block: they differ in the type of the message
    and in the length. *)
Definition like (v v' : list Z) : Prop :=
  (forall g, apart g v_bits && apart g v_data_len && apart g v_syscall_len = true -> vget g v' = vget g v) /\
  bits_dir (vget v_bits v') = bits_dir (vget v_bits v) /\ bits_tls (vget v_bits v') = bits_tls (vget v_bits v).
Lemma like_refl v : like v v.
Proof. done. Qed.
Lemma like_trans v1 v2 v3 : like v1 v2 -> like v2 v3 -> like v1 v3.
Proof. intros (H1 & H2 & H3) (G1 & G2 & G3). split_and!; [intros g Hg; by rewrite G1, H1 | congruence | congruence]. Qed.
Lemma bits_are_eq b d m t : bits_are b d m t = true -> bits_dir b = d /\ bits_msg b = m /\ bits_tls b = t.
Proof. unfold bits_are. by intros [[?%Z.eqb_eq ?%Z.eqb_eq]%andb_true_iff ?%Z.eqb_eq]%andb_true_iff. Qed.

(** The event of the header field [h], in a block whose headers are like [v]. *)
Definition field_event (v : list Z) (h : http2_header) (e : list Z * list Z) : Prop :=
  like v e.1 /\ vget_msg_type e.1 = msg_num (h_type h) /\ e.2 = h2_payload h.
(** The record [r], number [i], as what it says. *)
Definition field_record (v : list Z) (i : nat) (h : http2_header) (r : nat * list Z) : Prop :=
  r.1 = i /\ record_typed r.2 /\ exists e, reader_raw_cb r.2 = Some (Some [e]) /\ field_event v h e.
Definition msg_known (h : http2_header) : Prop := h_type h <> MSG_UNKNOWN.

Lemma wp_set_stack f w s Q : u_stack (w_up w) = Some s -> Q tt (up_with (Some (f s)) [] w) -> wp (set_stack f) w Q.
Proof. intros Hs HQ. apply wp_modify. unfold up_with in HQ. rewrite app_nil_r in HQ. rewrite Hs. exact HQ. Qed.

(** The buffer after a step, and the records that the step has sent. *)
Definition sends (w : world) (v : list Z) (hs : list http2_header) (w' : world) : Prop :=
  exists s' recs, w' = up_with (Some s') recs w /\ stack_ok s' /\ like v (hs_head s') /\
    Forall2 (field_record v (length (w_out w))) hs recs.

Lemma send_ok h w s : u_stack (w_up w) = Some s -> stack_ok s -> msg_known h ->
  wp (http2_fill_buffer_and_send E K h) w (fun _ =>
    sends w (hs_head s) (if (vget v_pid (hs_head s) =? 0) || negb (h2_fits h) then [] else [h])).
Proof.
  intros Hs Hok Hm. pose proof Hok as [Hv [Hd Hdb]]. change (hdr (hs_head s)) in Hv. apply wp_bind, wp_gets. rewrite Hs.
  destruct (vget v_pid (hs_head s) =? 0); cbn [orb].
  { apply wp_ret. exists s, []. rewrite <- Hs, up_with_id. by split_and!. }
  fold (sent_len (h_name h)) (sent_len (h_value h)). fold (h2_count h).
  change (le_bytes 4 (h_fd h) ++ le_bytes 4 (h_stream h) ++ le_bytes 4 (sent_len (h_name h)) ++ le_bytes 4 (sent_len (h_value h))) with (h2_numbers h).
  unfold h2_fits in *. destruct (Z.leb_spec (h2_count h) HTTP2_BUFFER_INFO_SIZE) as [Hf | Hf]; cbn [negb].
  - assert (h2_fits h = true) as Hfit by (by apply Z.leb_le).
    destruct (put_strings_ok h (hs_data s) Hd Hdb Hfit) as (d1 & d2 & W1 & W2 & L2 & B2 & P2).
    apply wp_bind, (wp_lift _ _ _ _ W1). rewrite (proj2 (Z.ltb_ge _ _) Hf). apply wp_bind, (wp_lift _ _ _ _ W2).
    fold (h2_head h (hs_head s)). destruct (h2_head_ok h (hs_head s) Hv Hfit) as (V1 & V2 & V3 & (V6 & V7 & V8)%bits_are_eq & V5).
    apply wp_bind, (wp_set_stack _ _ s _ Hs). set (s1 := (s <| hs_head := _ |>) <| hs_data := d2 |>).
    set (v1 := h2_head h (hs_head s)) in *. clearbody v1. pose proof (payload_length h) as Hp. pose proof V1 as [V1l _].
    unfold HTTP2_BUFFER_INFO_SIZE, CAP_DATA_SIZE in Hf. assert (0 <= h2_count h) by lia.
    destruct (report_ok (up_with (Some s1) [] w) s1 (h2_count h)) as (s2 & recs & Hrun & R1 & R2 & R3 & R4 & R5); try done;
      [split; [done |]; change (hs_data s1) with d2; by rewrite L2 | unfold CAP_DATA_SIZE; lia |].
    apply (wp_value _ _ _ _ _ Hrun). rewrite up_with_trans. exists s2, recs. rewrite R2. split_and!; try done.
    rewrite R5. unfold CAP_DATA_SIZE in *. rewrite (proj2 (Z.ltb_lt _ _)) by lia. change (length (w_out (up_with (Some s1) [] w))) with (length (w_out w)).
    change (hs_head s1) with v1. change (hs_data s1) with d2. rewrite <- V2. change (le_bytes 4 1 ++ le_bytes 4 (SD_HEAD + vget v_data_len v1) ++ v1 ++ take (Z.to_nat (1 + vget v_data_len v1)) d2)
      with (h2_record v1 (take (Z.to_nat (1 + vget v_data_len v1)) d2)).
    assert (vget_msg_type v1 <> 0) as Ht by (change (vget_msg_type v1) with (bits_msg (vget v_bits v1)); rewrite V7; unfold msg_known in Hm; by destruct (h_type h)).
    assert (Z.of_nat (length (take (Z.to_nat (1 + vget v_data_len v1)) d2)) = 1 + vget v_data_len v1) as Hl
      by (rewrite V2, length_take, L2; unfold BURST_DATA_BUF_SIZE in Hd; lia).
    assert (0 <= vget v_data_len v1 < CAP_DATA_SIZE) as Hr by (rewrite V2; unfold CAP_DATA_SIZE; lia).
    constructor; [| constructor]. split; [done |]. split; [by apply h2_record_typed; auto |]. eexists. split; [by apply h2_record_read |].
    split_and!; cbn [fst snd]; try done. rewrite take_take, Nat.min_l by lia. rewrite V2, <- Hp, Nat2Z.id. exact P2.
  - rewrite (proj2 (Z.ltb_lt _ _) Hf). destruct (write_prefix (hs_data s) [] (h2_numbers h) 16 0) as (d1 & W1 & L1 & B1 & _); try done.
    { unfold h2_numbers. rewrite !length_app, !le_bytes_length. cbn. unfold BURST_DATA_BUF_SIZE in Hd. lia. }
    { unfold h2_numbers. repeat (apply Forall_app; split); apply le_bytes_ok. }
    apply wp_bind, (wp_lift _ _ _ _ W1), (wp_set_stack _ _ s _ Hs). eexists _, []. split; [done |].
    assert (hdr (vput_msg_type (msg_num (h_type h)) (hs_head s))) as Hv1 by is_hdr.
    split; [split; [done |]; cbn; by rewrite L1 |]. split; [| done].
    assert (0 <= msg_num (h_type h) < 64) as Hm64 by (destruct (h_type h); cbn; lia).
    destruct (put_bits (hs_head s) Hv) as (_ & Hbits & _). specialize (Hbits _ Hm64). apply bits_are_eq in Hbits as (B2 & _ & B3).
    split; [| done]. intros g [[G1 G2]%andb_true_iff G3]%andb_true_iff. by apply keep_msg_type.
Qed.

(** Sending one after the other. *)
Definition sent_of (v : list Z) (hs : list http2_header) : list http2_header :=
  if vget v_pid v =? 0 then [] else filter (fun h => h2_fits h = true) hs.
Lemma sent_of_like v v' hs : like v v' -> sent_of v' hs = sent_of v hs.
Proof. intros [H _]. unfold sent_of. by rewrite (H v_pid). Qed.
Lemma sent_of_app v hs hs' : sent_of v (hs ++ hs') = sent_of v hs ++ sent_of v hs'.
Proof. unfold sent_of. destruct (_ =? 0); [done |]. by rewrite list.filter_app. Qed.
Lemma sent_of_one v h : (if (vget v_pid v =? 0) || negb (h2_fits h) then [] else [h]) = sent_of v [h].
Proof. unfold sent_of. destruct (_ =? 0); [done |]. cbn [orb]. rewrite filter_cons. destruct (h2_fits h); by case_decide. Qed.

Lemma sends_nil w s : u_stack (w_up w) = Some s -> stack_ok s -> sends w (hs_head s) [] w.
Proof. intros Hs Hok. exists s, []. rewrite <- Hs, up_with_id. by split_and!. Qed.
Lemma sends_stack w v hs w' : sends w v hs w' -> exists s, u_stack (w_up w') = Some s /\ stack_ok s /\ like v (hs_head s) /\ w_out w' = w_out w.
Proof. intros (s & recs & -> & H1 & H2 & _). by exists s. Qed.
Lemma sends_app w v hs w1 s1 hs' w2 : sends w v hs w1 -> u_stack (w_up w1) = Some s1 -> sends w1 (hs_head s1) hs' w2 -> sends w v (hs ++ hs') w2.
Proof.
  intros (s & recs & -> & H1 & H2 & H3) Hs (s2 & recs2 & -> & G1 & G2 & G3). injection Hs as <-. exists s2, (recs ++ recs2).
  split_and!; [by rewrite up_with_trans | done.. | by eapply like_trans |]. apply Forall2_app; [done |]. eapply Forall2_impl; [| exact G3].
  intros h r (I1 & I2 & e & I3 & I4 & I5). split_and!; try done. exists e. split; [done |]. split; [by eapply like_trans | done].
Qed.
Lemma send_more h w v hs w1 : sends w v hs w1 -> msg_known h ->
  wp (http2_fill_buffer_and_send E K h) w1 (fun _ => sends w v (hs ++ sent_of v [h])).
Proof.
  intros Hw Hm. destruct (sends_stack _ _ _ _ Hw) as (s & Hs & Hok & Hl & _). eapply wp_mono; [by apply (send_ok h w1 s) |].
  intros [] w2 H2. rewrite sent_of_one, (sent_of_like v _ _ Hl) in H2. by eapply sends_app.
Qed.

(** The field number [i] of a block. *)
Definition field_at (h : http2_header) (fields_ptr i : Z) : http2_header :=
  let '(name, value) := read_field E (fields_ptr + FIELD_SIZE * i) in h <| h_name := name |> <| h_value := value |>.
Definition same_block (h h' : http2_header) : Prop :=
  h_read h' = h_read h /\ h_type h' = h_type h /\ h_fd h' = h_fd h /\ h_stream h' = h_stream h.
Lemma field_at_block h fp i : same_block h (field_at h fp i).
Proof. by unfold field_at; destruct (read_field E _). Qed.
Lemma field_at_same h h' fp i : same_block h h' -> field_at h' fp i = field_at h fp i.
Proof. intros (H1 & H2 & H3 & H4). unfold field_at. destruct (read_field E _). destruct h, h'. cbn in *. by subst. Qed.
Lemma block_trans h1 h2 h3 : same_block h1 h2 -> same_block h2 h3 -> same_block h1 h3.
Proof. intros (? & ? & ? & ?) (? & ? & ? & ?). split_and!; congruence. Qed.

Lemma send_fields_ok n : forall idx fp fl h w v hs w1, sends w v hs w1 -> msg_known h ->
  wp (send_fields E K n idx fp fl h) w1 (fun h' w2 => same_block h h' /\
    sends w v (hs ++ sent_of v (field_at h fp <$> seqZ idx (Z.min (Z.of_nat n) (fl - idx)))) w2).
Proof.
  induction n as [| n IH]; intros idx fp fl h w v hs w1 Hw Hm; cbn [send_fields].
  { apply wp_ret. split; [done |]. rewrite seqZ_nil by lia. unfold sent_of. by destruct (_ =? 0); rewrite app_nil_r. }
  destruct (Z.leb_spec fl idx).
  { apply wp_ret. split; [done |]. rewrite seqZ_nil by lia. unfold sent_of. by destruct (_ =? 0); rewrite app_nil_r. }
  rewrite seqZ_cons by lia. rewrite fmap_cons. pose proof (field_at_block h fp idx) as Hb. pose proof (fun i => field_at_same h _ fp i Hb) as Hsame.
  unfold field_at in Hb at 1. destruct (read_field E (fp + FIELD_SIZE * idx)) as [name value] eqn:Hr.
  assert (field_at h fp idx = h <| h_name := name |> <| h_value := value |>) as Hf by (unfold field_at; by rewrite Hr).
  rewrite Hf in Hsame |- *. set (h1 := (h <| h_name := name |>) <| h_value := value |>) in *.
  assert (msg_known h1) as Hm1 by done. apply wp_bind. eapply wp_mono; [by apply (send_more h1 w v hs w1) |].
  intros [] w2 H2. eapply wp_mono; [by apply (IH (idx + 1) fp fl h1 w v _ w2 H2 Hm1) |]. intros h' w3 [B H3]. split; [by eapply block_trans |].
  rewrite <- app_assoc, <- sent_of_app in H3. cbn [app] in H3. replace (Z.pred (Z.min (Z.of_nat (S n)) (fl - idx))) with (Z.min (Z.of_nat n) (fl - (idx + 1))) by lia.
  rewrite <- Z.add_1_r. erewrite list_fmap_ext; [exact H3 |]. intros i x _. symmetry. apply Hsame.
Qed.

Lemma end_same h h' : same_block h h' -> h2_payload (end_of h') = h2_payload (end_of h) /\ h_type (end_of h') = h_type (end_of h) /\
  h2_fits (end_of h) = true.
Proof.
  intros (H1 & H2 & H3 & H4). unfold h2_payload, h2_numbers, string_bytes, sent_len, end_of. cbn. rewrite H2, H3, H4. done.
Qed.

(** ** The header of a block *)

Definition ip_socket (sk : Z) (o : member_offsets) : bool :=
  (kr K 2 (sk + o_family o) =? PF_INET) || (kr K 2 (sk + o_family o) =? PF_INET6).
Definition tuple_apart (g : field) : bool := forallb (apart g) [v_l4_protocol; v_dport; v_num; v_rcv_saddr; v_daddr; v_addr_len].
Lemma http2_tuple_ok sk o v : hdr v -> hdr (put_http2_tuple K sk o v).2 /\ (put_http2_tuple K sk o v).1 = ip_socket sk o /\
  forall g, tuple_apart g = true -> vget g (put_http2_tuple K sk o v).2 = vget g v.
Proof.
  intros Hv. pose proof (k_read_bytes K HK) as Hb. unfold put_http2_tuple. fold (ip_socket sk o). set (fam := if _ && _ then _ else _).
  assert (forall g, tuple_apart g = true -> apart g v_l4_protocol = true /\ apart g v_dport = true /\ apart g v_num = true /\
    apart g v_rcv_saddr = true /\ apart g v_daddr = true /\ apart g v_addr_len = true) as Hg.
  { intros g. unfold tuple_apart. cbn. rewrite !andb_true_iff. tauto. }
  destruct (ip_socket sk o); cbn [negb fst snd]; [destruct (fam =? PF_INET) |]; (split; [| split; [done |]]).
  all: try (by auto 10 with header).
  all: intros g (G1 & G2 & G3 & G4 & G5 & G6)%Hg; repeat first [rewrite keep_put by auto 10 with header | rewrite keep_bytes by auto 10 with header]; done.
Qed.

(** What the header says of every event of a block. *)
Definition h2_seq (h : http2_header) (o : member_offsets) (seqs : gmap (Z * Z * Z) Z) : Z :=
  if h_read h then get_previous_read_tcp_seq E seqs (h_fd h) (get_tcp_read_seq K (Some o) (h_fd h)) else get_tcp_write_seq K (Some o) (h_fd h).
Record h2_common (h : http2_header) (o : member_offsets) (seqs : gmap (Z * Z * Z) Z) (tls : bool) (v : list Z) : Prop := {
  hc_tgid : vget v_tgid v = cur_tgid E;
  hc_source : vget v_source v = source_num DATA_SOURCE_GO_HTTP2_UPROBE;
  hc_seq : vget v_tcp_seq v = u32 (h2_seq h o seqs);
  hc_type : vget v_data_type v = proto_num PROTO_HTTP2;
  hc_time : vget v_timestamp v = u64 (k_ktime K 0);
  hc_dir : bits_dir (vget v_bits v) = dir_num (if h_read h then T_INGRESS else T_EGRESS);
  hc_tls : bits_tls (vget v_bits v) = Z.b2z tls }.

Lemma fill_1_ok h o seqs tls v : hdr v -> let r := http2_fill_common_socket_1 E K h o seqs tls v in
  hdr r.2 /\ r.1 = ip_socket (get_socket_from_fd K (h_fd h) o) o /\ vget v_pid r.2 = 0 /\ (r.1 = true -> h2_common h o seqs tls r.2).
Proof.
  intros Hv. unfold http2_fill_common_socket_1. fold (h2_seq h o seqs). cbv zeta.
  set (v1 := vput_is_tls (Z.b2z tls) (vput v_source (source_num DATA_SOURCE_GO_HTTP2_UPROBE) (vput v_pid 0 v))).
  assert (hdr v1) as H1 by is_hdr.
  set (v2 := vput v_tcp_seq (h2_seq h o seqs) (vput_bytes v_comm (e_comm E).2 (vput v_cap_timestamp (k_ktime K 0) (vput v_timestamp (k_ktime K 0) v1)))).
  assert (hdr v2) as H2 by is_hdr.
  set (v3 := vput v_data_type (proto_num PROTO_HTTP2) (vput_direction (dir_num (if h_read h then T_INGRESS else T_EGRESS)) v2)).
  assert (hdr v3) as H3 by is_hdr.
  destruct (http2_tuple_ok (get_socket_from_fd K (h_fd h) o) o v3 H3) as (T1 & T2 & T3).
  destruct (put_http2_tuple K (get_socket_from_fd K (h_fd h) o) o v3) as [ok v4]. cbn [fst snd] in *. subst ok.
  assert (vget v_pid v3 = 0) as Hp3.
  { unfold v3, v2, v1. put_value. }
  assert (vget v_pid v4 = 0) as Hp4 by (by rewrite T3).
  assert (vget v_pid (vput v_tgid (cur_tgid E) v4) = 0) as Hp5 by (rewrite keep_put; [done | done | is_hdr]).
  destruct (ip_socket _ o); cbn [fst snd]; [| by split_and!]. split_and!; try done; [by apply hdr_put |]. intros _.
  assert (vget v_bits (vput v_tgid (cur_tgid E) v4) = vget v_bits (vput_direction (dir_num (if h_read h then T_INGRESS else T_EGRESS)) v2)) as Hbits.
  { rewrite keep_put by done. rewrite T3 by done. unfold v3. by rewrite keep_put by (try done; is_hdr). }
  assert (vget v_bits v2 = vget v_bits v1) as Hb2 by (unfold v2; repeat skip_put; done).
  destruct (put_bits v2 H2) as (B1 & _ & _). destruct (put_bits (vput v_source (source_num DATA_SOURCE_GO_HTTP2_UPROBE) (vput v_pid 0 v))) as (_ & _ & B3); [is_hdr |].
  specialize (B1 (dir_num (if h_read h then T_INGRESS else T_EGRESS)) ltac:(destruct (h_read h); cbn; lia)). specialize (B3 (Z.b2z tls) ltac:(destruct tls; cbn; lia)).
  apply bits_are_eq in B1 as (D1 & _ & D3), B3 as (_ & _ & E3). fold v1 in E3.
  constructor; rewrite ?Hbits; [| | | | | done | by rewrite D3, Hb2].
  all: try (rewrite keep_put by done; rewrite T3 by done; unfold v3, v2, v1; put_value).
  rewrite vget_put_eq by (done || apply hdr_len, T1). apply Z.mod_small, (wrap_range 32). lia.
Qed.

(** The identifier of the socket: of a descriptor that has no entry, a new one. *)
Definition h2_key (fd : Z) : Z := gen_conn_key_id (cur_tgid E) fd.
(** The counter of sockets is right if no entry without an identifier is replaced. *)
Definition named (w : world) (fd : Z) : Prop := exact_counts = true -> forall k, w_sock w !! h2_key fd = Some k -> s_uid k <> 0.

Lemma new_socket_ok fd w n ctx : maps_ok K w -> ids_left w -> w_stats w = Some n -> w_ctx w = Some ctx ->
  (exact_counts = true -> w_sock w !! h2_key fd = None) ->
  wp (http2_new_socket K (h2_key fd) ctx) w (fun uid w' =>
    maps_ok K w' /\ w_quiet w w' /\ w_trace w' = w_trace w /\ uid = t_socket_id ctx + 1 /\
    t_socket_id <$> w_ctx w' = Some (t_socket_id ctx + 1) /\
    (is_Some (w_sock w !! h2_key fd) \/ Z.of_nat (size (w_sock w)) < k_max_sock K -> s_uid <$> w_sock w' !! h2_key fd = Some uid)).
Proof.
  intros Hw Hids Hn Ht Hk. set (key := h2_key fd) in *.
  pose proof (Hids ctx Ht) as Hid. unfold http2_new_socket. rewrite wrap_small by lia.
  apply wp_bind, wp_modify. rewrite Ht. cbn [fmap option_fmap option_map]. rewrite wrap_small by lia.
  set (w1 := w <| w_ctx := _ |>). set (e := (zero_sock <| s_uid := t_socket_id ctx + 1 |>) <| s_l7_proto := PROTO_HTTP2 |>).
  assert (maps_ok K w1) as Hw1.
  { destruct Hw as [H1 H2 H3 HL H4 H5 H6]. constructor; try done.
    - intros t' [= <-]. cbn. by apply HL.
    - intros t' key' k' [= <-] Hk'. cbn. specialize (H4 ctx key' k' Ht Hk'). lia. }
  assert (w_quiet w w1) as Hq1 by (constructor; try done; cbn; by rewrite Ht).
  apply wp_bind. unfold sock_update, wp at 1. change (w_sock w1) with (w_sock w).
  destruct (htab_update_cases (k_max_sock K) key e (w_sock w)) as [(-> & Hroom) | (-> & Hnone & Hfull)].
  2: { apply wp_bind, wp_ret, wp_ret. assert (w1 <| w_sock := w_sock w |> = w1) as -> by (by destruct w). split_and!; try done.
       intros [[? ?] | ?]; [congruence | lia]. }
  pose proof (sock_insert_maps K HC key e w1 n (n <| n_socket_map := u64 (n_socket_map n + 1) |>) Hw1 Hn) as Hm.
  cbn [w_ctx set w1] in Hm. change (w_sock w1) with (w_sock w) in Hm.
  apply wp_bind, wp_modify, wp_ret. cbn [w_stats w1 set]. rewrite Hn. cbn [fmap option_fmap option_map].
  split_and!; try done.
  - apply Hm; try done.
    + split; [| done]. unfold sock_ok. split_and!; try done; by apply Forall_replicate.
    + intros He. by rewrite (Hk He).
    + intros t' [= <-]. cbn. lia.
    + intros key' k' Hk' Heq Hne. pose proof (mo_uid K w Hw ctx key' k' Ht Hk') as Hle. cbn in Heq. lia.
  - eapply w_quiet_trans; [exact Hq1 |]. by constructor.
  - intros _. cbn. by rewrite lookup_insert_eq.
Qed.

Lemma socket_id_ok fd w n ctx : maps_ok K w -> ids_left w -> w_stats w = Some n -> w_ctx w = Some ctx -> named w fd ->
  wp (http2_socket_id K (h2_key fd) (w_sock w !! h2_key fd) ctx) w (fun uid w' =>
    maps_ok K w' /\ w_quiet w w' /\ w_trace w' = w_trace w /\ uid = event_uid (w_sock w !! h2_key fd) ctx /\
    (exists d, 0 <= d <= 1 /\ t_socket_id <$> w_ctx w' = Some (t_socket_id ctx + d)) /\
    (is_Some (w_sock w !! h2_key fd) \/ Z.of_nat (size (w_sock w)) < k_max_sock K -> s_uid <$> w_sock w' !! h2_key fd = Some uid)).
Proof.
  intros Hw Hids Hn Ht Hv. pose proof (new_socket_ok fd w n ctx Hw Hids Hn Ht) as Hnew.
  unfold http2_socket_id, event_uid, named in *. set (key := h2_key fd) in *.
  destruct (w_sock w !! key) as [k |] eqn:Hk; [destruct (is_socket_info_valid (Some k)) eqn:Hval |].
  - apply wp_ret. rewrite Ht. split_and!; try done; [exists 0; cbn; split; [lia | f_equal; lia] | intros _; by rewrite Hk].
  - eapply wp_mono; [apply Hnew; intros He; exfalso; specialize (Hv He k eq_refl); cbn in Hval; lia |].
    intros uid w' (S1 & S2 & S3 & S4 & S5 & S6). split_and!; try done. by exists 1.
  - eapply wp_mono; [by apply Hnew |].
    intros uid w' (S1 & S2 & S3 & S4 & S5 & S6). split_and!; try done. by exists 1.
Qed.

(** ** The world after the header is filled *)

Record fill_post (fd : Z) (w w' : world) (evs : list (list Z * list Z)) : Prop := {
  fp_step : step_post id false K w w' evs [];
  fp_out : w_out w' = w_out w; fp_up : w_up w' = w_up w; fp_seq : w_seqmap w' = w_seqmap w; fp_proc : g_proc (w_go w') = g_proc (w_go w);
  fp_uid : forall ctx n, w_ctx w = Some ctx -> w_stats w = Some n -> is_Some (w_sock w !! h2_key fd) \/ Z.of_nat (size (w_sock w)) < k_max_sock K ->
    s_uid <$> w_sock w' !! h2_key fd = Some (event_uid (w_sock w !! h2_key fd) ctx) }.
Lemma fill_post_refl fd w evs : world_ok K w evs -> (w_ctx w = None \/ w_stats w = None) -> fill_post fd w w evs.
Proof. intros Hw Hn. constructor; try done; [by apply step_only |]. intros ctx n Hc Hs. destruct Hn; congruence. Qed.

Lemma http2_trace_ok sk uid timeout key v w n : maps_ok K w -> w_stats w = Some n -> hdr v ->
  wp (http2_trace K sk uid timeout key v) w (fun v' w' => maps_ok K w' /\ w_quiet w w' /\ w_sock w' = w_sock w /\
    t_socket_id <$> w_ctx w' = t_socket_id <$> w_ctx w /\ hdr v' /\ forall g, apart g v_thread_trace_id = true -> vget g v' = vget g v).
Proof.
  intros Hw Hn Hv. unfold http2_trace. apply wp_bind, wp_gets. destruct (timeout =? 0); [by apply wp_ret |].
  set (d := if _ =? dir_num T_INGRESS then _ else _). set (c := (zero_conn <| c_direction := d |>) <| c_message_type := _ |>).
  apply wp_bind. eapply wp_mono; [by apply (trace_step K HC true sk c uid (w_trace w !! key) (vget v_timestamp v) key w n) |].
  intros tid w' ((F1 & F2 & F3 & F4 & F5 & F6) & _). apply wp_ret. split_and!; try done.
  - destruct d, (w_trace w !! key); by auto with header.
  - intros g Hg. destruct d, (w_trace w !! key); try done; by apply keep_put.
Qed.

Definition socket_apart (g : field) : bool := forallb (apart g) [v_pid; v_coroutine_id; v_thread_trace_id; v_socket_id].
Lemma fill_done fd w w1 w3 g ctx evs d : world_ok K w evs -> w_ctx w = Some ctx -> w_quiet w w1 -> w_quiet (w1 <| w_go := g |>) w3 -> maps_ok K w3 ->
  go_frame (w_go w) g -> w_fixed w3 = w_fixed (w <| w_go := g |>) -> w_sock w3 = w_sock w1 -> t_socket_id <$> w_ctx w3 = Some (t_socket_id ctx + d) -> 0 <= d <= 1 ->
  (is_Some (w_sock w !! h2_key fd) \/ Z.of_nat (size (w_sock w)) < k_max_sock K -> s_uid <$> w_sock w1 !! h2_key fd = Some (event_uid (w_sock w !! h2_key fd) ctx)) ->
  fill_post fd w w3 evs.
Proof.
  intros Hw Hctx Q1 Q3 M3 Hgf Hfix C3 I3 Hd Hu. pose proof Hfix as Hf. unfold w_fixed in Hf. cbn in Hf. injection Hf as F1 F2 F3 F4 F5 F6.
  destruct (quiet_ctx w w1 ctx Q1 Hctx) as (t1 & Ht1 & R1). destruct (quiet_ctx _ w3 t1 Q3 Ht1) as (t3 & Ht3 & R3).
  assert (t_push_buffer_refcnt t3 = t_push_buffer_refcnt ctx) as Href by (unfold ctx_rest in R1, R3; congruence).
  assert (world_ok K w3 evs) as Hw3.
  { apply (world_ok_step K w w3 evs evs g); try done.
    - intros t Ht. rewrite Ht3 in Ht. injection Ht as <-. rewrite Href. by apply (wo_refcnt _ _ _ Hw).
    - apply (logged_quiet _ _ _ Q3). pose proof (logged_quiet _ _ _ Q1 (wo_log _ _ _ Hw)) as H. by eapply logged_same; [.. | exact H].
    - intros p Hp. rewrite (q_cache _ _ Q3). cbn. by rewrite (q_cache _ _ Q1). }
  constructor.
  - constructor; rewrite ?app_nil_r; try done.
    + intros i Hi. by rewrite F1, F2, F6.
    + by rewrite F6.
    + apply http2_same. by rewrite F6.
    + rewrite Hctx, Ht3. cbn. congruence.
    + intros t t' Ht Ht'. rewrite Ht' in I3. rewrite Hctx in Ht. injection Ht as <-. injection I3 as ->. lia.
  - by rewrite (q_out _ _ Q3), <- (q_out _ _ Q1).
  - done.
  - by rewrite (q_seqmap _ _ Q3), <- (q_seqmap _ _ Q1).
  - rewrite F5. apply Hgf.
  - intros ctx' n Hc _ Hroom. rewrite Hctx in Hc. injection Hc as <-. rewrite C3. by apply Hu.
Qed.
Lemma fill_2_ok fd v w evs : world_ok K w evs -> ids_left w -> named w fd -> hdr v ->
  wp (http2_fill_common_socket_2 E K fd v) w (fun v' w' => fill_post fd w w' evs /\ hdr v' /\
    (forall g, socket_apart g = true -> vget g v' = vget g v) /\
    match w_ctx w, w_stats w with
    | Some ctx, Some _ => vget v_pid v' = cur_pid E /\ vget v_socket_id v' = u64 (event_uid (w_sock w !! h2_key fd) ctx)
    | _, _ => v' = v
    end).
Proof.
  intros Hw Hids Hn Hv. unfold http2_fill_common_socket_2. apply wp_bind, wp_gets. destruct (w_ctx w) as [ctx |] eqn:Hctx.
  2: { apply wp_ret. split_and!; try done. apply fill_post_refl; auto. }
  apply wp_bind, wp_gets. destruct (w_stats w) as [n |] eqn:Hst.
  2: { apply wp_ret. split_and!; try done. apply fill_post_refl; auto. }
  apply wp_bind, wp_gets, wp_bind. fold (h2_key fd). eapply wp_mono; [by apply (socket_id_ok fd w n ctx (wo_maps _ _ _ Hw))|].
  intros uid w1 (S1 & S2 & S3 & -> & (d & Hd & S4) & S5). set (uid := event_uid _ ctx).
  assert (is_Some (w_stats w1)) as [n1 Hn1] by (apply (q_stats _ _ S2); by eexists).
  destruct (quiet_ctx w w1 ctx S2 Hctx) as (t1 & Ht1 & Hrest).
  (* the key of the trace *)
  apply wp_bind. destruct (find_key_run E K ctx zero_conn w1) as (g & Hg & Hgf). change (find_key E K ctx zero_conn) with (get_trace_key E K (t_go_tracing_timeout ctx) true) in Hg.
  apply (wp_value _ _ _ _ _ Hg). set (key := submit_key E K ctx zero_conn w1). set (w2 := w1 <| w_go := g |>).
  assert (maps_ok K w2) as M2 by (by apply (maps_ok_same K w1)).
  set (v1 := vput v_socket_id uid v). assert (hdr v1) as Hv1 by is_hdr.
  (* the trace *)
  apply wp_bind. eapply wp_mono; [by apply (http2_trace_ok (w_sock w !! h2_key fd) uid (t_go_tracing_timeout ctx) key v1 w2 n1) |].
  intros v2 w3 (M3 & Q3 & C3 & I3 & Hv2 & K2). apply wp_ret. cbn [w_ctx w2 set] in I3. rewrite S4 in I3.
  assert (hdr (vput v_pid (cur_pid E) (vput v_coroutine_id (k_goid key) v2))) as Hv3 by is_hdr.
  assert (w_fixed w3 = w_fixed (w <| w_go := g |>)) as Hfix.
  { rewrite (q_fixed _ _ Q3). pose proof (q_fixed _ _ S2) as Hf. unfold w_fixed in Hf |- *. cbn in Hf |- *. congruence. }
  assert (w_go w1 = w_go w) as Hgo by (pose proof (q_fixed _ _ S2) as Hf; unfold w_fixed in Hf; congruence). rewrite Hgo in Hgf.
  split; [| split; [done |]; split; [| split]].
  - by apply (fill_done fd w w1 w3 g ctx evs d).
  - intros g'. unfold socket_apart. cbn [forallb]. rewrite !andb_true_iff. intros (G1 & G2 & G3 & G4 & _).
    rewrite !keep_put, K2 by (done || is_hdr). unfold v1. by apply keep_put.
  - rewrite vget_put_eq by (done || apply hdr_len; is_hdr). apply Z.mod_small, (wrap_range 32). lia.
  - rewrite !keep_put, K2 by (done || is_hdr). unfold v1. put_value.
Qed.

(** A step that changes the buffer and sends records, after another step. *)
Definition only_up (w w' : world) : Prop :=
  exists st recs, w' = up_with st recs w /\ (forall s, st = Some s -> stack_ok s) /\ Forall (fun r => record_typed r.2) recs.
Lemma only_up_trans w1 w2 w3 : only_up w1 w2 -> only_up w2 w3 -> only_up w1 w3.
Proof.
  intros (s1 & r1 & -> & H1 & T1) (s2 & r2 & -> & H2 & T2). exists s2, (r1 ++ r2). rewrite up_with_trans. split_and!; try done. by apply Forall_app.
Qed.
Lemma step_up w w1 w2 evs new : step_post id false K w w1 evs new -> only_up w1 w2 -> step_post id false K w w2 evs new.
Proof.
  intros [P1 P2 P3 P4 P5 P6] (st & recs & -> & H1 & H2). constructor; try done; [by apply up_ok |].
  eapply adds_trans; [exact P4 |]. by exists recs.
Qed.
Lemma step_refl w evs : world_ok K w evs -> step_post id false K w w evs [].
Proof. intros Hw. by apply step_only. Qed.
Lemma up_step w w1 w2 evs new : only_up w w1 -> step_post id false K w1 w2 evs new -> step_post id false K w w2 evs new.
Proof.
  intros (st & recs & -> & H1 & H2) Hp. apply (step_after E K false w (up_with st recs w)); try done. by exists recs.
Qed.
Lemma only_up_world w w' evs : only_up w w' -> world_ok K w evs -> world_ok K w' evs.
Proof. intros (st & recs & -> & H1 & _) Hw. by apply up_ok. Qed.
Lemma only_up_id w evs : world_ok K w evs -> only_up w w.
Proof. intros Hw. exists (u_stack (w_up w)), []. rewrite up_with_id. split_and!; try done. apply Hw. Qed.
Lemma sends_only_up w v hs w' : sends w v hs w' -> only_up w w'.
Proof.
  intros (s & recs & -> & H1 & _ & H2). exists (Some s), recs. split_and!; [done | by intros ? [= <-] |].
  clear -H2. induction H2 as [| h r hs recs (_ & H & _) _ IH]; constructor; auto.
Qed.

(** Whether the events of a connection are reported at all. *)
Definition reportable (h : http2_header) (o : member_offsets) (w : world) : bool :=
  ip_socket (get_socket_from_fd K (h_fd h) o) o && bool_decide (is_Some (w_ctx w)) && bool_decide (is_Some (w_stats w)) && negb (cur_pid E =? 0).
Record block_head (h : http2_header) (o : member_offsets) (s : http2_stack) (w : world) (v : list Z) : Prop := {
  bh_common : h2_common h o (w_seqmap w) (hs_tls s) v;
  bh_pid : vget v_pid v = cur_pid E;
  bh_uid : forall ctx, w_ctx w = Some ctx -> vget v_socket_id v = event_uid (w_sock w !! h2_key (h_fd h)) ctx }.
Record filled (h : http2_header) (o : member_offsets) (s : http2_stack) (w w' : world) (evs : list (list Z * list Z)) : Prop := {
  fl_step : step_post id false K w w' evs [];
  fl_out : w_out w' = w_out w; fl_http2 : u_http2 (w_up w') = u_http2 (w_up w);
  fl_stack : exists s', u_stack (w_up w') = Some s' /\ (vget v_pid (hs_head s') =? 0) = negb (reportable h o w) /\
    (reportable h o w = true -> block_head h o s w (hs_head s'));
  fl_uid : forall ctx, reportable h o w = true -> w_ctx w = Some ctx -> is_Some (w_sock w !! h2_key (h_fd h)) \/ Z.of_nat (size (w_sock w)) < k_max_sock K ->
    s_uid <$> w_sock w' !! h2_key (h_fd h) = Some (event_uid (w_sock w !! h2_key (h_fd h)) ctx) }.

Lemma event_uid_small fd w evs ctx : world_ok K w evs -> ids_left w -> w_ctx w = Some ctx ->
  u64 (event_uid (w_sock w !! h2_key fd) ctx) = event_uid (w_sock w !! h2_key fd) ctx.
Proof.
  intros Hw Hids Hc. pose proof (Hids ctx Hc). apply wrap_small. unfold event_uid. destruct (w_sock w !! h2_key fd) as [k |] eqn:Hk; [| lia].
  pose proof (mo_uid _ _ (wo_maps _ _ _ Hw) ctx _ k Hc Hk). destruct (is_socket_info_valid _); lia.
Qed.

Lemma fill_ok h o w s evs : world_ok K w evs -> ids_left w -> named w (h_fd h) -> u_stack (w_up w) = Some s ->
  wp (http2_fill_common_socket E K h o s) w (fun _ w' => filled h o s w w' evs).
Proof.
  intros Hw Hids Hn Hs. destruct (wo_stack _ _ _ Hw s Hs) as [Hv Hd]. change (hdr (hs_head s)) in Hv.
  apply wp_bind, wp_gets. destruct (fill_1_ok h o (w_seqmap w) (hs_tls s) (hs_head s) Hv) as (A1 & A2 & A3 & A4).
  destruct (http2_fill_common_socket_1 E K h o (w_seqmap w) (hs_tls s) (hs_head s)) as [ok v]. cbn [fst snd] in *. subst ok.
  assert (forall w1 v', u_stack (w_up w1) = Some s -> hdr v' -> only_up w1 (up_with (Some (s <| hs_head := v' |>)) [] w1)) as Hup.
  { intros w1 v' _ Hv'. eexists _, []. split_and!; try done. intros s' [= <-]. by split. }
  destruct (ip_socket _ o) eqn:Hip.
  2: { apply wp_bind, wp_ret, (wp_set_stack _ _ s _ Hs). assert (reportable h o w = false) as Hr by (unfold reportable; by rewrite Hip).
       constructor; rewrite ?Hr; try done; [eapply step_up; [by apply step_refl | by apply Hup] | cbn; by rewrite app_nil_r |].
       eexists. split; [reflexivity |]. cbn [hs_head set]. by rewrite A3. }
  apply wp_bind. eapply wp_mono; [by apply (fill_2_ok (h_fd h) v w evs) |]. intros v' w1 ([P1 P2 P3 P4 P5 P6] & Hv' & K1 & Hcase).
  assert (u_stack (w_up w1) = Some s) as Hs1 by (by rewrite P3). apply (wp_set_stack _ _ s _ Hs1).
  assert (step_post id false K w (up_with (Some (s <| hs_head := v' |>)) [] w1) evs []) as Hstep by (eapply step_up; [exact P1 | by apply Hup]).
  assert (u_http2 (w_up (up_with (Some (s <| hs_head := v' |>)) [] w1)) = u_http2 (w_up w)) as Hh by (cbn; by rewrite app_nil_r, P3).
  destruct (w_ctx w) as [ctx |] eqn:Hc, (w_stats w) as [n |] eqn:Hst.
  2-4: assert (reportable h o w = false) as Hr by (unfold reportable; rewrite Hip, Hc, Hst; by cbn);
       constructor; rewrite ?Hr; try done; eexists; (split; [reflexivity |]); cbn [hs_head set]; subst v'; by rewrite A3.
  assert (reportable h o w = negb (cur_pid E =? 0)) as Hr by (unfold reportable; rewrite Hip, Hc, Hst; by cbn). destruct Hcase as [C1 C2].
  constructor; rewrite ?Hr; try done; [| intros ctx' _ Hc' Hroom; apply (P6 ctx' n); congruence].
  eexists. split; [reflexivity |]. cbn [hs_head set]. split; [by rewrite C1, negb_involutive |]. intros _. constructor; [| done |].
  - destruct (A4 eq_refl). constructor; by rewrite K1.
  - intros ctx' Hc'. rewrite Hc in Hc'. injection Hc' as <-. rewrite C2. by eapply event_uid_small.
Qed.

(** ** Blocks of header fields *)

Definition block_fields (h : http2_header) (fields_ptr fields_len : Z) : list http2_header :=
  filter (fun h => h2_fits h = true) (field_at h fields_ptr <$> seqZ 0 (Z.min 9 fields_len)).
Lemma fields_sent h fp fl w v w1 : sends w v [] w1 -> h_type h = MSG_REQUEST \/ h_type h = MSG_RESPONSE ->
  wp (h' ← send_fields E K 9 0 fp fl h; http2_fill_buffer_and_send E K (end_of h')) w1 (fun _ w2 =>
    sends w v (if vget v_pid v =? 0 then [] else block_fields h fp fl ++ [end_of h]) w2).
Proof.
  intros Hw Ht. assert (msg_known h) as Hm by (unfold msg_known; by destruct Ht as [-> | ->]).
  apply wp_bind. eapply wp_mono; [by apply (send_fields_ok 9 0 fp fl h w v [] w1) |]. intros h' w2 [Hb Hs]. rewrite app_nil_l in Hs.
  destruct (end_same h h' Hb) as (Ep & Et & Ef). assert (msg_known (end_of h')) as Hme.
  { unfold msg_known. rewrite Et. unfold end_of. cbn. by destruct Ht as [-> | ->]. }
  eapply wp_mono; [exact (send_more (end_of h') w v _ w2 Hs Hme) |]. intros [] w3 (s3 & recs & -> & R1 & R2 & R3).
  exists s3, recs. split_and!; try done. rewrite Z.sub_0_r in R3. unfold sent_of in R3. destruct (vget v_pid v =? 0); [done |].
  change (Z.of_nat 9) with 9 in R3. fold (block_fields h fp fl) in R3.
  assert (h2_fits (end_of h') = true) as Hf' by (by apply (end_same h' h')). rewrite filter_cons_True in R3 by done.
  apply Forall2_app_inv_l in R3 as (r1 & r2 & F1 & F2 & ->). apply Forall2_app; [done |].
  apply Forall2_cons_inv_l in F2 as (r & r' & F3 & F4 & ->). apply Forall2_nil_inv_l in F4 as ->. constructor; [| done].
  destruct F3 as (I1 & I2 & e & I3 & I4 & I5 & I6). split_and!; try done. exists e. split; [done |]. split; [done |]. split; congruence.
Qed.

(** A block as it is read back: the header that its events share, then the events
    of the fields that fit, in order, and the end of the block. *)
Definition block_sent (h : http2_header) (fp fl : Z) (o : member_offsets) (s : http2_stack) (w : world) (recs : list (nat * list Z)) : Prop :=
  if reportable h o w then exists v, block_head h o s w v /\ Forall2 (field_record v (length (w_out w))) (block_fields h fp fl ++ [end_of h]) recs
  else recs = [].
Lemma submit_block_ok h fp fl o w s evs : world_ok K w evs -> ids_left w -> named w (h_fd h) -> u_stack (w_up w) = Some s ->
  h_type h = MSG_REQUEST \/ h_type h = MSG_RESPONSE ->
  wp (submit_http2_headers E K h fp fl o) w (fun _ w' => step_post id false K w w' evs [] /\
    exists recs, u_http2 (w_up w') = u_http2 (w_up w) ++ recs /\ block_sent h fp fl o s w recs).
Proof.
  intros Hw Hids Hn Hs Ht. apply wp_bind, wp_gets. rewrite Hs. apply wp_bind. eapply wp_mono; [by apply (fill_ok h o w s evs) |].
  intros [] w1 [P1 P2 P3 (s1 & S1 & S2 & S3) P5]. pose proof (sp_ok _ _ _ _ _ _ _ P1) as Hw1. rewrite app_nil_r in Hw1.
  eapply wp_mono; [apply (fields_sent h fp fl w1 (hs_head s1) w1); [| done]; apply sends_nil; [done | by apply (wo_stack _ _ _ Hw1)] |].
  intros [] w2 Hs2. split; [eapply step_up; [exact P1 | by eapply sends_only_up] |]. destruct Hs2 as (s2 & recs & -> & R1 & R2 & R3).
  exists recs. split; [cbn; by rewrite P3 |]. rewrite S2 in R3. unfold block_sent. rewrite P2 in R3.
  destruct (reportable h o w); cbn [negb] in R3; [by exists (hs_head s1); split; [apply S3 |] | by apply Forall2_nil_inv_l in R3].
Qed.


(** ** Data frames *)

(** Whether the data of the descriptor is reported. *)
Definition frame_ok (fd : Z) (o : member_offsets) (w : world) : bool :=
  ip_socket (get_socket_from_fd K fd o) o && bool_decide (is_Some (w_ctx w)) && bool_decide (is_Some (w_stats w)).
(** The header of the event of a frame. The type of the message is not set: it is
    the one that the buffer had before. *)
Record frame_head (fd : Z) (d : traffic_direction) (s : http2_stack) (w : world) (v : list Z) : Prop := {
  fh_hdr : hdr v;
  fh_source : vget v_source v = source_num DATA_SOURCE_GO_HTTP2_DATAFRAME_UPROBE;
  fh_tgid : vget v_tgid v = cur_tgid E; fh_pid : vget v_pid v = cur_pid E;
  fh_type : vget v_data_type v = proto_num PROTO_HTTP2;
  fh_dir : bits_dir (vget v_bits v) = dir_num d; fh_tls : bits_tls (vget v_bits v) = Z.b2z (hs_tls s);
  fh_msg : vget_msg_type v = vget_msg_type (hs_head s) }.

Lemma frame_head_keep fd d s w v g x : frame_head fd d s w v -> fits g = true -> forallb (fun f => disjoint f g)
  [v_source; v_tgid; v_pid; v_data_type; v_bits] = true -> frame_head fd d s w (vput g x v).
Proof.
  intros [Hv H1 H2 H3 H4 H5 H6 H7] Hf Hg. cbn [forallb] in Hg. rewrite !andb_true_iff in Hg. destruct Hg as (G1 & G2 & G3 & G4 & G5 & _).
  assert (forall f, disjoint f g = true -> fits f = true -> vget f (vput g x v) = vget f v) as Hk.
  { intros f Hd Hff. apply keep_put; [| done]. unfold apart. by rewrite Hd, Hff, Hf. }
  constructor; [by apply hdr_put | ..]; unfold vget_msg_type in *; rewrite Hk by done; done.
Qed.

Lemma frame_head_written fd d o s w : hdr (hs_head s) ->
  let v := vput v_source (source_num DATA_SOURCE_GO_HTTP2_DATAFRAME_UPROBE) (hs_head s) in
  let v := vput_direction (dir_num d) (vput_is_tls (Z.b2z (hs_tls s)) v) in
  let v := vput v_pid (cur_pid E) (vput v_tgid (cur_tgid E) v) in
  let v := vput_bytes v_comm (e_comm E).2 (vput v_cap_timestamp (k_ktime K 0) (vput v_timestamp (k_ktime K 0) v)) in
  let v := vput v_data_type (proto_num PROTO_HTTP2) (vput v_tcp_seq 0 v) in
  frame_head fd d s w (put_http2_tuple K (get_socket_from_fd K fd o) o v).2.
Proof.
  intros Hv. cbv zeta. set (v1 := vput v_source _ (hs_head s)). assert (hdr v1) as H1 by is_hdr.
  set (v2 := vput_is_tls (Z.b2z (hs_tls s)) v1). assert (hdr v2) as H2 by is_hdr. set (v3 := vput_direction (dir_num d) v2). assert (hdr v3) as H3 by is_hdr.
  set (v4 := vput v_data_type _ _). assert (hdr v4) as H4 by is_hdr.
  destruct (http2_tuple_ok (get_socket_from_fd K fd o) o v4 H4) as (T1 & _ & T3).
  destruct (put_bits v1 H1) as (_ & _ & B1). specialize (B1 (Z.b2z (hs_tls s)) ltac:(destruct (hs_tls s); cbn; lia)).
  destruct (put_bits v2 H2) as (B2 & _ & _). specialize (B2 (dir_num d) ltac:(destruct d; cbn; lia)).
  fold v2 in B1. fold v3 in B2. apply bits_are_eq in B1 as (_ & M1 & T4), B2 as (D2 & M2 & T5).
  assert (vget v_bits v4 = vget v_bits v3) as Hb by (unfold v4; repeat skip_put; done).
  constructor; unfold vget_msg_type; rewrite ?T3 by done; rewrite ?Hb; try done.
  - unfold v4, v3, v2, v1. put_value.
  - unfold v4. repeat skip_put. rewrite vget_put_eq by (done || apply hdr_len; is_hdr). apply Z.mod_small, (wrap_range 32). lia.
  - unfold v4. repeat skip_put. rewrite vget_put_eq by (done || apply hdr_len; is_hdr). apply Z.mod_small, (wrap_range 32). lia.
  - unfold v4. put_value.
  - by rewrite T5.
  - change (bits_msg (vget v_bits v3) = vget_msg_type (hs_head s)). rewrite M2. change (bits_msg (vget v_bits v2) = vget_msg_type (hs_head s)).
    rewrite M1. unfold vget_msg_type, v1. by rewrite keep_put.
Qed.

Record frame_based (fd : Z) (d : traffic_direction) (o : member_offsets) (s : http2_stack) (w : world) (ok : bool) (w' : world)
    (evs : list (list Z * list Z)) : Prop := {
  fb_ok : ok = frame_ok fd o w;
  fb_step : step_post id false K w w' evs [];
  fb_out : w_out w' = w_out w; fb_http2 : u_http2 (w_up w') = u_http2 (w_up w);
  fb_stack : exists s', u_stack (w_up w') = Some s' /\ frame_head fd d s w (hs_head s') /\
    (ok = true -> forall ctx, w_ctx w = Some ctx -> vget v_socket_id (hs_head s') = event_uid (w_sock w !! h2_key fd) ctx) }.

Lemma frame_base_ok fd d o w s evs : world_ok K w evs -> ids_left w -> named w fd -> u_stack (w_up w) = Some s ->
  wp (fill_http2_dataframe_base E K fd d o s) w (fun ok w' => frame_based fd d o s w ok w' evs).
Proof.
  intros Hw Hids Hn Hs. destruct (wo_stack _ _ _ Hw s Hs) as [Hv Hd]. change (hdr (hs_head s)) in Hv. unfold fill_http2_dataframe_base.
  pose proof (frame_head_written fd d o s w Hv) as Hh. cbv zeta in Hh. set (v := vput v_data_type _ _) in *.
  assert (hdr v) as Hvv by (unfold v; is_hdr). destruct (http2_tuple_ok (get_socket_from_fd K fd o) o v Hvv) as (_ & T2 & _). cbv zeta.
  destruct (put_http2_tuple K (get_socket_from_fd K fd o) o v) as [ok v1]. cbn [fst snd] in *. subst ok. clearbody v.
  set (s1 := s <| hs_head := v1 |>). set (w1 := up_with (Some s1) [] w).
  assert (only_up w w1) as Hup by (eexists _, []; split_and!; try done; intros s' [= <-]; split; [apply Hh | done]).
  assert (step_post id false K w w1 evs []) as Hstep1 by (eapply step_up; [by apply step_refl | done]).
  apply wp_bind, (wp_set_stack _ _ s _ Hs). fold s1 w1. change (w_ctx w1) with (w_ctx w).
  assert (u_http2 (w_up w1) = u_http2 (w_up w)) as Hh1 by (cbn; by rewrite app_nil_r).
  assert (forall ok, ok = frame_ok fd o w -> ok = false -> frame_based fd d o s w ok w1 evs) as Hno.
  { intros ok Hok ->. constructor; try done. exists s1. by split_and!. }
  unfold frame_ok in *. destruct (ip_socket _ o) eqn:Hip; cbn [negb andb] in *; [| apply wp_ret; by apply Hno].
  apply wp_bind, wp_gets. change (w_ctx w1) with (w_ctx w). destruct (w_ctx w) as [ctx |] eqn:Hctx; [| apply wp_ret; by apply Hno].
  apply wp_bind, wp_gets. change (w_stats w1) with (w_stats w). destruct (w_stats w) as [n |] eqn:Hst; [| apply wp_ret; by apply Hno].
  pose proof (only_up_world w w1 evs Hup Hw) as Hw1. apply wp_bind, wp_gets. fold (h2_key fd).
  apply wp_bind. eapply wp_mono; [by apply (socket_id_ok fd w1 n ctx (wo_maps _ _ _ Hw1)) |].
  intros uid w2 (S1 & S2 & S3 & -> & (dd & Hdd & S4) & S5). pose proof (q_fixed _ _ S2) as Hfix.
  assert (w_go w2 = w_go w1 /\ w_up w2 = w_up w1) as [Hgo Hu] by (unfold w_fixed in Hfix; split; congruence).
  assert (w2 <| w_go := w_go w1 |> = w2) as Hid by (rewrite <- Hgo; by destruct w2).
  destruct (fill_done fd w1 w2 w2 (w_go w1) ctx evs dd) as [P1 P2 P3 P4 P5 P6]; try done; [by rewrite Hid |].
  assert (u_stack (w_up w2) = Some s1) as Hs2 by (by rewrite Hu). apply wp_bind, (wp_set_stack _ _ s1 _ Hs2), wp_ret. change (w_sock w1) with (w_sock w).
  set (v2 := vput v_socket_id _ _). assert (frame_head fd d s w v2) as Hh2 by (by apply frame_head_keep).
  assert (frame_ok fd o w = true) as Hok by (unfold frame_ok; rewrite Hip, Hctx, Hst; by cbn).
  constructor; try done; [| cbn; by rewrite Hu, app_nil_r |].
  - eapply up_step; [exact Hup |]. eapply step_up; [exact P1 |]. eexists _, []. split_and!; try done. intros s' [= <-]. split; [apply Hh2 | done].
  - eexists. split; [reflexivity |]. cbn [hs_head set]. split; [done |]. intros _ ctx' Hc'. rewrite Hctx in Hc'. injection Hc' as <-. unfold v2.
    rewrite vget_put_eq by (done || apply hdr_len, Hh). change (u64 (event_uid (w_sock w !! h2_key fd) ctx) = event_uid (w_sock w !! h2_key fd) ctx).
    by eapply event_uid_small.
Qed.

(** The data of the event of a frame: the stream, the length, and the data up to the
    size of the buffer. *)
Definition frame_len (len : Z) : Z := if len <? HTTP2_DATAFRAME_DATA_SIZE then len else HTTP2_DATAFRAME_DATA_SIZE.
Definition frame_bytes (buffer len : Z) : list Z :=
  take (Z.to_nat (frame_len len)) (e_read_user E buffer (Z.to_nat (if len <? HTTP2_DATAFRAME_DATA_SIZE then len + 1 else HTTP2_DATAFRAME_DATA_SIZE))).2.
Definition frame_payload (buffer len stream_id : Z) : list Z := le_bytes 4 stream_id ++ le_bytes 4 (frame_len len) ++ frame_bytes buffer len.
Lemma frame_bytes_length buffer len : 0 <= len -> Z.of_nat (length (frame_bytes buffer len)) = frame_len len /\ 0 <= frame_len len <= HTTP2_DATAFRAME_DATA_SIZE.
Proof.
  intros Hl. unfold frame_bytes, frame_len. rewrite length_take, (read_user_len E HE). unfold HTTP2_DATAFRAME_DATA_SIZE, CAP_DATA_SIZE.
  destruct (Z.ltb_spec len (1024 - 8)); lia.
Qed.
Lemma frame_head_lens fd d s w v n : frame_head fd d s w v -> 0 <= n < 2 ^ 16 ->
  frame_head fd d s w (vput v_data_len n (vput v_syscall_len n v)) /\ vget v_data_len (vput v_data_len n (vput v_syscall_len n v)) = n /\
  vget v_socket_id (vput v_data_len n (vput v_syscall_len n v)) = vget v_socket_id v.
Proof.
  intros Hh Hn. pose proof (fh_hdr _ _ _ _ _ Hh) as Hv. split_and!.
  - by do 2 (apply frame_head_keep; [| done | done]).
  - rewrite vget_put_eq by (done || apply hdr_len; is_hdr). apply Z.mod_small. cbn. lia.
  - by rewrite !keep_put by (done || is_hdr).
Qed.

Lemma frame_copy_ok buffer len stream_id data : Z.of_nat (length data) = BURST_DATA_BUF_SIZE -> bytes_ok data -> 0 <= len ->
  exists d1 d2 d3, write_at data 0 (le_bytes 4 stream_id ++ le_bytes 4 0) = Some d1 /\
    (if len <? HTTP2_DATAFRAME_DATA_SIZE
     then if 0 <? len then write_at d1 8 (e_read_user E buffer (Z.to_nat (len + 1))).2 else Some d1
     else write_at d1 8 (e_read_user E buffer (Z.to_nat HTTP2_DATAFRAME_DATA_SIZE)).2) = Some d2 /\
    write_at d2 4 (le_bytes 4 (frame_len len)) = Some d3 /\ length d3 = length data /\ bytes_ok d3 /\
    take (length (frame_payload buffer len stream_id)) d3 = frame_payload buffer len stream_id.
Proof.
  intros Hl Hb Hlen. unfold BURST_DATA_BUF_SIZE in Hl. destruct (frame_bytes_length buffer len Hlen) as [Hfl Hfr]. unfold HTTP2_DATAFRAME_DATA_SIZE, CAP_DATA_SIZE in Hfr.
  set (x := le_bytes 4 stream_id ++ le_bytes 4 0). assert (length x = 8%nat) as Hx by (unfold x; by rewrite length_app, !le_bytes_length).
  assert (bytes_ok x) as Hxb by (unfold x; apply Forall_app; split; apply le_bytes_ok).
  destruct (write_prefix data [] x 8 0) as (d1 & W1 & L1 & B1 & P1); try done; [cbn [length]; lia |]. rewrite app_nil_l, (take_ge x) in P1 by lia.
  set (m := Z.to_nat (if len <? HTTP2_DATAFRAME_DATA_SIZE then len + 1 else HTTP2_DATAFRAME_DATA_SIZE)).
  assert (exists d2, (if len <? HTTP2_DATAFRAME_DATA_SIZE then if 0 <? len then write_at d1 8 (e_read_user E buffer (Z.to_nat (len + 1))).2 else Some d1
     else write_at d1 8 (e_read_user E buffer (Z.to_nat HTTP2_DATAFRAME_DATA_SIZE)).2) = Some d2 /\ length d2 = length d1 /\ bytes_ok d2 /\
     take (length (x ++ frame_bytes buffer len)) d2 = x ++ frame_bytes buffer len) as (d2 & W2 & L2 & B2 & P2).
  { unfold frame_bytes. fold m. destruct (write_prefix d1 x (e_read_user E buffer m).2 (Z.to_nat (frame_len len)) 8) as (d2 & W2 & L2 & B2 & P2); try done.
    - rewrite (read_user_len E HE). unfold m, frame_len. destruct (len <? HTTP2_DATAFRAME_DATA_SIZE); unfold HTTP2_DATAFRAME_DATA_SIZE, CAP_DATA_SIZE; lia.
    - rewrite (read_user_len E HE), Hx. unfold m. destruct (Z.ltb_spec len HTTP2_DATAFRAME_DATA_SIZE); unfold HTTP2_DATAFRAME_DATA_SIZE, CAP_DATA_SIZE in *; lia.
    - apply (read_user_bytes E HE).
    - unfold frame_len, m in *. destruct (len <? HTTP2_DATAFRAME_DATA_SIZE); [| by exists d2].
      destruct (Z.ltb_spec 0 len); [by exists d2 |]. exists d1. assert (len = 0) as -> by lia. change (Z.to_nat 0) with 0%nat. by rewrite take_0, app_nil_r. }
  destruct (write_at_ok d2 4 (le_bytes 4 (frame_len len))) as (d3 & W3 & L3 & E3); [lia | rewrite le_bytes_length; lia |].
  exists d1, d2, d3. split_and!; try done; [congruence | by eapply write_at_bytes; [| apply le_bytes_ok |] |].
  rewrite E3. rewrite <- (take_drop (length (x ++ frame_bytes buffer len)) d2), P2. unfold x, frame_payload. rewrite <- !app_assoc.
  rewrite le_bytes_length. change (Z.to_nat 4) with (length (le_bytes 4 stream_id) + 0)%nat. rewrite take_app_add, take_0, app_nil_r.
  change (length (le_bytes 4 stream_id) + 0 + 4)%nat with (length (le_bytes 4 stream_id) + (length (le_bytes 4 0) + 0))%nat. rewrite !drop_app_add, drop_0.
  rewrite !(app_assoc (le_bytes 4 stream_id)), !app_assoc. apply take_app_length'. by rewrite !length_app, !le_bytes_length.
Qed.

(** What is sent for a frame. *)
Definition frame_sent (fd : Z) (d : traffic_direction) (buffer len stream_id : Z) (o : member_offsets) (s : http2_stack) (w : world)
    (recs : list (nat * list Z)) : Prop :=
  if frame_ok fd o w && (len <? HTTP2_DATAFRAME_DATA_SIZE) then exists v r, recs = [(length (w_out w), r)] /\ record_typed r /\ frame_head fd d s w v /\
    (forall ctx, w_ctx w = Some ctx -> vget v_socket_id v = event_uid (w_sock w !! h2_key fd) ctx) /\
    reader_raw_cb r = Some (if vget_msg_type (hs_head s) =? 0 then None else Some [(v, frame_payload buffer len stream_id)])
  else recs = [].

Lemma frame_data_ok fd d buffer len stream_id w0 w s0 s : u_stack (w_up w) = Some s -> stack_ok s -> frame_head fd d s0 w0 (hs_head s) -> 0 <= len ->
  wp (_ ← fill_http2_dataframe_data E buffer len stream_id s; report_http2_header) w (fun _ w' => exists s' recs, w' = up_with (Some s') recs w /\ stack_ok s' /\
    if len <? HTTP2_DATAFRAME_DATA_SIZE then exists v r, recs = [(length (w_out w), r)] /\ record_typed r /\ frame_head fd d s0 w0 v /\ vget v_socket_id v = vget v_socket_id (hs_head s) /\
      reader_raw_cb r = Some (if vget_msg_type (hs_head s0) =? 0 then None else Some [(v, frame_payload buffer len stream_id)])
    else recs = []).
Proof.
  intros Hs [_ [Hd Hdb]] Hh Hlen. destruct (frame_copy_ok buffer len stream_id (hs_data s) Hd Hdb Hlen) as (d1 & d2 & d3 & W1 & W2 & W3 & L3 & B3 & P3).
  destruct (frame_bytes_length buffer len Hlen) as [Hfl Hfr]. assert (length (frame_payload buffer len stream_id) = Z.to_nat (frame_len len + 8)) as Hpl.
  { unfold frame_payload. rewrite !length_app, !le_bytes_length. lia. }
  apply wp_bind. unfold fill_http2_dataframe_data. apply wp_bind, (wp_lift _ _ _ _ W1). apply wp_bind, wp_ret, wp_bind, (wp_lift _ _ _ _ W2).
  fold (frame_len len). apply wp_bind, (wp_lift _ _ _ _ W3), (wp_set_stack _ _ s _ Hs). set (s1 := (s <| hs_data := d3 |>) <| hs_head := _ |>).
  unfold HTTP2_DATAFRAME_DATA_SIZE, CAP_DATA_SIZE in Hfr. destruct (frame_head_lens fd d s0 w0 (hs_head s) (frame_len len + 8) Hh ltac:(lia)) as (V1 & V2 & V3).
  change (vput v_data_len (frame_len len + 8) (vput v_syscall_len (frame_len len + 8) (hs_head s))) with (hs_head s1) in V1, V2, V3.
  pose proof (fh_hdr _ _ _ _ _ V1) as Hv1.
  destruct (report_ok (up_with (Some s1) [] w) s1 (frame_len len + 8)) as (s2 & recs & Hrun & R1 & R2 & R3 & R4 & R5); try done;
    [split; [done |]; change (hs_data s1) with d3; by rewrite L3 | unfold CAP_DATA_SIZE; lia |].
  apply (wp_value _ _ _ _ _ Hrun). rewrite up_with_trans. exists s2, recs. split_and!; try done. rewrite R5. unfold CAP_DATA_SIZE in *.
  change (hs_data s1) with d3. change (length (w_out (up_with (Some s1) [] w))) with (length (w_out w)). clear R5 Hrun. clearbody s1.
  assert ((frame_len len + 8 <? 1024) = (len <? HTTP2_DATAFRAME_DATA_SIZE)) as ->.
  { unfold frame_len, HTTP2_DATAFRAME_DATA_SIZE, CAP_DATA_SIZE. by destruct (Z.ltb_spec len (1024 - 8)), (Z.ltb_spec (len + 8) 1024); try lia. }
  destruct (Z.ltb_spec len HTTP2_DATAFRAME_DATA_SIZE) as [Hlt | Hlt]; [| done].
  assert (frame_len len = len) as Hf by (unfold frame_len; by rewrite (proj2 (Z.ltb_lt _ _) Hlt)). unfold HTTP2_DATAFRAME_DATA_SIZE, CAP_DATA_SIZE in Hlt.
  set (data := take (Z.to_nat (1 + (frame_len len + 8))) d3). assert (Z.of_nat (length data) = 1 + vget v_data_len (hs_head s1)) as Hl.
  { rewrite V2. unfold data. rewrite length_take, L3. unfold BURST_DATA_BUF_SIZE in Hd. lia. }
  assert (0 <= vget v_data_len (hs_head s1) < CAP_DATA_SIZE) as Hr by (rewrite V2; unfold CAP_DATA_SIZE; lia).
  assert (http2_source (hs_head s1) = true) as Hsrc by (unfold http2_source; by rewrite (fh_source _ _ _ _ _ V1)).
  exists (hs_head s1), (h2_record (hs_head s1) data). split; [unfold h2_record; by rewrite V2 |]. split_and!; try done.
  { apply h2_record_typed; auto. apply Hv1. }
  rewrite <- (fh_msg _ _ _ _ _ V1). destruct (Z.eqb_spec (vget_msg_type (hs_head s1)) 0) as [H0 | H0].
  - apply record_refused; try done; [apply Hv1 | unfold BUF_DATA; lia | unfold SD_HEAD; lia].
  - rewrite h2_record_read by (done || apply Hv1). do 4 f_equal. unfold data. rewrite take_take, V2, Nat.min_l by lia. by rewrite <- Hpl.
Qed.

Lemma report_frame_ok fd d buffer len stream_id o w s evs : world_ok K w evs -> ids_left w -> named w fd -> u_stack (w_up w) = Some s -> 0 <= len ->
  wp (report_dataframe E K fd d buffer len stream_id o) w (fun _ w' => step_post id false K w w' evs [] /\
    exists recs, u_http2 (w_up w') = u_http2 (w_up w) ++ recs /\ frame_sent fd d buffer len stream_id o s w recs).
Proof.
  intros Hw Hids Hn Hs Hlen. apply wp_bind, wp_gets. rewrite Hs. apply wp_bind. eapply wp_mono; [by apply (frame_base_ok fd d o w s evs) |].
  intros ok w1 [-> P1 P2 P3 (s1 & S1 & S2 & S3)]. unfold frame_sent. destruct (frame_ok fd o w) eqn:Hok; cbn [negb andb].
  2: { apply wp_ret. split; [done |]. exists []. by rewrite app_nil_r. }
  pose proof (sp_ok _ _ _ _ _ _ _ P1) as Hw1. rewrite app_nil_r in Hw1.
  apply wp_bind, wp_gets, wp_bind, (wp_lift _ s1); [done |]. eapply wp_mono; [by apply (frame_data_ok fd d buffer len stream_id w w1 s s1 S1 (wo_stack _ _ _ Hw1 s1 S1)) |].
  intros [] w2 (s2 & recs & -> & R1 & R2). split.
  - eapply step_up; [exact P1 |]. exists (Some s2), recs. split_and!; [done | by intros ? [= <-] |].
    destruct (len <? HTTP2_DATAFRAME_DATA_SIZE); [destruct R2 as (v & r & -> & ? & _); by repeat constructor | by subst recs].
  - exists recs. split; [cbn; by rewrite P3 |]. destruct (len <? HTTP2_DATAFRAME_DATA_SIZE); [| done].
    destruct R2 as (v & r & -> & T1 & T2 & T3 & T4). exists v, r. rewrite P2. split_and!; try done. intros ctx Hc. rewrite T3. by apply S3.
Qed.

(** C24: data frames of HTTP/2. From a state in order the routine returns and keeps
    the state in order. It sends one record for a frame of fewer than 1016 bytes on
    an IP connection, and user space finds in it the stream, the length and the
    data of the frame, unless the buffer was not yet used for a header field: then
    the type of the message is still zero and user space drops the record. For a
    frame of 1016 bytes or more nothing is sent, though the data was cut to fit. *)
Theorem http2_frame_reported fd d buffer len stream_id o w s evs : world_ok K w evs -> ids_left w -> named w fd -> u_stack (w_up w) = Some s -> 0 <= len ->
  exists w' recs, report_dataframe E K fd d buffer len stream_id o w = Some (tt, w') /\ world_ok K w' evs /\
    u_http2 (w_up w') = u_http2 (w_up w) ++ recs /\ frame_sent fd d buffer len stream_id o s w recs.
Proof.
  intros Hw Hids Hn Hs Hlen. pose proof (report_frame_ok fd d buffer len stream_id o w s evs Hw Hids Hn Hs Hlen) as H.
  apply wp_total in H as ([] & w' & Hrun & P & recs & R1 & R2). exists w', recs. pose proof (sp_ok _ _ _ _ _ _ _ P) as Hw'. by rewrite app_nil_r in Hw'.
Qed.

(** ** The programs keep the contract *)

Definition stack_fine (w : world) : Prop := forall s, u_stack (w_up w) = Some s -> stack_ok s.
Abbreviation ups m w := (wp m w (fun _ => only_up w)).
Lemma only_up_fine w w' : only_up w w' -> stack_fine w'.
Proof. intros (st & recs & -> & H & _). exact H. Qed.
Lemma ups_ret {A} (a : A) w : stack_fine w -> ups (mret a) w.
Proof. intros Hw. apply wp_ret. exists (u_stack (w_up w)), []. rewrite up_with_id. split; [done | by split; [exact Hw |]]. Qed.
Lemma ups_bind {A B} (m : W A) (k : A -> W B) w : ups m w -> (forall a w1, stack_fine w1 -> ups (k a) w1) -> ups (m ≫= k) w.
Proof.
  intros Hm Hk. apply wp_bind. eapply wp_mono; [exact Hm |]. intros a w1 H1. eapply wp_mono; [exact (Hk a w1 (only_up_fine w w1 H1)) |].
  intros b w2 H2. exact (only_up_trans w w1 w2 H1 H2).
Qed.
Lemma ups_tls b w : stack_fine w -> ups (update_http2_tls b) w.
Proof.
  intros Hw. apply wp_modify. eexists ((fun s => s <| hs_tls := b |>) <$> u_stack (w_up w)), []. split; [by unfold up_with; rewrite app_nil_r |].
  split; [| done]. intros s Hs. destruct (u_stack (w_up w)) as [s0 |] eqn:H0; [| done]. injection Hs as <-. by apply (Hw s0).
Qed.
Lemma ups_send h w : stack_fine w -> msg_known h -> ups (http2_fill_buffer_and_send E K h) w.
Proof.
  intros Hw Hm. destruct (u_stack (w_up w)) as [s |] eqn:Hs.
  - eapply wp_mono; [by apply (send_ok h w s); auto |]. intros [] w' H. by eapply sends_only_up.
  - apply wp_bind, wp_gets. rewrite Hs. by apply ups_ret.
Qed.

Section process.
Context (p : proc_info) (Hp : length (p_offsets p) = OFFSET_IDX_MAX) (r : go_regs).

Lemma ups_offset {B} i (k : Z -> W B) w : (i < 17)%nat -> (forall off, ups (k off) w) -> ups (off ← lift (p_offsets p !! i); k off) w.
Proof. intros Hi Hk. apply wp_bind. destruct (offset_some p Hp i Hi) as [off Ho]. by apply (wp_lift _ _ _ _ Ho). Qed.
Lemma ups_conn conn w : stack_fine w -> ups (get_fd_from_tcp_or_tls_conn_interface E K conn p) w.
Proof.
  intros Hw. eapply wp_mono; [by apply (go_fd_ok E K) |]. intros fd w' [-> | ->]; [by apply (ups_ret fd w Hw) |].
  exact (ups_tls true w Hw).
Qed.
Lemma ups_unwrap ptr w : stack_fine w -> ups (unwrap_syscallConn E K ptr p) w.
Proof. intros Hw. unfold unwrap_syscallConn. destruct (is_grpc_syscallConn_interface _ _ _ _); [apply ups_bind; [by apply ups_tls | intros; by apply ups_ret] | by apply ups_ret]. Qed.

Ltac ups_step := repeat first
  [ apply ups_offset; [lia |]; intros ?
  | apply ups_bind; [first [by apply ups_tls | by apply ups_unwrap | by apply ups_conn] | intros ? ? ?]
  | by apply ups_conn | by apply ups_ret].
Lemma ups_http2ClientConn ptr w : stack_fine w -> ups (get_fd_from_http2ClientConn E K ptr p) w.
Proof. intros Hw. unfold get_fd_from_http2ClientConn, OFFSET_IDX_TCONN_HTTP2_CLIENT_CONN. ups_step. Qed.
Definition fd_searches : list (W Z) :=
  [get_fd_from_http2serverConn_ctx E K r p; get_fd_from_http2ClientConn_ctx E K r p; get_fd_from_grpc_http2Client_ctx E K r p;
   get_fd_from_grpc_http2Server_ctx E K r p; get_fd_from_grpc_loopyWriter E K r p; get_fd_from_http2clientConnReadLoop_ctx E K r p;
   get_fd_from_grpc_http2_Framer_ctx E K r p].
Lemma get_fd_ups w : stack_fine w -> Forall (fun m => ups m w) fd_searches.
Proof.
  intros Hw. repeat constructor.
  - unfold get_fd_from_http2serverConn_ctx, OFFSET_IDX_CONN_HTTP2_SERVER_CONN. ups_step.
  - by apply ups_http2ClientConn.
  - unfold get_fd_from_grpc_http2Client_ctx, get_fd_from_grpc, OFFSET_IDX_CONN_GRPC_HTTP2_CLIENT. ups_step.
  - unfold get_fd_from_grpc_http2Server_ctx, get_fd_from_grpc, OFFSET_IDX_CONN_GRPC_HTTP2_SERVER. ups_step.
  - unfold get_fd_from_grpc_loopyWriter, OFFSET_IDX_FRAMER_GRPC_TRANSPORT_LOOPY_WRITER, OFFSET_IDX_WRITER_GRPC_TRANSPORT_FRAMER, OFFSET_IDX_CONN_GRPC_TRANSPORT_BUFWRITER. ups_step.
  - unfold get_fd_from_http2clientConnReadLoop_ctx, OFFSET_IDX_CC_HTTP2_CLIENT_CONN_READ_LOOP. apply ups_offset; [lia |]. intros off. by apply ups_http2ClientConn.
  - unfold get_fd_from_grpc_http2_Framer_ctx, OFFSET_IDX_HTTP2_FRAMER_W, OFFSET_IDX_BUFWRITTER_CONN. ups_step.
Qed.

(** ** The header programs *)

Context (o : member_offsets).
Abbreviation keeps m w evs := (wp m w (fun _ w' => step_post id false K w w' evs [])).
(** No entry of the process is without an identifier. *)
Definition all_named (w : world) : Prop := forall fd, named w fd.
Definition ready (w : world) (evs : list (list Z * list Z)) : Prop := world_ok K w evs /\ ids_left w /\ all_named w.
Lemma ready_up w w' evs : only_up w w' -> ready w evs -> ready w' evs.
Proof. intros Hu (H1 & H2 & H3). pose proof (only_up_world w w' evs Hu H1). by destruct Hu as (st & recs & -> & _). Qed.
Lemma ready_fine w evs : ready w evs -> stack_fine w.
Proof. intros (H & _). exact (wo_stack _ _ _ H). Qed.
Lemma keeps_ret w evs : ready w evs -> keeps (mret tt) w evs.
Proof. intros (H & _). apply wp_ret. by apply step_refl. Qed.
Lemma keeps_after {A} (m : W A) (k : A -> W unit) w evs : ready w evs -> ups m w -> (forall a w1, ready w1 evs -> keeps (k a) w1 evs) -> keeps (m ≫= k) w evs.
Proof.
  intros Hw Hm Hk. apply wp_bind. eapply wp_mono; [exact Hm |]. intros a w1 H1.
  eapply wp_mono; [exact (Hk a w1 (ready_up w w1 evs H1 Hw)) |]. intros [] w2 H2. exact (up_step w w1 w2 evs [] H1 H2).
Qed.
Lemma keeps_offset i (k : Z -> W unit) w evs : (i < 17)%nat -> (forall off, keeps (k off) w evs) -> keeps (off ← lift (p_offsets p !! i); k off) w evs.
Proof. intros Hi Hk. apply wp_bind. destruct (offset_some p Hp i Hi) as [off Ho]. by apply (wp_lift _ _ _ _ Ho). Qed.
(** Filling the header, then sending. *)
Lemma keeps_fill h (k : W unit) w evs : ready w evs -> (forall w1, stack_fine w1 -> ups k w1) ->
  keeps (os ← gets (fun w => u_stack (w_up w)); match os with None => mret tt | Some s => _ ← http2_fill_common_socket E K h o s; k end) w evs.
Proof.
  intros Hw Hk. apply wp_bind, wp_gets. destruct (u_stack (w_up w)) as [s |] eqn:Hs; [| by apply keeps_ret]. destruct Hw as (H1 & H2 & H3).
  apply wp_bind. eapply wp_mono; [by apply (fill_ok h o w s evs) |]. intros [] w1 [P1 _ _ _ _]. pose proof (sp_ok _ _ _ _ _ _ _ P1) as Hw1. rewrite app_nil_r in Hw1.
  eapply wp_mono; [apply Hk; exact (wo_stack _ _ _ Hw1) |]. intros [] w2 H. exact (step_up w w1 w2 evs [] P1 H).
Qed.
Lemma keeps_submit h fp fl w evs : ready w evs -> h_type h = MSG_REQUEST \/ h_type h = MSG_RESPONSE -> keeps (submit_http2_headers E K h fp fl o) w evs.
Proof.
  intros Hw Ht. destruct (u_stack (w_up w)) as [s |] eqn:Hs.
  - destruct Hw as (H1 & H2 & H3). eapply wp_mono; [by apply (submit_block_ok h fp fl o w s evs) |]. by intros [] w' [H _].
  - apply wp_bind, wp_gets. rewrite Hs. by apply keeps_ret.
Qed.
Lemma keeps_frame frame get_fd m w evs : ready w evs -> (forall w, stack_fine w -> ups get_fd w) -> m = MSG_REQUEST \/ m = MSG_RESPONSE ->
  keeps (submit_frame E K frame get_fd m o p) w evs.
Proof.
  intros Hw Hfd Hm. unfold submit_frame, get_fields_from_http2MetaHeadersFrame, get_stream_from_http2MetaHeadersFrame,
    OFFSET_IDX_FIELDS_HTTP2_META_HEADERS_FRAME, OFFSET_IDX_STREAM_ID_HTTP2_FRAME_HEADER.
  pose proof (ready_fine w evs Hw) as Hf. apply keeps_after; [done | apply ups_offset; [lia |]; intros off; by apply ups_ret |].
  intros fp w1 Hw1. apply keeps_after; [done | apply Hfd; by eapply ready_fine |]. intros fd w2 Hw2.
  apply keeps_after; [done | apply ups_offset; [lia |]; intros off; apply ups_ret; by eapply ready_fine |].
  intros stream w3 Hw3. by apply keeps_submit.
Qed.
Lemma ups_field name v h w : stack_fine w -> msg_known h -> wp (send_response_field E K name v h) w (fun h' w' => only_up w w' /\ h_type h' = h_type h).
Proof.
  intros Hw Hm. apply wp_bind. set (h1 := (h <| h_name := _ |>) <| h_value := v |>).
  apply (wp_mono _ _ (fun _ => only_up w)); [destruct (_ =? 0); [by apply ups_ret | by apply ups_send] |]. intros [] w1 H1. by apply wp_ret.
Qed.
(** The fields of a response, one after the other. *)
Lemma ups_field_then name v h (k : http2_header -> W unit) w : stack_fine w -> h_type h = MSG_RESPONSE ->
  (forall h' w1, stack_fine w1 -> h_type h' = MSG_RESPONSE -> ups (k h') w1) -> ups (h' ← send_response_field E K name v h; k h') w.
Proof.
  intros Hw Ht Hk. apply wp_bind. eapply wp_mono; [apply ups_field; [done |]; unfold msg_known; by rewrite Ht |]. intros h' w1 [H1 H2].
  eapply wp_mono; [apply Hk; [by eapply only_up_fine | congruence] |]. intros [] w2 H3. by eapply only_up_trans.
Qed.
Lemma ups_response ptr code h w : stack_fine w -> h_type h = MSG_RESPONSE ->
  ups (_ ← (if code =? 0 then mret tt else
             http2_fill_buffer_and_send E K (h <| h_name := mk_gs (c_string ":status") 7 |> <| h_value := mk_gs (Local (status_digits code)) 3 |>));
       h ← send_response_field E K "date" (read_go_string E (ptr + 0x38)) h;
       h ← send_response_field E K "content-type" (read_go_string E (ptr + 0x48)) h;
       h ← send_response_field E K "content-length" (read_go_string E (ptr + 0x58)) h;
       http2_fill_buffer_and_send E K (end_of h)) w.
Proof.
  intros Hw Ht. apply ups_bind; [destruct (code =? 0); [by apply ups_ret | apply ups_send; [done |]; unfold msg_known; cbn; by rewrite Ht] |].
  intros _ w1 H1. do 3 (apply ups_field_then; [done | done |]; intros ? ? ? ?). apply ups_send; [done |]. unfold msg_known, end_of. cbn.
  match goal with H : h_type ?h = MSG_RESPONSE |- context [h_type ?h] => by rewrite H end.
Qed.
End process.

Definition http2_programs (r : go_regs) : list (W unit) :=
  [go_http2ClientConn_writeHeader E K r; go_http2ClientConn_writeHeaders E K r; go_http2serverConn_processHeaders E K r;
   go_http2clientConnReadLoop_handleResponse E K r; go_http2Server_operateHeaders E K r; go_http2Client_operateHeaders E K r;
   go_loopyWriter_writeHeader E K r; go_http2serverConn_writeHeaders E K r; golang_org_x_net_http2_Framer_checkFrameOrder E K r;
   golang_org_x_net_http2_Framer_WriteDataPadded E K r].
Abbreviation keeps m w evs := (wp m w (fun _ w' => step_post id false K w w' evs [])).
Lemma with_http2_ok run w evs : ready w evs -> (forall o p, length (p_offsets p) = OFFSET_IDX_MAX -> keeps (run o p) w evs) -> keeps (with_http2 E run) w evs.
Proof.
  intros Hw Hrun. apply wp_bind, wp_gets. destruct (w_offset w) as [o |]; [| by apply keeps_ret]. destruct (negb (o_ready o)); [by apply keeps_ret |].
  apply wp_bind, wp_gets. destruct (g_proc (w_go w) !! cur_tgid E) as [p |] eqn:Hp; [| by apply keeps_ret].
  destruct (skip_http2_uprobe _); [by apply keeps_ret |]. apply Hrun. destruct Hw as (H & _). by apply (wo_proc _ _ _ H (cur_tgid E)).
Qed.
Lemma keeps_dataframe fd d buffer len stream_id o w evs : ready w evs -> 0 <= len -> keeps (report_dataframe E K fd d buffer len stream_id o) w evs.
Proof.
  intros Hw Hl. destruct (u_stack (w_up w)) as [s |] eqn:Hs.
  - destruct Hw as (H1 & H2 & H3). eapply wp_mono; [by apply (report_frame_ok fd d buffer len stream_id o w s evs) |]. by intros [] w' [H _].
  - apply wp_bind, wp_gets. rewrite Hs. by apply keeps_ret.
Qed.

Lemma http2_programs_ok r w evs : ready w evs -> Forall (fun m => keeps m w evs) (http2_programs r).
Proof.
  intros Hw. assert (forall run, (forall o p, length (p_offsets p) = OFFSET_IDX_MAX -> keeps (run o p) w evs) -> keeps (with_http2 E run) w evs) as Hwith
    by (intros; by apply with_http2_ok).
  pose proof (ready_fine w evs Hw) as Hf.
  assert (forall p i get_fd, length (p_offsets p) = OFFSET_IDX_MAX -> fd_searches p r !! i = Some get_fd -> forall w, stack_fine w -> ups get_fd w) as Hfd.
  { intros p i get_fd Hp Hi w0 Hw0. exact (Forall_lookup_1 _ _ _ _ (get_fd_ups p Hp r w0 Hw0) Hi). }
  repeat constructor; apply Hwith; intros o p Hp.
  - apply keeps_after; [done | by apply (Hfd p 1%nat) |]. intros fd w1 Hw1. apply (keeps_offset p Hp); [unfold OFFSET_IDX_STREAM_HTTP2_CLIENT_CONN; lia |].
    intros off. cbv zeta. apply (keeps_fill o); [done |]. intros w2 Hw2. by apply ups_send.
  - cbv zeta. apply keeps_after; [done | by apply (Hfd p 1%nat) |]. intros fd w1 Hw1. apply (keeps_fill o); [done |]. intros w2 Hw2. by apply ups_send.
  - apply (keeps_frame p Hp); [done | by apply (Hfd p 0%nat) | by left].
  - apply (keeps_frame p Hp); [done | by apply (Hfd p 5%nat) | by right].
  - apply (keeps_frame p Hp); [done | by apply (Hfd p 3%nat) | by left].
  - apply (keeps_frame p Hp); [done | by apply (Hfd p 2%nat) | by right].
  - cbv zeta. destruct (if is_register_based_call p then _ else _) as [fp fl]. apply keeps_after; [done | by apply (Hfd p 4%nat) |]. intros fd w1 Hw1. cbv zeta.
    apply keeps_after; [done | |].
    { unfold get_side_from_grpc_loopyWriter, OFFSET_IDX_SIDE_GRPC_TRANSPORT_LOOPY_WRITER. apply (ups_offset p Hp); [lia |]. intros off. apply ups_ret. by eapply ready_fine. }
    intros side w2 Hw2. apply keeps_submit; [done |]. cbn. destruct (side =? 0); auto.
  - apply keeps_after; [done | by apply (Hfd p 0%nat) |]. intros fd w1 Hw1. apply (keeps_fill o); [done |]. intros w2 Hw2. by apply ups_response.
  - cbv zeta. destruct (negb _); [by apply keeps_ret |]. apply keeps_after; [done | by apply (Hfd p 6%nat) |]. intros fd w1 Hw1. apply keeps_dataframe; [done |].
    apply le_word_bound. apply Forall_take, Forall_drop, (read_user_bytes E HE).
  - apply keeps_after; [done | by apply (Hfd p 6%nat) |]. intros fd w1 Hw1. apply keeps_dataframe; [done |]. apply wrap_range. lia.
Qed.
End facts.

(** ** What the helper for the memory of the process does to the program's own *)

Section own_memory.
Context (E : env) (K : kenv) (p : proc_info).
Context (Hlocal : forall b n, k_local K b n = (-14, replicate n 0)).

(** The names of the fields of a response are sent as zeros. *)
Theorem response_names_lost name : Z.of_nat (length (str name)) < 1024 ->
  string_bytes E K (mk_gs (c_string name) (Z.of_nat (length (str name)))) = replicate (length (str name)) 0.
Proof.
  intros Hl. unfold string_bytes, c_string. set (n := Z.of_nat (length (str name))).
  assert (sent_len (mk_gs (Local (str name ++ [0])) n) = n) as ->.
  { unfold sent_len. cbn [gs_len]. change 0x03FF with (Z.ones 10). rewrite Z.land_ones by lia. apply Z.mod_small. unfold n. change (2 ^ 10) with 1024. lia. }
  cbn [gs_ptr read_at]. rewrite Hlocal. cbn [snd]. rewrite take_replicate. f_equal. unfold n. lia.
Qed.

Lemma local_interface b : go_interface E K (Local b) = (0, 0).
Proof. unfold go_interface. cbn [read_at]. by rewrite Hlocal. Qed.
Lemma local_descriptor b b' w :
  get_fd_from_tcp_or_tls_conn_interface E K (Local b) p w = get_fd_from_tcp_or_tls_conn_interface E K (Local b') p w.
Proof.
  unfold get_fd_from_tcp_or_tls_conn_interface, get_fd_from_tls_conn_interface, is_tls_conn_interface, get_fd_from_tcp_conn_interface, is_tcp_conn_interface,
    get_fd_from_go_proxyproto_interface, get_fd_from_h2c_rwConn_interface. by rewrite !local_interface.
Qed.
(** The descriptor of a data frame has nothing to do with its connection. *)
Theorem framer_descriptor_lost r r' w : length (p_offsets p) = OFFSET_IDX_MAX ->
  get_fd_from_grpc_http2_Framer_ctx E K r p w = get_fd_from_grpc_http2_Framer_ctx E K r' p w.
Proof.
  intros Hp. unfold get_fd_from_grpc_http2_Framer_ctx, mbind, M_bind, lift.
  destruct (offset_some p Hp OFFSET_IDX_HTTP2_FRAMER_W) as [off1 H1]; [unfold OFFSET_IDX_HTTP2_FRAMER_W; lia |].
  destruct (offset_some p Hp OFFSET_IDX_BUFWRITTER_CONN) as [off2 H2]; [unfold OFFSET_IDX_BUFWRITTER_CONN; lia |].
  rewrite H1, H2. cbn [fmap option_fmap option_map]. unfold is_grpc_syscallConn_interface. rewrite !local_interface. apply local_descriptor.
Qed.
End own_memory.

(** ** Instances *)

(** A block with one field, [a: bc], on the connection behind the descriptor 3. *)
Definition example_block_env : env := on_thread (Z.shiftl 9 32 + 7) (example_env (str "server")
  [(4096, le_bytes 8 5000 ++ le_bytes 8 1 ++ le_bytes 8 6000 ++ le_bytes 8 2 ++ replicate 8 0); (5000, str "a"); (6000, str "bc")]).
Lemma example_block_env_ok : env_ok example_block_env /\ bytes_ok (e_comm example_block_env).2.
Proof. split; [apply on_thread_ok, example_env_ok; repeat (apply Forall_cons_2; [by apply bytes_okb |]); by apply Forall_nil | by apply bytes_okb]. Qed.
Definition example_block : http2_header := mk_h2 true MSG_REQUEST 3 no_string no_string 11.
Definition example_stack : http2_stack := mk_stack 0 0 (replicate HEAD 0) (replicate (Z.to_nat BURST_DATA_BUF_SIZE) 0) false.
Lemma example_start_ok : world_ok example_socket_kenv example_world [].
Proof. by apply (start_world_ok example_socket_kenv example_ctx). Qed.
Lemma example_named {X : Counting} E fd : named E example_world fd.
Proof. intros _ k Hk. exfalso. by eapply example_no_sock. Qed.


Lemma http2_frame_reported_witness :
  frame_ok example_socket_kenv 3 example_offsets example_world = true /\
  exists w' recs, report_dataframe example_block_env example_socket_kenv 3 T_EGRESS 6000 2 11 example_offsets example_world = Some (tt, w') /\
    world_ok example_socket_kenv w' [] /\ u_http2 (w_up w') = u_http2 (w_up example_world) ++ recs /\
    frame_sent example_block_env example_socket_kenv 3 T_EGRESS 6000 2 11 example_offsets example_stack example_world recs.
Proof.
  split; [vm_compute; reflexivity |].
  apply (http2_frame_reported example_block_env example_socket_kenv (proj1 example_block_env_ok) example_socket_kenv_ok (proj2 example_block_env_ok) example_socket_caps).
  - exact example_start_ok.
  - exact example_ids.
  - apply example_named.
  - reflexivity.
  - lia.
Defined.
