(* ===== verification/System.v ===== *)
(** * The tracer as a whole

    All programs that the agent attaches, as the steps of a transition system:
    any thread may run any of them at any time, on whatever its system calls
    return, what its memory holds and what the kernel has in its own. A step is one
    whole program: the state has one buffer of events, that of one CPU, on which a
    program is not interrupted by another; what programs of other CPUs do to the
    shared maps in the middle of a step is not in the model. What holds
    of every state the tracer can reach is proved here once, from the contracts of
    the programs: that no step goes wrong, that the maps, counters and the log of
    events stay in order, and that a thread is not disturbed by the others between
    the entry and the exit of a system call. *)

From S2P Require Import Prelude Bitmap Conn Iovec InferBase InferPipeline.
From S2P Require Import World Output Goroutine KernelObjects Submit SubmitLog FileEvents Syscall Lifecycle Uprobe GoHttp2.

(** ** The programs *)

Inductive program :=
| Enter_write (fd buf : Z) | Exit_write (ret : Z) | Enter_read (fd buf : Z) | Exit_read (ret : Z)
| Enter_sendto (fd buf addr : Z) | Exit_sendto (ret : Z) | Enter_recvfrom (fd buf flags addr : Z) | Exit_recvfrom (ret : Z)
| Enter_sendmsg (fd msg : Z) | Exit_sendmsg (ret : Z) | Enter_sendmmsg (fd msgvec vlen : Z) | Exit_sendmmsg (ret : Z)
| Enter_recvmsg (fd msg flags : Z) | Exit_recvmsg (ret : Z) | Enter_recvmmsg (fd msgvec vlen flags : Z) | Exit_recvmmsg (ret : Z)
| Enter_writev (fd iov iovlen : Z) | Exit_writev (ret : Z) | Enter_readv (fd iov iovlen : Z) | Exit_readv (ret : Z)
| Enter_pread (fd : Z) | Exit_pread (ret : Z) | Enter_pwrite (fd : Z) | Exit_pwrite (ret : Z) | Io_event
| Enter_close (fd : Z) | Exit_socket (ret : Z) | Exit_accept (ret : Z) | Exit_accept4 (ret : Z) | Enter_connect (fd : Z)
| Runtime_execute (r : go_regs) | Enter_newproc1 (r : go_regs) | Exit_newproc1 (r : go_regs)
| Process_exit (junk : bool) | Clone_exit (is_kprobe maybe_thread : bool) (ret : Z) | Process_exec
| Push_socket_data (now : Z)
| Ssl_write_enter (ssl buf num : Z) | Ssl_write_exit (rc : Z) | Ssl_read_enter (ssl buf num : Z) | Ssl_read_exit (rc : Z)
| Go_tls_write_enter (r : go_regs) | Go_tls_write_exit (r : go_regs) | Go_tls_read_enter (r : go_regs) | Go_tls_read_exit (r : go_regs)
| ClientConn_writeHeader (r : go_regs) | ClientConn_writeHeaders (r : go_regs) | ServerConn_processHeaders (r : go_regs)
| ReadLoop_handleResponse (r : go_regs) | Server_operateHeaders (r : go_regs) | Client_operateHeaders (r : go_regs)
| LoopyWriter_writeHeader (r : go_regs) | ServerConn_writeHeaders (r : go_regs) | Framer_checkFrameOrder (r : go_regs)
| Framer_WriteDataPadded (r : go_regs).

Definition run (E : env) (K : kenv) (p : program) : W unit :=
  match p with
  | Enter_write fd buf => do_sys_enter_write E K fd buf
  | Exit_write ret => do_sys_exit_write E K ret
  | Enter_read fd buf => do_sys_enter_read E K fd buf
  | Exit_read ret => do_sys_exit_read E K ret
  | Enter_sendto fd buf addr => do_sys_enter_sendto E K fd buf addr
  | Exit_sendto ret => do_sys_exit_sendto E K ret
  | Enter_recvfrom fd buf flags addr => enter_recvfrom E K fd buf flags addr
  | Exit_recvfrom ret => do_sys_exit_recvfrom E K ret
  | Enter_sendmsg fd msg => enter_sendmsg E K fd msg
  | Exit_sendmsg ret => exit_sendmsg E K ret
  | Enter_sendmmsg fd msgvec vlen => enter_sendmmsg E K fd msgvec vlen
  | Exit_sendmmsg ret => exit_sendmmsg E K ret
  | Enter_recvmsg fd msg flags => enter_recvmsg E K fd msg flags
  | Exit_recvmsg ret => exit_recvmsg E K ret
  | Enter_recvmmsg fd msgvec vlen flags => enter_recvmmsg E K fd msgvec vlen flags
  | Exit_recvmmsg ret => exit_recvmmsg E K ret
  | Enter_writev fd iov iovlen => enter_writev E K fd iov iovlen
  | Exit_writev ret => exit_writev E K ret
  | Enter_readv fd iov iovlen => enter_readv E K fd iov iovlen
  | Exit_readv ret => exit_readv E K ret
  | Enter_pread fd => do_sys_enter_pread E K fd
  | Exit_pread ret => do_sys_exit_pread E K ret
  | Enter_pwrite fd => do_sys_enter_pwrite E K fd
  | Exit_pwrite ret => do_sys_exit_pwrite E K ret
  | Io_event => io_event E K
  | Enter_close fd => enter_close E K fd
  | Exit_socket ret => exit_socket E K ret
  | Exit_accept ret => exit_accept E K ret
  | Exit_accept4 ret => exit_accept4 E K ret
  | Enter_connect fd => enter_connect E K fd
  | Runtime_execute r => runtime_execute E K r
  | Enter_newproc1 r => enter_runtime_newproc1 E K r
  | Exit_newproc1 r => exit_runtime_newproc1 E K r
  | Process_exit junk => do_process_exit E junk
  | Clone_exit is_kprobe maybe_thread ret => kernel_clone_exit E is_kprobe maybe_thread ret
  | Process_exec => __process_exec E
  | Push_socket_data now => push_socket_data E K now
  | Ssl_write_enter ssl buf num => openssl_write_enter E K ssl buf num
  | Ssl_write_exit rc => openssl_write_exit E K rc
  | Ssl_read_enter ssl buf num => openssl_read_enter E K ssl buf num
  | Ssl_read_exit rc => openssl_read_exit E K rc
  | Go_tls_write_enter r => go_tls_write_enter E K r
  | Go_tls_write_exit r => go_tls_write_exit E K r
  | Go_tls_read_enter r => go_tls_read_enter E K r
  | Go_tls_read_exit r => go_tls_read_exit E K r
  | ClientConn_writeHeader r => go_http2ClientConn_writeHeader E K r
  | ClientConn_writeHeaders r => go_http2ClientConn_writeHeaders E K r
  | ServerConn_processHeaders r => go_http2serverConn_processHeaders E K r
  | ReadLoop_handleResponse r => go_http2clientConnReadLoop_handleResponse E K r
  | Server_operateHeaders r => go_http2Server_operateHeaders E K r
  | Client_operateHeaders r => go_http2Client_operateHeaders E K r
  | LoopyWriter_writeHeader r => go_loopyWriter_writeHeader E K r
  | ServerConn_writeHeaders r => go_http2serverConn_writeHeaders E K r
  | Framer_checkFrameOrder r => golang_org_x_net_http2_Framer_checkFrameOrder E K r
  | Framer_WriteDataPadded r => golang_org_x_net_http2_Framer_WriteDataPadded E K r
  end.

(** The programs on OpenSSL, and those on HTTP/2. *)
Definition ssl_program (p : program) : bool :=
  match p with Ssl_write_enter _ _ _ | Ssl_write_exit _ | Ssl_read_enter _ _ _ | Ssl_read_exit _ => true | _ => false end.
Definition http2_program (p : program) : bool :=
  match p with
  | ClientConn_writeHeader _ | ClientConn_writeHeaders _ | ServerConn_processHeaders _ | ReadLoop_handleResponse _ | Server_operateHeaders _
  | Client_operateHeaders _ | LoopyWriter_writeHeader _ | ServerConn_writeHeaders _ | Framer_checkFrameOrder _ | Framer_WriteDataPadded _ => true
  | _ => false
  end.

(** [socket] counts the entry it makes whether or not there was one before; the
    counter of sockets is right as long as the descriptor it returns has none. The
    programs on HTTP/2 do so for a descriptor whose entry has no identifier. Where
    the counter is not claimed to be right, every step is admissible. *)
Definition admissible {X : Counting} (E : env) (p : program) (w : world) : Prop :=
  match p with
  | Exit_socket ret => exact_counts = true -> (exists t, frontend E ret w t) -> w_sock w !! gen_conn_key_id (cur_tgid E) ret = None
  | p => http2_program p = true -> all_named E w
  end.
Lemma inexact_admissible E p w : @admissible false E p w.
Proof. destruct p; cbn; try done; by intros _ fd [=]. Qed.

(** What the kernel and a thread are at a step: the helpers do what they are
    documented to do, and the maps have the capacities [max_sock] and [max_trace]. *)
Record host_ok (max_sock max_trace : Z) (E : env) (K : kenv) : Prop := {
  ho_env : env_ok E; ho_kenv : kenv_ok K; ho_comm : bytes_ok (e_comm E).2;
  ho_sock : k_max_sock K = max_sock; ho_trace : k_max_trace K = max_trace;
  ho_pos : 0 <= max_sock < 2 ^ 32 /\ 0 <= max_trace < 2 ^ 32 }.

(** ** The contract of a step *)

Lemma core_fields w w' : ctx_core <$> w_ctx w' = ctx_core <$> w_ctx w ->
  t_push_buffer_refcnt <$> w_ctx w' = t_push_buffer_refcnt <$> w_ctx w /\ t_socket_id <$> w_ctx w' = t_socket_id <$> w_ctx w.
Proof. destruct (w_ctx w), (w_ctx w'); try done. cbn. unfold ctx_core. intros H. split; congruence. Qed.

Section steps.
Context {X : Counting} (E : env) (K : kenv) (HE : env_ok E) (HK : kenv_ok K) (Hcomm : bytes_ok (e_comm E).2) (HC : caps_ok K).
Abbreviation post := (step_post (e_pid_tgid E) false K).

Lemma step_quiet w w' evs : world_ok K w' evs -> others_kept (e_pid_tgid E) w w' -> w_up w' = w_up w -> w_ctx w' = w_ctx w -> post w w' evs [].
Proof.
  intros Hw Ho Hu Hc. constructor; rewrite ?app_nil_r; try done; [by rewrite Hu | apply http2_same; by rewrite Hu | by rewrite Hc | apply same_ids; by rewrite Hc].
Qed.
Lemma others_refl id w : others_kept id w w.
Proof. done. Qed.
Lemma step_skip w evs : world_ok K w evs -> post w w evs [].
Proof. intros. by apply step_quiet. Qed.

(** The steps that only change the role of a socket, the maps of goroutines or the
    output of process events. *)
Lemma role_ok w m evs : world_ok K w evs -> world_ok K (w <| w_role := m |>) evs.
Proof. intros []. constructor; try done; [by apply (maps_ok_same K w) | by apply (logged_same w)]. Qed.
Lemma go_ok w g evs : world_ok K w evs -> g_proc g ⊆ g_proc (w_go w) -> world_ok K (w <| w_go := g |>) evs.
Proof.
  intros [H1 H2 H3 H4 H5 H6 H7 H8] Hg. constructor; try done; [by apply (maps_ok_same K w) | by apply (logged_same w) |].
  intros tgid p Hp. apply (H7 tgid). by eapply lookup_weaken.
Qed.
Lemma process_event_read ty pid b : ty = EVENT_TYPE_PROC_EXEC \/ ty = EVENT_TYPE_PROC_EXIT -> reader_raw_cb (process_event E ty pid b) = Some None.
Proof. unfold process_event, reader_raw_cb. by intros [-> | ->]. Qed.
Lemma out_ok w r evs : world_ok K w evs -> reader_raw_cb r = Some None -> world_ok K (w <| w_out := w_out w ++ [r] |>) evs.
Proof.
  intros [H1 H2 (b & sent & pend & [L1 L2 L3 L4 L5] & ->) H4 H5 H6 H7 H8] Hr. constructor; try done; [by apply (maps_ok_same K w) |].
  exists b, sent, pend. split; [| done]. constructor; try done.
  pose proof (delivered_push w (w <| w_out := w_out w ++ [r] |>) sent r None L4 eq_refl Hr ltac:(done)) as Hd. by rewrite app_nil_r in Hd.
Qed.

(** From the contracts of the components. *)
Lemma enter_step d fd a w w' evs : enter_post E K d fd a w w' evs -> post w w' evs [].
Proof. intros (H1 & m & -> & H2 & _). apply step_quiet; [done | | by destruct d | by destruct d]. intros i Hi. by destruct d; cbn; rewrite H2. Qed.
Lemma exit_step d vecs f count w w' evs : exit_post E K d vecs f count w w' evs -> exists new, post w w' evs new.
Proof.
  intros (new & H1 & H2 & H3 & _ & Hu & H4 & H5 & _). exists new. constructor; try done; [| by rewrite Hu | apply http2_same; by rewrite Hu].
  intros i Hi. by destruct d; cbn in *; rewrite H2, H3, Hu, lookup_delete_ne.
Qed.
Lemma life_step w w' evs new : life_post K w w' evs new -> post w w' evs new.
Proof. intros [H1 (H2 & H3 & Hu) H4 H5]. constructor; try done; [intros i _; by rewrite H2, H3, Hu | by rewrite Hu | apply http2_same; by rewrite Hu | by apply same_ids]. Qed.
Lemma io_exit_step offset a d w w' evs : io_exit_post E K offset a d w w' evs -> exists new, post w w' evs new.
Proof.
  intros (new & H1 & H2 & Hu & _ & _ & H3 & _). exists new. destruct (core_fields w w' H3). constructor; try done; [by rewrite Hu | apply http2_same; by rewrite Hu | by apply same_ids].
Qed.
Lemma io_step_step o a n d w w' evs : io_step_post E K o a n d w w' evs -> exists new, post w w' evs new.
Proof.
  destruct o as [o |], a as [a |]; cbn; try (intros (H1 & H2 & Hu & _ & H3); exists []; by apply step_quiet). apply io_exit_step.
Qed.

(** ** Every program keeps the contract *)

Abbreviation keeps p := (forall w evs, world_ok K w evs -> ids_left w -> admissible E p w ->
  wp (run E K p) w (fun _ w' => exists new, post w w' evs new)).

Lemma enter_keeps d fd a w evs : world_ok K w evs -> args_ok a ->
  wp (stash_args E K d fd a) w (fun _ w' => exists new, post w w' evs new).
Proof. intros Hw Ha. eapply wp_mono; [by apply (stash_ok E K) |]. intros [] w' H. exists []. by eapply enter_step. Qed.
Lemma skip_keeps w evs : world_ok K w evs -> wp (mret tt) w (fun _ w' => exists new, post w w' evs new).
Proof. intros Hw. apply wp_ret. exists []. by apply step_skip. Qed.

Lemma enter_args_keep fd : args_ok (enter_args K fd).
Proof. by apply enter_args_ok. Qed.
Lemma enter_programs p : match p with
  | Enter_write _ _ | Enter_read _ _ | Enter_sendto _ _ _ | Enter_recvfrom _ _ _ _ | Enter_sendmsg _ _ | Enter_sendmmsg _ _ _
  | Enter_recvmsg _ _ _ | Enter_recvmmsg _ _ _ _ | Enter_writev _ _ _ | Enter_readv _ _ _ => keeps p
  | _ => True
  end.
Proof.
  destruct p; try exact Logic.I; intros w evs Hw Hids _; cbn [run].
  all: unfold do_sys_enter_write, do_sys_enter_read, enter_recvfrom, enter_sendmsg, enter_sendmmsg, enter_recvmsg, enter_recvmmsg,
         enter_writev, enter_readv.
  3: { unfold do_sys_enter_sendto. apply wp_bind. eapply wp_mono; [apply (phase_offset E K _ fd w); by left |].
       intros r w1 ((o & ->) & _). assert (world_ok K (w <| w_offset := o |>) evs) as Hw1 by (by apply offset_ok).
       assert (forall w', (exists new, post (w <| w_offset := o |>) w' evs new) -> exists new, post w w' evs new) as Hback
         by (intros w' (new & []); exists new; by constructor).
       destruct r; cbn [negb]; apply (wp_mono _ _ (fun _ w' => exists new, post (w <| w_offset := o |>) w' evs new)); try (intros [] w'; apply Hback);
         [| by apply skip_keeps].
       apply enter_keeps; [done |]. by apply (extract_address_ok E HE), (enter_args_keep fd). }
  all: repeat match goal with |- wp (if ?b then _ else _) _ _ => destruct b; [by apply skip_keeps |] end.
  all: apply enter_keeps; [done |].
  all: repeat match goal with
    | |- args_ok (if ?b then _ else _) => destruct b
    | |- args_ok (set_ipaddr_ptr _ _) => apply set_ptr_ok
    end; by apply enter_args_keep.
Qed.

Lemma exit_programs n w evs : world_ok K w evs -> ids_left w ->
  Forall (fun p => wp (run E K p) w (fun _ w' => exists new, post w w' evs new))
    [Exit_write n; Exit_read n; Exit_sendto n; Exit_recvfrom n; Exit_sendmsg n; Exit_sendmmsg n; Exit_recvmsg n; Exit_recvmmsg n;
     Exit_writev n; Exit_readv n].
Proof.
  intros Hw Hids. pose proof (syscall_exits_ok E K HE HK Hcomm HC n w evs Hw Hids) as H. unfold syscall_exits in H.
  repeat (apply Forall_cons_1 in H as [? H]). repeat constructor; cbn [run];
    (eapply wp_mono; [eassumption |]; intros [] w' Hp; by eapply exit_step).
Qed.

Lemma go_process_run w evs : world_ok K w evs -> exists r, go_process E w = Some (r, w).
Proof.
  intros Hw. unfold go_process, offset_not_ready, mbind, M_bind, gets, mret, M_ret, lift.
  destruct (match w_offset w with Some o => negb (o_ready o) | None => true end); [by eexists |].
  destruct (g_proc (w_go w) !! cur_tgid E) as [p |] eqn:Hp; [| by eexists].
  pose proof (wo_proc K w evs Hw _ _ Hp) as Hl. destruct (p_offsets p) as [| off l] eqn:Ho; [done |]. by eexists.
Qed.
Lemma set_go_keeps (f : go_maps -> go_maps) w evs : world_ok K w evs -> g_proc (f (w_go w)) ⊆ g_proc (w_go w) ->
  world_ok K (w <| w_go := f (w_go w) |>) evs /\ post w (w <| w_go := f (w_go w) |>) evs [].
Proof. intros Hw Hf. assert (world_ok K (w <| w_go := f (w_go w) |>) evs) as Hw' by (by apply go_ok). split; [done |]. by apply step_quiet. Qed.

Lemma go_programs w evs : world_ok K w evs -> forall r,
  Forall (fun p => wp (run E K p) w (fun _ w' => exists new, post w w' evs new)) [Runtime_execute r; Enter_newproc1 r; Exit_newproc1 r].
Proof.
  intros Hw r. destruct (go_process_run w evs Hw) as [op Hop]. pose proof (skip_keeps w evs Hw) as Hskip.
  assert (forall f, (forall g, g_proc (f g) = g_proc g) -> wp (set_go f) w (fun _ w' => exists new, post w w' evs new)) as Hset.
  { intros f Hf. apply wp_modify. exists []. apply set_go_keeps; [done |]. by rewrite Hf. }
  repeat constructor; cbn [run]; unfold runtime_execute, enter_runtime_newproc1, exit_runtime_newproc1;
    apply wp_bind, (wp_value _ _ _ _ _ Hop); destruct op as [[p off] |]; try done.
  - by apply Hset.
  - destruct (_ <? _); [done |]. destruct (_ =? 0); [done |]. by apply Hset.
  - destruct (_ <? _); [done |]. apply wp_bind, wp_gets. destruct (g_caller (w_go w) !! _) as [[caller sp] |]; [| done].
    apply wp_bind. destruct (child_goid E p off r sp =? 0); [apply wp_ret; by apply Hset |].
    apply wp_modify, wp_modify. exists []. apply step_quiet; try done. by apply (go_ok w).
Qed.

Lemma process_programs w evs : world_ok K w evs -> forall junk is_kprobe maybe_thread ret,
  Forall (fun p => wp (run E K p) w (fun _ w' => exists new, post w w' evs new))
    [Process_exit junk; Clone_exit is_kprobe maybe_thread ret; Process_exec].
Proof.
  intros Hw junk is_kprobe maybe_thread ret. pose proof (skip_keeps w evs Hw) as Hskip.
  assert (forall r, reader_raw_cb r = Some None -> wp (output_process_event r) w (fun _ w' => exists new, post w w' evs new)) as Hout.
  { intros r Hr. apply wp_modify. exists []. apply step_quiet; try done. by apply out_ok. }
  repeat constructor; cbn [run].
  - unfold do_process_exit. apply wp_bind, wp_gets. case_match; [done |]. apply wp_bind. destruct (_ =? _).
    + apply wp_bind, wp_modify, wp_modify, wp_modify. exists []. apply step_quiet; try done.
      set (w1 := w <| w_go := _ |>). assert (world_ok K w1 evs) as Hw1 by (apply go_ok; [done |]; cbn; apply delete_subseteq).
      apply (go_ok (w1 <| w_out := _ |>)); [| done]. apply (out_ok w1); [done |]. apply process_event_read. by right.
    + apply wp_ret, wp_modify. exists []. by apply set_go_keeps.
  - unfold kernel_clone_exit. destruct (_ && _); [done |]. destruct (negb _); [done |]. apply wp_bind, wp_gets. case_match; [done |].
    apply Hout, process_event_read. by left.
  - unfold __process_exec. apply wp_bind, wp_gets. case_match; [done |]. destruct (_ =? _); [| done]. apply Hout, process_event_read. by left.
Qed.

Lemma push_keeps now w evs : world_ok K w evs -> wp (push_socket_data E K now) w (fun _ w' => exists new, post w w' evs new).
Proof.
  intros Hw. pose proof Hw as [H1 H2 H3 H4 H5 H6 H7 H8]. eapply wp_mono; [by apply (push_socket_data_ok E K now w evs) |].
  intros [] w' (L1 & [F1 F2 F3 F4 F5 F6 F7 F8] & _). exists []. destruct (core_fields w w' F7) as [C1 C2].
  unfold w_fixed in F8. injection F8 as G1 G2 G3 G4 G5 G6.
  constructor; rewrite ?app_nil_r; try done; [| intros i _; by rewrite G1, G2, G6 | by rewrite G6 | apply http2_same; by rewrite G6 | by apply same_ids].
  constructor; rewrite ?F5, ?G1, ?G2, ?G5, ?G6; try done.
  - eapply maps_ok_same; [| exact H1]. constructor; try done.
    destruct (w_ctx w), (w_ctx w'); try done. cbn in F7 |- *. unfold ctx_core in F7. congruence.
  - intros t Ht. rewrite Ht in C1. destruct (w_ctx w) as [t0 |] eqn:Ht0; [| done]. injection C1 as ->. by apply H2.
Qed.

(** The uprobes. *)
Definition is_uprobe (p : program) : bool :=
  ssl_program p || http2_program p ||
  match p with Go_tls_write_enter _ | Go_tls_write_exit _ | Go_tls_read_enter _ | Go_tls_read_exit _ => true | _ => false end.
Lemma ssl_enter_keeps d ssl buf num w evs : world_ok K w evs ->
  wp (openssl_enter E K d ssl buf num) w (fun _ w' => exists new, step_post (e_pid_tgid E) true K w w' evs new).
Proof. intros Hw. eapply wp_mono; [by apply (openssl_enter_ok E K) |]. intros [] w' [H _]. by exists []. Qed.
Lemma ssl_exit_keeps d rc w evs : world_ok K w evs -> ids_left w ->
  wp (openssl_exit E K d rc) w (fun _ w' => exists new, step_post (e_pid_tgid E) true K w w' evs new).
Proof. intros Hw Hids. eapply wp_mono; [by apply (openssl_exit_ok E K HE HK Hcomm HC) |]. intros [] w' (new & H & _). by exists new. Qed.
Lemma go_tls_enter_keeps d r w evs : world_ok K w evs -> wp (go_tls_enter E K d r) w (fun _ w' => exists new, post w w' evs new).
Proof. intros Hw. eapply wp_mono; [by apply (go_tls_enter_ok E K) |]. intros [] w' [H _]. by exists []. Qed.
Lemma go_tls_exit_keeps d r w evs : world_ok K w evs -> ids_left w -> wp (go_tls_exit E K d r) w (fun _ w' => exists new, post w w' evs new).
Proof. intros Hw Hids. eapply wp_mono; [by apply (go_tls_exit_ok E K HE HK Hcomm HC) |]. intros [] w' (new & H & _). by exists new. Qed.
Lemma uprobe_programs p w evs : world_ok K w evs -> ids_left w -> admissible E p w ->
  if is_uprobe p then wp (run E K p) w (fun _ w' => exists new, step_post (e_pid_tgid E) (ssl_program p) K w w' evs new) else True.
Proof.
  intros Hw Hids Hadm. assert (http2_program p = true -> forall r, Forall (fun m => wp m w (fun _ w' => exists new, post w w' evs new)) (http2_programs E K r)) as Hh.
  { intros Hp r. assert (all_named E w) as Hn by (by destruct p; try done; apply Hadm).
    eapply Forall_impl; [| by apply (http2_programs_ok E K HE HK Hcomm HC r w evs)]. intros m Hm. eapply wp_mono; [exact Hm |]. intros [] w' H. by exists []. }
  destruct p; try exact Logic.I; cbn [is_uprobe ssl_program http2_program orb run].
  all: try (specialize (Hh eq_refl r); unfold http2_programs in Hh; repeat (apply Forall_cons_1 in Hh as [? Hh]); assumption).
  all: first [by apply ssl_enter_keeps | by apply ssl_exit_keeps | by apply go_tls_enter_keeps | by apply go_tls_exit_keeps].
Qed.

(** The contract of every program, from the contracts of its component. *)
Lemma run_ok p w evs : world_ok K w evs -> ids_left w -> admissible E p w ->
  wp (run E K p) w (fun _ w' => exists new, step_post (e_pid_tgid E) (ssl_program p) K w w' evs new).
Proof.
  intros Hw Hids Hadm. pose proof (enter_programs p) as Hen.
  pose proof (fun n => exit_programs n w evs Hw Hids) as Hex. pose proof (go_programs w evs Hw) as Hgo.
  pose proof (process_programs w evs Hw) as Hpr. pose proof (uprobe_programs p w evs Hw Hids Hadm) as Hup.
  destruct p; try exact Hup; clear Hup; try (by apply Hen); clear Hen; try (specialize (Hex ret); repeat (apply Forall_cons_1 in Hex as [? Hex]); assumption);
    try (specialize (Hgo r); repeat (apply Forall_cons_1 in Hgo as [? Hgo]); assumption); clear Hex Hgo; cbn [run].
  - eapply wp_mono; [by apply (enter_pread_ok E K) |]. intros [] w' (H1 & H2 & Hu & H3). exists []. by apply step_quiet.
  - eapply wp_mono; [by apply (exit_pread_ok E K HE HK Hcomm) |]. intros [] w' H. by eapply io_step_step.
  - eapply wp_mono; [by apply (enter_pwrite_ok E K) |]. intros [] w' (H1 & H2 & Hu & H3). exists []. by apply step_quiet.
  - eapply wp_mono; [by apply (exit_pwrite_ok E K HE HK Hcomm) |]. intros [] w' H. by eapply io_step_step.
  - eapply wp_mono; [by apply (io_event_ok E K HE HK Hcomm) |]. intros [] w' [[H ->] | (a & d & H)]; [exists []; by apply step_skip | by eapply io_exit_step].
  - eapply wp_mono; [by apply (enter_close_ok E K HE HK Hcomm HC) |]. intros [] w' (new & H & _). exists new. by apply life_step.
  - eapply wp_mono; [by apply (exit_socket_ok E K HE HC) |]. intros [] w' [H _]. exists []. by apply life_step.
  - apply wp_modify. exists []. apply step_quiet; try done. by apply role_ok.
  - apply wp_modify. exists []. apply step_quiet; try done. by apply role_ok.
  - apply wp_modify. exists []. apply step_quiet; try done. by apply role_ok.
  - specialize (Hpr junk false false 0). repeat (apply Forall_cons_1 in Hpr as [? Hpr]). assumption.
  - specialize (Hpr false is_kprobe maybe_thread ret). repeat (apply Forall_cons_1 in Hpr as [? Hpr]). assumption.
  - specialize (Hpr false false false 0). repeat (apply Forall_cons_1 in Hpr as [? Hpr]). assumption.
  - by apply push_keeps.
Qed.
End steps.

(** ** Runs *)

Section runs.
Context {X : Counting} (max_sock max_trace : Z).

(** A step of the thread [id] (its process and thread number, as
    [bpf_get_current_pid_tgid] gives them). *)
Inductive step (id : Z) (p : program) (w w' : world) : Prop :=
| Step E K : host_ok max_sock max_trace E K -> e_pid_tgid E = id -> admissible E p w -> run E K p w = Some (tt, w') -> step id p w w'.
(** A run, with the threads and the programs of its steps. *)
Inductive steps : list (Z * program) -> world -> world -> Prop :=
| Steps_nil w : steps [] w w
| Steps_cons id p ls w1 w2 w3 : step id p w1 w2 -> steps ls w2 w3 -> steps ((id, p) :: ls) w1 w3.

(** The state is in order for the capacities of the maps. *)
Definition in_order (w : world) (evs : list (list Z * list Z)) : Prop :=
  forall K, k_max_sock K = max_sock -> k_max_trace K = max_trace -> world_ok K w evs.
(** There are identifiers for [n] more sockets. *)
Definition ids_for (n : nat) (w : world) : Prop :=
  forall t, w_ctx w = Some t -> 0 <= t_socket_id t /\ t_socket_id t + Z.of_nat n < 2 ^ 64 - 1.

Lemma in_order_of K w evs : k_max_sock K = max_sock -> k_max_trace K = max_trace -> world_ok K w evs -> in_order w evs.
Proof. intros H1 H2 Hw K' H1' H2'. apply (world_ok_caps K); congruence. Qed.
Lemma host_caps E K : host_ok max_sock max_trace E K -> caps_ok K.
Proof. intros [_ _ _ H1 H2 [H3 H4]]. constructor; by rewrite ?H1, ?H2. Qed.
Lemma ids_for_left n w : ids_for n w -> ids_left w.
Proof. intros H t Ht. destruct (H t Ht). lia. Qed.

(** One step, whatever the program. *)
Lemma step_ok E K p w evs n : host_ok max_sock max_trace E K -> in_order w evs -> ids_for (S n) w -> admissible E p w ->
  wp (run E K p) w (fun _ w' => exists new, in_order w' (evs ++ new) /\ ids_for n w' /\ step_post (e_pid_tgid E) (ssl_program p) K w w' evs new).
Proof.
  intros Hh Hw Hids Hadm. pose proof (host_caps E K Hh) as HC. destruct Hh as [H1 H2 H3 H4 H5 _].
  eapply wp_mono; [apply (run_ok E K H1 H2 H3 HC p w evs); [by apply Hw | by eapply ids_for_left | done] |].
  intros [] w' (new & Hp). exists new. split_and!; [by apply (in_order_of K); [.. | apply Hp] | | done].
  destruct Hp as [_ _ _ _ P3 P4]. intros t' Ht'. rewrite Ht' in P3. destruct (w_ctx w) as [t |] eqn:Ht; [| done]. specialize (P4 t t' eq_refl Ht').
  destruct (Hids t Ht). lia.
Qed.

(** What a run keeps for a thread that does not take part in it, and for one that
    does so only outside of OpenSSL. *)
Definition thread_kept (ls : list (Z * program)) (w w' : world) : Prop :=
  forall id, id ∉ ls.*1 -> w_rargs w' !! id = w_rargs w !! id /\ w_wargs w' !! id = w_wargs w !! id.
Definition ssl_kept (ls : list (Z * program)) (w w' : world) : Prop :=
  forall id, (forall p, (id, p) ∈ ls -> ssl_program p = false) -> u_ssl (w_up w') !! id = u_ssl (w_up w) !! id.
Lemma steps_ok ls w w' : steps ls w w' -> forall evs n, in_order w evs -> ids_for (length ls + n) w ->
  exists new, in_order w' (evs ++ new) /\ ids_for n w' /\ thread_kept ls w w' /\ ssl_kept ls w w' /\ http2_adds w w' /\
    t_push_buffer_refcnt <$> w_ctx w' = t_push_buffer_refcnt <$> w_ctx w.
Proof.
  induction 1 as [w | id p ls w1 w2 w3 [E K Hh Hid Hadm Hrun] _ IH]; intros evs n Hw Hids.
  { exists []. rewrite app_nil_r. by split_and!. }
  pose proof (wp_run _ _ _ _ _ Hrun (step_ok E K p w1 evs (length ls + n) Hh Hw Hids Hadm)) as (new & S1 & S2 & [_ P2 P3 P4 P5 _]).
  destruct (IH (evs ++ new) n S1 S2) as (new' & T1 & T2 & T3 & T4 & T5 & T6). exists (new ++ new'). rewrite app_assoc. split_and!; try done.
  - intros i [Hi Hi']%not_elem_of_cons. destruct (T3 i Hi') as (-> & ->). destruct (P2 i) as (? & ? & _); [cbn in Hi; congruence | done].
  - intros i Hi. rewrite T4 by (intros q Hq; apply Hi; by right). destruct (decide (i = id)) as [-> | Hne]; [| by apply P2; congruence].
    rewrite P3; [done |]. apply Hi. by left.
  - by eapply adds_trans.
  - congruence.
Qed.

(** The values in the maps and in the records that went to user space have the types
    of the C declarations and the sizes that their fields say. *)
Definition http2_typed (w : world) : Prop := Forall (fun r => record_typed r.2) (u_http2 (w_up w)).
Record typed (w : world) : Prop := {
  ty_buf : exists b, w_buf w = Some b /\ Z.of_nat (length (b_data b)) = BUF_DATA /\ bytes_ok (b_data b) /\
    0 <= b_len b <= BUF_DATA /\ 0 <= b_events_num b < MAX_EVENTS_BURST;
  ty_out : forall r, r ∈ w_out w -> record_typed r;
  ty_http2 : http2_typed w;
  ty_sock : forall key k, w_sock w !! key = Some k -> entry_ok k;
  ty_args : forall d id a, args_map d w !! id = Some a -> args_ok a;
  ty_count : forall n, w_stats w = Some n -> (exact_counts = true -> 0 <= n_socket_map n < 2 ^ 32) /\ 0 <= n_trace_map n < 2 ^ 32;
  ty_refcnt : refcnt_typed w }.

Lemma read_batches (out : list (list Z)) rs : Forall2 (fun r o => reader_raw_cb r = Some o) out rs -> Forall batch_ok (omap id rs) ->
  forall r, r ∈ out -> record_typed r.
Proof.
  induction 1 as [| r o out rs Hr _ IH]; intros Hb r' Hin; [by apply elem_of_nil in Hin |].
  apply elem_of_cons in Hin as [-> | Hin].
  - exists o. split; [done |]. intros es ->. by apply Forall_cons_1 in Hb as [? _].
  - apply IH; [| done]. destruct o; [by apply Forall_cons_1 in Hb as [_ ?] | done].
Qed.
Lemma http2_typed_adds w w' : http2_typed w -> http2_adds w w' -> http2_typed w'.
Proof. intros H (recs & He & Hr). unfold http2_typed. rewrite He. by apply Forall_app. Qed.
Lemma in_order_typed K w evs : caps_ok K -> world_ok K w evs -> http2_typed w -> typed w.
Proof.
  intros [C1 C2] [[] H2 (b & sent & pend & [L1 [] L3 (rs & D1 & <- & D3) L5] & ->) H4 H5 H6 H7 H8]. constructor; try done.
  - exists b. split_and!; try done; try lia. apply (f_equal length) in h_data. rewrite length_take in h_data. lia.
  - by eapply read_batches.
  - by intros [].
  - intros n Hn. destruct (mo_count n Hn) as [Hs ->]. split; [intros He; rewrite Hs by done |]; lia.
Qed.

(** ** The theorems *)

(** C1: safety of the tracer. A run is a sequence of programs, each one step, of any
    threads and in any order, on a machine whose maps have fewer than 2^32 entries,
    from a state in order with identifiers for one more socket than the run has
    steps. After any run the state is in order (no two connections share an
    identifier, the number of traces is the size of their map, the maps are within
    their capacity, the buffer and the log are well formed), the reference count of
    the buffer is back, the log of events has only grown at its end, and no program
    can go wrong: whatever runs next, it accesses nothing outside its objects and
    returns. This needs nothing of the programs in the run ([exact_counts] is false
    and every step is admissible). With [exact_counts] true, the state is in order
    only if the number of sockets is the size of their map too; it remains so in the
    runs whose steps are admissible: no [socket] of an NGINX worker that serves a
    request returns a descriptor with an entry, and no program on HTTP/2 finds an
    entry without an identifier. *)
Theorem tracer_safe ls w w' evs : steps ls w w' -> in_order w evs -> ids_for (length ls + 1) w ->
  exists new, in_order w' (evs ++ new) /\ t_push_buffer_refcnt <$> w_ctx w' = t_push_buffer_refcnt <$> w_ctx w /\
    forall E K p, host_ok max_sock max_trace E K -> admissible E p w' -> exists w'', run E K p w' = Some (tt, w'').
Proof.
  intros Hs Hw Hids. destruct (steps_ok ls w w' Hs evs 1 Hw Hids) as (new & H1 & H2 & _ & _ & _ & H3). exists new. split_and!; try done.
  intros E K p Hh Hadm. pose proof (step_ok E K p w' (evs ++ new) 0 Hh H1 H2 Hadm) as H.
  apply wp_total in H as ([] & w'' & Hrun & _). by exists w''.
Qed.


(** C7: a call of OpenSSL and the system calls inside it. A thread enters [SSL_write]
    or [SSL_read]; other threads do whatever they like, and the thread itself runs
    any programs but those of OpenSSL, such as the ones of the system calls with
    which the library moves the encrypted data; the thread returns from the call.
    The events that the exit adds are none, or those of the plain text: they have the
    buffer of the call, the descriptor found in the object of the library, the
    sequence number of the socket at the entry of the call, and OpenSSL as their
    source. *)
Theorem ssl_call_encloses d ssl buf num rc E K E' K' ls w w1 w2 evs :
  host_ok max_sock max_trace E K -> host_ok max_sock max_trace E' K' -> e_pid_tgid E' = e_pid_tgid E -> in_order w evs ->
  ids_for (length ls + 2) w -> Z.of_nat (size (u_ssl (w_up w))) < k_max_ssl K ->
  openssl_enter E K d ssl buf num w = Some (tt, w1) -> steps ls w1 w2 -> (forall p, (e_pid_tgid E, p) ∈ ls -> ssl_program p = false) ->
  exists w3 before new, openssl_exit E' K' d rc w2 = Some (tt, w3) /\
    in_order w2 (evs ++ before) /\ in_order w3 ((evs ++ before) ++ new) /\ u_ssl (w_up w3) !! e_pid_tgid E = None /\
    (new = [] \/ exists a, reported E' (later 1 K') d a (s32 rc) openssl_extra w2 new /\ da_buf a = buf /\
      da_fd a = u32 (get_fd_from_openssl_ssl E ssl) /\ da_tcp_seq a = tls_seq K d w (get_fd_from_openssl_ssl E ssl)).
Proof.
  intros Hh Hh' Hid Hw Hids Hroom Hen Hs Hnot. pose proof (host_caps E' K' Hh') as HC'.
  destruct Hh as [H1 H2 H3 H4 H5 H6], Hh' as [H1' H2' H3' H4' H5' H6'].
  pose proof (openssl_enter_ok E K d ssl buf num w evs (Hw K H4 H5)) as Hok. cbv zeta in Hok. apply (wp_run _ _ _ _ _ Hen) in Hok as [[P1 _ _ _ P4 P5] Hc]. rewrite app_nil_r in P1. specialize (Hc Hroom).
  assert (ids_for (length ls + S 1) w1) as Hids1.
  { assert (w_ctx w1 = w_ctx w) as Hctx by (unfold openssl_enter, ssl_store, set_up, mbind, M_bind, gets, modify in Hen; by injection Hen as <-).
    intros t Ht. rewrite Hctx in Ht. by apply Hids. }
  destruct (steps_ok ls w1 w2 Hs evs 2 (in_order_of K w1 evs H4 H5 P1) Hids1) as (before & S1 & S2 & _ & S3 & _).
  pose proof (openssl_exit_ok E' K' H1' H2' H3' HC' d rc w2 (evs ++ before) (S1 K' H4' H5') (ids_for_left 2 w2 S2)) as H.
  apply wp_total in H as ([] & w3 & Hrun & new & Q1 & Q2 & Q3). exists w3, before, new.
  split_and!; try done; [by apply (in_order_of K'); [.. | apply Q1] | by rewrite Q2, Hid, lookup_delete_eq |].
  destruct Q3 as [Q3 | (c & Hc2 & Hr)]; [by left | right]. rewrite Hid, (S3 _ Hnot), Hc in Hc2. injection Hc2 as <-. by eexists.
Qed.

(** Types are kept. After any run the buffer has its size and holds bytes, its length
    and its number of events are within it, the number of traces (and, where it is
    right, that of sockets) is a 32-bit number, the entries of the maps of sockets and
    of arguments have the types of their structures, and in every record that went to
    user space, the ones of HTTP/2 included, the reader stays inside the record and
    finds one to 32 events, each with a complete header and as many bytes of data as
    the header says, or refuses the record. *)
Theorem run_typed ls w w' evs : 0 <= max_sock < 2 ^ 32 -> 0 <= max_trace < 2 ^ 32 ->
  steps ls w w' -> in_order w evs -> http2_typed w -> ids_for (length ls) w -> typed w'.
Proof.
  intros Hms Hmt Hs Hw Hh Hids. destruct (steps_ok ls w w' Hs evs 0 Hw) as (new & H1 & _ & _ & _ & H2 & _); [by rewrite Nat.add_0_r |].
  set (K := example_kenv <| k_max_sock := max_sock |> <| k_max_trace := max_trace |>).
  apply (in_order_typed K w' (evs ++ new)); [by constructor | by apply H1 | by eapply http2_typed_adds].
Qed.

(** C2: delivery. From a state in which no program uses the buffer, with its counters,
    whatever the threads of the machine do, the next periodic push of the agent's own
    process leaves nothing in the buffer: every event that was reported, during the
    run and before, is in one of the records handed to the perf buffer, once, and the
    records have the order of the reports. The perf buffer drops a record for which it
    has no room, and the programs ignore that: for every choice of the records that it
    keeps, the reader finds exactly the events of the batches in these records, in
    order. (The records of HTTP/2 have a perf buffer of their own and are not among
    them.) *)
Theorem run_delivered ls w w' evs E K now t :
  steps ls w w' -> in_order w evs -> ids_for (length ls) w -> w_ctx w = Some t -> t_push_buffer_refcnt t = 0 -> is_Some (w_stats w') ->
  host_ok max_sock max_trace E K -> check_pid_validity E K = true ->
  exists new w'', in_order w' (evs ++ new) /\ run E K (Push_socket_data now) w' = Some (tt, w'') /\ received w'' (evs ++ new).
Proof.
  intros Hs Hw Hids Ht H0 Hst Hh Hpid. destruct (steps_ok ls w w' Hs evs 0 Hw) as (new & H1 & _ & _ & _ & _ & H3); [by rewrite Nat.add_0_r |].
  rewrite Ht in H3. destruct (w_ctx w') as [t' |] eqn:Ht'; [| done]. injection H3 as H3.
  pose proof (wo_log _ _ _ (H1 K (ho_sock _ _ _ _ Hh) (ho_trace _ _ _ _ Hh))) as Hlog.
  pose proof (push_socket_data_ok E K now w' (evs ++ new) Hlog) as H. apply wp_total in H as ([] & w'' & Hrun & _ & _ & Hd).
  exists new, w''. split_and!; try done. apply all_delivered_received, (Hd t'); try done. congruence.
Qed.
End runs.

(** ** Instances *)

(** Two threads of a machine with a connection behind the descriptor 3. *)
Definition thread_env (id : Z) : env := on_thread id http_env.
Lemma thread_host id : host_ok 4 4 (thread_env id) example_socket_kenv.
Proof.
  constructor; try done; [apply on_thread_ok, http_env_ok | exact example_socket_kenv_ok | exact http_comm].
Qed.
Definition after (id : Z) (p : program) (w : world) : world :=
  match run (thread_env id) example_socket_kenv p w with Some (_, w') => w' | None => w end.
Definition defined {A} (o : option A) : bool := match o with Some _ => true | None => false end.
Lemma after_run id p w : defined (run (thread_env id) example_socket_kenv p w) = true ->
  run (thread_env id) example_socket_kenv p w = Some (tt, after id p w).
Proof. unfold after. destruct (run _ _ p w) as [[[] w'] |]; done. Qed.
Lemma after_step {X : Counting} id p w : defined (run (thread_env id) example_socket_kenv p w) = true -> admissible (thread_env id) p w ->
  step 4 4 id p w (after id p w).
Proof. intros Hr Ha. apply (Step 4 4 id p w _ (thread_env id) example_socket_kenv); [apply thread_host | done | done | by apply after_run]. Qed.
Lemma start_in_order {X : Counting} : in_order 4 4 example_world [].
Proof. intros K H1 H2. apply (start_world_ok K example_ctx); try done; lia. Qed.
Lemma start_ids n : (n < 1000)%nat -> ids_for n example_world.
Proof. intros Hn t [= <-]. cbn. lia. Qed.

(** A thread reads a request while another one enters a call. *)
Definition reading_1 : world := after 0 (Enter_read 3 4096) example_world.
Definition reading_2 : world := after 7 (Enter_write 3 4096) reading_1.
Definition reading_3 : world := after 0 (Exit_read 45) reading_2.
Lemma reading_steps {X : Counting} : step 4 4 0 (Enter_read 3 4096) example_world reading_1 /\ step 4 4 7 (Enter_write 3 4096) reading_1 reading_2 /\
  step 4 4 0 (Exit_read 45) reading_2 reading_3.
Proof. split_and!; apply after_step; try done; vm_compute; reflexivity. Qed.

Definition reading_run : list (Z * program) := [(0, Enter_read 3 4096); (7, Enter_write 3 4096); (0, Exit_read 45)].
Lemma reading_run_steps {X : Counting} : steps 4 4 reading_run example_world reading_3.
Proof.
  destruct reading_steps as (S1 & S2 & S3).
  by eapply Steps_cons; [exact S1 |]; eapply Steps_cons; [exact S2 |]; eapply Steps_cons; [exact S3 |]; apply Steps_nil.
Qed.
Lemma tracer_safe_witness :
  b_events_num <$> w_buf reading_3 = Some 1 /\
  (exists new, @in_order true 4 4 reading_3 ([] ++ new) /\ t_push_buffer_refcnt <$> w_ctx reading_3 = Some 0 /\
    forall E K p, host_ok 4 4 E K -> @admissible true E p reading_3 -> exists w'', run E K p reading_3 = Some (tt, w'')) /\
  (exists new, @in_order false 4 4 reading_3 ([] ++ new) /\ t_push_buffer_refcnt <$> w_ctx reading_3 = Some 0 /\
    forall E K p, host_ok 4 4 E K -> @admissible false E p reading_3 -> exists w'', run E K p reading_3 = Some (tt, w'')).
Proof.
  split; [vm_compute; reflexivity |]. split.
  - apply (@tracer_safe true 4 4 reading_run example_world reading_3 [] reading_run_steps start_in_order).
    apply start_ids. cbn. lia.
  - apply (@tracer_safe false 4 4 reading_run example_world reading_3 [] reading_run_steps start_in_order).
    apply start_ids. cbn. lia.
Defined.


Lemma run_delivered_witness :
  exists new w'', in_order 4 4 reading_3 ([] ++ new) /\
    run (thread_env 0) example_socket_kenv (Push_socket_data 9) reading_3 = Some (tt, w'') /\ received w'' ([] ++ new).
Proof.
  apply (run_delivered 4 4 reading_run example_world reading_3 [] (thread_env 0) example_socket_kenv 9 example_ctx).
  - exact reading_run_steps.
  - exact start_in_order.
  - apply start_ids. cbn. lia.
  - reflexivity.
  - reflexivity.
  - assert (defined (w_stats reading_3) = true) as H by (vm_compute; reflexivity). destruct (w_stats reading_3); [by eexists | done].
  - apply thread_host.
  - reflexivity.
Defined.

Lemma run_typed_witness : typed reading_3.
Proof.
  apply (run_typed 4 4 reading_run example_world reading_3 []);
    [lia | lia | exact reading_run_steps | exact start_in_order | by apply Forall_nil | apply start_ids; cbn; lia].
Defined.

(** A thread calls [SSL_write] on a connection with the descriptor 3; inside of the
    call it writes to the descriptor. *)
Definition ssl_env : env := example_env (str "curl")
  [(4096, GET_index); (8192, le_bytes 4 0x303); (8208, le_bytes 8 12288); (12344, le_bytes 4 3)].
Lemma ssl_host : host_ok 4 4 ssl_env example_socket_kenv.
Proof.
  constructor; try done; [| exact example_socket_kenv_ok | by apply bytes_okb]. apply example_env_ok. repeat (apply Forall_cons_2; [by apply bytes_okb |]). by apply Forall_nil.
Qed.
Definition ssl_after (p : program) (w : world) : world := match run ssl_env example_socket_kenv p w with Some (_, w') => w' | None => w end.
Definition ssl_1 : world := ssl_after (Ssl_write_enter 8192 4096 45) example_world.
Definition ssl_2 : world := ssl_after (Enter_write 3 6000) ssl_1.
Definition ssl_3 : world := ssl_after (Exit_write 90) ssl_2.
Definition ssl_4 : world := ssl_after (Ssl_write_exit 45) ssl_3.
Lemma ssl_after_run p w : defined (run ssl_env example_socket_kenv p w) = true -> run ssl_env example_socket_kenv p w = Some (tt, ssl_after p w).
Proof. unfold ssl_after. destruct (run _ _ p w) as [[[] w'] |]; done. Qed.
Lemma ssl_call_encloses_witness :
  b_events_num <$> w_buf ssl_4 = Some 1 /\
  exists w3 before new, openssl_exit ssl_env example_socket_kenv T_EGRESS 45 ssl_3 = Some (tt, w3) /\
    in_order 4 4 ssl_3 ([] ++ before) /\ in_order 4 4 w3 (([] ++ before) ++ new) /\ u_ssl (w_up w3) !! 0 = None /\
    (new = [] \/ exists a, reported ssl_env (later 1 example_socket_kenv) T_EGRESS a (s32 45) openssl_extra ssl_3 new /\ da_buf a = 4096 /\
      da_fd a = u32 (get_fd_from_openssl_ssl ssl_env 8192) /\ da_tcp_seq a = tls_seq example_socket_kenv T_EGRESS example_world (get_fd_from_openssl_ssl ssl_env 8192)).
Proof.
  split; [vm_compute; reflexivity |].
  apply (ssl_call_encloses 4 4 T_EGRESS 8192 4096 45 45 ssl_env example_socket_kenv ssl_env example_socket_kenv [(0, Enter_write 3 6000); (0, Exit_write 90)]
    example_world ssl_1 ssl_3 []).
  - exact ssl_host.
  - exact ssl_host.
  - reflexivity.
  - exact start_in_order.
  - apply start_ids. cbn. lia.
  - vm_compute. reflexivity.
  - apply (ssl_after_run (Ssl_write_enter 8192 4096 45)). vm_compute. reflexivity.
  - apply (Steps_cons 4 4 0 (Enter_write 3 6000) _ ssl_1 ssl_2 ssl_3); [| apply (Steps_cons 4 4 0 (Exit_write 90) [] ssl_2 ssl_3 ssl_3); [| apply Steps_nil]].
    all: eapply (Step 4 4); [exact ssl_host | reflexivity | done |]; apply ssl_after_run; vm_compute; reflexivity.
  - intros p Hp. repeat (apply elem_of_cons in Hp as [[= ->] | Hp]; [reflexivity |]). by apply elem_of_nil in Hp.
Defined.
