(* ===== verification/Memory.v ===== *)
(** * Reads and writes of parts of memory

    Lemmas on [slice], which reads a piece of memory, on [write_at], which
    overwrites one, and on the fields of packed structures. *)

From S2P Require Import Prelude Iovec World Output.

Lemma slice_is b o n : 0 <= o -> o + Z.of_nat n <= Z.of_nat (length b) -> slice b o n = Some (take n (drop (Z.to_nat o) b)).
Proof. intros. unfold slice. by rewrite (proj2 (andb_true_iff _ _)) by lia. Qed.
Lemma slice_inv b o n v : slice b o n = Some v -> 0 <= o /\ o + Z.of_nat n <= Z.of_nat (length b) /\ v = take n (drop (Z.to_nat o) b) /\ length v = n.
Proof.
  unfold slice. destruct ((0 <=? o) && (o + Z.of_nat n <=? Z.of_nat (length b))) eqn:E; [| done]. intros [= <-].
  apply andb_true_iff in E as [H1 H2]. rewrite length_take, length_drop. split_and!; (done || lia).
Qed.

Section write.
Context (mem : list Z) (o : Z) (b mem' : list Z) (Hp : write_at mem o b = Some mem').

Lemma write_inv : 0 <= o /\ o + Z.of_nat (length b) <= Z.of_nat (length mem) /\
  mem' = take (Z.to_nat o) mem ++ b ++ drop (Z.to_nat o + length b) mem.
Proof.
  unfold write_at in Hp. destruct ((0 <=? o) && _) eqn:E; [| done]. apply andb_true_iff in E as [H1 H2]. injection Hp as <-.
  split_and!; (done || lia).
Qed.
Lemma write_length : length mem' = length mem.
Proof. destruct write_inv as (H1 & H2 & ->). rewrite !length_app, length_take, length_drop. lia. Qed.
Lemma slice_write : slice mem' o (length b) = Some b.
Proof.
  pose proof write_length. destruct write_inv as (H1 & H2 & ->). rewrite slice_is by lia. f_equal.
  rewrite drop_app_ge by (rewrite length_take; lia). rewrite length_take, Nat.min_l, Nat.sub_diag by lia. by rewrite drop_0, take_app_length.
Qed.
Lemma slice_write_ne x n : x + Z.of_nat n <= o \/ o + Z.of_nat (length b) <= x -> slice mem' x n = slice mem x n.
Proof.
  intros Hd. pose proof write_length as Hl. destruct write_inv as (H1 & H2 & ->). unfold slice. rewrite Hl.
  destruct (Z.leb_spec 0 x); [| done]. destruct (Z.leb_spec (x + Z.of_nat n) (Z.of_nat (length mem))); [| done]. cbn [andb]. f_equal.
  destruct Hd as [Hd | Hd].
  - rewrite drop_app_le by (rewrite length_take; lia). rewrite take_app_le by (rewrite length_drop, length_take; lia).
    rewrite skipn_firstn_comm, take_take. f_equal. lia.
  - rewrite drop_app_ge by (rewrite length_take; lia). rewrite length_take, Nat.min_l by lia.
    rewrite drop_app_ge by lia. rewrite drop_drop. do 2 f_equal. lia.
Qed.
End write.

Lemma write_Some mem o b : 0 <= o -> o + Z.of_nat (length b) <= Z.of_nat (length mem) -> exists mem', write_at mem o b = Some mem'.
Proof. intros. unfold write_at. rewrite (proj2 (andb_true_iff _ _)) by lia. eauto. Qed.
Lemma slice_concat b o n1 n2 v1 v2 : slice b o n1 = Some v1 -> slice b (o + Z.of_nat n1) n2 = Some v2 -> slice b o (n1 + n2) = Some (v1 ++ v2).
Proof.
  intros (H1 & H2 & -> & _)%slice_inv (H3 & H4 & -> & _)%slice_inv. rewrite slice_is by lia. f_equal.
  rewrite Z2Nat.inj_add, Nat2Z.id by lia. rewrite <- drop_drop. symmetry. apply take_take_drop.
Qed.

Lemma slice_write_in mem x n v i b mem' : slice mem x n = Some v -> write_at mem (x + Z.of_nat i) b = Some mem' -> (i + length b <= n)%nat ->
  slice mem' x n = Some (take i v ++ b ++ drop (i + length b) v).
Proof.
  intros Hs Hp Hn. pose proof (write_length _ _ _ _ Hp) as Hl. destruct (slice_inv _ _ _ _ Hs) as (H1 & H2 & Hv & Hvl).
  assert (slice mem' x i = Some (take i v)) as Ha.
  { rewrite (slice_write_ne _ _ _ _ Hp) by lia. rewrite slice_is, Hv, take_take by lia. do 2 f_equal. lia. }
  assert (slice mem' (x + Z.of_nat i + Z.of_nat (length b)) (n - i - length b) = Some (drop (i + length b) v)) as Hc.
  { rewrite (slice_write_ne _ _ _ _ Hp) by lia. rewrite slice_is, Hv by lia. f_equal.
    rewrite skipn_firstn_comm, drop_drop. replace (Z.to_nat (x + Z.of_nat i + Z.of_nat (length b))) with (Z.to_nat x + (i + length b))%nat by lia.
    f_equal. lia. }
  pose proof (slice_write _ _ _ _ Hp) as Hb. pose proof (slice_concat _ _ _ _ _ _ Hb Hc) as Hbc. pose proof (slice_concat _ _ _ _ _ _ Ha Hbc) as Habc.
  by replace (i + (length b + (n - i - length b)))%nat with n in Habc by lia.
Qed.

Lemma vput_bytes_sized f b v : (f_off f + f_len f <= length v)%nat -> (f_len f <= length b)%nat -> length (vput_bytes f b v) = length v.
Proof. intros Hf Hb. unfold vput_bytes. rewrite !length_app, !length_take, length_app, !length_drop. lia. Qed.


Lemma vbytes_length f v : (f_off f + f_len f <= length v)%nat -> length (vbytes f v) = f_len f.
Proof. intros. unfold vbytes. rewrite length_take, length_drop. lia. Qed.

(** Bytes written at the start of a field, or next to it. *)
Lemma vbytes_slice f d : (f_off f + f_len f <= length d)%nat -> slice d (Z.of_nat (f_off f)) (f_len f) = Some (vbytes f d).
Proof. intros Hf. rewrite slice_is by lia. unfold vbytes. by rewrite Nat2Z.id. Qed.
Lemma vbytes_write f o b d d' : write_at d o b = Some d' -> (f_off f + f_len f <= length d)%nat ->
  Z.of_nat (f_off f + f_len f) <= o \/ o + Z.of_nat (length b) <= Z.of_nat (f_off f) -> vbytes f d' = vbytes f d.
Proof.
  intros Hw Hf Hd. pose proof (write_length _ _ _ _ Hw) as Hl. pose proof (vbytes_slice f d Hf) as H1.
  rewrite <- Hl in Hf. pose proof (vbytes_slice f d' Hf) as H2. rewrite (slice_write_ne _ _ _ _ Hw) in H2 by lia. congruence.
Qed.
Lemma vbytes_start f b d d' : write_at d (Z.of_nat (f_off f)) b = Some d' -> (f_off f + f_len f <= length d)%nat -> (length b <= f_len f)%nat ->
  vbytes f d' = b ++ drop (length b) (vbytes f d).
Proof.
  intros Hw Hf Hb. pose proof (write_length _ _ _ _ Hw) as Hl. pose proof (vbytes_slice f d Hf) as H1.
  pose proof (slice_write_in _ _ _ _ 0 b d' H1) as H. rewrite Z.add_0_r in H. specialize (H Hw Hb).
  rewrite <- Hl in Hf. pose proof (vbytes_slice f d' Hf) as H2. rewrite H2 in H. by injection H.
Qed.
