(* ===== verification/Ring.v ===== *)
(** * The ring of user space

    user/ring.h and user/ring.c: the bounded queue of pointers between the
    threads that read the perf buffers and the threads that work on events.
    The operations of one caller at a time are functions on [ring]; what they
    do to any number of threads at once is in RingThreads.v. An object is a
    value of a type [A], the slots are those of the memory after the struct. *)

From S2P Require Import Prelude.

Definition RING_F_SP_ENQ : Z := 1.
Definition RING_F_SC_DEQ : Z := 2.
Definition RING_F_EXACT_SZ : Z := 4.
Definition RING_SZ_MASK : Z := 0x7fffffff.
Definition ENOENT : Z := 2.
Definition EINVAL : Z := 22.
Definition ENAMETOOLONG : Z := 36.
Definition ENOBUFS : Z := 105.
Definition MEMZONE_NAMESIZE : Z := 32.
Definition CACHE_LINE_SIZE : Z := 64.

(** [sizeof(struct ring)]: [prod] and [cons] start at multiples of two cache lines. *)
Definition RING_STRUCT : Z := 384.

Inductive ring_queue_behavior := RING_QUEUE_FIXED | RING_QUEUE_VARIABLE.

Record ring_headtail := mk_headtail { ht_head : Z; ht_tail : Z; ht_single : bool }.
#[export] Instance eta_headtail : Eta ring_headtail := fun h => mk_headtail (ht_head h) (ht_tail h) (ht_single h).

Record ring (A : Type) := mk_ring {
  r_name : list Z; r_flags : Z; r_size : Z; r_mask : Z; r_capacity : Z;
  r_prod : ring_headtail; r_cons : ring_headtail; r_slots : list A }.
Arguments mk_ring {A}. Arguments r_name {A}. Arguments r_flags {A}. Arguments r_size {A}.
Arguments r_mask {A}. Arguments r_capacity {A}. Arguments r_prod {A}. Arguments r_cons {A}. Arguments r_slots {A}.
#[export] Instance eta_ring {A} : Eta (ring A) := fun r =>
  mk_ring (r_name r) (r_flags r) (r_size r) (r_mask r) (r_capacity r) (r_prod r) (r_cons r) (r_slots r).

(** ** Creation *)

Definition POWEROF2 (x : Z) : bool := Z.land (u32 (x - 1)) x =? 0.

Definition align32pow2 (x : Z) : Z :=
  let x := u32 (x - 1) in
  let x := Z.lor x (Z.shiftr x 1) in
  let x := Z.lor x (Z.shiftr x 2) in
  let x := Z.lor x (Z.shiftr x 4) in
  let x := Z.lor x (Z.shiftr x 8) in
  let x := Z.lor x (Z.shiftr x 16) in
  u32 (x + 1).

Definition ALIGN (val align : Z) : Z := Z.land (val + (align - 1)) (Z.lnot (align - 1)).

Definition ring_get_memsize (count : Z) : Z :=
  if negb (POWEROF2 count) || (RING_SZ_MASK <? count) then - EINVAL
  else ALIGN (RING_STRUCT + count * 8) CACHE_LINE_SIZE.

Section ring.
Context {A : Type} (NULL : A).
Implicit Types (r : ring A) (objs : list A).

(** The memory of the ring is that of its struct and of [slots]; the C string
    [name] has no zero byte. *)
Definition ring_init (slots : list A) (name : list Z) (count flags : Z) : Z * ring A :=
  let ht := mk_headtail 0 0 false in
  let r := mk_ring (take 31 name) 0 0 0 0 ht ht slots in
  if MEMZONE_NAMESIZE <=? Z.of_nat (length name) then (- ENAMETOOLONG, r) else
  let r := r <| r_flags := flags |>
             <| r_prod := ht <| ht_single := negb (Z.land flags RING_F_SP_ENQ =? 0) |> |>
             <| r_cons := ht <| ht_single := negb (Z.land flags RING_F_SC_DEQ =? 0) |> |> in
  if negb (Z.land flags RING_F_EXACT_SZ =? 0) then
    let size := align32pow2 (u32 (count + 1)) in
    (0, r <| r_size := size |> <| r_mask := u32 (size - 1) |> <| r_capacity := count |>)
  else if negb (POWEROF2 count) || (RING_SZ_MASK <? count) then (- EINVAL, r)
  else (0, r <| r_size := count |> <| r_mask := u32 (count - 1) |> <| r_capacity := u32 (count - 1) |>).

(** [calloc] gives zeroed memory of [ring_size] bytes, or nothing. *)
Definition ring_create (memory : bool) (name : list Z) (count flags : Z) : option (ring A) :=
  let rounded := if negb (Z.land flags RING_F_EXACT_SZ =? 0) then align32pow2 (u32 (count + 1)) else count in
  let ring_size := ring_get_memsize rounded in
  if ring_size <? 0 then None else
  if memory then Some (ring_init (replicate (Z.to_nat ((ring_size - RING_STRUCT) / 8)) NULL) name count flags).2
  else None.

(** ** Copies

    Arrays, with the accesses that are in bounds. [copy] is the body of
    [ENQUEUE_PTRS] and of [DEQUEUE_PTRS], which differ in the assignment
    between [ring[idx]] and [obj_table[i]] only; [fuel] bounds the loops. *)

Definition get (l : list A) (i : Z) : option A := if i <? 0 then None else l !! Z.to_nat i.
Definition put (l : list A) (i : Z) (x : A) : option (list A) :=
  if (0 <=? i) && (i <? Z.of_nat (length l)) then Some (<[Z.to_nat i := x]> l) else None.

Section copy.
Context (assign : Z -> Z -> list A -> option (list A)).

(** The loop by four, [for (i = 0; i < (n & ~3); i += 4, idx += 4)]. *)
Fixpoint copy_quads (fuel : nat) (bound i idx : Z) (t : list A) : option (Z * Z * list A) :=
  if i <? bound then
    match fuel with
    | O => None
    | S fuel =>
        t ← assign idx i t;
        t ← assign (u32 (idx + 1)) (u32 (i + 1)) t;
        t ← assign (u32 (idx + 2)) (u32 (i + 2)) t;
        t ← assign (u32 (idx + 3)) (u32 (i + 3)) t;
        copy_quads fuel bound (u32 (i + 4)) (u32 (idx + 4)) t
    end
  else Some (i, idx, t).

(** The cases of [switch (n & 3)], which fall through. *)
Definition copy_last (n i idx : Z) (t : list A) : option (list A) :=
  let one '(i, idx, t) := t ← assign idx i t; Some (u32 (i + 1), u32 (idx + 1), t) in
  '(i, idx, t) ← (if n =? 3 then one (i, idx, t) else Some (i, idx, t));
  '(i, idx, t) ← (if (n =? 3) || (n =? 2) then one (i, idx, t) else Some (i, idx, t));
  '(i, idx, t) ← (if (n =? 3) || (n =? 2) || (n =? 1) then one (i, idx, t) else Some (i, idx, t));
  Some t.

(** [for (; idx < size; i++, idx++)] and [for (; i < n; i++, idx++)]. *)
Fixpoint copy_to_end (fuel : nat) (size i idx : Z) (t : list A) : option (Z * list A) :=
  if idx <? size then
    match fuel with
    | O => None
    | S fuel => t ← assign idx i t; copy_to_end fuel size (u32 (i + 1)) (u32 (idx + 1)) t
    end
  else Some (i, t).
Fixpoint copy_from_start (fuel : nat) (n i idx : Z) (t : list A) : option (list A) :=
  if i <? n then
    match fuel with
    | O => None
    | S fuel => t ← assign idx i t; copy_from_start fuel n (u32 (i + 1)) (u32 (idx + 1)) t
    end
  else Some t.

Definition copy (size mask head n : Z) (t : list A) : option (list A) :=
  let idx := Z.land head mask in
  if u32 (idx + n) <? size then
    '(i, idx, t) ← copy_quads (Z.to_nat n) (Z.land n (u32 (Z.lnot 3))) 0 idx t;
    copy_last (Z.land n 3) i idx t
  else
    '(i, t) ← copy_to_end (Z.to_nat size) size 0 idx t;
    copy_from_start (Z.to_nat n) n i 0 t.
End copy.

Definition ENQUEUE_PTRS r (prod_head : Z) objs (n : Z) : option (ring A) :=
  slots ← copy (fun idx i ring => x ← get objs i; put ring idx x) (r_size r) (r_mask r) prod_head n (r_slots r);
  Some (r <| r_slots := slots |>).
Definition DEQUEUE_PTRS r (cons_head : Z) (obj_table : list A) (n : Z) : option (list A) :=
  copy (fun idx i t => x ← get (r_slots r) idx; put t i x) (r_size r) (r_mask r) cons_head n obj_table.

(** ** Heads and tails *)

(** How many of [max] objects are moved when [room] are possible. *)
Definition granted (max room : Z) (behavior : ring_queue_behavior) : Z :=
  if room <? max then match behavior with RING_QUEUE_FIXED => 0 | RING_QUEUE_VARIABLE => room end else max.

Definition atomic32_cmpset (dst exp src : Z) : bool * Z := if dst =? exp then (true, src) else (false, dst).

(** What a caller reads of the other side of the ring. *)
Definition prod_room r (old_head : Z) : Z := u32 (r_capacity r + ht_tail (r_cons r) - old_head).
Definition cons_room r (old_head : Z) : Z := u32 (ht_tail (r_prod r) - old_head).

(** The result is the number of objects, the old and the new head and the room
    before the move. The loop ends when the head was not moved meanwhile, which
    a single caller finds at once. *)
Fixpoint ring_move_prod_head (tries : nat) r (is_sp : bool) (max : Z) (behavior : ring_queue_behavior)
    : option (Z * Z * Z * Z * ring A) :=
  match tries with
  | O => None
  | S tries =>
      let old_head := ht_head (r_prod r) in
      let free_entries := prod_room r old_head in
      let n := granted max free_entries behavior in
      if n =? 0 then Some (0, old_head, old_head, free_entries, r) else
      let new_head := u32 (old_head + n) in
      if is_sp then
        Some (n, old_head, new_head, free_entries, r <| r_prod := (r_prod r) <| ht_head := new_head |> |>)
      else
        let '(success, h) := atomic32_cmpset (ht_head (r_prod r)) old_head new_head in
        let r := r <| r_prod := (r_prod r) <| ht_head := h |> |> in
        if success : bool then Some (n, old_head, new_head, free_entries, r)
        else ring_move_prod_head tries r is_sp max behavior
  end.

Fixpoint ring_move_cons_head (tries : nat) r (is_sc : bool) (max : Z) (behavior : ring_queue_behavior)
    : option (Z * Z * Z * Z * ring A) :=
  match tries with
  | O => None
  | S tries =>
      let old_head := ht_head (r_cons r) in
      let entries := cons_room r old_head in
      let n := granted max entries behavior in
      if n =? 0 then Some (0, old_head, old_head, entries, r) else
      let new_head := u32 (old_head + n) in
      if is_sc then
        Some (n, old_head, new_head, entries, r <| r_cons := (r_cons r) <| ht_head := new_head |> |>)
      else
        let '(success, h) := atomic32_cmpset (ht_head (r_cons r)) old_head new_head in
        let r := r <| r_cons := (r_cons r) <| ht_head := h |> |> in
        if success : bool then Some (n, old_head, new_head, entries, r)
        else ring_move_cons_head tries r is_sc max behavior
  end.

(** With nobody else at work, the loop of [update_tail] ends at once or never. *)
Definition update_tail (ht : ring_headtail) (old_val new_val : Z) (single : bool) : option ring_headtail :=
  if negb single && negb (ht_tail ht =? old_val) then None else Some (ht <| ht_tail := new_val |>).

(** The result, [*free_space] and [*available]. *)
Definition ring_do_enqueue r objs (n : Z) (behavior : ring_queue_behavior) (is_sp : bool) : option (Z * Z * ring A) :=
  '(n, prod_head, prod_next, free_entries, r) ← ring_move_prod_head 1 r is_sp n behavior;
  if n =? 0 then Some (n, u32 (free_entries - n), r) else
  r ← ENQUEUE_PTRS r prod_head objs n;
  ht ← update_tail (r_prod r) prod_head prod_next is_sp;
  Some (n, u32 (free_entries - n), r <| r_prod := ht |>).

Definition ring_do_dequeue r (obj_table : list A) (n : Z) (behavior : ring_queue_behavior) (is_sc : bool)
    : option (Z * Z * list A * ring A) :=
  '(n, cons_head, cons_next, entries, r) ← ring_move_cons_head 1 r is_sc n behavior;
  if n =? 0 then Some (n, u32 (entries - n), obj_table, r) else
  t ← DEQUEUE_PTRS r cons_head obj_table n;
  ht ← update_tail (r_cons r) cons_head cons_next is_sc;
  Some (n, u32 (entries - n), t, r <| r_cons := ht |>).

(** ** The functions that callers use *)

Definition ring_mp_enqueue_bulk r objs n := ring_do_enqueue r objs n RING_QUEUE_FIXED false.
Definition ring_sp_enqueue_bulk r objs n := ring_do_enqueue r objs n RING_QUEUE_FIXED true.
Definition ring_enqueue_bulk r objs n := ring_do_enqueue r objs n RING_QUEUE_FIXED (ht_single (r_prod r)).
Definition ring_mp_enqueue_burst r objs n := ring_do_enqueue r objs n RING_QUEUE_VARIABLE false.
Definition ring_sp_enqueue_burst r objs n := ring_do_enqueue r objs n RING_QUEUE_VARIABLE true.
Definition ring_enqueue_burst r objs n := ring_do_enqueue r objs n RING_QUEUE_VARIABLE (ht_single (r_prod r)).

Definition ring_mc_dequeue_bulk r t n := ring_do_dequeue r t n RING_QUEUE_FIXED false.
Definition ring_sc_dequeue_bulk r t n := ring_do_dequeue r t n RING_QUEUE_FIXED true.
Definition ring_dequeue_bulk r t n := ring_do_dequeue r t n RING_QUEUE_FIXED (ht_single (r_cons r)).
Definition ring_mc_dequeue_burst r t n := ring_do_dequeue r t n RING_QUEUE_VARIABLE false.
Definition ring_sc_dequeue_burst r t n := ring_do_dequeue r t n RING_QUEUE_VARIABLE true.
Definition ring_dequeue_burst r t n := ring_do_dequeue r t n RING_QUEUE_VARIABLE (ht_single (r_cons r)).

(** One object: the result is zero or an error number. *)
Definition enqueue_status (o : option (Z * Z * ring A)) : option (Z * ring A) :=
  '(n, _, r) ← o; Some (if n =? 0 then - ENOBUFS else 0, r).
Definition dequeue_status (o : option (Z * Z * list A * ring A)) : option (Z * list A * ring A) :=
  '(n, _, t, r) ← o; Some (if n =? 0 then - ENOENT else 0, t, r).

Definition ring_mp_enqueue r (obj : A) := enqueue_status (ring_mp_enqueue_bulk r [obj] 1).
Definition ring_sp_enqueue r (obj : A) := enqueue_status (ring_sp_enqueue_bulk r [obj] 1).
Definition ring_enqueue r (obj : A) := enqueue_status (ring_enqueue_bulk r [obj] 1).
Definition ring_mc_dequeue r (obj_p : A) := dequeue_status (ring_mc_dequeue_bulk r [obj_p] 1).
Definition ring_sc_dequeue r (obj_p : A) := dequeue_status (ring_sc_dequeue_bulk r [obj_p] 1).
Definition ring_dequeue r (obj_p : A) := dequeue_status (ring_dequeue_bulk r [obj_p] 1).

Definition ring_count r : Z :=
  let count := Z.land (u32 (ht_tail (r_prod r) - ht_tail (r_cons r))) (r_mask r) in
  if r_capacity r <? count then r_capacity r else count.
Definition ring_free_count r : Z := u32 (r_capacity r - ring_count r).
Definition ring_full r : bool := ring_free_count r =? 0.
Definition ring_empty r : bool := ring_count r =? 0.
End ring.

(** ** The size of a ring *)

(** A step of the cascade in [align32pow2]: ones below a one spread by [s]. *)
Lemma smear_step (y x s i : Z) : 0 <= s ->
  (forall i, 0 <= i -> Z.testbit x i = true <-> exists j, 0 <= j < s /\ Z.testbit y (i + j) = true) -> 0 <= i ->
  Z.testbit (Z.lor x (Z.shiftr x s)) i = true <-> exists j, 0 <= j < 2 * s /\ Z.testbit y (i + j) = true.
Proof.
  intros Hs H Hi. rewrite Z.lor_spec, Z.shiftr_spec, orb_true_iff, !H by lia. split.
  - intros [(j & Hj & Hy) | (j & Hj & Hy)]; [exists j; split; [lia | done] |].
    exists (s + j). split; [lia |]. by rewrite Z.add_assoc.
  - intros (j & Hj & Hy). destruct (Z.ltb_spec j s); [left; exists j; split; [lia | done] |].
    right. exists (j - s). split; [lia |]. by replace (i + s + (j - s)) with (i + j) by lia.
Qed.

Lemma align32pow2_up x k : 0 <= k <= 31 -> 2 ^ k < x <= 2 ^ (k + 1) -> k + 1 <= 31 -> align32pow2 x = 2 ^ (k + 1).
Proof.
  intros Hk Hx Hk1. unfold align32pow2.
  assert (2 ^ (k + 1) <= 2 ^ 31) by (apply Z.pow_le_mono_r; lia). assert (0 < 2 ^ k) by (apply Z.pow_pos_nonneg; lia).
  rewrite (wrap_small 32 (x - 1)) by lia. set (y := x - 1) in *.
  set (x1 := Z.lor y (Z.shiftr y 1)). set (x2 := Z.lor x1 (Z.shiftr x1 2)). set (x4 := Z.lor x2 (Z.shiftr x2 4)).
  set (x8 := Z.lor x4 (Z.shiftr x4 8)). set (x16 := Z.lor x8 (Z.shiftr x8 16)).
  assert (forall i, 0 <= i -> Z.testbit x16 i = true <-> exists j, 0 <= j < 32 /\ Z.testbit y (i + j) = true) as Hb.
  { intros i Hi. do 5 (apply smear_step; [lia | clear i Hi; intros i Hi | done]).
    split; [intros Hy; exists 0; split; [lia | by rewrite Z.add_0_r] |].
    intros (j & Hj & Hy). by replace j with 0 in Hy by lia; rewrite Z.add_0_r in Hy. }
  assert (Z.log2 y = k) as Hlog by (apply Z.log2_unique; unfold y; lia).
  assert (x16 = Z.ones (k + 1)) as ->.
  { apply Z.bits_inj'. intros i Hi. apply eq_bool_prop_intro. split; intros H'%Is_true_true; apply Is_true_true.
    - apply Hb in H' as (j & Hj & Hy); [| lia]. apply Z.ones_spec_low. split; [lia |].
      destruct (Z.ltb_spec i (k + 1)); [done |]. rewrite Z.bits_above_log2 in Hy; unfold y in *; lia.
    - apply Hb; [lia |]. exists (k - i). assert (i < k + 1).
      { destruct (Z.ltb_spec i (k + 1)); [done |]. by rewrite Z.ones_spec_high in H' by lia. }
      split; [lia |]. replace (i + (k - i)) with (Z.log2 y) by lia. apply Z.bit_log2. unfold y. lia. }
  rewrite Z.ones_equiv, wrap_small; lia.
Qed.

Lemma align32pow2_least x : 1 <= x <= 2 ^ 31 ->
  exists e, 0 <= e <= 31 /\ align32pow2 x = 2 ^ e /\ x <= 2 ^ e < 2 * x.
Proof.
  intros Hx. destruct (Z.eqb_spec x 1) as [-> | Hne]; [by exists 0 |].
  pose proof (Z.log2_spec (x - 1) ltac:(lia)) as Hl. pose proof (Z.log2_nonneg (x - 1)).
  assert (Z.log2 (x - 1) < 31) by (apply Z.log2_lt_pow2; lia).
  exists (Z.log2 (x - 1) + 1). unfold Z.succ in Hl.
  assert (2 ^ (Z.log2 (x - 1) + 1) = 2 * 2 ^ Z.log2 (x - 1)) by (rewrite Z.pow_add_r; lia).
  split_and!; [lia.. | | lia | lia]. apply align32pow2_up; lia.
Qed.

Lemma POWEROF2_pow x : 1 <= x < 2 ^ 32 -> POWEROF2 x = true -> exists e, 0 <= e <= 31 /\ x = 2 ^ e.
Proof.
  intros Hx H. unfold POWEROF2 in H. rewrite wrap_small in H by lia. apply Z.eqb_eq in H.
  exists (Z.log2 x). pose proof (Z.log2_spec x ltac:(lia)) as Hl. pose proof (Z.log2_nonneg x).
  assert (Z.log2 x < 32) by (apply Z.log2_lt_pow2; lia). split; [lia |].
  destruct (Z.eqb_spec x (2 ^ Z.log2 x)) as [| Hne]; [done |].
  assert (Z.log2 (x - 1) = Z.log2 x) as He by (apply Z.log2_unique; lia).
  assert (Z.testbit (Z.land (x - 1) x) (Z.log2 x) = true) as Hb.
  { rewrite Z.land_spec, Z.bit_log2 by lia. rewrite <- He, Z.bit_log2; [done |].
    assert (0 < 2 ^ Z.log2 x) by (apply Z.pow_pos_nonneg; lia). lia. }
  by rewrite H, Z.bits_0 in Hb.
Qed.
Lemma pow_POWEROF2 e : 0 <= e <= 31 -> POWEROF2 (2 ^ e) = true.
Proof.
  intros He. unfold POWEROF2. assert (0 < 2 ^ e) by (apply Z.pow_pos_nonneg; lia).
  assert (2 ^ e <= 2 ^ 31) by (apply Z.pow_le_mono_r; lia). rewrite wrap_small by lia. apply Z.eqb_eq.
  rewrite Z.land_comm. replace (2 ^ e - 1) with (Z.ones e) by (rewrite Z.ones_equiv; lia).
  rewrite Z.land_ones by lia. apply Z.mod_same. lia.
Qed.

(** ** Well-formed rings *)

(** The invariant of [ring_init]: a power of two slots, all of them there, one
    of them always free, and indices of 32 bits. *)
Record ring_wf {A} (r : ring A) : Prop := {
  wf_size : exists e, 0 <= e <= 31 /\ r_size r = 2 ^ e;
  wf_mask : r_mask r = r_size r - 1;
  wf_capacity : 0 <= r_capacity r < r_size r;
  wf_slots : r_size r <= Z.of_nat (length (r_slots r)) }.

Lemma wf_bounds {A} (r : ring A) : ring_wf r -> 1 <= r_size r <= 2 ^ 31 /\ (r_size r | 2 ^ 32).
Proof.
  intros [(e & He & ->) _ _ _]. assert (0 < 2 ^ e) by (apply Z.pow_pos_nonneg; lia).
  assert (2 ^ e <= 2 ^ 31) by (apply Z.pow_le_mono_r; lia). split; [lia |].
  exists (2 ^ (32 - e)). rewrite <- Z.pow_add_r by lia. f_equal. lia.
Qed.

(** The slot of an index. *)
Definition slot {A} (r : ring A) (x : Z) : nat := Z.to_nat (x mod r_size r).

Lemma wf_land {A} (r : ring A) x : ring_wf r -> Z.land x (r_mask r) = Z.of_nat (slot r x).
Proof.
  intros Hr. pose proof (wf_bounds r Hr) as [Hb _]. destruct Hr as [(e & He & Hs) Hm _ _]. unfold slot.
  pose proof (Z.mod_pos_bound x (r_size r) ltac:(lia)). rewrite Z2Nat.id by lia.
  rewrite Hm, Hs. replace (2 ^ e - 1) with (Z.ones e) by (rewrite Z.ones_equiv; lia). apply Z.land_ones. lia.
Qed.
Lemma slot_u32 {A} (r : ring A) x : ring_wf r -> slot r (u32 x) = slot r x.
Proof.
  intros Hr. apply wf_bounds in Hr as [Hb Hd]. unfold slot, wrap. by rewrite Z.mod_mod_divide.
Qed.
Lemma slot_lt {A} (r : ring A) x : ring_wf r -> (slot r x < length (r_slots r))%nat /\ Z.of_nat (slot r x) < r_size r.
Proof.
  intros Hr. pose proof (wf_bounds r Hr) as [Hb _]. destruct Hr as [_ _ _ Hl]. unfold slot.
  pose proof (Z.mod_pos_bound x (r_size r) ltac:(lia)). lia.
Qed.
Lemma mod_near a b s : 0 < s -> a mod s = b mod s -> - s < a - b < s -> a = b.
Proof.
  intros Hs H Hd. assert ((a - b) mod s = 0) as H0 by (rewrite Zminus_mod, H, Z.sub_diag; apply Zmod_0_l).
  apply Z.mod_divide in H0 as [q Hq]; [| lia]. assert (q = 0) by nia. lia.
Qed.
Lemma slot_ne {A} (r : ring A) a b : ring_wf r -> a <> b -> - r_size r < a - b < r_size r -> slot r a <> slot r b.
Proof.
  intros Hr Hne Hd H. apply wf_bounds in Hr as [Hb _]. apply Hne, (mod_near _ _ (r_size r)); [lia | | lia].
  unfold slot in H. pose proof (Z.mod_pos_bound a (r_size r) ltac:(lia)).
  pose proof (Z.mod_pos_bound b (r_size r) ltac:(lia)). lia.
Qed.

(** ** The copies

    The unrolled loop and the two loops around the end of the slots do the same
    assignments in the same order as one loop over the objects. *)

Section one_by_one.
Context {A : Type} (assign : Z -> Z -> list A -> option (list A)).

Fixpoint one_by_one (k : nat) (mask head i : Z) (t : list A) : option (list A) :=
  match k with
  | O => Some t
  | S k => t ← assign (Z.land head mask) i t; one_by_one k mask (head + 1) (i + 1) t
  end.

(** The same with an index that does not wrap. *)
Fixpoint straight (k : nat) (idx i : Z) (t : list A) : option (list A) :=
  match k with O => Some t | S k => t ← assign idx i t; straight k (idx + 1) (i + 1) t end.

Lemma straight_app a b idx i t :
  straight (a + b) idx i t = (t ← straight a idx i t; straight b (idx + Z.of_nat a) (i + Z.of_nat a) t).
Proof.
  revert idx i t. induction a as [| a IH]; intros idx i t; simpl; [by rewrite !Z.add_0_r |].
  destruct (assign idx i t) as [t' |]; simpl; [| done]. rewrite IH.
  by rewrite !Nat2Z.inj_succ, <- !Z.add_1_l, !Z.add_assoc.
Qed.

Lemma copy_quads_straight q : forall fuel i idx t, (q <= fuel)%nat -> 0 <= i -> 0 <= idx ->
  i + 4 * Z.of_nat q < 2 ^ 32 -> idx + 4 * Z.of_nat q < 2 ^ 32 ->
  copy_quads assign fuel (i + 4 * Z.of_nat q) i idx t =
  (t ← straight (4 * q) idx i t; Some (i + 4 * Z.of_nat q, idx + 4 * Z.of_nat q, t)).
Proof.
  induction q as [| q IH]; intros fuel i idx t Hf Hi Hx H1 H2.
  { rewrite !Z.add_0_r. destruct fuel; simpl; destruct (Z.ltb_spec i i); (done || lia). }
  destruct fuel as [| fuel]; [lia |]. cbn [copy_quads]. destruct (Z.ltb_spec i (i + 4 * Z.of_nat (S q))); [| lia].
  replace (4 * S q)%nat with (4 + 4 * q)%nat by lia. cbn [straight Nat.add]. rewrite !wrap_small by lia.
  replace (idx + 1 + 1) with (idx + 2) by lia. replace (i + 1 + 1) with (i + 2) by lia.
  replace (idx + 2 + 1) with (idx + 3) by lia. replace (i + 2 + 1) with (i + 3) by lia.
  replace (idx + 3 + 1) with (idx + 4) by lia. replace (i + 3 + 1) with (i + 4) by lia.
  destruct (assign idx i t) as [t1 |]; [| done]. cbn [mbind option_bind].
  destruct (assign (idx + 1) (i + 1) t1) as [t2 |]; [| done]. cbn [mbind option_bind].
  destruct (assign (idx + 2) (i + 2) t2) as [t3 |]; [| done]. cbn [mbind option_bind].
  destruct (assign (idx + 3) (i + 3) t3) as [t4 |]; [| done]. cbn [mbind option_bind].
  replace (i + 4 * Z.of_nat (S q)) with (i + 4 + 4 * Z.of_nat q) by lia. rewrite IH by lia.
  by replace (idx + 4 * Z.of_nat (S q)) with (idx + 4 + 4 * Z.of_nat q) by lia.
Qed.

Lemma copy_last_straight k i idx t : (k <= 3)%nat -> 0 <= i -> 0 <= idx -> i + 3 < 2 ^ 32 -> idx + 3 < 2 ^ 32 ->
  copy_last assign (Z.of_nat k) i idx t = straight k idx i t.
Proof.
  intros Hk Hi Hx H1 H2. unfold copy_last.
  destruct k as [| [| [| [| k]]]]; [..| lia];
    cbv [Z.of_nat Z.eqb Pos.of_succ_nat Pos.succ Pos.eqb orb mbind option_bind straight].
  - done.
  - by destruct (assign idx i t).
  - destruct (assign idx i t) as [t1 |]; [| done]. rewrite !wrap_small by lia. by destruct (assign _ _ t1).
  - destruct (assign idx i t) as [t1 |]; [| done]. rewrite !wrap_small by lia.
    destruct (assign _ _ t1) as [t2 |]; [| done]. by destruct (assign _ _ t2).
Qed.

Lemma copy_to_end_straight k : forall fuel size i idx t, (k <= fuel)%nat -> 0 <= i -> 0 <= idx ->
  size = idx + Z.of_nat k -> size < 2 ^ 32 -> i + Z.of_nat k < 2 ^ 32 ->
  copy_to_end assign fuel size i idx t = (t ← straight k idx i t; Some (i + Z.of_nat k, t)).
Proof.
  induction k as [| k IH]; intros fuel size i idx t Hf Hi Hx Hs H1 H2.
  { destruct fuel; simpl; (destruct (Z.ltb_spec idx size); [lia | by rewrite Z.add_0_r]). }
  destruct fuel as [| fuel]; [lia |]. simpl. destruct (Z.ltb_spec idx size); [| lia].
  destruct (assign idx i t) as [t1 |]; [| done]. cbn. rewrite !wrap_small by lia. rewrite IH by lia.
  by replace (i + 1 + Z.of_nat k) with (i + Z.of_nat (S k)) by lia.
Qed.
Lemma copy_from_start_straight k : forall fuel n i idx t, (k <= fuel)%nat -> 0 <= i -> 0 <= idx ->
  n = i + Z.of_nat k -> n < 2 ^ 32 -> idx + Z.of_nat k < 2 ^ 32 ->
  copy_from_start assign fuel n i idx t = straight k idx i t.
Proof.
  induction k as [| k IH]; intros fuel n i idx t Hf Hi Hx Hs H1 H2.
  { destruct fuel; simpl; (destruct (Z.ltb_spec i n); [lia | done]). }
  destruct fuel as [| fuel]; [lia |]. simpl. destruct (Z.ltb_spec i n); [| lia].
  destruct (assign idx i t) as [t1 |]; [| done]. cbn. rewrite !wrap_small by lia. by rewrite IH by lia.
Qed.

Lemma one_by_one_app a b mask h i t :
  one_by_one (a + b) mask h i t = (t ← one_by_one a mask h i t; one_by_one b mask (h + Z.of_nat a) (i + Z.of_nat a) t).
Proof.
  revert h i t. induction a as [| a IH]; intros h i t; simpl; [by rewrite !Z.add_0_r |].
  destruct (assign _ i t) as [t' |]; simpl; [| done]. rewrite IH.
  by rewrite !Nat2Z.inj_succ, <- !Z.add_1_l, !Z.add_assoc.
Qed.

Context (r : ring A) (Hr : ring_wf r).

Lemma one_by_one_straight k : forall h i t, Z.of_nat (slot r h) + Z.of_nat k <= r_size r ->
  one_by_one k (r_mask r) h i t = straight k (Z.of_nat (slot r h)) i t.
Proof.
  induction k as [| k IH]; intros h i t Hk; [done |]. cbn [one_by_one straight]. rewrite wf_land by done.
  destruct (assign _ i t) as [t' |]; [| done]. simpl. destruct k as [| k]; [done |].
  pose proof (wf_bounds r Hr) as [Hb _].
  assert (Z.of_nat (slot r (h + 1)) = Z.of_nat (slot r h) + 1) as He.
  { unfold slot in *. pose proof (Z.mod_pos_bound h (r_size r) ltac:(lia)) as Hp. rewrite Z2Nat.id in Hk by lia.
    rewrite !Z2Nat.id by (lia || apply Z.mod_pos_bound; lia).
    rewrite Z.add_mod, (Z.mod_small 1) by lia. apply Z.mod_small. lia. }
  rewrite IH by lia. by rewrite He.
Qed.
End one_by_one.

Lemma copy_one_by_one {A} (assign : Z -> Z -> list A -> option (list A)) (r : ring A) head n t : ring_wf r -> 0 <= n <= r_capacity r ->
  copy assign (r_size r) (r_mask r) head n t = one_by_one assign (Z.to_nat n) (r_mask r) head 0 t.
Proof.
  intros Hr Hn. pose proof (wf_bounds r Hr) as [Hb Hd]. pose proof (wf_capacity r Hr).
  pose proof (slot_lt r head Hr) as [_ Hl]. unfold copy. rewrite wf_land, wrap_small by (done || lia).
  destruct (Z.ltb_spec (Z.of_nat (slot r head) + n) (r_size r)).
  - rewrite one_by_one_straight by (done || lia).
    assert (Z.land n (u32 (Z.lnot 3)) = 4 * Z.of_nat (Z.to_nat (n / 4))) as ->.
    { rewrite Z2Nat.id by (apply Z.div_pos; lia). change (u32 (Z.lnot 3)) with (Z.ldiff (Z.ones 32) (Z.ones 2)).
      rewrite Z.ldiff_land, Z.land_assoc, Z.land_ones, Z.mod_small, <- Z.ldiff_land by lia.
      rewrite Z.ldiff_ones_r, Z.shiftl_mul_pow2, Z.shiftr_div_pow2 by lia. change (2 ^ 2) with 4. lia. }
    change 3 with (Z.ones 2) at 1. rewrite Z.land_ones by lia. change (2 ^ 2) with 4.
    pose proof (Z.div_mod n 4 ltac:(lia)). pose proof (Z.mod_pos_bound n 4 ltac:(lia)). pose proof (Z.div_pos n 4 ltac:(lia) ltac:(lia)).
    pose proof (copy_quads_straight assign (Z.to_nat (n / 4)) (Z.to_nat n) 0 (Z.of_nat (slot r head)) t) as Hq.
    rewrite !Z.add_0_l in Hq. rewrite Hq by lia.
    replace (Z.to_nat n) with (4 * Z.to_nat (n / 4) + Z.to_nat (n mod 4))%nat at 1 by lia. rewrite straight_app.
    destruct (straight assign (4 * _) _ 0 t) as [t' |]; [| done]. cbn [mbind option_bind].
    rewrite <- (Z2Nat.id (n mod 4)) at 1 by lia. rewrite copy_last_straight by lia. f_equal; lia.
  - set (k := Z.to_nat (r_size r - Z.of_nat (slot r head))).
    rewrite (copy_to_end_straight assign k) by lia.
    replace (Z.to_nat n) with (k + (Z.to_nat n - k))%nat by lia. rewrite one_by_one_app.
    rewrite (one_by_one_straight assign r Hr k) by lia.
    destruct (straight assign k _ 0 t) as [t' |]; [| done]. cbn [mbind option_bind].
    assert (slot r (head + Z.of_nat k) = 0%nat) as Hz.
    { pose proof (Z.mod_pos_bound head (r_size r) ltac:(lia)).
      replace (Z.of_nat k) with (r_size r - head mod r_size r) by (unfold k, slot; lia).
      unfold slot. rewrite Z.add_mod, Zminus_mod_idemp_r, <- Z.add_mod by lia.
      replace (head + (r_size r - head)) with (r_size r) by lia. by rewrite Z.mod_same by lia. }
    rewrite one_by_one_straight, Hz by (rewrite ?Hz; done || lia).
    rewrite (copy_from_start_straight assign (Z.to_nat n - k)) by lia. done.
Qed.

(** What the copies leave in the slots and in the table of the caller. *)
Lemma put_Some {A} (l : list A) i x : (i < length l)%nat -> put l (Z.of_nat i) x = Some (<[i := x]> l).
Proof. intros Hi. unfold put. rewrite (proj2 (andb_true_iff _ _)) by lia. by rewrite Nat2Z.id. Qed.
Lemma get_lookup {A} (l : list A) (i : nat) : get l (Z.of_nat i) = l !! i.
Proof. unfold get. destruct (Z.ltb_spec (Z.of_nat i) 0); [lia |]. by rewrite Nat2Z.id. Qed.

Lemma write_ok {A} (r : ring A) (objs : list A) : ring_wf r -> forall k slots h i, length slots = length (r_slots r) ->
  Z.of_nat k <= r_size r -> (i + k <= length objs)%nat ->
  exists slots', one_by_one (fun idx i t => x ← get objs i; put t idx x) k (r_mask r) h (Z.of_nat i) slots = Some slots' /\
    length slots' = length slots /\ (forall j, (j < k)%nat -> slots' !! slot r (h + Z.of_nat j) = objs !! (i + j)%nat) /\
    (forall x, (forall j, (j < k)%nat -> x <> slot r (h + Z.of_nat j)) -> slots' !! x = slots !! x).
Proof.
  intros Hr. induction k as [| k IH]; intros slots h i Hl Hk Ho.
  { exists slots. split_and!; [done | done | lia | done]. }
  cbn [one_by_one]. destruct (lookup_lt_is_Some_2 objs i) as [x Hx]; [lia |].
  pose proof (slot_lt r h Hr) as [Hs _]. rewrite get_lookup, Hx, wf_land by done. cbn [mbind option_bind].
  rewrite put_Some by lia. cbn [mbind option_bind]. replace (Z.of_nat i + 1) with (Z.of_nat (S i)) by lia.
  destruct (IH (<[slot r h := x]> slots) (h + 1) (S i)) as (slots' & H1 & H2 & H3 & H4); [rewrite length_insert; lia | lia | lia |].
  exists slots'. split; [done |]. split; [by rewrite H2, length_insert |]. split.
  - intros [| j] Hj.
    + rewrite Z.add_0_r, Nat.add_0_r, Hx. rewrite H4; [apply list_lookup_insert_eq; lia |].
      intros j Hj'. apply slot_ne; [done | lia | lia].
    + replace (h + Z.of_nat (S j)) with (h + 1 + Z.of_nat j) by lia. rewrite H3 by lia. f_equal. lia.
  - intros y Hy. rewrite H4.
    + apply list_lookup_insert_ne. specialize (Hy 0%nat ltac:(lia)). by rewrite Z.add_0_r in Hy.
    + intros j Hj. specialize (Hy (S j) ltac:(lia)). by replace (h + 1 + Z.of_nat j) with (h + Z.of_nat (S j)) by lia.
Qed.

Lemma read_ok {A} (r : ring A) : ring_wf r -> forall k t h i, (i + k <= length t)%nat ->
  exists vals, one_by_one (fun idx i t => x ← get (r_slots r) idx; put t i x) k (r_mask r) h (Z.of_nat i) t =
      Some (take i t ++ vals ++ drop (i + k) t) /\
    length vals = k /\ forall j, (j < k)%nat -> vals !! j = r_slots r !! slot r (h + Z.of_nat j).
Proof.
  intros Hr. induction k as [| k IH]; intros t h i Hl.
  { exists []. split_and!; [| done | lia]. by rewrite Nat.add_0_r, app_nil_l, take_drop. }
  cbn [one_by_one]. pose proof (slot_lt r h Hr) as [Hs _]. destruct (lookup_lt_is_Some_2 (r_slots r) (slot r h) Hs) as [x Hx].
  rewrite wf_land, get_lookup, Hx by done. cbn [mbind option_bind]. rewrite put_Some by lia. cbn [mbind option_bind].
  replace (Z.of_nat i + 1) with (Z.of_nat (S i)) by lia.
  destruct (IH (<[i := x]> t) (h + 1) (S i)) as (vals & H1 & H2 & H3); [rewrite length_insert; lia |].
  exists (x :: vals). split; [| split; [by simpl; rewrite H2 |]].
  - rewrite H1. f_equal. rewrite drop_insert_lt by lia. rewrite (take_S_r _ _ x) by (apply list_lookup_insert_eq; lia).
    rewrite take_insert_ge by lia. rewrite <- app_assoc. by replace (i + S k)%nat with (S i + k)%nat by lia.
  - intros [| j] Hj; simpl; [by rewrite Z.add_0_r |]. rewrite H3 by lia. do 2 f_equal. lia.
Qed.

(** ** A ring is a bounded queue *)

(** The objects of a ring that no caller is at work on, oldest first. *)
Record holds_queue {A} (r : ring A) (q : list A) : Prop := {
  hq_wf : ring_wf r;
  hq_prod : ht_head (r_prod r) = ht_tail (r_prod r);
  hq_cons : ht_head (r_cons r) = ht_tail (r_cons r);
  hq_cons32 : 0 <= ht_tail (r_cons r) < 2 ^ 32;
  hq_count : ht_tail (r_prod r) = u32 (ht_tail (r_cons r) + Z.of_nat (length q));
  hq_bound : Z.of_nat (length q) <= r_capacity r;
  hq_slots : forall i, (i < length q)%nat -> r_slots r !! slot r (ht_tail (r_cons r) + Z.of_nat i) = q !! i }.

(** The queue that the callers see. *)
Definition queue_enqueue {A} (capacity : Z) (objs : list A) (behavior : ring_queue_behavior) (q : list A) : Z * Z * list A :=
  let room := capacity - Z.of_nat (length q) in
  let n := granted (Z.of_nat (length objs)) room behavior in
  (n, room - n, q ++ take (Z.to_nat n) objs).
Definition queue_dequeue {A} (max : Z) (behavior : ring_queue_behavior) (q : list A) : Z * Z * list A * list A :=
  let room := Z.of_nat (length q) in
  let n := granted max room behavior in
  (n, room - n, take (Z.to_nat n) q, drop (Z.to_nat n) q).

Lemma granted_range max room b : 0 <= max -> 0 <= room -> 0 <= granted max room b <= room /\ granted max room b <= max.
Proof. intros. unfold granted. destruct (Z.ltb_spec room max), b; lia. Qed.

Section refinement.
Context {A : Type}.
Implicit Types (r : ring A) (q objs : list A).

Lemma prod_room_holds r q : holds_queue r q -> prod_room r (ht_head (r_prod r)) = r_capacity r - Z.of_nat (length q).
Proof.
  intros [Hr Hp Hc Hc2 Hn Hb Hs]. unfold prod_room. rewrite Hp, Hn. pose proof (wf_bounds r Hr) as [? _]. pose proof (wf_capacity r Hr).
  unfold wrap. rewrite Zminus_mod_idemp_r.
  replace (r_capacity r + ht_tail (r_cons r) - (ht_tail (r_cons r) + Z.of_nat (length q)))
    with (r_capacity r - Z.of_nat (length q)) by lia. apply Z.mod_small. lia.
Qed.
Lemma cons_room_holds r q : holds_queue r q -> cons_room r (ht_head (r_cons r)) = Z.of_nat (length q).
Proof.
  intros [Hr Hp Hc Hc2 Hn Hb Hs]. unfold cons_room. rewrite Hc, Hn. pose proof (wf_bounds r Hr) as [? _]. pose proof (wf_capacity r Hr).
  unfold wrap. rewrite Zminus_mod_idemp_l. replace (ht_tail (r_cons r) + Z.of_nat (length q) - ht_tail (r_cons r))
    with (Z.of_nat (length q)) by lia. apply Z.mod_small. lia.
Qed.

Lemma move_prod_head_ok r q is_sp max b : holds_queue r q -> 0 <= max ->
  let room := r_capacity r - Z.of_nat (length q) in
  let n := granted max room b in
  exists next r', ring_move_prod_head 1 r is_sp max b = Some (n, ht_tail (r_prod r), next, room, r') /\
    (if n =? 0 then r' = r else next = u32 (ht_tail (r_prod r) + n) /\ r' = r <| r_prod := (r_prod r) <| ht_head := next |> |>).
Proof.
  intros H Hm room n. pose proof (prod_room_holds r q H) as Hroom. pose proof (hq_prod r q H) as Hp.
  cbn [ring_move_prod_head]. rewrite Hroom, Hp. fold room. fold n. destruct (Z.eqb_spec n 0) as [-> |]; [by eauto |].
  unfold atomic32_cmpset. rewrite Z.eqb_refl. destruct is_sp; by eauto.
Qed.
Lemma move_cons_head_ok r q is_sc max b : holds_queue r q -> 0 <= max ->
  let n := granted max (Z.of_nat (length q)) b in
  exists next r', ring_move_cons_head 1 r is_sc max b = Some (n, ht_tail (r_cons r), next, Z.of_nat (length q), r') /\
    (if n =? 0 then r' = r else next = u32 (ht_tail (r_cons r) + n) /\ r' = r <| r_cons := (r_cons r) <| ht_head := next |> |>).
Proof.
  intros H Hm n. pose proof (cons_room_holds r q H) as Hroom. pose proof (hq_cons r q H) as Hp.
  cbn [ring_move_cons_head]. rewrite Hroom, Hp. fold n. destruct (Z.eqb_spec n 0) as [-> |]; [by eauto |].
  unfold atomic32_cmpset. rewrite Z.eqb_refl. destruct is_sc; by eauto.
Qed.

(** A call of each kind, whoever calls. *)
Lemma enqueue_ok r q objs b is_sp : holds_queue r q ->
  let '(n, free, q') := queue_enqueue (r_capacity r) objs b q in
  exists r', ring_do_enqueue r objs (Z.of_nat (length objs)) b is_sp = Some (n, free, r') /\
    holds_queue r' q' /\ r_capacity r' = r_capacity r.
Proof.
  intros H. unfold queue_enqueue. set (room := r_capacity r - Z.of_nat (length q)).
  set (n := granted (Z.of_nat (length objs)) room b). unfold ring_do_enqueue.
  destruct (move_prod_head_ok r q is_sp (Z.of_nat (length objs)) b H ltac:(lia)) as (next & r' & -> & Hr').
  fold room in Hr' |- *. fold n in Hr' |- *. cbn [mbind option_bind].
  pose proof H as [Hr Hp Hc Hc2 Hn Hb Hs]. pose proof (wf_bounds r Hr) as [Hsz _]. pose proof (wf_capacity r Hr) as Hcap.
  pose proof (granted_range (Z.of_nat (length objs)) room b ltac:(lia) ltac:(lia)) as [Hg1 Hg2]. fold n in Hg1, Hg2.
  rewrite (wrap_small 32 (room - n)) by lia. destruct (Z.eqb_spec n 0) as [H0 | H0].
  { exists r. rewrite Hr'. split; [done |]. rewrite H0, app_nil_r. done. }
  destruct Hr' as [-> ->]. unfold ENQUEUE_PTRS. cbn [r_size r_mask r_slots set setter].
  rewrite (copy_one_by_one _ r) by (done || lia).
  destruct (write_ok r objs Hr (Z.to_nat n) (r_slots r) (ht_tail (r_prod r)) 0) as (slots & Hcp & Hl & Hw & Hrest); [done | lia | lia |].
  change (Z.of_nat 0) with 0 in Hcp. rewrite Hcp. cbn [mbind option_bind]. unfold update_tail. cbn. rewrite Z.eqb_refl, andb_false_r. cbn. eexists. split; [reflexivity |]. split; [| done].
  constructor; cbn; try done.
  - destruct Hr. constructor; cbn; try done. by rewrite Hl.
  - rewrite Hn, length_app, length_take. unfold wrap. rewrite Zplus_mod_idemp_l. f_equal. lia.
  - rewrite length_app, length_take. lia.
  - intros i Hi. rewrite length_app, length_take in Hi.
    change (slot _ ?x) with (slot r x). destruct (decide (i < length q)%nat) as [Hq |].
    + rewrite lookup_app_l, <- Hs by lia. apply Hrest. intros j Hj. rewrite <- (slot_u32 r (_ + Z.of_nat j)), Hn by done.
      unfold wrap. rewrite Zplus_mod_idemp_l. fold (wrap 32 (ht_tail (r_cons r) + Z.of_nat (length q) + Z.of_nat j)).
      rewrite slot_u32 by done. apply slot_ne; [done | lia | lia].
    + rewrite lookup_app_r, lookup_take_lt by lia.
      specialize (Hw (i - length q)%nat ltac:(lia)). rewrite Nat.add_0_l in Hw. rewrite <- Hw, Hn.
      rewrite <- (slot_u32 r (u32 _ + _)) by done. unfold wrap. rewrite Zplus_mod_idemp_l.
      fold (wrap 32 (ht_tail (r_cons r) + Z.of_nat (length q) + Z.of_nat (i - length q))). rewrite slot_u32 by done.
      do 2 f_equal. lia.
Qed.

Lemma dequeue_ok r q t max b is_sc : holds_queue r q -> 0 <= max <= Z.of_nat (length t) ->
  let '(n, available, out, q') := queue_dequeue max b q in
  exists r', ring_do_dequeue r t max b is_sc = Some (n, available, out ++ drop (length out) t, r') /\
    holds_queue r' q' /\ r_capacity r' = r_capacity r.
Proof.
  intros H Ht. unfold queue_dequeue. set (room := Z.of_nat (length q)). set (n := granted max room b). unfold ring_do_dequeue.
  destruct (move_cons_head_ok r q is_sc max b H ltac:(lia)) as (next & r' & -> & Hr').
  fold room in Hr' |- *. fold n in Hr' |- *. cbn [mbind option_bind].
  pose proof H as [Hr Hp Hc Hc2 Hn Hb Hs]. pose proof (wf_bounds r Hr) as [Hsz _]. pose proof (wf_capacity r Hr) as Hcap.
  pose proof (granted_range max room b ltac:(lia) ltac:(lia)) as [Hg1 Hg2]. fold n in Hg1, Hg2.
  rewrite (wrap_small 32 (room - n)) by lia. destruct (Z.eqb_spec n 0) as [H0 | H0].
  { exists r. rewrite Hr'. rewrite H0. done. }
  destruct Hr' as [-> ->]. unfold DEQUEUE_PTRS. cbn [r_size r_mask r_slots set setter].
  rewrite (copy_one_by_one _ r) by (done || lia).
  destruct (read_ok r Hr (Z.to_nat n) t (ht_tail (r_cons r)) 0) as (vals & Hv & Hl & Hrd); [lia |].
  change (Z.of_nat 0) with 0 in Hv. rewrite Hv.
  cbn [mbind option_bind]. unfold update_tail. cbn. rewrite Z.eqb_refl, andb_false_r. cbn.
  assert (vals = take (Z.to_nat n) q) as ->.
  { apply list_eq_same_length with (n := Z.to_nat n); [rewrite length_take; lia | done |].
    intros i x y Hi Hx Hy. rewrite lookup_take_lt in Hy by lia. rewrite Hrd, Hs in Hx by lia. congruence. }
  eexists. split; [rewrite Hl; reflexivity |]. split; [| done]. constructor; cbn; try done.
  - by destruct Hr.
  - apply (wrap_range 32). lia.
  - rewrite Hn, length_drop. unfold wrap. rewrite Zplus_mod_idemp_l. f_equal. lia.
  - rewrite length_drop. lia.
  - intros i Hi. rewrite length_drop in Hi. rewrite lookup_drop, <- Hs by lia. change (slot _ ?x) with (slot r x).
    rewrite <- (slot_u32 r (u32 _ + _)) by done. unfold wrap. rewrite Zplus_mod_idemp_l.
    fold (wrap 32 (ht_tail (r_cons r) + n + Z.of_nat i)). rewrite slot_u32 by done. do 2 f_equal. lia.
Qed.

Lemma count_ok r q : holds_queue r q ->
  ring_count r = Z.of_nat (length q) /\ ring_free_count r = r_capacity r - Z.of_nat (length q).
Proof.
  intros [Hr Hp Hc Hc2 Hn Hb Hs]. pose proof (wf_bounds r Hr) as [Hsz _]. pose proof (wf_capacity r Hr) as Hcap.
  assert (ring_count r = Z.of_nat (length q)) as Hcnt.
  { unfold ring_count. rewrite Hn. unfold wrap. rewrite Zminus_mod_idemp_l.
    replace (ht_tail (r_cons r) + Z.of_nat (length q) - ht_tail (r_cons r)) with (Z.of_nat (length q)) by lia.
    rewrite (Z.mod_small (Z.of_nat _)), wf_land by (done || lia). unfold slot.
    rewrite Z.mod_small, Nat2Z.id by lia. destruct (Z.ltb_spec (r_capacity r) (Z.of_nat (length q))); lia. }
  split; [done |]. unfold ring_free_count. rewrite Hcnt, wrap_small; lia.
Qed.

(** Calls one after the other, on a ring and on a queue. The result is what the
    call returns, the count it reports and the table it leaves. *)
Inductive ring_op :=
| Enqueue (is_sp : bool) (behavior : ring_queue_behavior) (objs : list A)
| Dequeue (is_sc : bool) (behavior : ring_queue_behavior) (table : list A).

Definition ring_call r (op : ring_op) : option (Z * Z * list A * ring A) :=
  match op with
  | Enqueue is_sp b objs => '(n, free, r) ← ring_do_enqueue r objs (Z.of_nat (length objs)) b is_sp; Some (n, free, objs, r)
  | Dequeue is_sc b t => ring_do_dequeue r t (Z.of_nat (length t)) b is_sc
  end.
Definition queue_call (capacity : Z) q (op : ring_op) : Z * Z * list A * list A :=
  match op with
  | Enqueue _ b objs => let '(n, free, q) := queue_enqueue capacity objs b q in (n, free, objs, q)
  | Dequeue _ b t =>
      let '(n, available, out, q) := queue_dequeue (Z.of_nat (length t)) b q in
      (n, available, out ++ drop (length out) t, q)
  end.

Fixpoint ring_calls r (ops : list ring_op) : option (list (Z * Z * list A) * ring A) :=
  match ops with
  | [] => Some ([], r)
  | op :: ops => '(res, r) ← ring_call r op; '(l, r) ← ring_calls r ops; Some (res :: l, r)
  end.
Fixpoint queue_calls (capacity : Z) q (ops : list ring_op) : list (Z * Z * list A) * list A :=
  match ops with
  | [] => ([], q)
  | op :: ops => let '(res, q) := queue_call capacity q op in
                 let '(l, q) := queue_calls capacity q ops in (res :: l, q)
  end.

Lemma call_ok r q op : holds_queue r q -> let '(res, q') := queue_call (r_capacity r) q op in
  exists r', ring_call r op = Some (res, r') /\ holds_queue r' q' /\ r_capacity r' = r_capacity r.
Proof.
  intros H. destruct op as [is_sp b objs | is_sc b t]; cbn [ring_call queue_call].
  - pose proof (enqueue_ok r q objs b is_sp H) as He. destruct (queue_enqueue _ _ _ _) as [[n free] q'].
    destruct He as (r' & -> & H1 & H2). by exists r'.
  - pose proof (dequeue_ok r q t (Z.of_nat (length t)) b is_sc H ltac:(lia)) as He.
    destruct (queue_dequeue _ _ _) as [[[n av] out] q']. destruct He as (r' & -> & H1 & H2). by exists r'.
Qed.

Lemma calls_ok ops : forall r q, holds_queue r q -> let '(res, q') := queue_calls (r_capacity r) q ops in
  exists r', ring_calls r ops = Some (res, r') /\ holds_queue r' q' /\ r_capacity r' = r_capacity r.
Proof.
  induction ops as [| op ops IH]; intros r q H; simpl; [by exists r |].
  pose proof (call_ok r q op H) as Hc. destruct (queue_call _ q op) as [res q1]. destruct Hc as (r1 & -> & H1 & Hcap).
  simpl. specialize (IH r1 q1 H1). rewrite Hcap in IH. destruct (queue_calls _ q1 ops) as [l q2].
  destruct IH as (r2 & -> & H2 & Hcap2). simpl. by exists r2.
Qed.
End refinement.

(** ** New rings *)

Lemma ALIGN_up x : 0 <= x -> x <= ALIGN x CACHE_LINE_SIZE.
Proof.
  intros Hx. unfold ALIGN, CACHE_LINE_SIZE. change (64 - 1) with (Z.ones 6). rewrite <- Z.ldiff_land.
  rewrite Z.ldiff_ones_r, Z.shiftl_mul_pow2, Z.shiftr_div_pow2 by lia. change (Z.ones 6) with 63. change (2 ^ 6) with 64.
  pose proof (Z.div_mod (x + 63) 64 ltac:(lia)). pose proof (Z.mod_pos_bound (x + 63) 64 ltac:(lia)). lia.
Qed.

Lemma memsize_ok e : 0 <= e <= 30 ->
  0 <= ring_get_memsize (2 ^ e) /\ 2 ^ e <= Z.of_nat (Z.to_nat ((ring_get_memsize (2 ^ e) - RING_STRUCT) / 8)).
Proof.
  intros He. unfold ring_get_memsize. rewrite pow_POWEROF2 by lia. assert (0 < 2 ^ e) by (apply Z.pow_pos_nonneg; lia).
  assert (2 ^ e <= 2 ^ 30) by (apply Z.pow_le_mono_r; lia).
  destruct (Z.ltb_spec RING_SZ_MASK (2 ^ e)) as [Hb | _]; [unfold RING_SZ_MASK in Hb; lia |]. cbn [negb orb].
  unfold RING_STRUCT. pose proof (ALIGN_up (384 + 2 ^ e * 8) ltac:(lia)) as Hu. split; [lia |].
  rewrite Z2Nat.id by (apply Z.div_pos; lia). apply Z.div_le_lower_bound; lia.
Qed.

(** Sizes that a ring can be asked for, and the objects it can then hold. *)
Definition ring_request (count flags capacity : Z) : Prop :=
  if Z.land flags RING_F_EXACT_SZ =? 0 then exists e, 0 <= e <= 30 /\ count = 2 ^ e /\ capacity = count - 1
  else 0 <= count < 2 ^ 30 /\ capacity = count.

Lemma ring_create_ok {A} (NULL : A) name count flags capacity : Z.of_nat (length name) < MEMZONE_NAMESIZE ->
  ring_request count flags capacity ->
  exists r, ring_create NULL true name count flags = Some r /\ holds_queue r [] /\ r_capacity r = capacity /\
    ht_single (r_prod r) = negb (Z.land flags RING_F_SP_ENQ =? 0) /\ ht_single (r_cons r) = negb (Z.land flags RING_F_SC_DEQ =? 0).
Proof.
  intros Hn Hreq. unfold ring_create, ring_init, ring_request in *.
  destruct (Z.leb_spec MEMZONE_NAMESIZE (Z.of_nat (length name))); [lia |].
  destruct (Z.eqb_spec (Z.land flags RING_F_EXACT_SZ) 0) as [Hf | Hf]; cbn [negb].
  - destruct Hreq as (e & He & -> & ->). pose proof (memsize_ok e He) as [Hm1 Hm2]. destruct (Z.ltb_spec (ring_get_memsize (2 ^ e)) 0); [lia |].
    assert (0 < 2 ^ e) by (apply Z.pow_pos_nonneg; lia). assert (2 ^ e <= 2 ^ 30) by (apply Z.pow_le_mono_r; lia).
    rewrite pow_POWEROF2 by lia. destruct (Z.ltb_spec RING_SZ_MASK (2 ^ e)) as [Hb | _]; [unfold RING_SZ_MASK in Hb; lia |].
    cbn [negb orb snd]. rewrite wrap_small by lia. eexists. split; [done |]. split; [| done].
    constructor; cbn; try done; try lia. constructor; cbn; [exists e; split; [lia | done] | done | lia |].
    by rewrite length_replicate.
  - destruct Hreq as [Hc ->]. rewrite wrap_small by lia.
    destruct (align32pow2_least (count + 1) ltac:(lia)) as (e & He & -> & Hle).
    assert (e <= 30). { destruct (Z.leb_spec e 30); [done |]. assert (2 ^ 31 <= 2 ^ e) by (apply Z.pow_le_mono_r; lia). lia. }
    pose proof (memsize_ok e ltac:(lia)) as [Hm1 Hm2]. destruct (Z.ltb_spec (ring_get_memsize (2 ^ e)) 0); [lia |].
    cbn [snd]. assert (2 ^ e <= 2 ^ 30) by (apply Z.pow_le_mono_r; lia). rewrite wrap_small by lia. eexists. split; [done |]. split; [| done].
    constructor; cbn; try done; try lia. constructor; cbn; [exists e; split; [lia | done] | done | lia |].
    by rewrite length_replicate.
Qed.

(** C19: a ring that is created (a power of two, or an exact number of objects) and
    then called any number of times in any order, by one caller at a time, with
    the functions for single or multiple producers and consumers, bulk or burst,
    behaves like a bounded queue: every call returns, accesses nothing out of
    bounds, moves as many objects as the queue would, reports the same free or
    remaining count and gives the same objects in the same order; and
    [ring_count] and [ring_free_count] are those of the queue. *)
Theorem ring_is_queue {A} (NULL : A) name count flags capacity (ops : list (ring_op (A := A))) :
  Z.of_nat (length name) < MEMZONE_NAMESIZE -> ring_request count flags capacity ->
  let '(results, q) := queue_calls capacity [] ops in
  exists r r', ring_create NULL true name count flags = Some r /\ ring_calls r ops = Some (results, r') /\
    holds_queue r' q /\ ring_count r' = Z.of_nat (length q) /\ ring_free_count r' = capacity - Z.of_nat (length q).
Proof.
  intros Hn Hreq. destruct (ring_create_ok NULL name count flags capacity Hn Hreq) as (r & Hr & H & Hcap & _).
  pose proof (calls_ok ops r [] H) as Hc. rewrite Hcap in Hc. destruct (queue_calls capacity [] ops) as [results q].
  destruct Hc as (r' & Hr' & Hq & Hcap'). exists r, r'. destruct (count_ok r' q Hq) as [H1 H2]. by rewrite H2, Hcap'.
Qed.
Definition example_ops : list (ring_op (A := Z)) :=
  [Enqueue false RING_QUEUE_VARIABLE [1; 2; 3; 4]; Dequeue true RING_QUEUE_FIXED [0; 0];
   Enqueue true RING_QUEUE_FIXED [5; 6; 7]; Enqueue true RING_QUEUE_VARIABLE [5; 6; 7]].
Lemma ring_is_queue_witness : exists r r', ring_create 0 true (str "ring") 4 0 = Some r /\
  ring_calls r example_ops = Some ([(3, 0, [1; 2; 3; 4]); (2, 1, [1; 2]); (0, 2, [5; 6; 7]); (2, 0, [5; 6; 7])], r') /\
  holds_queue r' [3; 5; 6].
Proof.
  assert (ring_request 4 0 3) as Hreq by (exists 2; split_and!; (done || lia)).
  pose proof (ring_is_queue 0 (str "ring") 4 0 3 example_ops eq_refl Hreq) as H.
  destruct (queue_calls 3 [] example_ops) as [res q] eqn:E. vm_compute in E. injection E as <- <-.
  destruct H as (r & r' & H1 & H2 & H3 & _). by exists r, r'.
Defined.

(** A ring for no objects is not refused, though zero is not a power of two: it
    has no slot, promises room for 2^32 - 1 objects, and the first enqueue writes
    outside the memory of the ring. *)
Theorem ring_without_slots :
  exists r, ring_create 0 true (str "ring") 0 0 = Some r /\ r_slots r = [] /\ r_capacity r = 2 ^ 32 - 1 /\ ring_sp_enqueue r 7 = None.
Proof. eexists. split; [reflexivity |]. done. Qed.

(** A ring whose name has 32 characters is created without the error of
    [ring_init], which left its size at zero: it takes nothing. *)
Theorem ring_with_long_name {A} (NULL : A) name : length name = 32%nat ->
  exists r, ring_create NULL true name 1024 0 = Some r /\ r_size r = 0 /\ r_capacity r = 0 /\
    forall objs, exists r', ring_mp_enqueue_burst r objs (Z.of_nat (length objs)) = Some (0, 0, r').
Proof.
  intros Hn. unfold ring_create, ring_init. change (ring_get_memsize _ <? 0) with false. cbn match. rewrite Hn.
  eexists. split; [reflexivity |]. split; [done |]. split; [done |]. intros objs. eexists.
  unfold ring_mp_enqueue_burst, ring_do_enqueue. cbn [ring_move_prod_head].
  change (prod_room _ _) with 0. unfold granted. destruct (Z.ltb_spec 0 (Z.of_nat (length objs))); [done |].
  replace (Z.of_nat (length objs)) with 0 by lia. done.
Qed.
