(* ===== verification/RingThreads.v ===== *)
(** * Threads on a ring

    Any number of threads that call the functions of user/ring.h at the same
    time. A thread stands before an access to the memory that the threads
    share: the loads and the store or compare-and-set of
    [__ring_move_prod_head] and [__ring_move_cons_head], the assignments of
    [ENQUEUE_PTRS] and [DEQUEUE_PTRS], the loop of [update_tail]. The accesses
    of the threads interleave in any way; each is seen by all threads at once,
    which the barriers around the copies give on x86. *)

From S2P Require Import Prelude Ring.

Section threads.
Context {A : Type} (is_sp is_sc : bool).
Implicit Types (r : ring A) (objs : list A).

Inductive thread :=
| Idle
| ProdHead objs (behavior : ring_queue_behavior)
| ProdRoom objs (behavior : ring_queue_behavior) (old_head : Z)
| ProdMove objs (behavior : ring_queue_behavior) (old_head n : Z)
| ProdCopy objs (prod_head n : Z) (done : nat)
| ProdTail objs (prod_head n : Z)
| ConsHead (max : Z) (behavior : ring_queue_behavior)
| ConsRoom (max : Z) (behavior : ring_queue_behavior) (old_head : Z)
| ConsMove (max : Z) (behavior : ring_queue_behavior) (old_head n : Z)
| ConsCopy (cons_head n : Z) (table : list A)
| ConsTail (cons_head n : Z) (table : list A).

(** What a step shows to the outside: objects are in the ring, objects are with
    a caller. *)
Inductive label := Silent | Enqueued objs | Dequeued objs.

(** The next access of a thread; [None] is one out of bounds. *)
Definition thread_step r (t : thread) : option (label * ring A * thread) :=
  match t with
  | Idle => Some (Silent, r, Idle)
  | ProdHead objs b => Some (Silent, r, ProdRoom objs b (ht_head (r_prod r)))
  | ProdRoom objs b old_head =>
      let n := granted (Z.of_nat (length objs)) (prod_room r old_head) b in
      Some (Silent, r, if n =? 0 then Idle else ProdMove objs b old_head n)
  | ProdMove objs b old_head n =>
      let new_head := u32 (old_head + n) in
      let '(success, h) := if is_sp then (true, new_head) else atomic32_cmpset (ht_head (r_prod r)) old_head new_head in
      Some (Silent, r <| r_prod := (r_prod r) <| ht_head := h |> |>,
            if success : bool then ProdCopy objs old_head n 0 else ProdHead objs b)
  | ProdCopy objs prod_head n done =>
      if Z.of_nat done <? n then
        x ← get objs (Z.of_nat done);
        slots ← put (r_slots r) (Z.land (prod_head + Z.of_nat done) (r_mask r)) x;
        Some (Silent, r <| r_slots := slots |>, ProdCopy objs prod_head n (S done))
      else Some (Silent, r, ProdTail objs prod_head n)
  | ProdTail objs prod_head n =>
      match update_tail (r_prod r) prod_head (u32 (prod_head + n)) is_sp with
      | Some ht => Some (Enqueued (take (Z.to_nat n) objs), r <| r_prod := ht |>, Idle)
      | None => Some (Silent, r, t)
      end
  | ConsHead max b => Some (Silent, r, ConsRoom max b (ht_head (r_cons r)))
  | ConsRoom max b old_head =>
      let n := granted max (cons_room r old_head) b in
      Some (Silent, r, if n =? 0 then Idle else ConsMove max b old_head n)
  | ConsMove max b old_head n =>
      let new_head := u32 (old_head + n) in
      let '(success, h) := if is_sc then (true, new_head) else atomic32_cmpset (ht_head (r_cons r)) old_head new_head in
      Some (Silent, r <| r_cons := (r_cons r) <| ht_head := h |> |>,
            if success : bool then ConsCopy old_head n [] else ConsHead max b)
  | ConsCopy cons_head n table =>
      if Z.of_nat (length table) <? n then
        x ← get (r_slots r) (Z.land (cons_head + Z.of_nat (length table)) (r_mask r));
        Some (Silent, r, ConsCopy cons_head n (table ++ [x]))
      else Some (Silent, r, ConsTail cons_head n table)
  | ConsTail cons_head n table =>
      match update_tail (r_cons r) cons_head (u32 (cons_head + n)) is_sc with
      | Some ht => Some (Dequeued table, r <| r_cons := ht |>, Idle)
      | None => Some (Silent, r, t)
      end
  end.

Definition producer (t : thread) : bool :=
  match t with ProdHead _ _ | ProdRoom _ _ _ | ProdMove _ _ _ _ | ProdCopy _ _ _ _ | ProdTail _ _ _ => true | _ => false end.
Definition consumer (t : thread) : bool :=
  match t with ConsHead _ _ | ConsRoom _ _ _ | ConsMove _ _ _ _ | ConsCopy _ _ _ | ConsTail _ _ _ => true | _ => false end.

Record sys := mk_sys { s_ring : ring A; s_threads : list thread }.

(** A call of the functions for a single producer (consumer) is not made while
    another one is under way, as their documentation asks. *)
Inductive sys_step : sys -> label -> sys -> Prop :=
| call_enqueue s i objs b : s_threads s !! i = Some Idle ->
    (is_sp = true -> forall j t, s_threads s !! j = Some t -> producer t = false) ->
    sys_step s Silent (mk_sys (s_ring s) (<[i := ProdHead objs b]> (s_threads s)))
| call_dequeue s i max b : s_threads s !! i = Some Idle -> 0 <= max ->
    (is_sc = true -> forall j t, s_threads s !! j = Some t -> consumer t = false) ->
    sys_step s Silent (mk_sys (s_ring s) (<[i := ConsHead max b]> (s_threads s)))
| thread_runs s i t l r t' : s_threads s !! i = Some t -> thread_step (s_ring s) t = Some (l, r, t') ->
    sys_step s l (mk_sys r (<[i := t']> (s_threads s))).

Inductive sys_run : sys -> list label -> sys -> Prop :=
| run_nil s : sys_run s [] s
| run_cons s1 l s2 ls s3 : sys_step s1 l s2 -> sys_run s2 ls s3 -> sys_run s1 (l :: ls) s3.

Definition enqueued (l : label) : list A := match l with Enqueued objs => objs | _ => [] end.
Definition dequeued (l : label) : list A := match l with Dequeued objs => objs | _ => [] end.

(** ** Segments

    The objects that calls under way have reserved: the thread, the first index
    and how many, in the order of the indices. *)
Fixpoint chain (a : nat) (l : list (nat * nat * nat)) (b : nat) : Prop :=
  match l with [] => a = b | (_, o, n) :: l => o = a /\ (0 < n)%nat /\ chain (a + n) l b end.

Lemma chain_le l : forall a b, chain a l b -> (a <= b)%nat.
Proof. induction l as [| [[i o] n] l IH]; intros a b H; simpl in H; [lia |]. destruct H as (-> & Hn & H). apply IH in H. lia. Qed.
Lemma chain_snoc l i n : forall a b, chain a l b -> (0 < n)%nat -> chain a (l ++ [(i, b, n)]) (b + n).
Proof.
  induction l as [| [[j o] m] l IH]; intros a b H Hn; simpl in *; [by subst |].
  destruct H as (-> & Hm & H). split_and!; [done | done |]. by apply IH.
Qed.
Lemma chain_in l i o n : forall a b, chain a l b -> (i, o, n) ∈ l -> (a <= o /\ o + n <= b /\ 0 < n)%nat.
Proof.
  induction l as [| [[j o'] m] l IH]; intros a b H Hi; [by apply not_elem_of_nil in Hi |]. simpl in H. destruct H as (-> & Hm & H).
  apply elem_of_cons in Hi as [[= -> -> ->] | Hi]; [apply chain_le in H; lia |]. apply (IH _ _ H) in Hi. lia.
Qed.
Lemma chain_apart l i o n j o' m : forall a b, chain a l b -> (i, o, n) ∈ l -> (j, o', m) ∈ l -> i <> j ->
  (o + n <= o' \/ o' + m <= o)%nat.
Proof.
  induction l as [| [[k p] q] l IH]; intros a b H Hi Hj Hne; [by apply not_elem_of_nil in Hi |]. simpl in H. destruct H as (-> & Hq & H).
  apply elem_of_cons in Hi as [Ei | Hi]; apply elem_of_cons in Hj as [Ej | Hj].
  - congruence.
  - injection Ei as -> -> ->. apply (chain_in _ _ _ _ _ _ H) in Hj. lia.
  - injection Ej as -> -> ->. apply (chain_in _ _ _ _ _ _ H) in Hi. lia.
  - by apply (IH _ _ H).
Qed.
Lemma chain_first l i a n b : chain a l b -> (i, a, n) ∈ l -> exists l', l = (i, a, n) :: l'.
Proof.
  destruct l as [| [[j o] m] l]; intros H Hi; [by apply not_elem_of_nil in Hi |]. simpl in H. destruct H as (-> & Hm & H).
  apply elem_of_cons in Hi as [-> | Hi]; [eauto |]. apply (chain_in _ _ _ _ _ _ H) in Hi. lia.
Qed.

(** ** The invariant

    [v_hist] lists the objects that were ever in the ring or are being put
    there, in the order in which room was reserved for them; the counters are
    the heads and tails without the wrap at 2^32, and [B] is the value of the
    tail of the consumers when they were zero. *)
Record view := mk_view {
  v_hist : list A; v_ct : nat; v_ch : nat; v_pt : nat; v_ph : nat;
  v_segp : list (nat * nat * nat); v_segc : list (nat * nat * nat) }.

Definition ix (B : Z) (x : nat) : Z := u32 (B + Z.of_nat x).
Definition tid (seg : nat * nat * nat) : nat := seg.1.1.

Record core_ok (B : Z) r (v : view) : Prop := {
  co_wf : ring_wf r;
  co_ct : ht_tail (r_cons r) = ix B (v_ct v); co_ch : ht_head (r_cons r) = ix B (v_ch v);
  co_pt : ht_tail (r_prod r) = ix B (v_pt v); co_ph : ht_head (r_prod r) = ix B (v_ph v);
  co_order : (v_ch v <= v_pt v)%nat;
  co_room : Z.of_nat (v_ph v) <= Z.of_nat (v_ct v) + r_capacity r;
  co_hist : length (v_hist v) = v_ph v;
  co_slots : forall x, (v_ct v <= x < v_pt v)%nat -> r_slots r !! slot r (B + Z.of_nat x) = v_hist v !! x;
  co_segp : chain (v_pt v) (v_segp v) (v_ph v); co_segc : chain (v_ct v) (v_segc v) (v_ch v);
  co_ndp : NoDup (tid <$> v_segp v); co_ndc : NoDup (tid <$> v_segc v) }.

(** [k] of the objects that start at index [o] are in their slots, resp. with
    the caller. *)
Definition written B r (v : view) objs (o n k : nat) : Prop :=
  (n <= length objs)%nat /\ (k <= n)%nat /\ (forall j, (j < n)%nat -> v_hist v !! (o + j)%nat = objs !! j) /\
  (forall j, (j < k)%nat -> r_slots r !! slot r (B + Z.of_nat (o + j)) = v_hist v !! (o + j)%nat).
Definition read_out (v : view) (table : list A) (o n : nat) : Prop :=
  (length table <= n)%nat /\ forall j, (j < length table)%nat -> table !! j = v_hist v !! (o + j)%nat.

Definition thread_ok B r (v : view) (i : nat) (t : thread) : Prop :=
  match t with
  | Idle | ProdHead _ _ => True
  | ProdRoom objs b old => exists o, old = ix B o /\ (o <= v_ph v)%nat /\ (is_sp = true -> o = v_ph v)
  | ProdMove objs b old n => exists o, old = ix B o /\ (o <= v_ph v)%nat /\ (is_sp = true -> o = v_ph v) /\
      0 < n <= Z.of_nat (length objs) /\ (o = v_ph v -> Z.of_nat (v_ph v) + n <= Z.of_nat (v_ct v) + r_capacity r)
  | ProdCopy objs old n k => exists o, old = ix B o /\ 0 < n /\ (i, o, Z.to_nat n) ∈ v_segp v /\ written B r v objs o (Z.to_nat n) k
  | ProdTail objs old n => exists o, old = ix B o /\ 0 < n /\ (i, o, Z.to_nat n) ∈ v_segp v /\
      written B r v objs o (Z.to_nat n) (Z.to_nat n)
  | ConsHead max b => 0 <= max
  | ConsRoom max b old => 0 <= max /\ exists o, old = ix B o /\ (o <= v_ch v)%nat /\ (is_sc = true -> o = v_ch v)
  | ConsMove max b old n => 0 <= max /\ exists o, old = ix B o /\ (o <= v_ch v)%nat /\ (is_sc = true -> o = v_ch v) /\
      0 < n /\ (o = v_ch v -> Z.of_nat (v_ch v) + n <= Z.of_nat (v_pt v))
  | ConsCopy old n table => exists o, old = ix B o /\ 0 < n /\ (i, o, Z.to_nat n) ∈ v_segc v /\ read_out v table o (Z.to_nat n)
  | ConsTail old n table => exists o, old = ix B o /\ 0 < n /\ (i, o, Z.to_nat n) ∈ v_segc v /\ read_out v table o (Z.to_nat n) /\
      length table = Z.to_nat n
  end.

Definition copies_in (t : thread) : bool := match t with ProdCopy _ _ _ _ | ProdTail _ _ _ => true | _ => false end.
Definition copies_out (t : thread) : bool := match t with ConsCopy _ _ _ | ConsTail _ _ _ => true | _ => false end.

Record sys_ok B (s : sys) (v : view) : Prop := {
  so_core : core_ok B (s_ring s) v;
  so_threads : forall i t, s_threads s !! i = Some t -> thread_ok B (s_ring s) v i t;
  so_segp : forall i o n, (i, o, n) ∈ v_segp v -> exists t, s_threads s !! i = Some t /\ copies_in t = true;
  so_segc : forall i o n, (i, o, n) ∈ v_segc v -> exists t, s_threads s !! i = Some t /\ copies_out t = true;
  so_sp : is_sp = true -> forall i j t u, s_threads s !! i = Some t -> s_threads s !! j = Some u ->
    producer t = true -> producer u = true -> i = j;
  so_sc : is_sc = true -> forall i j t u, s_threads s !! i = Some t -> s_threads s !! j = Some u ->
    consumer t = true -> consumer u = true -> i = j }.

(** Only one thread moves. *)
Lemma sys_update B s v r' v' i t t' :
  sys_ok B s v -> s_threads s !! i = Some t -> core_ok B r' v' -> thread_ok B r' v' i t' ->
  (forall j u, j <> i -> s_threads s !! j = Some u -> thread_ok B (s_ring s) v j u -> thread_ok B r' v' j u) ->
  (forall j o n, (j, o, n) ∈ v_segp v' -> if decide (j = i) then copies_in t' = true else exists o n, (j, o, n) ∈ v_segp v) ->
  (forall j o n, (j, o, n) ∈ v_segc v' -> if decide (j = i) then copies_out t' = true else exists o n, (j, o, n) ∈ v_segc v) ->
  (producer t' = true -> producer t = true \/ (is_sp = true -> forall j u, s_threads s !! j = Some u -> producer u = false)) ->
  (consumer t' = true -> consumer t = true \/ (is_sc = true -> forall j u, s_threads s !! j = Some u -> consumer u = false)) ->
  sys_ok B (mk_sys r' (<[i := t']> (s_threads s))) v'.
Proof.
  intros [Hc Ht Hsp Hsc Hp Hq] Hi Hc' Hti Hoth Hsegp Hsegc Hprod Hcons.
  assert (i < length (s_threads s))%nat as Hlt by by eapply lookup_lt_Some.
  assert (forall j u, <[i := t']> (s_threads s) !! j = Some u -> (j = i /\ u = t') \/ (j <> i /\ s_threads s !! j = Some u)) as Hlook.
  { intros j u Hu. destruct (decide (j = i)) as [-> |]; [left | right; by rewrite list_lookup_insert_ne in Hu].
    rewrite list_lookup_insert_eq in Hu by done. by injection Hu. }
  constructor; cbn [s_ring s_threads]; [done | | | | |].
  - intros j u [[-> ->] | [Hj Hu]]%Hlook; [done |]. by apply Hoth; [| | apply Ht].
  - intros j o n Hj%Hsegp. destruct (decide (j = i)) as [-> |].
    + exists t'. by rewrite list_lookup_insert_eq.
    + destruct Hj as (o' & n' & Hj). destruct (Hsp _ _ _ Hj) as (u & Hu & Hin). exists u. by rewrite list_lookup_insert_ne.
  - intros j o n Hj%Hsegc. destruct (decide (j = i)) as [-> |].
    + exists t'. by rewrite list_lookup_insert_eq.
    + destruct Hj as (o' & n' & Hj). destruct (Hsc _ _ _ Hj) as (u & Hu & Hin). exists u. by rewrite list_lookup_insert_ne.
  - intros Hs j k u w [[-> ->] | [Hj Hu]]%Hlook [[-> ->] | [Hk Hw]]%Hlook H1 H2; [done | | |].
    + destruct (Hprod H1) as [Hpt | Hno]; [by apply (Hp Hs _ _ t w) | by rewrite (Hno Hs _ _ Hw) in H2].
    + destruct (Hprod H2) as [Hpt | Hno]; [by apply (Hp Hs _ _ u t) | by rewrite (Hno Hs _ _ Hu) in H1].
    + by apply (Hp Hs _ _ u w).
  - intros Hs j k u w [[-> ->] | [Hj Hu]]%Hlook [[-> ->] | [Hk Hw]]%Hlook H1 H2; [done | | |].
    + destruct (Hcons H1) as [Hpt | Hno]; [by apply (Hq Hs _ _ t w) | by rewrite (Hno Hs _ _ Hw) in H2].
    + destruct (Hcons H2) as [Hpt | Hno]; [by apply (Hq Hs _ _ u t) | by rewrite (Hno Hs _ _ Hu) in H1].
    + by apply (Hq Hs _ _ u w).
Qed.

(** What a thread knows stays true when others go on. *)
Lemma thread_ok_mono B r v r' v' i t : thread_ok B r v i t ->
  r_size r' = r_size r -> r_capacity r' = r_capacity r -> v_hist v `prefix_of` v_hist v' ->
  (v_ph v <= v_ph v')%nat -> (is_sp = true -> producer t = true -> v_ph v' = v_ph v) -> (v_ct v <= v_ct v')%nat ->
  (v_ch v <= v_ch v')%nat -> (is_sc = true -> consumer t = true -> v_ch v' = v_ch v) -> (v_pt v <= v_pt v')%nat ->
  (forall o n, (i, o, n) ∈ v_segp v -> (i, o, n) ∈ v_segp v' /\ (o + n <= length (v_hist v))%nat /\
    forall j, (j < n)%nat -> r_slots r' !! slot r (B + Z.of_nat (o + j)) = r_slots r !! slot r (B + Z.of_nat (o + j))) ->
  (forall o n, (i, o, n) ∈ v_segc v -> (i, o, n) ∈ v_segc v' /\ (o + n <= length (v_hist v))%nat) ->
  thread_ok B r' v' i t.
Proof.
  intros Ht Hsz Hcap Hpre Hph Hsp Hct Hch Hsc Hpt Hsegp Hsegc.
  assert (forall x, (x < length (v_hist v))%nat -> v_hist v' !! x = v_hist v !! x) as Hh.
  { intros x Hx. destruct Hpre as [k ->]. by apply lookup_app_l. }
  assert (forall objs o n k, (i, o, n) ∈ v_segp v -> written B r v objs o n k -> written B r' v' objs o n k) as Hwr.
  { intros objs o n k Hin (H1 & H2 & H3 & H4). destruct (Hsegp _ _ Hin) as (_ & Hl & Hs). split_and!; [done | done | |].
    - intros j Hj. rewrite Hh by lia. by apply H3.
    - intros j Hj. rewrite Hh by lia. assert (forall x, slot r' x = slot r x) as -> by (intros; unfold slot; by rewrite Hsz).
      rewrite Hs by lia. by apply H4. }
  assert (forall table o n, (i, o, n) ∈ v_segc v -> read_out v table o n -> read_out v' table o n) as Hrd.
  { intros table o n Hin [H1 H2]. destruct (Hsegc _ _ Hin) as [_ Hl]. split; [done |]. intros j Hj. rewrite Hh by lia. by apply H2. }
  destruct t as [| | objs b old | objs b old n | objs old n k | objs old n | | max b old | max b old n | old n table | old n table]; cbn in *; try done.
  - destruct Ht as (o & -> & Ho & Hs). exists o. split_and!; [done | lia |]. intros Hp. specialize (Hsp Hp eq_refl). specialize (Hs Hp). lia.
  - destruct Ht as (o & -> & Ho & Hs & Hn & Hr). exists o. split_and!; [done | lia | | lia | lia |].
    + intros Hp. specialize (Hsp Hp eq_refl). specialize (Hs Hp). lia.
    + intros He. rewrite Hcap. lia.
  - destruct Ht as (o & -> & Hn & Hin & Hw). exists o. split_and!; [done | done | by apply Hsegp | by apply Hwr].
  - destruct Ht as (o & -> & Hn & Hin & Hw). exists o. split_and!; [done | done | by apply Hsegp | by apply Hwr].
  - destruct Ht as (Hm & o & -> & Ho & Hs). split; [done |]. exists o. split_and!; [done | lia |]. intros Hp. specialize (Hsc Hp eq_refl). specialize (Hs Hp). lia.
  - destruct Ht as (Hm & o & -> & Ho & Hs & Hn & Hr). split; [done |]. exists o. split_and!; [done | lia | | lia |].
    + intros Hp. specialize (Hsc Hp eq_refl). specialize (Hs Hp). lia.
    + intros He. lia.
  - destruct Ht as (o & -> & Hn & Hin & Hw). exists o. split_and!; [done | done | by apply Hsegc | by apply Hrd].
  - destruct Ht as (o & -> & Hn & Hin & Hw & Hl). exists o. split_and!; [done | done | by apply Hsegc | by apply Hrd | done].
Qed.

(** ** The steps *)

Lemma ix_inj B x y : ix B x = ix B y -> - 2 ^ 32 < Z.of_nat x - Z.of_nat y < 2 ^ 32 -> x = y.
Proof. intros H Hd. unfold ix, wrap in H. apply mod_near in H; lia. Qed.
Lemma ix_add B x n : 0 <= n -> u32 (ix B x + n) = ix B (x + Z.to_nat n).
Proof. intros Hn. unfold ix, wrap. rewrite Zplus_mod_idemp_l. f_equal. lia. Qed.
Lemma slot_ix B r x k : ring_wf r -> slot r (ix B x + Z.of_nat k) = slot r (B + Z.of_nat (x + k)).
Proof.
  intros Hr. rewrite <- slot_u32 by done. unfold ix, wrap. rewrite Zplus_mod_idemp_l.
  fold (wrap 32 (B + Z.of_nat x + Z.of_nat k)). rewrite slot_u32 by done. f_equal. lia.
Qed.

Lemma core_bounds B r v : core_ok B r v ->
  (v_ct v <= v_ch v <= v_pt v)%nat /\ (v_pt v <= v_ph v)%nat /\
  Z.of_nat (v_ph v) - Z.of_nat (v_ct v) <= r_capacity r < r_size r /\ r_size r <= 2 ^ 31.
Proof.
  intros []. apply chain_le in co_segp0, co_segc0. pose proof (wf_bounds r co_wf0) as [? _].
  pose proof (wf_capacity r co_wf0). lia.
Qed.
Lemma prod_room_view B r v : core_ok B r v ->
  prod_room r (ix B (v_ph v)) = Z.of_nat (v_ct v) + r_capacity r - Z.of_nat (v_ph v).
Proof.
  intros H. pose proof (core_bounds B r v H). destruct H. unfold prod_room. rewrite co_ct0. unfold ix, wrap.
  rewrite Zminus_mod_idemp_r, Zminus_mod, Zplus_mod_idemp_r, <- Zminus_mod. rewrite Z.mod_small; lia.
Qed.
Lemma cons_room_view B r v : core_ok B r v ->
  cons_room r (ix B (v_ch v)) = Z.of_nat (v_pt v) - Z.of_nat (v_ch v).
Proof.
  intros H. pose proof (core_bounds B r v H). destruct H. unfold cons_room. rewrite co_pt0. unfold ix, wrap.
  rewrite <- Zminus_mod. rewrite Z.mod_small; lia.
Qed.

(** A step that leaves the ring as it is. *)
Lemma sys_quiet B s v i t t' : sys_ok B s v -> s_threads s !! i = Some t -> thread_ok B (s_ring s) v i t' ->
  copies_in t' = copies_in t -> copies_out t' = copies_out t ->
  (producer t' = true -> producer t = true \/ (is_sp = true -> forall j u, s_threads s !! j = Some u -> producer u = false)) ->
  (consumer t' = true -> consumer t = true \/ (is_sc = true -> forall j u, s_threads s !! j = Some u -> consumer u = false)) ->
  sys_ok B (mk_sys (s_ring s) (<[i := t']> (s_threads s))) v.
Proof.
  intros H Hi Ht' Hin Hout Hp Hc. apply (sys_update B s v _ v i t t'); try done; [by destruct H | |].
  - intros j o n Hj. destruct (decide (j = i)) as [-> |]; [| eauto].
    destruct (so_segp B s v H _ _ _ Hj) as (u & Hu & Hcu). congruence.
  - intros j o n Hj. destruct (decide (j = i)) as [-> |]; [| eauto].
    destruct (so_segc B s v H _ _ _ Hj) as (u & Hu & Hcu). congruence.
Qed.

Lemma seg_range B r v i o n : core_ok B r v ->
  ((i, o, n) ∈ v_segp v -> (v_pt v <= o)%nat /\ (o + n <= v_ph v)%nat /\ (0 < n)%nat) /\
  ((i, o, n) ∈ v_segc v -> (v_ct v <= o)%nat /\ (o + n <= v_ch v)%nat /\ (0 < n)%nat).
Proof.
  intros []. split; intros Hin.
  - pose proof (chain_in _ _ _ _ _ _ co_segp0 Hin). lia.
  - pose proof (chain_in _ _ _ _ _ _ co_segc0 Hin). lia.
Qed.

(** Room for the objects of a producer is reserved. *)
Lemma sys_reserve B s v i objs b n : sys_ok B s v -> s_threads s !! i = Some (ProdMove objs b (ix B (v_ph v)) n) ->
  let r := s_ring s in
  let v' := mk_view (v_hist v ++ take (Z.to_nat n) objs) (v_ct v) (v_ch v) (v_pt v) (v_ph v + Z.to_nat n)
              (v_segp v ++ [(i, v_ph v, Z.to_nat n)]) (v_segc v) in
  0 < n <= Z.of_nat (length objs) -> Z.of_nat (v_ph v) + n <= Z.of_nat (v_ct v) + r_capacity r ->
  sys_ok B (mk_sys (r <| r_prod := (r_prod r) <| ht_head := u32 (ix B (v_ph v) + n) |> |>)
                   (<[i := ProdCopy objs (ix B (v_ph v)) n 0]> (s_threads s))) v'.
Proof.
  intros H Hi r v' Hn Hroom. pose proof (so_core B s v H) as Hcore. pose proof (core_bounds B r v Hcore) as Hb.
  assert (i ∉ tid <$> v_segp v) as Hfresh.
  { intros ([[i' o] m] & -> & Hin)%list_elem_of_fmap. destruct (so_segp B s v H _ _ _ Hin) as (u & Hu & Hcu).
    cbn in Hi. rewrite Hi in Hu. injection Hu as <-. done. }
  apply (sys_update B s v _ v' i (ProdMove objs b (ix B (v_ph v)) n)); cbn [s_ring]; try done.
  - destruct Hcore. constructor; cbn; try done.
    + by destruct co_wf0.
    + by rewrite ix_add by lia.
    + lia.
    + rewrite length_app, length_take. lia.
    + intros x Hx. rewrite lookup_app_l by lia. by apply co_slots0.
    + apply chain_snoc; [done | lia].
    + rewrite fmap_app. apply list.NoDup_app. split_and!; [done | | by apply NoDup_singleton].
      intros x Hx ->%list_elem_of_singleton. done.
  - exists (v_ph v). cbn. split_and!; [done | lia | apply elem_of_app; right; by apply list_elem_of_singleton |].
    split_and!; [lia | lia | | lia]. intros j Hj. change (v_hist v') with (v_hist v ++ take (Z.to_nat n) objs). rewrite lookup_app_r by (rewrite (co_hist B r v Hcore); lia).
    rewrite (co_hist B r v Hcore). rewrite lookup_take_lt by lia. f_equal. lia.
  - intros j u Hj Hu Hok. apply (thread_ok_mono B r v); cbn; try done; try lia.
    + by apply prefix_app_r.
    + intros Hs Hpu. exfalso. apply Hj. by apply (so_sp B s v H Hs _ _ u _ Hu Hi).
    + intros o m Hin. destruct (seg_range B r v j o m Hcore) as [Hsr _]. specialize (Hsr Hin). rewrite (co_hist B r v Hcore).
      split_and!; [apply elem_of_app; by left | lia | done].
    + intros o m Hin. destruct (seg_range B r v j o m Hcore) as [_ Hsr]. specialize (Hsr Hin). rewrite (co_hist B r v Hcore). split; [done | lia].
  - intros j o m [Hin | [= -> -> ->]%list_elem_of_singleton]%elem_of_app.
    + destruct (decide (j = i)) as [-> |]; [done | eauto].
    + by rewrite decide_True.
  - intros j o m Hin. destruct (decide (j = i)) as [-> |]; [| eauto].
    destruct (so_segc B s v H _ _ _ Hin) as (u & Hu & Hcu). rewrite Hi in Hu. by injection Hu as <-.
  - by left.
Qed.

(** An object is put into its slot, which nobody else uses. *)
Lemma sys_write B s v i objs old n k x : sys_ok B s v -> s_threads s !! i = Some (ProdCopy objs old n k) ->
  let r := s_ring s in
  Z.of_nat k < n -> objs !! k = Some x ->
  sys_ok B (mk_sys (r <| r_slots := <[slot r (old + Z.of_nat k) := x]> (r_slots r) |>)
                   (<[i := ProdCopy objs old n (S k)]> (s_threads s))) v.
Proof.
  intros H Hi r Hk Hx. pose proof (so_core B s v H) as Hcore. pose proof (core_bounds B r v Hcore) as Hb.
  pose proof (so_threads B s v H _ _ Hi) as (o & -> & Hn & Hin & Hw). pose proof (co_wf B r v Hcore) as Hr.
  destruct (seg_range B r v i o (Z.to_nat n) Hcore) as [Hsr _]. specialize (Hsr Hin).
  rewrite slot_ix by done. set (sl := slot r (B + Z.of_nat (o + k))). pose proof (slot_lt r (B + Z.of_nat (o + k)) Hr) as [Hlt _].
  assert (forall y, (v_ct v <= y < v_ph v)%nat -> y <> (o + k)%nat ->
    <[sl := x]> (r_slots r) !! slot r (B + Z.of_nat y) = r_slots r !! slot r (B + Z.of_nat y)) as Hkeep.
  { intros y Hy Hne. apply list_lookup_insert_ne. apply slot_ne; [done | lia | lia]. }
  apply (sys_update B s v _ v i (ProdCopy objs (ix B o) n k)); cbn [s_ring]; try done.
  - destruct Hcore. constructor; cbn; try done.
    + destruct co_wf0. constructor; cbn; try done. by rewrite length_insert.
    + intros y Hy. change (slot _ ?z) with (slot r z). rewrite Hkeep by lia. by apply co_slots0.
  - destruct Hw as (H1 & H2 & H3 & H4). exists o. split_and!; [done | done | done |]. split_and!; [done | lia | done |].
    intros j Hj. cbn. change (slot _ ?z) with (slot r z). destruct (decide (j = k)) as [-> |].
    + fold sl. rewrite list_lookup_insert_eq by done. rewrite H3 by lia. done.
    + rewrite Hkeep by lia. apply H4. lia.
  - intros j u Hj Hu Hok. apply (thread_ok_mono B r v); cbn; try done; try lia.
    + intros o' m Hin'. destruct (seg_range B r v j o' m Hcore) as [Hsr' _]. specialize (Hsr' Hin'). rewrite (co_hist B r v Hcore).
      split_and!; [done | lia |]. intros y Hy. apply Hkeep; [lia |].
      pose proof (chain_apart _ _ _ _ _ _ _ _ _ (co_segp B r v Hcore) Hin Hin' ltac:(done)). lia.
    + intros o' m Hin'. destruct (seg_range B r v j o' m Hcore) as [_ Hsr']. specialize (Hsr' Hin'). rewrite (co_hist B r v Hcore). split; [done | lia].
  - intros j o' m Hin'. destruct (decide (j = i)); [done | eauto].
  - intros j o' m Hin'. destruct (decide (j = i)) as [-> |]; [| eauto].
    destruct (so_segc B s v H _ _ _ Hin') as (u & Hu & Hcu). rewrite Hi in Hu. by injection Hu as <-.
  - by left.
Qed.

(** The thread at the tail gives its objects to the consumers. *)
Lemma sys_publish B s v i objs n : sys_ok B s v -> s_threads s !! i = Some (ProdTail objs (ix B (v_pt v)) n) ->
  (i, v_pt v, Z.to_nat n) ∈ v_segp v -> written B (s_ring s) v objs (v_pt v) (Z.to_nat n) (Z.to_nat n) -> 0 < n ->
  let r := s_ring s in
  let v' := mk_view (v_hist v) (v_ct v) (v_ch v) (v_pt v + Z.to_nat n) (v_ph v) (tail (v_segp v)) (v_segc v) in
  sys_ok B (mk_sys (r <| r_prod := (r_prod r) <| ht_tail := u32 (ix B (v_pt v) + n) |> |>) (<[i := Idle]> (s_threads s))) v'.
Proof.
  intros H Hi Hin Hw Hn r v'. pose proof (so_core B s v H) as Hcore. pose proof (core_bounds B r v Hcore) as Hb.
  destruct (chain_first _ _ _ _ _ (co_segp B r v Hcore) Hin) as [segs Hsegs].
  destruct Hw as (H1 & H2 & H3 & H4).
  assert (i ∉ tid <$> segs) as Hgone. { pose proof (co_ndp B r v Hcore) as Hnd. rewrite Hsegs in Hnd. by apply list.NoDup_cons in Hnd as [Hnd _]. }
  apply (sys_update B s v _ v' i (ProdTail objs (ix B (v_pt v)) n)); cbn [s_ring]; try done.
  - destruct Hcore. rewrite Hsegs in co_segp0, co_ndp0. cbn in co_segp0. destruct co_segp0 as (_ & _ & Hch).
    apply list.NoDup_cons in co_ndp0 as [_ Hnd]. pose proof (chain_le _ _ _ Hch). constructor; cbn; rewrite ?Hsegs; try done.
    + by destruct co_wf0.
    + by rewrite ix_add by lia.
    + lia.
    + intros y Hy. change (slot _ ?z) with (slot r z). destruct (decide (y < v_pt v)%nat); [apply co_slots0; lia |].
      specialize (H4 (y - v_pt v)%nat ltac:(lia)). by replace (v_pt v + (y - v_pt v))%nat with y in H4 by lia.
  - intros j u Hj Hu Hok. apply (thread_ok_mono B r v); cbn; try done; try lia.
    + intros o m Hin'. destruct (seg_range B r v j o m Hcore) as [Hsr _]. specialize (Hsr Hin'). rewrite (co_hist B r v Hcore).
      split_and!; [| lia | done]. rewrite Hsegs in Hin' |- *. apply elem_of_cons in Hin' as [[= -> -> ->] |]; done.
    + intros o m Hin'. destruct (seg_range B r v j o m Hcore) as [_ Hsr]. specialize (Hsr Hin'). rewrite (co_hist B r v Hcore). split; [done | lia].
  - intros j o m Hin'. cbn in Hin'. rewrite Hsegs in Hin' |- *. cbn in Hin'. destruct (decide (j = i)) as [-> |].
    + exfalso. apply Hgone, list_elem_of_fmap. by exists (i, o, m).
    + exists o, m. by right.
  - intros j o m Hin'. destruct (decide (j = i)) as [-> |]; [| eauto].
    destruct (so_segc B s v H _ _ _ Hin') as (u & Hu & Hcu). rewrite Hi in Hu. by injection Hu as <-.
Qed.

(** A consumer claims objects that are in the ring. *)
Lemma sys_claim B s v i max b n : sys_ok B s v -> s_threads s !! i = Some (ConsMove max b (ix B (v_ch v)) n) ->
  let r := s_ring s in
  let v' := mk_view (v_hist v) (v_ct v) (v_ch v + Z.to_nat n) (v_pt v) (v_ph v) (v_segp v) (v_segc v ++ [(i, v_ch v, Z.to_nat n)]) in
  0 < n -> Z.of_nat (v_ch v) + n <= Z.of_nat (v_pt v) ->
  sys_ok B (mk_sys (r <| r_cons := (r_cons r) <| ht_head := u32 (ix B (v_ch v) + n) |> |>)
                   (<[i := ConsCopy (ix B (v_ch v)) n []]> (s_threads s))) v'.
Proof.
  intros H Hi r v' Hn Hroom. pose proof (so_core B s v H) as Hcore. pose proof (core_bounds B r v Hcore) as Hb.
  assert (i ∉ tid <$> v_segc v) as Hfresh.
  { intros ([[i' o] m] & -> & Hin)%list_elem_of_fmap. destruct (so_segc B s v H _ _ _ Hin) as (u & Hu & Hcu).
    cbn in Hi. rewrite Hi in Hu. injection Hu as <-. done. }
  apply (sys_update B s v _ v' i (ConsMove max b (ix B (v_ch v)) n)); cbn [s_ring]; try done.
  - destruct Hcore. constructor; cbn; try done.
    + by destruct co_wf0.
    + by rewrite ix_add by lia.
    + lia.
    + apply chain_snoc; [done | lia].
    + rewrite fmap_app. apply list.NoDup_app. split_and!; [done | | by apply NoDup_singleton].
      intros x Hx ->%list_elem_of_singleton. done.
  - exists (v_ch v). cbn. split_and!; [done | lia | apply elem_of_app; right; by apply list_elem_of_singleton |].
    split; cbn; lia.
  - intros j u Hj Hu Hok. apply (thread_ok_mono B r v); cbn; try done; try lia.
    + intros Hs Hpu. exfalso. apply Hj. by apply (so_sc B s v H Hs _ _ u _ Hu Hi).
    + intros o m Hin. destruct (seg_range B r v j o m Hcore) as [Hsr _]. specialize (Hsr Hin). rewrite (co_hist B r v Hcore).
      split_and!; [done | lia | done].
    + intros o m Hin. destruct (seg_range B r v j o m Hcore) as [_ Hsr]. specialize (Hsr Hin). rewrite (co_hist B r v Hcore).
      split; [apply elem_of_app; by left | lia].
  - intros j o m Hin. destruct (decide (j = i)) as [-> |]; [| eauto].
    destruct (so_segp B s v H _ _ _ Hin) as (u & Hu & Hcu). rewrite Hi in Hu. by injection Hu as <-.
  - intros j o m [Hin | [= -> -> ->]%list_elem_of_singleton]%elem_of_app.
    + destruct (decide (j = i)) as [-> |]; [done | eauto].
    + by rewrite decide_True.
  - by left.
Qed.

(** The thread at the tail of the consumers frees the slots. *)
Lemma sys_finish B s v i n table : sys_ok B s v -> s_threads s !! i = Some (ConsTail (ix B (v_ct v)) n table) ->
  (i, v_ct v, Z.to_nat n) ∈ v_segc v -> 0 < n ->
  let r := s_ring s in
  let v' := mk_view (v_hist v) (v_ct v + Z.to_nat n) (v_ch v) (v_pt v) (v_ph v) (v_segp v) (tail (v_segc v)) in
  sys_ok B (mk_sys (r <| r_cons := (r_cons r) <| ht_tail := u32 (ix B (v_ct v) + n) |> |>) (<[i := Idle]> (s_threads s))) v'.
Proof.
  intros H Hi Hin Hn r v'. pose proof (so_core B s v H) as Hcore. pose proof (core_bounds B r v Hcore) as Hb.
  destruct (chain_first _ _ _ _ _ (co_segc B r v Hcore) Hin) as [segs Hsegs].
  assert (i ∉ tid <$> segs) as Hgone. { pose proof (co_ndc B r v Hcore) as Hnd. rewrite Hsegs in Hnd. by apply list.NoDup_cons in Hnd as [Hnd _]. }
  apply (sys_update B s v _ v' i (ConsTail (ix B (v_ct v)) n table)); cbn [s_ring]; try done.
  - destruct Hcore. rewrite Hsegs in co_segc0, co_ndc0. cbn in co_segc0. destruct co_segc0 as (_ & _ & Hch).
    apply list.NoDup_cons in co_ndc0 as [_ Hnd]. constructor; cbn; rewrite ?Hsegs; try done.
    + by destruct co_wf0.
    + by rewrite ix_add by lia.
    + lia.
    + intros y Hy. apply co_slots0. lia.
  - intros j u Hj Hu Hok. apply (thread_ok_mono B r v); cbn; try done; try lia.
    + intros o m Hin'. destruct (seg_range B r v j o m Hcore) as [Hsr _]. specialize (Hsr Hin'). rewrite (co_hist B r v Hcore).
      split_and!; [done | lia | done].
    + intros o m Hin'. destruct (seg_range B r v j o m Hcore) as [_ Hsr]. specialize (Hsr Hin'). rewrite (co_hist B r v Hcore). split; [| lia].
      rewrite Hsegs in Hin' |- *. apply elem_of_cons in Hin' as [[= -> -> ->] |]; done.
  - intros j o m Hin'. destruct (decide (j = i)) as [-> |]; [| eauto].
    destruct (so_segp B s v H _ _ _ Hin') as (u & Hu & Hcu). rewrite Hi in Hu. by injection Hu as <-.
  - intros j o m Hin'. cbn in Hin'. rewrite Hsegs in Hin' |- *. cbn in Hin'. destruct (decide (j = i)) as [-> |].
    + exfalso. apply Hgone, list_elem_of_fmap. by exists (i, o, m).
    + exists o, m. by right.
Qed.

(** A segment of the history. *)
Lemma take_segment (h l : list A) o : (o + length l <= length h)%nat -> (forall j, (j < length l)%nat -> h !! (o + j)%nat = l !! j) ->
  take (o + length l) h = take o h ++ l.
Proof.
  intros Hl Hj. apply list_eq_same_length with (n := (o + length l)%nat); [rewrite length_app, length_take; lia | rewrite length_take; lia |].
  intros i x y Hi Hx Hy. rewrite lookup_take_lt in Hx by lia. destruct (decide (i < o)%nat).
  - rewrite lookup_app_l, lookup_take_lt in Hy by (rewrite ?length_take; lia). congruence.
  - rewrite lookup_app_r in Hy by (rewrite length_take; lia). rewrite length_take, Nat.min_l in Hy by lia.
    rewrite <- Hj in Hy by lia. replace (o + (i - o))%nat with i in Hy by lia. congruence.
Qed.

(** A compare-and-set of an index takes it for another one only when 2^32
    objects came between. *)
Definition fresh (v : view) : Prop :=
  (is_sp = true \/ Z.of_nat (v_ph v) < 2 ^ 32) /\ (is_sc = true \/ Z.of_nat (v_ph v) < 2 ^ 32).

(** What a step does to the history that callers see. *)
Definition goes B (s : sys) (v : view) (l : label) (s' : sys) : Prop :=
  exists v', sys_ok B s' v' /\ r_capacity (s_ring s') = r_capacity (s_ring s) /\
    take (v_pt v') (v_hist v') = take (v_pt v) (v_hist v) ++ enqueued l /\
    take (v_ct v') (v_hist v') = take (v_ct v) (v_hist v) ++ dequeued l.

Lemma goes_quiet B s v s' : sys_ok B s' v -> s_ring s' = s_ring s -> goes B s v Silent s'.
Proof. intros H Hr. exists v. rewrite Hr. cbn. by rewrite !app_nil_r. Qed.

Lemma same_head r : r <| r_prod := (r_prod r) <| ht_head := ht_head (r_prod r) |> |> = r.
Proof. by destruct r as [? ? ? ? ? [] [] ?]. Qed.
Lemma same_cons_head r : r <| r_cons := (r_cons r) <| ht_head := ht_head (r_cons r) |> |> = r.
Proof. by destruct r as [? ? ? ? ? [] [] ?]. Qed.

Lemma moves_prod_head B s v i objs b old n : sys_ok B s v -> fresh v -> s_threads s !! i = Some (ProdMove objs b old n) ->
  exists r' t', thread_step (s_ring s) (ProdMove objs b old n) = Some (Silent, r', t') /\
    goes B s v Silent (mk_sys r' (<[i := t']> (s_threads s))).
Proof.
  intros H Hf Hi. pose proof (so_core B s v H) as Hcore.
  pose proof (so_threads B s v H _ _ Hi) as (o & -> & Ho & Hs & Hn & Hroom). cbn [thread_step].
  assert (o = v_ph v -> goes B s v Silent (mk_sys ((s_ring s) <| r_prod := (r_prod (s_ring s)) <| ht_head := u32 (ix B o + n) |> |>)
    (<[i := ProdCopy objs (ix B o) n 0]> (s_threads s)))) as Hgo.
  { intros ->. eexists. split; [apply (sys_reserve B s v i objs b n H Hi Hn); lia |]. cbn.
    rewrite !app_nil_r. pose proof (core_bounds B (s_ring s) v Hcore). rewrite !take_app_le by (rewrite (co_hist _ _ _ Hcore); lia). done. }
  destruct is_sp eqn:Esp.
  - eexists _, _. split; [reflexivity |]. apply Hgo. by apply Hs.
  - unfold atomic32_cmpset. rewrite (co_ph _ _ _ Hcore). destruct (Z.eqb_spec (ix B (v_ph v)) (ix B o)) as [He | Hne].
    + eexists _, _. split; [reflexivity |]. apply Hgo. apply ix_inj in He; [done |]. destruct Hf as [[Hf | Hf] _]; [congruence | lia].
    + eexists _, _. split; [reflexivity |]. rewrite <- (co_ph _ _ _ Hcore), same_head. apply goes_quiet; [| done].
      apply (sys_quiet B s v i (ProdMove objs b (ix B o) n)); try done. by left.
Qed.

Lemma moves_cons_head B s v i max b old n : sys_ok B s v -> fresh v -> s_threads s !! i = Some (ConsMove max b old n) ->
  exists r' t', thread_step (s_ring s) (ConsMove max b old n) = Some (Silent, r', t') /\
    goes B s v Silent (mk_sys r' (<[i := t']> (s_threads s))).
Proof.
  intros H Hf Hi. pose proof (so_core B s v H) as Hcore. pose proof (core_bounds B (s_ring s) v Hcore) as Hb.
  pose proof (so_threads B s v H _ _ Hi) as (Hm & o & -> & Ho & Hs & Hn & Hroom). cbn [thread_step].
  assert (o = v_ch v -> goes B s v Silent (mk_sys ((s_ring s) <| r_cons := (r_cons (s_ring s)) <| ht_head := u32 (ix B o + n) |> |>)
    (<[i := ConsCopy (ix B o) n []]> (s_threads s)))) as Hgo.
  { intros ->. eexists. split; [apply (sys_claim B s v i max b n H Hi Hn); lia |]. cbn. by rewrite !app_nil_r. }
  destruct is_sc eqn:Esc.
  - eexists _, _. split; [reflexivity |]. apply Hgo. by apply Hs.
  - unfold atomic32_cmpset. rewrite (co_ch _ _ _ Hcore). destruct (Z.eqb_spec (ix B (v_ch v)) (ix B o)) as [He | Hne].
    + eexists _, _. split; [reflexivity |]. apply Hgo. apply ix_inj in He; [done |]. destruct Hf as [_ [Hf | Hf]]; [congruence | lia].
    + eexists _, _. split; [reflexivity |]. rewrite <- (co_ch _ _ _ Hcore), same_cons_head. apply goes_quiet; [| done].
      apply (sys_quiet B s v i (ConsMove max b (ix B o) n)); try done. by left.
Qed.

(** In the mode for a single caller nobody else has objects under way. *)
Lemma only_segment a b segs i o n : chain a segs b -> NoDup (tid <$> segs) ->
  (forall j o n, (j, o, n) ∈ segs -> j = i) -> (i, o, n) ∈ segs -> o = a.
Proof.
  intros Hc Hnd Honly Hin. destruct segs as [| [[j o'] m] [| [[j' o''] m'] l]]; [by apply not_elem_of_nil in Hin | |].
  - apply list_elem_of_singleton in Hin as [= -> -> ->]. by destruct Hc as (-> & _).
  - assert (j = i) as -> by (apply (Honly j o' m); left). assert (j' = i) as -> by (apply (Honly j' o'' m'); right; left).
    apply list.NoDup_cons in Hnd as [Hnd _]. exfalso. apply Hnd. left.
Qed.

Lemma publishes B s v i objs old n : sys_ok B s v -> s_threads s !! i = Some (ProdTail objs old n) ->
  exists l r' t', thread_step (s_ring s) (ProdTail objs old n) = Some (l, r', t') /\
    goes B s v l (mk_sys r' (<[i := t']> (s_threads s))).
Proof.
  intros H Hi. pose proof (so_core B s v H) as Hcore. pose proof (core_bounds B (s_ring s) v Hcore) as Hb.
  pose proof (so_threads B s v H _ _ Hi) as (o & -> & Hn & Hin & Hw). cbn [thread_step].
  destruct (seg_range B _ v i o (Z.to_nat n) Hcore) as [Hsr _]. specialize (Hsr Hin).
  assert (o = v_pt v -> goes B s v (Enqueued (take (Z.to_nat n) objs))
    (mk_sys ((s_ring s) <| r_prod := (r_prod (s_ring s)) <| ht_tail := u32 (ix B o + n) |> |>) (<[i := Idle]> (s_threads s)))) as Hgo.
  { intros ->. eexists. split; [by apply (sys_publish B s v i objs n H Hi Hin Hw) |]. cbn. rewrite app_nil_r. split_and!; try done.
    destruct Hw as (H1 & _ & H3 & _). replace (Z.to_nat n) with (length (take (Z.to_nat n) objs)) at 1 by (rewrite length_take; lia).
    apply take_segment; [rewrite length_take, (co_hist _ _ _ Hcore); lia |].
    intros j Hj. rewrite length_take in Hj. rewrite lookup_take_lt by lia. apply H3. lia. }
  unfold update_tail. rewrite (co_pt _ _ _ Hcore). destruct is_sp eqn:Esp; cbn [negb andb].
  - eexists _, _, _. split; [reflexivity |]. apply Hgo. apply (only_segment _ _ _ i o _ (co_segp _ _ _ Hcore) (co_ndp _ _ _ Hcore)) in Hin; [done |].
    intros j o' m Hin'. destruct (so_segp B s v H _ _ _ Hin') as (u & Hu & Hcu).
    apply (so_sp B s v H Esp _ _ u _ Hu Hi); [by destruct u | done].
  - destruct (Z.eqb_spec (ix B (v_pt v)) (ix B o)) as [He | Hne]; cbn [negb].
    + eexists _, _, _. split; [reflexivity |]. apply Hgo. apply ix_inj in He; [done | lia].
    + eexists _, _, _. split; [reflexivity |]. apply goes_quiet; [| done].
      apply (sys_quiet B s v i (ProdTail objs (ix B o) n)); try done; [by apply (so_threads B s v H) | by left].
Qed.

Lemma finishes B s v i old n table : sys_ok B s v -> s_threads s !! i = Some (ConsTail old n table) ->
  exists l r' t', thread_step (s_ring s) (ConsTail old n table) = Some (l, r', t') /\
    goes B s v l (mk_sys r' (<[i := t']> (s_threads s))).
Proof.
  intros H Hi. pose proof (so_core B s v H) as Hcore. pose proof (core_bounds B (s_ring s) v Hcore) as Hb.
  pose proof (so_threads B s v H _ _ Hi) as (o & -> & Hn & Hin & [Hr1 Hr2] & Hl). cbn [thread_step].
  destruct (seg_range B _ v i o (Z.to_nat n) Hcore) as [_ Hsr]. specialize (Hsr Hin).
  assert (o = v_ct v -> goes B s v (Dequeued table)
    (mk_sys ((s_ring s) <| r_cons := (r_cons (s_ring s)) <| ht_tail := u32 (ix B o + n) |> |>) (<[i := Idle]> (s_threads s)))) as Hgo.
  { intros ->. eexists. split; [by apply (sys_finish B s v i n table H Hi Hin) |]. cbn. rewrite app_nil_r. split_and!; try done.
    rewrite <- Hl. apply take_segment; [rewrite (co_hist _ _ _ Hcore); lia |]. intros j Hj. symmetry. by apply Hr2. }
  unfold update_tail. rewrite (co_ct _ _ _ Hcore). destruct is_sc eqn:Esc; cbn [negb andb].
  - eexists _, _, _. split; [reflexivity |]. apply Hgo. apply (only_segment _ _ _ i o _ (co_segc _ _ _ Hcore) (co_ndc _ _ _ Hcore)) in Hin; [done |].
    intros j o' m Hin'. destruct (so_segc B s v H _ _ _ Hin') as (u & Hu & Hcu).
    apply (so_sc B s v H Esc _ _ u _ Hu Hi); [by destruct u | done].
  - destruct (Z.eqb_spec (ix B (v_ct v)) (ix B o)) as [He | Hne]; cbn [negb].
    + eexists _, _, _. split; [reflexivity |]. apply Hgo. apply ix_inj in He; [done | lia].
    + eexists _, _, _. split; [reflexivity |]. apply goes_quiet; [| done].
      apply (sys_quiet B s v i (ConsTail (ix B o) n table)); try done; [by apply (so_threads B s v H) | by left].
Qed.

Lemma copies_one_in B s v i objs old n k : sys_ok B s v -> s_threads s !! i = Some (ProdCopy objs old n k) ->
  exists r' t', thread_step (s_ring s) (ProdCopy objs old n k) = Some (Silent, r', t') /\
    goes B s v Silent (mk_sys r' (<[i := t']> (s_threads s))).
Proof.
  intros H Hi. pose proof (so_core B s v H) as Hcore. pose proof (co_wf _ _ _ Hcore) as Hr.
  pose proof (so_threads B s v H _ _ Hi) as (o & Ho & Hn & Hin & Hw). pose proof Hw as (H1 & H2 & _). cbn [thread_step].
  destruct (Z.ltb_spec (Z.of_nat k) n) as [Hk | Hk].
  - destruct (lookup_lt_is_Some_2 objs k) as [x Hx]; [lia |]. rewrite get_lookup, Hx. cbn [mbind option_bind].
    rewrite wf_land, put_Some by (done || by apply slot_lt). cbn [mbind option_bind]. eexists _, _. split; [reflexivity |].
    exists v. cbn. rewrite !app_nil_r. split_and!; try done. by apply sys_write.
  - eexists _, _. split; [reflexivity |]. apply goes_quiet; [| done]. apply (sys_quiet B s v i (ProdCopy objs old n k)); try done; [| by left].
    exists o. split_and!; try done. by replace (Z.to_nat n) with k at 2 by lia.
Qed.

Lemma copies_one_out B s v i old n table : sys_ok B s v -> s_threads s !! i = Some (ConsCopy old n table) ->
  exists t', thread_step (s_ring s) (ConsCopy old n table) = Some (Silent, s_ring s, t') /\
    goes B s v Silent (mk_sys (s_ring s) (<[i := t']> (s_threads s))).
Proof.
  intros H Hi. pose proof (so_core B s v H) as Hcore. pose proof (co_wf _ _ _ Hcore) as Hr. pose proof (core_bounds _ _ _ Hcore) as Hb.
  pose proof (so_threads B s v H _ _ Hi) as (o & -> & Hn & Hin & [H1 H2]). cbn [thread_step].
  destruct (seg_range B _ v i o (Z.to_nat n) Hcore) as [_ Hsr]. specialize (Hsr Hin).
  destruct (Z.ltb_spec (Z.of_nat (length table)) n) as [Hk | Hk].
  - rewrite wf_land, slot_ix, get_lookup, (co_slots _ _ _ Hcore) by (done || lia).
    destruct (lookup_lt_is_Some_2 (v_hist v) (o + length table)) as [x Hx]; [rewrite (co_hist _ _ _ Hcore); lia |].
    rewrite Hx. cbn [mbind option_bind]. eexists. split; [reflexivity |]. apply goes_quiet; [| done].
    apply (sys_quiet B s v i (ConsCopy (ix B o) n table)); try done; [| by left].
    exists o. split_and!; try done. split; [rewrite length_app; cbn; lia |].
    intros j Hj. rewrite length_app in Hj. cbn in Hj. destruct (decide (j < length table)%nat).
    + rewrite lookup_app_l by done. by apply H2.
    + replace j with (length table) by lia. by rewrite lookup_app_r, Nat.sub_diag.
  - eexists. split; [reflexivity |]. apply goes_quiet; [| done]. apply (sys_quiet B s v i (ConsCopy (ix B o) n table)); try done; [| by left].
    exists o. split_and!; try done. lia.
Qed.

Lemma thread_step_ok B s v i t : sys_ok B s v -> fresh v -> s_threads s !! i = Some t ->
  exists l r' t', thread_step (s_ring s) t = Some (l, r', t') /\ goes B s v l (mk_sys r' (<[i := t']> (s_threads s))).
Proof.
  intros H Hf Hi. pose proof (so_core B s v H) as Hcore. pose proof (core_bounds _ _ _ Hcore) as Hb.
  pose proof (so_threads B s v H _ _ Hi) as Ht.
  destruct t as [| objs b | objs b old | objs b old n | objs old n k | objs old n | max b | max b old | max b old n | old n table | old n table].
  - eexists _, _, _. split; [reflexivity |]. apply goes_quiet; [| done]. by apply (sys_quiet B s v i Idle).
  - eexists _, _, _. split; [reflexivity |]. apply goes_quiet; [| done]. apply (sys_quiet B s v i (ProdHead objs b)); try done; [| by left].
    exists (v_ph v). by rewrite (co_ph _ _ _ Hcore).
  - eexists _, _, _. split; [reflexivity |]. apply goes_quiet; [| done]. destruct Ht as (o & -> & Ho & Hs).
    assert (0 <= prod_room (s_ring s) (ix B o)) as Hr by (apply (wrap_range 32); lia).
    pose proof (granted_range (Z.of_nat (length objs)) _ b ltac:(lia) Hr) as [Hg1 Hg2].
    destruct (Z.eqb_spec (granted (Z.of_nat (length objs)) (prod_room (s_ring s) (ix B o)) b) 0).
    { by apply (sys_quiet B s v i (ProdRoom objs b (ix B o))). }
    apply (sys_quiet B s v i (ProdRoom objs b (ix B o))); try done; [| by left].
    exists o. split_and!; [done | done | done | lia | lia |]. intros ->. rewrite prod_room_view in * by done. lia.
  - destruct (moves_prod_head B s v i objs b old n H Hf Hi) as (r' & t' & ?). eauto.
  - destruct (copies_one_in B s v i objs old n k H Hi) as (r' & t' & ?). eauto.
  - by apply publishes.
  - eexists _, _, _. split; [reflexivity |]. apply goes_quiet; [| done]. apply (sys_quiet B s v i (ConsHead max b)); try done; [| by left].
    split; [done |]. exists (v_ch v). by rewrite (co_ch _ _ _ Hcore).
  - eexists _, _, _. split; [reflexivity |]. apply goes_quiet; [| done]. destruct Ht as (Hm & o & -> & Ho & Hs).
    assert (0 <= cons_room (s_ring s) (ix B o)) as Hr by (apply (wrap_range 32); lia).
    pose proof (granted_range max _ b Hm Hr) as [Hg1 Hg2].
    destruct (Z.eqb_spec (granted max (cons_room (s_ring s) (ix B o)) b) 0).
    { by apply (sys_quiet B s v i (ConsRoom max b (ix B o))). }
    apply (sys_quiet B s v i (ConsRoom max b (ix B o))); try done; [| by left].
    split; [done |]. exists o. split_and!; [done | done | done | lia |]. intros ->. rewrite cons_room_view in * by done. lia.
  - destruct (moves_cons_head B s v i max b old n H Hf Hi) as (r' & t' & ?). eauto.
  - destruct (copies_one_out B s v i old n table H Hi) as (t' & ?). eauto.
  - by apply finishes.
Qed.

Lemma threads_step_ok B s v l s' : sys_ok B s v -> fresh v -> sys_step s l s' -> goes B s v l s'.
Proof.
  intros H Hf Hstep. destruct Hstep as [s i objs b Hi Hsp | s i max b Hi Hm Hsc | s i t l r t' Hi Ht].
  - apply goes_quiet; [| done]. apply (sys_quiet B s v i Idle); try done. by right.
  - apply goes_quiet; [| done]. apply (sys_quiet B s v i Idle); try done. by right.
  - destruct (thread_step_ok B s v i t H Hf Hi) as (l' & r' & t'' & He & Hg). rewrite Ht in He. injection He as -> -> ->. done.
Qed.

(** ** Runs *)

Definition enqueued_by (ls : list label) : list A := concat (enqueued <$> ls).
Definition dequeued_by (ls : list label) : list A := concat (dequeued <$> ls).

(** Fewer than 2^32 objects go through a ring that several threads write to or
    read from; a ring with one thread at each end has no such limit. *)
Definition no_reuse (start : nat) (ls : list label) (capacity : Z) : Prop :=
  (is_sp = true /\ is_sc = true) \/ Z.of_nat (start + length (enqueued_by ls)) + capacity < 2 ^ 32.

Lemma no_reuse_fresh B s v ls : sys_ok B s v -> no_reuse (v_pt v) ls (r_capacity (s_ring s)) -> fresh v.
Proof.
  intros H [[H1 H2] | Hl]; [split; by left |]. pose proof (core_bounds _ _ _ (so_core _ _ _ H)). split; right; lia.
Qed.

Lemma threads_run_ok B s v ls s' : sys_ok B s v -> sys_run s ls s' -> no_reuse (v_pt v) ls (r_capacity (s_ring s)) ->
  exists v', sys_ok B s' v' /\ r_capacity (s_ring s') = r_capacity (s_ring s) /\ fresh v' /\
    take (v_pt v') (v_hist v') = take (v_pt v) (v_hist v) ++ enqueued_by ls /\
    take (v_ct v') (v_hist v') = take (v_ct v) (v_hist v) ++ dequeued_by ls.
Proof.
  intros H Hrun. revert v H. induction Hrun as [s | s1 l s2 ls s3 Hstep Hrun IH]; intros v H Hlim.
  { exists v. cbn. rewrite !app_nil_r. split_and!; try done. by apply (no_reuse_fresh B s v []). }
  destruct (threads_step_ok B s1 v l s2 H (no_reuse_fresh _ _ _ _ H Hlim) Hstep) as (v2 & H2 & Hcap & Hp & Hc).
  pose proof (core_bounds _ _ _ (so_core _ _ _ H)) as Hb. pose proof (core_bounds _ _ _ (so_core _ _ _ H2)) as Hb2.
  destruct (IH v2 H2) as (v3 & H3 & Hcap3 & Hf & Hp3 & Hc3).
  { destruct Hlim as [Hl | Hl]; [by left | right]. rewrite Hcap. unfold enqueued_by in *. cbn in Hl. rewrite length_app in Hl.
    apply (f_equal length) in Hp. rewrite length_app, !length_take in Hp.
    rewrite (co_hist _ _ _ (so_core _ _ _ H)), (co_hist _ _ _ (so_core _ _ _ H2)) in Hp. lia. }
  exists v3. rewrite Hp3, Hc3, Hp, Hc, Hcap3, Hcap, <- !app_assoc. done.
Qed.

(** A ring that nobody is at work on, and back. *)
Lemma quiet_start r q n : holds_queue r q ->
  sys_ok (ht_tail (r_cons r)) (mk_sys r (replicate n Idle)) (mk_view q 0 0 (length q) (length q) [] []).
Proof.
  intros [Hr Hp Hc Hc2 Hn Hb Hs].
  assert (ix (ht_tail (r_cons r)) 0 = ht_tail (r_cons r)) as H0 by (unfold ix; rewrite Z.add_0_r; by apply wrap_small).
  assert (forall i t, replicate n (@Idle) !! i = Some t -> t = Idle) as Hidle by (intros i t [-> _]%lookup_replicate; done).
  constructor; cbn.
  - constructor; cbn; try done; try (by rewrite H0); try lia; try constructor.
    + by rewrite Hp.
    + intros x Hx. apply Hs. lia.
  - by intros i t ->%Hidle.
  - intros i o m Hin. by apply not_elem_of_nil in Hin.
  - intros i o m Hin. by apply not_elem_of_nil in Hin.
  - by intros _ i j t u ->%Hidle.
  - by intros _ i j t u ->%Hidle.
Qed.

Lemma quiet_end B s v : sys_ok B s v -> Forall (fun t => t = Idle) (s_threads s) -> holds_queue (s_ring s) (drop (v_ct v) (v_hist v)).
Proof.
  intros H Hidle. pose proof (so_core _ _ _ H) as Hcore. pose proof (core_bounds _ _ _ Hcore) as Hb.
  assert (v_segp v = []) as Hp.
  { destruct (v_segp v) as [| [[i o] n] l] eqn:E; [done |]. destruct (so_segp B s v H i o n) as (t & Ht & Hc); [rewrite E; left |].
    by rewrite (Forall_lookup_1 _ _ _ _ Hidle Ht) in Hc. }
  assert (v_segc v = []) as Hq.
  { destruct (v_segc v) as [| [[i o] n] l] eqn:E; [done |]. destruct (so_segc B s v H i o n) as (t & Ht & Hc); [rewrite E; left |].
    by rewrite (Forall_lookup_1 _ _ _ _ Hidle Ht) in Hc. }
  destruct Hcore. rewrite Hp in co_segp0. rewrite Hq in co_segc0. cbn in co_segp0, co_segc0.
  assert (forall x, slot (s_ring s) (ht_tail (r_cons (s_ring s)) + Z.of_nat x) = slot (s_ring s) (B + Z.of_nat (v_ct v + x))) as Hsl.
  { intros x. rewrite co_ct0. by apply slot_ix. }
  constructor; try done.
  - by rewrite co_ph0, co_pt0, co_segp0.
  - by rewrite co_ch0, co_ct0, co_segc0.
  - rewrite co_ct0. apply (wrap_range 32). lia.
  - rewrite co_pt0, co_ct0, length_drop, co_hist0, ix_add by lia. f_equal. lia.
  - rewrite length_drop, co_hist0. lia.
  - intros i Hi. rewrite length_drop, co_hist0 in Hi. rewrite Hsl, lookup_drop. apply co_slots0. lia.
Qed.

(** Somebody is always at work: the oldest call waits for nobody. *)
Lemma one_segment (segs : list (nat * nat * nat)) i o n o' n' : NoDup (tid <$> segs) -> (i, o, n) ∈ segs -> (i, o', n') ∈ segs -> o' = o.
Proof.
  intros Hnd H1 H2. apply list_elem_of_lookup_1 in H1 as [x Hx], H2 as [y Hy].
  assert (x = y) as <-; [| rewrite Hx in Hy; by injection Hy].
  apply (NoDup_lookup _ x y i Hnd); by rewrite list_lookup_fmap, ?Hx, ?Hy.
Qed.

Lemma first_producer_goes B s v j n u l r u' : sys_ok B s v -> (j, v_pt v, n) ∈ v_segp v -> s_threads s !! j = Some u ->
  thread_step (s_ring s) u = Some (l, r, u') -> u' <> u.
Proof.
  intros H Hin Hj He ->. pose proof (so_core _ _ _ H) as Hcore. destruct (so_segp B s v H _ _ _ Hin) as (w & Hw & Hcw).
  rewrite Hj in Hw. injection Hw as <-. pose proof (so_threads B s v H _ _ Hj) as Hok.
  destruct u as [| | | | objs old m k | objs old m | | | | |]; try done; cbn in He.
  - destruct (Z.of_nat k <? m); [| done]. apply bind_Some in He as (x & _ & He). apply bind_Some in He as (sl & _ & [= _ _ E]). lia.
  - destruct Hok as (o & -> & Hm & Hin' & _). rewrite (one_segment _ _ _ _ _ _ (co_ndp _ _ _ Hcore) Hin Hin') in He.
    unfold update_tail in He. by rewrite (co_pt _ _ _ Hcore), Z.eqb_refl, andb_false_r in He.
Qed.
Lemma first_consumer_goes B s v j n u l r u' : sys_ok B s v -> (j, v_ct v, n) ∈ v_segc v -> s_threads s !! j = Some u ->
  thread_step (s_ring s) u = Some (l, r, u') -> u' <> u.
Proof.
  intros H Hin Hj He ->. pose proof (so_core _ _ _ H) as Hcore. destruct (so_segc B s v H _ _ _ Hin) as (w & Hw & Hcw).
  rewrite Hj in Hw. injection Hw as <-. pose proof (so_threads B s v H _ _ Hj) as Hok.
  destruct u as [| | | | | | | | | old m table | old m table]; try done; cbn in He.
  - destruct (Z.of_nat (length table) <? m); [| done]. apply bind_Some in He as (x & _ & [= _ _ E]).
    apply (f_equal length) in E. rewrite length_app in E. cbn in E. lia.
  - destruct Hok as (o & -> & Hm & Hin' & _). rewrite (one_segment _ _ _ _ _ _ (co_ndc _ _ _ Hcore) Hin Hin') in He.
    unfold update_tail in He. by rewrite (co_ct _ _ _ Hcore), Z.eqb_refl, andb_false_r in He.
Qed.
Lemma outside_goes r t l r' t' : copies_in t = false -> copies_out t = false -> t <> Idle ->
  thread_step r t = Some (l, r', t') -> t' <> t.
Proof.
  intros Hin Hout Hne He. destruct t; try done; cbn in He.
  - injection He as _ _ <-. done.
  - injection He as _ _ <-. by destruct (_ =? 0).
  - destruct is_sp; [by injection He as _ _ <- |]. unfold atomic32_cmpset in He. destruct (_ =? _); by injection He as _ _ <-.
  - injection He as _ _ <-. done.
  - injection He as _ _ <-. by destruct (_ =? 0).
  - destruct is_sc; [by injection He as _ _ <- |]. unfold atomic32_cmpset in He. destruct (_ =? _); by injection He as _ _ <-.
Qed.

Definition someone_goes (s : sys) : Prop :=
  exists j u l r u', s_threads s !! j = Some u /\ u <> Idle /\ thread_step (s_ring s) u = Some (l, r, u') /\ u' <> u.

Lemma some_thread_goes B s v i t : sys_ok B s v -> fresh v -> s_threads s !! i = Some t -> t <> Idle -> someone_goes s.
Proof.
  intros H Hf Hi Ht. pose proof (so_core _ _ _ H) as Hcore. pose proof (so_threads B s v H _ _ Hi) as Hok.
  assert (forall j u, s_threads s !! j = Some u -> u <> Idle ->
    (forall l r u', thread_step (s_ring s) u = Some (l, r, u') -> u' <> u) -> someone_goes s) as Hgo.
  { intros j u Hj Hne Hu. destruct (thread_step_ok B s v j u H Hf Hj) as (l & r & u' & He & _). exists j, u, l, r, u'. eauto. }
  destruct (copies_in t) eqn:Ein; [| destruct (copies_out t) eqn:Eout].
  - assert (exists o n, (i, o, n) ∈ v_segp v) as (o & n & Hin) by (destruct t; try done; destruct Hok as (o & _ & _ & Hin & _); eauto).
    pose proof (co_segp _ _ _ Hcore) as Hch. destruct (v_segp v) as [| [[j o'] m] segs] eqn:E; [by apply not_elem_of_nil in Hin |].
    destruct Hch as (-> & _). assert ((j, v_pt v, m) ∈ v_segp v) as Hj by (rewrite E; left).
    destruct (so_segp B s v H _ _ _ Hj) as (u & Hu & Hcu). apply (Hgo j u Hu); [by destruct u |].
    intros l r u'. by apply (first_producer_goes B s v j m).
  - assert (exists o n, (i, o, n) ∈ v_segc v) as (o & n & Hin) by (destruct t; try done; destruct Hok as (o & _ & _ & Hin & _); eauto).
    pose proof (co_segc _ _ _ Hcore) as Hch. destruct (v_segc v) as [| [[j o'] m] segs] eqn:E; [by apply not_elem_of_nil in Hin |].
    destruct Hch as (-> & _). assert ((j, v_ct v, m) ∈ v_segc v) as Hj by (rewrite E; left).
    destruct (so_segc B s v H _ _ _ Hj) as (u & Hu & Hcu). apply (Hgo j u Hu); [by destruct u |].
    intros l r u'. by apply (first_consumer_goes B s v j m).
  - apply (Hgo i t Hi Ht). intros l r t'. by apply outside_goes.
Qed.

(** ** A thread alone

    Its steps are those of the function of Ring.v. *)
Lemma run_app s1 ls1 s2 ls2 s3 : sys_run s1 ls1 s2 -> sys_run s2 ls2 s3 -> sys_run s1 (ls1 ++ ls2) s3.
Proof. induction 1; intros Hrun; cbn; [done |]. econstructor; eauto. Qed.
Lemma solo_step r t l r' t' : thread_step r t = Some (l, r', t') -> sys_run (mk_sys r [t]) [l] (mk_sys r' [t']).
Proof. intros H. econstructor; [| constructor]. by apply (thread_runs (mk_sys r [t]) 0 t l r' t'). Qed.

Lemma solo_copy_in objs h n mask k : forall r i slots, r_mask r = mask -> Z.of_nat (i + k) <= n ->
  one_by_one (fun idx i t => x ← get objs i; put t idx x) k mask (h + Z.of_nat i) (Z.of_nat i) (r_slots r) = Some slots ->
  exists ls, sys_run (mk_sys r [ProdCopy objs h n i]) ls (mk_sys (r <| r_slots := slots |>) [ProdCopy objs h n (i + k)]) /\
    enqueued_by ls = [].
Proof.
  induction k as [| k IH]; intros r i slots Hm Hn Hone; cbn [one_by_one] in Hone.
  { injection Hone as <-. exists []. rewrite Nat.add_0_r. split; [| done]. by destruct r; constructor. }
  apply bind_Some in Hone as (t & Hx & Hone).
  destruct (IH (r <| r_slots := t |>) (S i) slots) as (ls & Hrun & Hls); [done | lia | |].
  { cbn. replace (Z.of_nat (S i)) with (Z.of_nat i + 1) by lia. by rewrite Z.add_assoc. }
  exists (Silent :: ls). split; [| done]. replace (i + S k)%nat with (S i + k)%nat by lia.
  apply (run_app _ [Silent] _ ls _) with (2 := Hrun). apply solo_step. cbn. destruct (Z.ltb_spec (Z.of_nat i) n); [| lia].
  apply bind_Some in Hx as (x & -> & Hx). cbn. rewrite Hm, Hx. done.
Qed.

Lemma solo_copy_out r h n mask k : forall i table t, r_mask r = mask -> Z.of_nat (i + k) <= n -> (i <= length t)%nat -> table = take i t ->
  forall t', one_by_one (fun idx i t => x ← get (r_slots r) idx; put t i x) k mask (h + Z.of_nat i) (Z.of_nat i) t = Some t' ->
  exists ls, sys_run (mk_sys r [ConsCopy h n table]) ls (mk_sys r [ConsCopy h n (take (i + k) t')]) /\ dequeued_by ls = [].
Proof.
  induction k as [| k IH]; intros i table t Hm Hn Hi -> t' Hone; cbn [one_by_one] in Hone.
  { injection Hone as <-. exists []. rewrite Nat.add_0_r. split; [constructor | done]. }
  apply bind_Some in Hone as (t1 & Hx & Hone). apply bind_Some in Hx as (x & Hget & Hput).
  unfold put in Hput. destruct (Z.ltb_spec (Z.of_nat i) (Z.of_nat (length t))) as [Hlt |]; [| by rewrite andb_false_r in Hput].
  rewrite (proj2 (andb_true_iff _ _)), Nat2Z.id in Hput by lia. injection Hput as <-.
  assert (take (S i) (<[i := x]> t) = take i t ++ [x]) as Ht.
  { rewrite (take_S_r _ _ x) by (apply list_lookup_insert_eq; lia). by rewrite take_insert_ge by lia. }
  destruct (IH (S i) (take i t ++ [x]) (<[i := x]> t)) with (t' := t') as (ls & Hrun & Hls); [done | lia | rewrite length_insert; lia | done | |].
  { replace (Z.of_nat (S i)) with (Z.of_nat i + 1) by lia. by rewrite Z.add_assoc. }
  exists (Silent :: ls). split; [| done]. replace (i + S k)%nat with (S i + k)%nat by lia.
  apply (run_app _ [Silent] _ ls _) with (2 := Hrun). apply solo_step. cbn. rewrite length_take, Nat.min_l by lia.
  destruct (Z.ltb_spec (Z.of_nat i) n); [| lia]. rewrite Hm, Hget. done.
Qed.

Lemma solo_enqueue r q objs b : holds_queue r q ->
  exists n free r' ls, ring_do_enqueue r objs (Z.of_nat (length objs)) b is_sp = Some (n, free, r') /\
    sys_run (mk_sys r [ProdHead objs b]) ls (mk_sys r' [Idle]) /\ enqueued_by ls = take (Z.to_nat n) objs.
Proof.
  intros H. pose proof (prod_room_holds r q H) as Hroom. set (room := r_capacity r - Z.of_nat (length q)) in *.
  set (n := granted (Z.of_nat (length objs)) room b).
  destruct (move_prod_head_ok r q is_sp (Z.of_nat (length objs)) b H ltac:(lia)) as (next & r1 & Hmv & Hr1). fold room n in Hmv, Hr1.
  pose proof H as [Hr Hp Hc Hc2 Hn Hb Hs]. pose proof (wf_bounds r Hr) as [Hsz _]. pose proof (wf_capacity r Hr) as Hcap.
  pose proof (granted_range (Z.of_nat (length objs)) room b ltac:(lia) ltac:(lia)) as [Hg1 Hg2]. fold n in Hg1, Hg2.
  unfold ring_do_enqueue. rewrite Hmv. cbn [mbind option_bind].
  assert (sys_run (mk_sys r [ProdHead objs b]) [Silent; Silent]
    (mk_sys r [if n =? 0 then Idle else ProdMove objs b (ht_head (r_prod r)) n])) as Hrun.
  { apply (run_app _ [Silent] (mk_sys r [ProdRoom objs b (ht_head (r_prod r))]) [Silent]); apply solo_step; cbn; [done |]. by rewrite Hroom. }
  destruct (Z.eqb_spec n 0) as [-> | H0]; [subst r1; eexists _, _, _, _; split; [reflexivity |]; split; [exact Hrun | done] |].
  destruct Hr1 as [-> ->]. unfold ENQUEUE_PTRS. cbn [r_size r_mask r_slots set setter]. rewrite (copy_one_by_one _ r) by (done || lia).
  destruct (write_ok r objs Hr (Z.to_nat n) (r_slots r) (ht_tail (r_prod r)) 0) as (slots & Hcp & _); [done | lia | lia |].
  change (Z.of_nat 0) with 0 in Hcp. rewrite Hcp. cbn [mbind option_bind]. unfold update_tail. cbn [r_prod ht_tail set setter].
  rewrite Z.eqb_refl, andb_false_r. cbn [mbind option_bind]. rewrite Hp in Hrun.
  set (r2 := r <| r_prod := (r_prod r) <| ht_head := u32 (ht_tail (r_prod r) + n) |> |>).
  destruct (solo_copy_in objs (ht_tail (r_prod r)) n (r_mask r) (Z.to_nat n) r2 0 slots) as (ls & Hcopy & Hls);
    [done | lia | by rewrite Z.add_0_r |].
  assert (sys_run (mk_sys r [ProdMove objs b (ht_tail (r_prod r)) n]) [Silent] (mk_sys r2 [ProdCopy objs (ht_tail (r_prod r)) n 0])) as Hmove.
  { apply solo_step. cbn. unfold atomic32_cmpset. rewrite Hp, Z.eqb_refl. by destruct is_sp. }
  eexists _, _, _, _. split; [reflexivity |].
  split; [eapply run_app; [exact Hrun |]; eapply run_app; [exact Hmove |]; eapply run_app; [exact Hcopy |] |].
  - apply (run_app _ [Silent] (mk_sys (r2 <| r_slots := slots |>) [ProdTail objs (ht_tail (r_prod r)) n])
      [Enqueued (take (Z.to_nat n) objs)]); apply solo_step; cbn.
    + by destruct (Z.ltb_spec (Z.of_nat (Z.to_nat n)) n); [lia |].
    + unfold update_tail. cbn. by rewrite Z.eqb_refl, andb_false_r.
  - unfold enqueued_by in *. rewrite !fmap_app, !concat_app, Hls. cbn. by rewrite app_nil_r.
Qed.

Lemma solo_dequeue r q t b : holds_queue r q ->
  exists n available t' r' ls, ring_do_dequeue r t (Z.of_nat (length t)) b is_sc = Some (n, available, t', r') /\
    sys_run (mk_sys r [ConsHead (Z.of_nat (length t)) b]) ls (mk_sys r' [Idle]) /\ dequeued_by ls = take (Z.to_nat n) t'.
Proof.
  intros H. pose proof (cons_room_holds r q H) as Hroom. set (max := Z.of_nat (length t)). set (n := granted max (Z.of_nat (length q)) b).
  destruct (move_cons_head_ok r q is_sc max b H ltac:(lia)) as (next & r1 & Hmv & Hr1). fold n in Hmv, Hr1.
  pose proof H as [Hr Hp Hc Hc2 Hn Hb Hs]. pose proof (wf_bounds r Hr) as [Hsz _]. pose proof (wf_capacity r Hr) as Hcap.
  pose proof (granted_range max (Z.of_nat (length q)) b ltac:(lia) ltac:(lia)) as [Hg1 Hg2]. fold n in Hg1, Hg2.
  unfold ring_do_dequeue. rewrite Hmv. cbn [mbind option_bind].
  assert (sys_run (mk_sys r [ConsHead max b]) [Silent; Silent]
    (mk_sys r [if n =? 0 then Idle else ConsMove max b (ht_head (r_cons r)) n])) as Hrun.
  { apply (run_app _ [Silent] (mk_sys r [ConsRoom max b (ht_head (r_cons r))]) [Silent]); apply solo_step; cbn; [done |]. by rewrite Hroom. }
  destruct (Z.eqb_spec n 0) as [-> | H0]; [subst r1; eexists _, _, _, _, _; split; [reflexivity |]; split; [exact Hrun | done] |].
  destruct Hr1 as [-> ->]. unfold DEQUEUE_PTRS. cbn [r_size r_mask r_slots set setter]. rewrite (copy_one_by_one _ r) by (done || lia).
  destruct (read_ok r Hr (Z.to_nat n) t (ht_tail (r_cons r)) 0) as (vals & Hcp & Hl & _); [lia |].
  change (Z.of_nat 0) with 0 in Hcp. rewrite Hcp. cbn [mbind option_bind]. unfold update_tail. cbn [r_cons ht_tail set setter].
  rewrite Z.eqb_refl, andb_false_r. cbn [mbind option_bind]. rewrite Hc in Hrun.
  set (r2 := r <| r_cons := (r_cons r) <| ht_head := u32 (ht_tail (r_cons r) + n) |> |>). set (t' := take 0 t ++ _) in *.
  destruct (solo_copy_out r2 (ht_tail (r_cons r)) n (r_mask r) (Z.to_nat n) 0 [] t) with (t' := t') as (ls & Hcopy & Hls);
    [done | lia | lia | done | by rewrite Z.add_0_r |].
  assert (sys_run (mk_sys r [ConsMove max b (ht_tail (r_cons r)) n]) [Silent] (mk_sys r2 [ConsCopy (ht_tail (r_cons r)) n []])) as Hmove.
  { apply solo_step. cbn. unfold atomic32_cmpset. rewrite Hc, Z.eqb_refl. by destruct is_sc. }
  rewrite Nat.add_0_l in Hcopy. assert (length (take (Z.to_nat n) t') = Z.to_nat n) as Hlt.
  { unfold t'. rewrite length_take, !length_app, length_take, length_drop, Hl. lia. }
  eexists _, _, _, _, _. split; [reflexivity |].
  split; [eapply run_app; [exact Hrun |]; eapply run_app; [exact Hmove |]; eapply run_app; [exact Hcopy |] |].
  - apply (run_app _ [Silent] (mk_sys r2 [ConsTail (ht_tail (r_cons r)) n (take (Z.to_nat n) t')])
      [Dequeued (take (Z.to_nat n) t')]); apply solo_step; cbn [thread_step].
    + rewrite Hlt. by destruct (Z.ltb_spec (Z.of_nat (Z.to_nat n)) n); [lia |].
    + unfold update_tail. cbn. by rewrite Z.eqb_refl, andb_false_r.
  - unfold dequeued_by in *. rewrite !fmap_app, !concat_app, Hls. cbn. by rewrite app_nil_r.
Qed.
End threads.

(** C8: any number of threads that call the ring at the same time, in any
    interleaving of their accesses (single or multiple producers and consumers,
    with indices that wrap around at 2^32), never access memory out of bounds.
    What the callers took out is at every moment a prefix of what was in the
    ring and what was put in, in the order in which it became visible: no object
    is lost, duplicated or reordered, and at most the capacity is in the ring.
    When no call is under way the ring is the queue of what is left, and while
    one is, some thread can go on without waiting for another. *)
Theorem ring_threads_fifo {A} (is_sp is_sc : bool) (r : ring A) (q : list A) n ls s :
  holds_queue r q -> sys_run is_sp is_sc (mk_sys r (replicate n Idle)) ls s ->
  no_reuse is_sp is_sc (length q) ls (r_capacity r) ->
  exists rest, q ++ enqueued_by ls = dequeued_by ls ++ rest /\ Z.of_nat (length rest) <= r_capacity r /\
    (forall i t, s_threads s !! i = Some t -> is_Some (thread_step is_sp is_sc (s_ring s) t)) /\
    (Forall (fun t => t = Idle) (s_threads s) -> holds_queue (s_ring s) rest) /\
    (forall i t, s_threads s !! i = Some t -> t <> Idle -> someone_goes is_sp is_sc s).
Proof.
  intros H Hrun Hlim. pose proof (quiet_start is_sp is_sc r q n H) as H0.
  destruct (threads_run_ok is_sp is_sc _ _ _ ls s H0 Hrun Hlim) as (v & Hs & Hcap & Hf & Hp & Hc). cbn in Hp, Hc, Hcap.
  pose proof (so_core _ _ _ _ _ Hs) as Hcore. pose proof (core_bounds _ _ _ Hcore) as Hb.
  rewrite firstn_all in Hp. rewrite take_0, app_nil_l in Hc. exists (drop (v_ct v) (take (v_pt v) (v_hist v))).
  split; [| split; [| split; [| split]]].
  - rewrite <- Hp, <- Hc. rewrite <- (take_drop (v_ct v) (take (v_pt v) (v_hist v))) at 1. f_equal.
    rewrite take_take. f_equal. lia.
  - rewrite length_drop, length_take, <- Hcap. lia.
  - intros i t Hi. destruct (thread_step_ok is_sp is_sc _ _ _ _ _ Hs Hf Hi) as (l & r' & t' & -> & _). eauto.
  - intros Hidle. pose proof (quiet_end is_sp is_sc _ _ _ Hs Hidle) as Hq.
    pose proof (hq_count _ _ Hq) as Hn. rewrite length_drop, (co_hist _ _ _ Hcore), (co_ct _ _ _ Hcore), (co_pt _ _ _ Hcore), ix_add in Hn by lia.
    apply ix_inj in Hn; [| lia]. replace (take (v_pt v) (v_hist v)) with (v_hist v); [done |].
    symmetry. apply take_ge. rewrite (co_hist _ _ _ Hcore). lia.
  - intros i t Hi Ht. by apply (some_thread_goes is_sp is_sc _ _ _ i t Hs Hf).
Qed.

(** Two producers that meet, and a consumer, on a ring whose indices wrap. *)
Definition example_ring : ring Z :=
  mk_ring [] 0 4 3 3 (mk_headtail 4294967295 4294967295 false) (mk_headtail 4294967295 4294967295 false) [0; 0; 0; 0].
Lemma example_ring_empty : holds_queue example_ring [].
Proof. constructor; try done; try (cbn; lia). constructor; cbn; try lia. by exists 2. Qed.


(** A schedule, to run the model: which thread is next, and the calls. *)
Inductive action := Call (i : nat) (t : thread (A := Z)) | Run (i : nat).
Definition act (s : sys (A := Z)) (a : action) : option (label (A := Z) * sys (A := Z)) :=
  match a with
  | Call i t =>
      match s_threads s !! i, t with
      | Some Idle, ProdHead _ _ => Some (Silent, mk_sys (s_ring s) (<[i := t]> (s_threads s)))
      | Some Idle, ConsHead max _ => if 0 <=? max then Some (Silent, mk_sys (s_ring s) (<[i := t]> (s_threads s))) else None
      | _, _ => None
      end
  | Run i => t ← s_threads s !! i; '(l, r, t') ← thread_step false false (s_ring s) t;
             Some (l, mk_sys r (<[i := t']> (s_threads s)))
  end.
Fixpoint schedule (l : list action) (s : sys (A := Z)) : option (list (label (A := Z)) * sys (A := Z)) :=
  match l with
  | [] => Some ([], s)
  | a :: l => '(x, s) ← act s a; '(ls, s) ← schedule l s; Some (x :: ls, s)
  end.
Lemma schedule_run l : forall s ls s', schedule l s = Some (ls, s') -> sys_run false false s ls s'.
Proof.
  induction l as [| a l IH]; intros s ls s' H; cbn in H; [injection H as <- <-; constructor |].
  apply bind_Some in H as ([x s1] & Ha & H). apply bind_Some in H as ([ls1 s2] & Hs & [= <- <-]).
  apply (run_cons _ _ s x s1); [| by apply IH]. destruct a as [i t | i]; cbn in Ha.
  - destruct (s_threads s !! i) as [[] |] eqn:E; try done. destruct t; try done; [injection Ha as <- <-; by apply call_enqueue |].
    destruct (Z.leb_spec 0 max); [| done]. injection Ha as <- <-. by apply call_dequeue.
  - apply bind_Some in Ha as (t & Ht & Ha). apply bind_Some in Ha as ([[l' r] t'] & Hst & [= <- <-]). by apply (thread_runs _ _ s i t).
Qed.
Definition example_actions : list action :=
  [Call 0 (ProdHead [7] RING_QUEUE_FIXED); Call 1 (ProdHead [8] RING_QUEUE_FIXED); Run 0; Run 1; Run 0; Run 1; Run 0; Run 1;
   Run 1; Run 1; Run 1; Run 1; Run 1; Run 1; Run 0; Run 0; Run 0; Run 1; Call 2 (ConsHead 3 RING_QUEUE_VARIABLE);
   Run 2; Run 2; Run 2; Run 2; Run 2; Run 2; Run 2].

Lemma ring_threads_fifo_witness : exists ls s,
  sys_run false false (mk_sys example_ring (replicate 3 Idle)) ls s /\
  enqueued_by ls = [7; 8] /\ dequeued_by ls = [7; 8] /\ exists rest, [] ++ enqueued_by ls = dequeued_by ls ++ rest.
Proof.
  assert (exists ls s, sys_run false false (mk_sys example_ring (replicate 3 Idle)) ls s /\
    enqueued_by ls = [7; 8] /\ dequeued_by ls = [7; 8]) as (ls & s & Hrun & He & Hd).
  { eexists _, _. split; [apply (schedule_run example_actions); vm_compute; reflexivity | done]. }
  exists ls, s. split; [done |]. split; [done |]. split; [done |].
  destruct (ring_threads_fifo false false example_ring [] 3 ls s example_ring_empty Hrun) as (rest & Hrest & _); [| by exists rest].
  right. rewrite He. cbn. lia.
Defined.
