(* ===== verification/Mounts.v ===== *)
(** * Mounts and the paths of files

    user/mount.c with the helpers of user/string.h and user/utils.c: reading
    /proc/<pid>/mountinfo into mount entries, finding the mount of a file, and
    turning the names that the kernel recorded into the directory that the
    process sees. *)

From S2P Require Import Prelude Iovec PortConfig World Output Memory FileEvents.

(** ** Strings

    A string is the list of its characters; in memory a zero follows. Reading a
    string is reading bytes up to the zero, [None] when the memory ends before. *)
Definition c_str (s : list Z) : list Z := s ++ [0].
Definition is_string (s : list Z) : Prop := Forall (fun c => c <> 0) s.
Fixpoint cstring (l : list Z) : option (list Z) :=
  match l with [] => None | c :: l => if c =? 0 then Some [] else s ← cstring l; Some (c :: s) end.

(** One loop of [fast_strncat_trunc]: the characters copied from [src] when
    there is room for [room]. *)
Fixpoint copy_chars (src : list Z) (room : nat) : option (list Z) :=
  match src with
  | [] => None
  | c :: src =>
      if c =? 0 then Some [] else
      match room with O => Some [] | S room => s ← copy_chars src room; Some (c :: s) end
  end.
Definition fast_strncat_trunc (s1 s2 : list Z) (dst_len : Z) : option (list Z) :=
  let room := Z.to_nat (dst_len - 1) in
  a ← copy_chars s1 room;
  b ← copy_chars s2 (room - length a);
  Some (a ++ b).

(** The string that [strcpy_s_inline] leaves in a buffer of [dmax] bytes. *)
Definition strcpy_s_inline (dmax : Z) (src : list Z) : list Z :=
  let n := length src in
  let n := if dmax <? Z.of_nat n then Z.to_nat dmax else n in
  if 0 <? dmax - Z.of_nat n then take n src else take (Z.to_nat (dmax - 1)) src.

(** The digits of [value], with [n] places left in [temp]. *)
Fixpoint digits (n : nat) (value : Z) (acc : list Z) : option (list Z) :=
  if value <=? 0 then Some acc else
  match n with O => None | S n => digits n (value / 10) ((48 + value mod 10) :: acc) end.
Definition u32_to_str_safe (value bufsize : Z) : option (list Z) :=
  if bufsize =? 0 then Some [] else
  if value =? 0 then (if bufsize <? 2 then Some [] else Some [48]) else
  s ← digits 10 value [];
  if bufsize <=? Z.of_nat (length s) then Some [] else Some s.

(** The string of a buffer of [bufsize] bytes with [prefix] in front. *)
Definition prepend_prefix_safe (buffer : list Z) (bufsize : Z) (prefix : list Z) : list Z :=
  if (length prefix =? 0)%nat then buffer else
  if bufsize <? Z.of_nat (length prefix) + Z.of_nat (length buffer) + 1 then buffer else prefix ++ buffer.

(** [strrchr(s, c)]: the place of the last [c]. *)
Fixpoint strrchr (s : list Z) (c : Z) : option nat :=
  match s with
  | [] => None
  | x :: s => match strrchr s c with Some i => Some (S i) | None => if x =? c then Some O else None end
  end.

Definition starts (p s : list Z) : bool := bool_decide (take (length p) s = p).

(** ** Mount entries *)

Inductive fs_type_t := FS_TYPE_UNKNOWN | FS_TYPE_REGULAR | FS_TYPE_VIRTUAL | FS_TYPE_NETWORK.
#[export] Instance fs_type_eq_dec : EqDecision fs_type_t.
Proof. solve_decision. Defined.
Definition fs_num (t : fs_type_t) : Z :=
  match t with FS_TYPE_UNKNOWN => 0 | FS_TYPE_REGULAR => 1 | FS_TYPE_VIRTUAL => 2 | FS_TYPE_NETWORK => 3 end.

Record mount_entry := mk_mount_entry {
  me_mount_id : Z; me_s_dev : Z; me_file_type : fs_type_t;
  me_mount_point : list Z; me_mount_source : list Z; me_root : list Z }.

Definition fs_map : list (list Z * fs_type_t) :=
  [(str "ext4", FS_TYPE_REGULAR); (str "xfs", FS_TYPE_REGULAR); (str "proc", FS_TYPE_VIRTUAL);
   (str "sysfs", FS_TYPE_VIRTUAL); (str "nfs", FS_TYPE_NETWORK); (str "nfs4", FS_TYPE_NETWORK);
   (str "overlay", FS_TYPE_REGULAR); (str "ext2", FS_TYPE_REGULAR); (str "ext3", FS_TYPE_REGULAR);
   (str "btrfs", FS_TYPE_REGULAR); (str "f2fs", FS_TYPE_REGULAR); (str "zfs", FS_TYPE_REGULAR);
   (str "devtmpfs", FS_TYPE_VIRTUAL); (str "tmpfs", FS_TYPE_VIRTUAL); (str "cgroup", FS_TYPE_VIRTUAL);
   (str "cgroup2", FS_TYPE_VIRTUAL); (str "mqueue", FS_TYPE_VIRTUAL); (str "debugfs", FS_TYPE_VIRTUAL);
   (str "tracefs", FS_TYPE_VIRTUAL); (str "securityfs", FS_TYPE_VIRTUAL); (str "configfs", FS_TYPE_VIRTUAL);
   (str "pstore", FS_TYPE_VIRTUAL); (str "nfsd", FS_TYPE_VIRTUAL); (str "cifs", FS_TYPE_NETWORK);
   (str "smb3", FS_TYPE_NETWORK); (str "ceph", FS_TYPE_NETWORK); (str "glusterfs", FS_TYPE_NETWORK);
   (str "9p", FS_TYPE_NETWORK)].
Fixpoint find_fs_type (fstype : list Z) (l : list (list Z * fs_type_t)) : fs_type_t :=
  match l with
  | [] => FS_TYPE_UNKNOWN
  | (name, t) :: l => if bool_decide (fstype = name) then t else find_fs_type fstype l
  end.
Definition get_fs_type (fstype : list Z) : fs_type_t :=
  if starts (str "fuse") fstype then FS_TYPE_VIRTUAL else find_fs_type fstype fs_map.

(** ** [sscanf(line, "%d %d %d:%d %s %s %*[^-] - %s %s", ...)] *)

Definition skip_ws (s : list Z) : list Z := drop (skip_space s) s.
Definition scan_int (s : list Z) : option (Z * list Z) := '(v, n) ← scan_d s; Some (v, drop n s).
(** The characters before the first that satisfies [stop], and what is left. *)
Fixpoint span (stop : Z -> bool) (s : list Z) : list Z * list Z :=
  match s with
  | [] => ([], [])
  | c :: s' => if stop c then ([], s) else let '(a, b) := span stop s' in (c :: a, b)
  end.
Definition scan_word (stop : Z -> bool) (s : list Z) : option (list Z * list Z) :=
  let '(a, b) := span stop s in if (length a =? 0)%nat then None else Some (a, b).
Definition scan_s (s : list Z) : option (list Z * list Z) := scan_word is_space (skip_ws s).
Definition scan_char (c : Z) (s : list Z) : option (list Z) :=
  match s with x :: s => if x =? c then Some s else None | [] => None end.

Record mount_line := mk_mount_line {
  ml_id : Z; ml_parent : Z; ml_major : Z; ml_minor : Z; ml_root : list Z; ml_mount_point : list Z;
  ml_fs_type : list Z; ml_mount_source : list Z }.

(** A conversion writes outside its array, does not match, or gives a value. *)
Inductive scanned (A : Type) := Overflow | Mismatch | Scanned (x : A).
Arguments Overflow {A}.
Arguments Mismatch {A}.
Arguments Scanned {A} x.
#[export] Instance scanned_bind : MBind scanned := fun A B f m =>
  match m with Overflow => Overflow | Mismatch => Mismatch | Scanned x => f x end.
Definition match_of {A} (o : option A) : scanned A := match o with Some x => Scanned x | None => Mismatch end.
Definition scan_array (size : Z) (s : list Z) : scanned (list Z * list Z) :=
  r ← match_of (scan_s s); if size <=? Z.of_nat (length r.1) then Overflow else Scanned r.

Definition MAX_PATH_LENGTH : Z := 1024.
Definition sscanf_mount (line : list Z) : scanned mount_line :=
  '(id, s) ← match_of (scan_int line);
  '(parent, s) ← match_of (scan_int (skip_ws s));
  '(major, s) ← match_of (scan_int (skip_ws s));
  s ← match_of (scan_char 58 s);
  '(minor, s) ← match_of (scan_int s);
  '(root, s) ← scan_array MAX_PATH_LENGTH s;
  '(point, s) ← scan_array MAX_PATH_LENGTH s;
  '(_, s) ← match_of (scan_word (fun c => c =? 45) (skip_ws s));
  s ← match_of (scan_char 45 (skip_ws s));
  '(fs, s) ← scan_array 64 s;
  '(source, s) ← scan_array MAX_PATH_LENGTH s;
  Scanned (mk_mount_line id parent major minor root point fs source).

(** ** [build_mount_info] *)

Definition PATH_MAX : nat := 4096.
(** The lines that [fgets] gives: up to a newline or [PATH_MAX - 1] characters. *)
Fixpoint file_lines (room : nat) (file : list Z) : list (list Z) :=
  match file with
  | [] => []
  | c :: file =>
      let more := match room with O | S O => true | S _ => false end in
      if (c =? 10) || more then [c] :: file_lines (PATH_MAX - 1) file
      else match file_lines (room - 1) file with l :: ls => (c :: l) :: ls | [] => [[c]] end
  end.

Definition kern_dev (major minor : Z) : Z := Z.lor (Z.shiftl (Z.land major 0xfff) 20) (Z.land minor 0xfffff).
Definition entry_of (l : mount_line) : mount_entry :=
  mk_mount_entry (ml_id l) (u32 (kern_dev (ml_major l) (ml_minor l))) (get_fs_type (ml_fs_type l)) (ml_mount_point l) (ml_mount_source l) (ml_root l).
Definition entry_bytes (e : mount_entry) : Z :=
  Z.of_nat (length (me_mount_point e)) + Z.of_nat (length (me_mount_source e)) + Z.of_nat (length (me_root e)) + 3.
Definition MOUNT_ENTRY : Z := 56.

(** The entries of the lines, with memory for [room] of them; [None] when a
    field overflows its array. *)
Fixpoint build_entries (room : nat) (lines : list (list Z)) : option (list mount_entry) :=
  match lines with
  | [] => Some []
  | line :: lines =>
      match sscanf_mount line with
      | Overflow => None
      | Mismatch => build_entries room lines
      | Scanned l => match room with O => Some [] | S room => es ← build_entries room lines; Some (entry_of l :: es) end
      end
  end.

(** [count], the entries and [bytes_count]; a file that cannot be opened gives
    -1. *)
Definition build_mount_info (room : nat) (file : option (list Z)) : option (Z * list mount_entry * Z) :=
  match file with
  | None => Some (-1, [], 0)
  | Some file =>
      es ← build_entries room (file_lines (PATH_MAX - 1) file);
      let count := Z.of_nat (length es) in
      let bytes := foldr (fun e n => entry_bytes e + n) 0 es in
      Some (count, es, u32 (if (0 <? u32 bytes) && (0 <? count) then bytes + count * MOUNT_ENTRY else bytes))
  end.

(** ** Where a file is mounted *)

(** The first entry of the mount, or of the device when the mount is not known. *)
Fixpoint find_mount (mnt_id s_dev : Z) (l : list mount_entry) : option mount_entry :=
  match l with
  | [] => None
  | e :: l =>
      if -1 <? mnt_id then (if me_mount_id e =? mnt_id then Some e else find_mount mnt_id s_dev l)
      else if me_s_dev e =? s_dev then Some e else find_mount mnt_id s_dev l
  end.

(** The arrays of [reader_raw_cb] for what is known of a mount. *)
Record mount_vars := mk_mount_vars { mv_point : list Z; mv_source : list Z; mv_root : list Z; mv_type : fs_type_t }.
#[export] Instance eta_mount_vars : Eta mount_vars := fun v => mk_mount_vars (mv_point v) (mv_source v) (mv_root v) (mv_type v).
Definition set_mount_info (e : mount_entry) (v : mount_vars) : mount_vars :=
  let cut s := take (Z.to_nat (MAX_PATH_LENGTH - 1)) s in
  mk_mount_vars (cut (me_mount_point e)) (cut (me_mount_source e)) (cut (me_root e)) (me_file_type e).

(** ** From names to a directory *)

(** [struct user_io_event_buffer]. *)
Definition u_bytes_count := mk_field 0 4.
Definition u_operation := mk_field 4 4.
Definition u_latency := mk_field 8 8.
Definition u_offset := mk_field 16 8.
Definition u_file_type := mk_field 24 4.
Definition u_filename := mk_field 28 256.
Definition u_mount_source := mk_field 284 512.
Definition u_mount_point := mk_field 796 256.
Definition u_file_dir := mk_field 1052 512.
Definition u_mnt_id := mk_field 1564 4.
Definition u_mntns_id := mk_field 1568 4.
Definition USER_IO_SIZE : Z := 1572.

(** The loop over the names, from [i] down to 1; [temp] is the text so far, in
    an array of [size] bytes. *)
Fixpoint dir_loop (buffer : list Z) (size : Z) (i : nat) (temp : list Z) : option (list Z) :=
  match i with
  | O => Some temp
  | S i' =>
      c ← buffer !! i;
      if negb (c =? 0) then dir_loop buffer size i' temp else
      s ← fast_strncat_trunc (drop (S i) buffer) (if (length temp =? 0)%nat then [0] else [47; 0]) (size - Z.of_nat (length temp));
      dir_loop buffer size i' (temp ++ s)
  end.

(** The suffixes of [str1], longest first, that [str2] starts with. *)
Fixpoint suffix_of (str1 str2 : list Z) : option nat :=
  match str1 with
  | [] => None
  | _ :: str1' => if starts str1 str2 then Some (length str1) else suffix_of str1' str2
  end.
Definition replace_suffix_prefix (str1 str2 new_prefix : list Z) (out_size : Z) : option (list Z) :=
  match suffix_of str1 str2 with
  | Some n => fast_strncat_trunc (c_str new_prefix) (c_str (drop n str2)) out_size
  | None => fast_strncat_trunc (c_str new_prefix) (c_str str2) out_size
  end.

(** The directory and, for a file that is a mount of its own, its name; [temp]
    is the directory on the file system. *)
Definition file_place (m : mount_vars) (temp file : list Z) : option (list Z * option (list Z)) :=
  let dir_size := Z.of_nat (f_len u_file_dir) in
  if bool_decide (mv_type m = FS_TYPE_NETWORK) then
    dir ← replace_suffix_prefix (mv_source m) temp (mv_point m) dir_size; Some (dir, None)
  else
    let point := if bool_decide (mv_point m = [47]) then [] else mv_point m in
    let root_len := length (mv_root m) in
    let plain := dir ← fast_strncat_trunc (c_str point) (c_str temp) dir_size; Some (dir, None) in
    if (root_len <? length temp)%nat && starts (mv_root m) temp && bool_decide (temp !! root_len = Some 47) then
      dir ← fast_strncat_trunc (c_str point) (c_str (drop root_len temp)) dir_size; Some (dir, None)
    else if (root_len =? length temp + length file)%nat && starts temp (mv_root m) then
      let p := match strrchr (mv_root m) 47 with Some i => drop (S i) (mv_root m) | None => mv_root m end in
      if bool_decide (p = file) then
        match strrchr point 47 with
        | Some i => Some (strcpy_s_inline dir_size (take (S i) point), Some (drop (S i) point))
        | None => plain
        end
      else plain
    else plain.

Definition put_string (f : field) (s d : list Z) : option (list Z) := write_at d (Z.of_nat (f_off f)) (c_str s).

(** The numbers of the event. *)
Definition put_numbers (data : list Z) (file_type : fs_type_t) (dst : list Z) : list Z :=
  let dst := vput_bytes u_bytes_count (vbytes i_bytes_count data) dst in
  let dst := vput_bytes u_operation (vbytes i_operation data) dst in
  let dst := vput_bytes u_latency (vbytes i_latency data) dst in
  let dst := vput_bytes u_offset (vbytes i_offset data) dst in
  let dst := vput u_file_type (fs_num file_type) dst in
  let dst := vput_bytes u_mnt_id (vbytes i_mnt_id data) dst in
  vput_bytes u_mntns_id (vbytes i_mntns_id data) dst.

(** [copy_file_metrics] on [len] bytes of [data], into [dst]; [stack] is the
    size of the largest array that the stack has room for. *)
Definition copy_file_metrics (stack : Z) (dst data : list Z) (len mntns_id : Z) (m : mount_vars) : option (Z * list Z) :=
  if len <=? 0 then Some (0, dst) else
  mntns_str ← (if 0 <? mntns_id then id ← u32_to_str_safe mntns_id 12; Some (id ++ [58]) else Some []);
  _ ← slice data 0 (Z.to_nat IO_FILENAME);
  let event_len := vget i_len data in
  let buf_offset := Z.of_nat (f_off u_filename) in
  let buffer_len := if u32 len <? u32 (buf_offset + event_len) then u32 (len - buf_offset) else event_len in
  let size := u32 (buffer_len + 1) in
  if stack <? size then None else
  let buffer := drop (Z.to_nat IO_FILENAME) data in
  temp ← (if buffer_len <=? 1 then Some [] else dir_loop buffer size (Z.to_nat (s32 (buffer_len - 2))) []);
  file ← cstring buffer;
  '(dir, name) ← file_place m temp file;
  let name := match name with Some n => n | None => file end in
  dst ← put_string u_file_dir (prepend_prefix_safe dir (Z.of_nat (f_len u_file_dir)) mntns_str) dst;
  let dst := put_numbers data (mv_type m) dst in
  dst ← put_string u_mount_source (strcpy_s_inline (Z.of_nat (f_len u_mount_source)) (mv_source m)) dst;
  point ← fast_strncat_trunc (c_str mntns_str) (c_str (mv_point m)) (Z.of_nat (f_len u_mount_point));
  dst ← put_string u_mount_point point dst;
  dst ← put_string u_filename (strcpy_s_inline (Z.of_nat (f_len u_filename)) name) dst;
  Some (USER_IO_SIZE, dst).

(** ** Lemmas on strings *)

Lemma string_nil : is_string [].
Proof. constructor. Qed.
Lemma string_app s1 s2 : is_string (s1 ++ s2) <-> is_string s1 /\ is_string s2.
Proof. apply Forall_app. Qed.
Lemma string_take n s : is_string s -> is_string (take n s).
Proof. apply Forall_take. Qed.
Lemma string_drop n s : is_string s -> is_string (drop n s).
Proof. apply Forall_drop. Qed.
Create HintDb strings discriminated.
#[export] Hint Resolve string_nil string_take string_drop : strings.
#[export] Hint Extern 1 (is_string (_ ++ _)) => apply string_app; split : strings.

Lemma cstring_ok s rest : is_string s -> cstring (c_str s ++ rest) = Some s.
Proof.
  unfold c_str. induction 1 as [| c s Hc _ IH]; [done |]. cbn. apply Z.eqb_neq in Hc as ->. unfold c_str in IH. by rewrite IH.
Qed.
Lemma copy_chars_ok s rest room : is_string s -> copy_chars (c_str s ++ rest) room = Some (take room s).
Proof.
  intros Hs. revert room. unfold c_str. induction Hs as [| c s Hc _ IH]; intros room; cbn; [by rewrite take_nil |].
  apply Z.eqb_neq in Hc as ->. destruct room as [| room]; [done |]. by rewrite IH.
Qed.
Lemma strncat_ok s1 r1 s2 r2 n : is_string s1 -> is_string s2 ->
  fast_strncat_trunc (c_str s1 ++ r1) (c_str s2 ++ r2) n = Some (take (Z.to_nat (n - 1)) (s1 ++ s2)).
Proof.
  intros H1 H2. unfold fast_strncat_trunc. rewrite copy_chars_ok by done. cbn [mbind option_bind]. rewrite copy_chars_ok by done. cbn [mbind option_bind].
  rewrite firstn_app. do 2 f_equal. rewrite length_take. f_equal. lia.
Qed.
Lemma strncat_plain s1 s2 n : is_string s1 -> is_string s2 ->
  fast_strncat_trunc (c_str s1) (c_str s2) n = Some (take (Z.to_nat (n - 1)) (s1 ++ s2)).
Proof. intros H1 H2. pose proof (strncat_ok s1 [] s2 [] n H1 H2) as H. by rewrite !app_nil_r in H. Qed.
Lemma strcpy_ok dmax s : 0 < dmax -> strcpy_s_inline dmax s = take (Z.to_nat (dmax - 1)) s.
Proof.
  intros Hd. unfold strcpy_s_inline. destruct (Z.ltb_spec dmax (Z.of_nat (length s))).
  - destruct (Z.ltb_spec 0 (dmax - Z.of_nat (Z.to_nat dmax))); [lia | done].
  - destruct (Z.ltb_spec 0 (dmax - Z.of_nat (length s))); [| done]. rewrite !take_ge by lia. done.
Qed.

Lemma digits_ok n : forall value acc, 0 < value < 10 ^ Z.of_nat n -> digits n value acc = Some (dec n value ++ acc).
Proof.
  induction n as [| n IH]; intros value acc Hv; [cbn in Hv; lia |]. cbn [digits dec]. destruct (Z.leb_spec value 0); [lia |].
  rewrite Nat2Z.inj_succ, Z.pow_succ_r in Hv by lia. destruct (Z.ltb_spec value 10) as [Hs | Hs].
  - rewrite Z.div_small, Z.mod_small by lia. destruct n; done.
  - rewrite IH; [by rewrite <- app_assoc |]. split; [apply Z.div_str_pos; lia | apply Z.div_lt_upper_bound; lia].
Qed.
Lemma dec_bounds f n : (length (dec f n) <= f)%nat /\ (0 <= n -> is_string (dec f n)).
Proof.
  revert n. induction f as [| f IH]; intros n; cbn [dec]; [split; [done | constructor] |]. destruct (n <? 10); cbn.
  - split; [lia |]. intros. constructor; [lia | constructor].
  - destruct (IH (n / 10)) as [H1 H2]. rewrite length_app. cbn. split; [lia |]. intros Hn. apply string_app. split; [apply H2, Z.div_pos; lia |].
    constructor; [| constructor]. pose proof (Z.mod_pos_bound n 10). lia.
Qed.
Lemma u32_to_str_ok value : 0 < value < 2 ^ 32 -> u32_to_str_safe value 12 = Some (dec 10 value).
Proof.
  intros Hv. unfold u32_to_str_safe. cbn [Z.eqb]. destruct (Z.eqb_spec value 0); [lia |]. rewrite digits_ok, app_nil_r by (cbn; lia). cbn [mbind option_bind].
  destruct (dec_bounds 10 value) as [Hl _]. destruct (Z.leb_spec 12 (Z.of_nat (length (dec 10 value)))); [lia | done].
Qed.

Lemma strrchr_spec s c : match strrchr s c with
  | Some i => exists a b, s = a ++ c :: b /\ length a = i /\ c ∉ b
  | None => c ∉ s end.
Proof.
  induction s as [| x s IH]; cbn; [by apply not_elem_of_nil |]. destruct (strrchr s c) as [i |].
  - destruct IH as (a & b & -> & <- & Hb). by exists (x :: a), b.
  - destruct (Z.eqb_spec x c) as [-> | Hx]; [by exists [], s |]. intros [-> |]%elem_of_cons; done.
Qed.

(** ** The directory of the recorded names *)

(** Names from the file up, each with its zero, as the kernel records them. *)
Definition names_text (names : list (list Z)) : list Z := concat (c_str <$> names).
(** What the loop makes of them: the names above the file, from the top. *)
Definition add_name (temp name : list Z) : list Z := temp ++ name ++ (if (length temp =? 0)%nat then [] else [47]).
Definition directory (names : list (list Z)) : list Z := foldl add_name [] (rev (tail names)).

Lemma text_app l1 l2 : names_text (l1 ++ l2) = names_text l1 ++ names_text l2.
Proof. unfold names_text. by rewrite fmap_app, concat_app. Qed.
Lemma text_cons_length n l : length (names_text (n :: l)) = (length n + 1 + length (names_text l))%nat.
Proof. unfold names_text, c_str. cbn. by rewrite !length_app. Qed.
Lemma text_one n : names_text [n] = c_str n.
Proof. unfold names_text. cbn. by rewrite app_nil_r. Qed.

Lemma skip_name pre n rest size temp k : is_string n -> (k <= length n)%nat -> (0 < length pre)%nat ->
  dir_loop (pre ++ n ++ rest) size (length pre - 1 + k) temp = dir_loop (pre ++ n ++ rest) size (length pre - 1) temp.
Proof.
  intros Hn Hk Hp. induction k as [| k IH]; [by rewrite Nat.add_0_r |]. rewrite <- IH by lia.
  replace (length pre - 1 + S k)%nat with (S (length pre - 1 + k)) by lia. cbn [dir_loop].
  replace (S (length pre - 1 + k)) with (length pre + k)%nat by lia. rewrite lookup_app_r by lia.
  replace (length pre + k - length pre)%nat with k by lia. rewrite lookup_app_l by lia.
  destruct (lookup_lt_is_Some_2 n k ltac:(lia)) as [c Hc]. rewrite Hc. cbn [mbind option_bind].
  apply (Forall_lookup_1 _ _ _ _ Hn) in Hc. apply Z.eqb_neq in Hc as ->. done.
Qed.
Lemma skip_first n rest size temp k : is_string n -> (k < length n)%nat -> dir_loop (n ++ rest) size k temp = Some temp.
Proof.
  intros Hn Hk. induction k as [| k IH]; [done |]. cbn [dir_loop]. rewrite lookup_app_l by lia.
  destruct (lookup_lt_is_Some_2 n (S k) Hk) as [c Hc]. rewrite Hc. cbn [mbind option_bind].
  apply (Forall_lookup_1 _ _ _ _ Hn) in Hc. apply Z.eqb_neq in Hc as ->. cbn. apply IH. lia.
Qed.

Lemma add_name_length temp n : (length (add_name temp n) <= length temp + length n + 1)%nat.
Proof. unfold add_name. rewrite !length_app. destruct (_ =? _)%nat; cbn; lia. Qed.

Lemma dir_loop_names size pre : forall m rest temp, Forall is_string pre -> is_string m -> head pre <> Some [] -> pre <> [] ->
  Z.of_nat (length temp + length (names_text (tail pre)) + length m + 1) < size ->
  dir_loop (names_text pre ++ c_str m ++ rest) size (length (names_text pre) - 1) temp = Some (foldl add_name temp (m :: rev (tail pre))).
Proof.
  induction pre as [| n pre IH] using rev_ind; intros m rest temp Hpre Hm Hne Hnil Hsz; [done |].
  apply Forall_app in Hpre as [Hpre Hn]. apply Forall_inv in Hn. rewrite text_app, text_one.
  assert (length (names_text pre ++ c_str n) - 1 = length (names_text pre) + length n)%nat as ->
    by (unfold c_str; rewrite !length_app; cbn; lia).
  assert (0 < length (names_text pre) + length n)%nat as Hpos.
  { destruct pre as [| p pre]; cbn in *; [destruct n; [done | cbn; lia] |]. unfold c_str. rewrite !length_app. cbn. lia. }
  assert ((names_text pre ++ c_str n) ++ c_str m ++ rest = names_text pre ++ n ++ 0 :: c_str m ++ rest) as -> by (unfold c_str; by rewrite <- !app_assoc).
  destruct (length (names_text pre) + length n)%nat as [| i] eqn:Ei; [lia |]. cbn [dir_loop].
  rewrite lookup_app_r by lia. rewrite lookup_app_r by lia.
  replace (S i - length (names_text pre) - length n)%nat with O by lia. cbn [lookup list_lookup app mbind option_bind Z.eqb negb].
  assert (drop (S (S i)) (names_text pre ++ n ++ 0 :: c_str m ++ rest) = c_str m ++ rest) as Hd.
  { rewrite (app_assoc (names_text pre)), drop_app_ge by (rewrite length_app; lia). rewrite length_app.
    by replace (S (S i) - (length (names_text pre) + length n))%nat with 1%nat by lia. }
  rewrite Hd. set (suffix := if (length temp =? 0)%nat then [] else [47]).
  assert (fast_strncat_trunc (c_str m ++ rest) (if (length temp =? 0)%nat then [0] else [47; 0]) (size - Z.of_nat (length temp)) = Some (m ++ suffix)) as Hcat.
  { assert ((if (length temp =? 0)%nat then [0] else [47; 0]) = c_str suffix ++ []) as -> by (unfold suffix; by destruct (_ =? _)%nat).
    rewrite strncat_ok; [| done | unfold suffix; destruct (_ =? _)%nat; repeat constructor; lia].
    rewrite take_ge; [done |]. rewrite length_app. unfold suffix. destruct (_ =? _)%nat; cbn; lia. }
  rewrite Hcat. cbn [mbind option_bind]. change (temp ++ m ++ suffix) with (add_name temp m). cbn [foldl].
  pose proof (add_name_length temp m) as Hal. destruct pre as [| p pre].
  - cbn [names_text fmap list_fmap concat app length] in *. cbn. by rewrite skip_first by (done || lia).
  - assert (i = (length (names_text (p :: pre)) - 1 + length n)%nat) as Hi by (cbn in Ei |- *; unfold c_str in *; rewrite ?length_app in *; cbn in *; lia).
    rewrite Hi. rewrite skip_name by (done || (cbn; unfold c_str; rewrite !length_app; cbn; lia)).
    pose proof (IH n (c_str m ++ rest) (add_name temp m) Hpre Hn) as H. assert (c_str n ++ c_str m ++ rest = n ++ 0 :: c_str m ++ rest) as Hc by (unfold c_str; by rewrite <- !app_assoc).
    rewrite Hc in H. rewrite H.
    + cbn [tail app]. by rewrite rev_app_distr.
    + done.
    + done.
    + cbn [app tail] in Hsz |- *. rewrite text_app, text_one in Hsz. unfold c_str in Hsz. rewrite !length_app in Hsz. cbn in Hsz. lia.
Qed.

(** With a name at the top, the others follow with their slashes. *)
Lemma directory_joined top l names : names = l ++ [top] -> top <> [] -> l <> [] ->
  directory names = top ++ concat ((fun n => n ++ [47]) <$> rev (tail l)).
Proof.
  intros -> Ht Hl. unfold directory. destruct l as [| x l]; [done |]. cbn [app tail]. rewrite rev_app_distr. cbn [rev app foldl].
  assert (add_name [] top = top) as -> by (unfold add_name; cbn; by rewrite app_nil_r). generalize (rev l). clear - Ht. revert top Ht.
  intros top Ht ls. assert (forall t, t <> [] -> foldl add_name t ls = t ++ concat ((fun n => n ++ [47]) <$> ls)) as H; [| by apply H].
  induction ls as [| n ls IH]; intros t Hne; cbn; [by rewrite app_nil_r |].
  assert (add_name t n = t ++ n ++ [47]) as -> by (unfold add_name; destruct t; done).
  rewrite IH by (destruct t; done). by rewrite <- !app_assoc.
Qed.

Lemma directory_length names : (length (directory names) <= length (names_text (tail names)))%nat.
Proof.
  unfold directory. assert (forall l t, (length (foldl add_name t l) <= length t + length (names_text l))%nat) as H.
  { induction l as [| n l IH]; intros t; cbn [foldl]; [cbn; lia |]. specialize (IH (add_name t n)). pose proof (add_name_length t n). rewrite text_cons_length. lia. }
  pose proof (H (rev (tail names)) []) as Hx. assert (length (names_text (rev (tail names))) = length (names_text (tail names))) as Hr; [| cbn in Hx; lia].
  clear. induction (tail names) as [| n l IH]; [done |]. cbn [rev]. rewrite text_app, text_one, length_app, IH, text_cons_length. unfold c_str. rewrite length_app. cbn. lia.
Qed.
Lemma directory_string names : Forall is_string names -> is_string (directory names).
Proof.
  intros Hs. unfold directory. assert (Forall is_string (rev (tail names))) as Hr by (apply Forall_rev; destruct names; [done | by inversion Hs]).
  revert Hr. generalize (rev (tail names)). intros l. assert (forall t, is_string t -> Forall is_string l -> is_string (foldl add_name t l)) as H; [| apply H; constructor].
  induction l as [| n l IH]; intros t Ht Hl; cbn; [done |]. apply Forall_cons_1 in Hl as [Hn Hl]. apply IH; [| done]. unfold add_name.
  apply string_app. split; [done |]. apply string_app. split; [done |]. destruct (_ =? _)%nat; repeat constructor; lia.
Qed.

(** ** The event in user space *)

Definition in_user_io (f : field) : bool := (f_off f + f_len f <=? 1572)%nat.
Definition user_io (d : list Z) : Prop := Z.of_nat (length d) = USER_IO_SIZE.
(** The string in a field. *)
Definition string_in (f : field) (d s : list Z) : Prop := cstring (vbytes f d) = Some s.

Lemma take_short {A} n k (s : list A) : (n <? k)%nat = true -> (length (take n s) < k)%nat.
Proof. intros Hn%Nat.ltb_lt. rewrite length_take. lia. Qed.
Lemma put_string_ok f s d : in_user_io f = true -> user_io d -> is_string s -> (length s < f_len f)%nat ->
  exists d', put_string f s d = Some d' /\ user_io d' /\ string_in f d' s /\
    forall g, in_user_io g = true -> disjoint g f = true -> vbytes g d' = vbytes g d.
Proof.
  intros Hf%Nat.leb_le Hd Hs Hl. unfold put_string. assert (length (c_str s) = S (length s)) as Hc by (unfold c_str; rewrite length_app; cbn; lia).
  unfold user_io, USER_IO_SIZE in *. destruct (write_Some d (Z.of_nat (f_off f)) (c_str s)) as [d' Hw]; [lia | lia |].
  exists d'. split; [done |]. split; [by rewrite (write_length _ _ _ _ Hw) |]. split.
  - unfold string_in. rewrite (vbytes_start _ _ _ _ Hw) by lia. by apply cstring_ok.
  - intros g Hg%Nat.leb_le [Hdj%Nat.leb_le | Hdj%Nat.leb_le]%orb_true_iff; apply (vbytes_write _ _ _ _ _ Hw); lia.
Qed.
Lemma put_field_ok f b d : in_user_io f = true -> user_io d -> length b = f_len f ->
  user_io (vput_bytes f b d) /\ vbytes f (vput_bytes f b d) = b /\
  forall g, in_user_io g = true -> disjoint g f = true -> vbytes g (vput_bytes f b d) = vbytes g d.
Proof.
  intros Hf%Nat.leb_le Hd Hb. unfold user_io, USER_IO_SIZE in *. split; [rewrite vput_bytes_sized by lia; done |]. split.
  - unfold vbytes, vput_bytes. rewrite drop_app_ge by (rewrite length_take; lia). rewrite length_take, Nat.min_l, Nat.sub_diag, drop_0 by lia.
    rewrite take_app_le by (rewrite length_take, length_app, length_drop; lia). rewrite take_take, Nat.min_id, <- Hb. apply take_app_length.
  - intros g Hg%Nat.leb_le Hdj. apply vbytes_vput_bytes_ne; (done || lia).
Qed.

(** The directory that a process sees for a directory [temp] of the file system. *)
Lemma file_place_ok m temp file : is_string (mv_point m) -> is_string (mv_root m) -> is_string temp -> exists dir name,
  file_place m temp file = Some (dir, name) /\ is_string dir /\ (length dir <= 511)%nat /\ (forall n, name = Some n -> is_string n).
Proof.
  intros Hp Hr Ht. assert (forall s1 s2, is_string s1 -> is_string s2 -> exists dir, fast_strncat_trunc (c_str s1) (c_str s2) 512 = Some dir /\
    is_string dir /\ (length dir <= 511)%nat) as Hcat.
  { intros s1 s2 H1 H2. eexists. rewrite strncat_plain by done. split; [done |]. split; [auto with strings |]. rewrite length_take. lia. }
  unfold file_place. change (Z.of_nat (f_len u_file_dir)) with 512.
  assert (forall s1 s2, is_string s1 -> is_string s2 -> exists dir (name : option (list Z)),
    (dir ← fast_strncat_trunc (c_str s1) (c_str s2) 512; Some (dir, None)) = Some (dir, name) /\ is_string dir /\ (length dir <= 511)%nat /\
    (forall n, name = Some n -> is_string n)) as Hone.
  { intros s1 s2 H1 H2. destruct (Hcat s1 s2 H1 H2) as (dir & -> & Hs & Hl). by exists dir, None. }
  case_bool_decide.
  - unfold replace_suffix_prefix. destruct (suffix_of _ _); apply Hone; auto with strings.
  - set (point := if bool_decide (mv_point m = [47]) then [] else mv_point m).
    assert (is_string point) as Hpt by (unfold point; case_bool_decide; [constructor | done]). clearbody point.
    destruct (_ && _ && _); [apply Hone; auto with strings |]. destruct (_ && _); [| by apply Hone].
    case_bool_decide; [| by apply Hone]. destruct (strrchr point 47) as [i |]; [| by apply Hone].
    eexists _, _. split; [done |]. rewrite strcpy_ok by lia. split_and!; [auto with strings | rewrite length_take; lia |].
    intros n [= <-]. by apply string_drop.
Qed.

(** What user space says of a file operation: the numbers of the event, and the
    place of the file as the process sees it. *)
Record metrics_ok (data : list Z) (m : mount_vars) (prefix dir name d : list Z) : Prop := {
  mo_bytes_count : vget u_bytes_count d = vget i_bytes_count data;
  mo_operation : vget u_operation d = vget i_operation data;
  mo_latency : vget u_latency d = vget i_latency data;
  mo_offset : vget u_offset d = vget i_offset data;
  mo_type : vget u_file_type d = fs_num (mv_type m);
  mo_mnt_id : vget u_mnt_id d = vget i_mnt_id data;
  mo_mntns_id : vget u_mntns_id d = vget i_mntns_id data;
  mo_file_dir : string_in u_file_dir d (prepend_prefix_safe dir 512 prefix);
  mo_filename : string_in u_filename d (take 255 name);
  mo_mount_source : string_in u_mount_source d (take 511 (mv_source m));
  mo_mount_point : string_in u_mount_point d (take 255 (prefix ++ mv_point m)) }.

Definition vars_ok (m : mount_vars) : Prop := is_string (mv_point m) /\ is_string (mv_source m) /\ is_string (mv_root m).
(** The mount namespace in front of a path, when it is not that of the process. *)
Definition ns_prefix (mntns_id : Z) : list Z := if 0 <? mntns_id then dec 10 mntns_id ++ [58] else [].

(** The data of an event with the names of a file. *)
Record io_data (data : list Z) (file : list Z) (dirs : list (list Z)) : Prop := {
  id_names : Forall is_string (file :: dirs);
  id_file : file <> [];
  id_len : vget i_len data = Z.of_nat (length (names_text (file :: dirs)));
  id_text : exists rest, drop (Z.to_nat IO_FILENAME) data = names_text (file :: dirs) ++ rest }.

Lemma prefix_ok mntns_id : 0 <= mntns_id < 2 ^ 32 -> is_string (ns_prefix mntns_id) /\ (length (ns_prefix mntns_id) <= 11)%nat.
Proof.
  intros Hm. unfold ns_prefix. destruct (Z.ltb_spec 0 mntns_id); [| split; [constructor | cbn; lia]]. destruct (dec_bounds 10 mntns_id) as [Hl Hs].
  rewrite length_app. split; [apply string_app; split; [apply Hs; lia | by apply Forall_singleton] | cbn [length]; lia].
Qed.
Lemma prepend_ok dir prefix : is_string dir -> is_string prefix -> (length dir <= 511)%nat ->
  is_string (prepend_prefix_safe dir 512 prefix) /\ (length (prepend_prefix_safe dir 512 prefix) < 512)%nat.
Proof.
  intros H1 H2 H3. unfold prepend_prefix_safe. destruct (_ =? _)%nat; [split; [done | lia] |].
  destruct (Z.ltb_spec 512 (Z.of_nat (length prefix) + Z.of_nat (length dir) + 1)); [split; [done | lia] |].
  rewrite length_app. split; [by apply string_app | lia].
Qed.

(** The text of the names is all in the data, and gives the directory. *)
Lemma dir_loop_data data file dirs size : io_data data file dirs -> vget i_len data < size ->
  dirs <> [] -> dir_loop (drop (Z.to_nat IO_FILENAME) data) size (Z.to_nat (vget i_len data - 2)) [] = Some (directory (file :: dirs)).
Proof.
  intros [Hs Hf Hl [rest Ht]] Hsz Hd. destruct dirs as [| top l _] using rev_ind; [done |]. rewrite Ht. change (file :: l ++ [top]) with ((file :: l) ++ [top]) in *.
  rewrite text_app, text_one, <- app_assoc in *. rewrite length_app in Hl. apply Forall_app in Hs as [Hs Htop]. apply Forall_inv in Htop.
  unfold c_str in Hl at 1. rewrite length_app in Hl. cbn [length] in Hl. pose proof (text_cons_length file l) as Hc.
  replace (Z.to_nat (vget i_len data - 2)) with (length (names_text (file :: l)) - 1 + length top)%nat by lia.
  assert (names_text (file :: l) ++ c_str top ++ rest = names_text (file :: l) ++ top ++ [0] ++ rest) as Hx by (unfold c_str; by rewrite <- app_assoc).
  rewrite Hx, skip_name by (done || lia). rewrite <- Hx, dir_loop_names; [| done | done | by destruct file | done | cbn [length tail]; lia].
  unfold directory. cbn [tail app]. by rewrite rev_app_distr.
Qed.

Ltac keeps_bytes := repeat match goal with K : forall g, _ -> _ -> vbytes g ?d' = vbytes g _ |- context [vbytes ?g ?d'] => rewrite (K g) by done end.

(** One more field is written: the value of [d'] is known, and what it keeps. *)
Ltac put_step f b d Hlen d' K :=
  match goal with U : user_io d |- _ => destruct (put_field_ok f b d eq_refl U Hlen) as (? & ? & K) end;
  repeat match goal with H : context [vput_bytes f b d] |- _ => revert H end;
  generalize (vput_bytes f b d); intros d' ? ? K.

Lemma put_numbers_ok data t dst : user_io dst -> (36 <= length data)%nat -> let d := put_numbers data t dst in user_io d /\
  vget u_bytes_count d = vget i_bytes_count data /\ vget u_operation d = vget i_operation data /\ vget u_latency d = vget i_latency data /\
  vget u_offset d = vget i_offset data /\ vget u_file_type d = fs_num t /\ vget u_mnt_id d = vget i_mnt_id data /\
  vget u_mntns_id d = vget i_mntns_id data /\
  forall g, in_user_io g = true -> forallb (disjoint g) [u_bytes_count; u_operation; u_latency; u_offset; u_file_type; u_mnt_id; u_mntns_id] = true ->
    vbytes g d = vbytes g dst.
Proof.
  intros Hd Hl. assert (forall f, (f_off f + f_len f <=? 36)%nat = true -> length (vbytes f data) = f_len f) as Hv
    by (intros f Hf%Nat.leb_le; apply vbytes_length; lia).
  unfold put_numbers. cbv zeta. change (vput u_file_type (fs_num t)) with (vput_bytes u_file_type (le_bytes 4 (fs_num t))).
  put_step u_bytes_count (vbytes i_bytes_count data) dst (Hv i_bytes_count eq_refl) d1 K1.
  put_step u_operation (vbytes i_operation data) d1 (Hv i_operation eq_refl) d2 K2.
  put_step u_latency (vbytes i_latency data) d2 (Hv i_latency eq_refl) d3 K3.
  put_step u_offset (vbytes i_offset data) d3 (Hv i_offset eq_refl) d4 K4.
  put_step u_file_type (le_bytes 4 (fs_num t)) d4 (le_bytes_length 4 (fs_num t)) d5 K5.
  put_step u_mnt_id (vbytes i_mnt_id data) d5 (Hv i_mnt_id eq_refl) d6 K6.
  put_step u_mntns_id (vbytes i_mntns_id data) d6 (Hv i_mntns_id eq_refl) d7 K7.
  unfold vget. split_and!; [done | .. |].
  all: try (keeps_bytes; match goal with V : vbytes ?f ?d = _ |- context [vbytes ?f ?d] => rewrite V end; first [done | rewrite le_word_le_bytes; by destruct t]).
  intros g Hg Hall. cbn [forallb] in Hall. rewrite !andb_true_iff in Hall. destruct Hall as (D1 & D2 & D3 & D4 & D5 & D6 & D7 & _).
  by rewrite K7, K6, K5, K4, K3, K2, K1.
Qed.

Lemma copy_file_metrics_ok stack dst data file dirs mntns_id m : io_data data file dirs -> user_io dst -> vars_ok m ->
  0 <= mntns_id < 2 ^ 32 -> Z.of_nat (length data) < 2 ^ 31 -> vget i_len data + 1 <= stack ->
  exists dir name dst', copy_file_metrics stack dst data (Z.of_nat (length data)) mntns_id m = Some (USER_IO_SIZE, dst') /\ user_io dst' /\
    file_place m (directory (file :: dirs)) file = Some (dir, name) /\ metrics_ok data m (ns_prefix mntns_id) dir (default file name) dst'.
Proof.
  intros Hio Hdst (Hp & Hsrc & Hr) Hns Hlen Hst. pose proof Hio as [Hs Hf Hl [rest Ht]]. pose proof (text_cons_length file dirs) as Hc.
  assert (36 + Z.of_nat (length (names_text (file :: dirs))) <= Z.of_nat (length data)) as Hfit.
  { assert (length (drop (Z.to_nat IO_FILENAME) data) = length (names_text (file :: dirs) ++ rest)) as Hx by (by rewrite Ht).
    rewrite length_drop, length_app in Hx. unfold IO_FILENAME in Hx. lia. }
  assert (0 < length file)%nat as Hfl by (destruct file; [done | cbn; lia]).
  assert (Forall is_string (file :: dirs)) as [Hfs _]%Forall_cons_1 by done.
  destruct (prefix_ok mntns_id Hns) as [Hpre Hpl]. destruct (file_place_ok m (directory (file :: dirs)) file Hp Hr (directory_string _ Hs)) as (dir & name & Hplace & Hds & Hdl & Hns').
  assert (is_string (default file name)) as Hname by (destruct name; cbn; auto).
  unfold copy_file_metrics. destruct (Z.leb_spec (Z.of_nat (length data)) 0); [lia |].
  assert ((if 0 <? mntns_id then id ← u32_to_str_safe mntns_id 12; Some (id ++ [58]) else Some []) = Some (ns_prefix mntns_id)) as ->.
  { unfold ns_prefix. destruct (Z.ltb_spec 0 mntns_id); [by rewrite u32_to_str_ok by lia | done]. }
  cbn [mbind option_bind]. rewrite slice_is by (unfold IO_FILENAME; lia). cbn [mbind option_bind]. change (Z.of_nat (f_off u_filename)) with 28.
  rewrite (wrap_small 32 (Z.of_nat (length data))), (wrap_small 32 (28 + vget i_len data)) by lia.
  destruct (Z.ltb_spec (Z.of_nat (length data)) (28 + vget i_len data)); [lia |].
  rewrite wrap_small by lia. destruct (Z.ltb_spec stack (vget i_len data + 1)); [lia |]. rewrite swrap_small by lia.
  assert ((if vget i_len data <=? 1 then Some [] else dir_loop (drop (Z.to_nat IO_FILENAME) data) (vget i_len data + 1) (Z.to_nat (vget i_len data - 2)) []) =
    Some (directory (file :: dirs))) as ->.
  { destruct (Z.leb_spec (vget i_len data) 1); [lia |]. destruct dirs as [| d dirs]; [| by apply dir_loop_data; (done || lia)].
    rewrite Ht. unfold names_text, c_str. cbn [fmap list_fmap concat app]. rewrite app_nil_r, <- app_assoc. rewrite text_one in *. unfold c_str in *. rewrite length_app in *. cbn [length] in *.
    rewrite skip_first by (done || lia). done. }
  cbn [mbind option_bind]. rewrite Ht. assert (cstring (names_text (file :: dirs) ++ rest) = Some file) as ->.
  { unfold names_text. cbn [fmap list_fmap concat]. rewrite <- app_assoc. by apply cstring_ok. }
  cbn [mbind option_bind]. rewrite Hplace. cbn [mbind option_bind]. change (Z.of_nat (f_len u_file_dir)) with 512.
  change (Z.of_nat (f_len u_mount_source)) with 512. change (Z.of_nat (f_len u_mount_point)) with 256. change (Z.of_nat (f_len u_filename)) with 256.
  destruct (prepend_ok dir (ns_prefix mntns_id) Hds Hpre Hdl) as [Hds' Hdl'].
  destruct (put_string_ok u_file_dir _ dst eq_refl Hdst Hds' Hdl') as (d0 & -> & U0 & S0 & K0). cbn [mbind option_bind].
  destruct (put_numbers_ok data (mv_type m) d0 U0) as (U1 & N1 & N2 & N3 & N4 & N5 & N6 & N7 & K1); [lia |]. cbv zeta. revert U1 N1 N2 N3 N4 N5 N6 N7 K1.
  generalize (put_numbers data (mv_type m) d0). intros d1 U1 N1 N2 N3 N4 N5 N6 N7 K1. rewrite !strcpy_ok by lia.
  destruct (put_string_ok u_mount_source (take 511 (mv_source m)) d1 eq_refl U1) as (d2 & E2 & U2 & S2 & K2); [auto with strings | by apply take_short |].
  change (Z.to_nat (512 - 1)) with 511%nat. rewrite E2. cbn [mbind option_bind].
  rewrite strncat_plain by done. cbn [mbind option_bind]. change (Z.to_nat (256 - 1)) with 255%nat.
  destruct (put_string_ok u_mount_point (take 255 (ns_prefix mntns_id ++ mv_point m)) d2 eq_refl U2) as (d3 & -> & U3 & S3 & K3); [auto with strings | by apply take_short |].
  cbn [mbind option_bind].
  destruct (put_string_ok u_filename (take 255 (default file name)) d3 eq_refl U3) as (d4 & E4 & U4 & S4 & K4); [auto with strings | by apply take_short |].
  replace (match name with Some n => n | None => file end) with (default file name) by done. rewrite E4. cbn [mbind option_bind].
  exists dir, name, d4. split_and!; try done. constructor; unfold vget, string_in in *; keeps_bytes; done.
Qed.

(** ** The lines of mountinfo *)

(** A word: not empty and without blanks. *)
Definition word (w : list Z) : Prop := w <> [] /\ Forall (fun c => is_space c = false) w.
(** A line of /proc/<pid>/mountinfo, with its options and optional fields and
    the options of the file system. *)
Definition print_line (l : mount_line) (opts super : list Z) : list Z :=
  dec 10 (ml_id l) ++ [32] ++ dec 10 (ml_parent l) ++ [32] ++ dec 10 (ml_major l) ++ [58] ++ dec 10 (ml_minor l) ++ [32] ++
  ml_root l ++ [32] ++ ml_mount_point l ++ [32] ++ opts ++ [32; 45; 32] ++ ml_fs_type l ++ [32] ++ ml_mount_source l ++ [32] ++ super ++ [10].
Definition fits_word (size : Z) (w : list Z) : Prop := word w /\ Z.of_nat (length w) < size.
Record line_ok (l : mount_line) (opts super : list Z) : Prop := {
  lk_numbers : Forall (fun n => 0 <= n < 2 ^ 31) [ml_id l; ml_parent l; ml_major l; ml_minor l];
  lk_root : fits_word MAX_PATH_LENGTH (ml_root l);
  lk_point : fits_word MAX_PATH_LENGTH (ml_mount_point l);
  lk_fs : fits_word 64 (ml_fs_type l);
  lk_source : fits_word MAX_PATH_LENGTH (ml_mount_source l);
  lk_opts : exists c o, opts = c :: o /\ is_space c = false /\ 45 ∉ opts;
  lk_line : (length (print_line l opts super) < PATH_MAX)%nat /\ 10 ∉ removelast (print_line l opts super) }.

Lemma skip_ws_stop c s : is_space c = false -> skip_ws (c :: s) = c :: s.
Proof. intros Hc. unfold skip_ws. cbn. by rewrite Hc. Qed.
Lemma skip_ws_blank s : skip_ws (32 :: s) = skip_ws s.
Proof. done. Qed.
Lemma skip_ws_word w s : word w -> skip_ws (w ++ s) = w ++ s.
Proof. intros [Hn Hw]. destruct w as [| c w]; [done |]. apply Forall_cons_1 in Hw as [Hc _]. by apply skip_ws_stop. Qed.

Lemma span_word stop w c s : Forall (fun x => stop x = false) w -> stop c = true -> span stop (w ++ c :: s) = (w, c :: s).
Proof.
  intros Hw Hc. induction Hw as [| x w Hx _ IH]; cbn; [by rewrite Hc |]. rewrite Hx. cbn in IH. by rewrite IH.
Qed.
Lemma scan_word_ok stop w c s : w <> [] -> Forall (fun x => stop x = false) w -> stop c = true -> scan_word stop (w ++ c :: s) = Some (w, c :: s).
Proof. intros Hn Hw Hc. unfold scan_word. rewrite span_word by done. by destruct w. Qed.

Lemma scan_array_ok size w s : fits_word size w -> scan_array size (32 :: w ++ 32 :: s) = Scanned (w, 32 :: s).
Proof.
  intros [Hw Hl]. unfold scan_array, scan_s. rewrite skip_ws_blank, skip_ws_word by done. destruct Hw as [Hn Hw].
  rewrite scan_word_ok by done. cbn. by rewrite (proj2 (Z.leb_gt _ _)) by lia.
Qed.

Lemma dec_no_space n s : 0 <= n -> skip_ws (dec 10 n ++ s) = dec 10 n ++ s.
Proof.
  intros Hn. destruct (dec_head 10 n Hn ltac:(lia)) as (c & l & -> & Hc). cbn. apply skip_ws_stop. unfold is_space.
  destruct (Z.eqb_spec c 32); [lia |]. destruct (Z.leb_spec c 13); [lia |]. by rewrite andb_false_r.
Qed.
Lemma scan_int_ok n s : 0 <= n < 2 ^ 31 -> stops s -> scan_int (dec 10 n ++ s) = Some (n, s).
Proof.
  intros Hn Hs. unfold scan_int. rewrite scan_d_digits; [| cbn; lia | lia | lia | done]. cbn [mbind option_bind]. by rewrite drop_app_length.
Qed.
Lemma scan_blank_int n s : 0 <= n < 2 ^ 31 -> stops s -> scan_int (skip_ws (32 :: dec 10 n ++ s)) = Some (n, s).
Proof. intros Hn Hs. rewrite skip_ws_blank, dec_no_space by lia. by apply scan_int_ok. Qed.

Lemma sscanf_line l opts super : line_ok l opts super -> sscanf_mount (print_line l opts super) = Scanned l.
Proof.
  intros [Hn Hr Hp Hf Hs (c & o & -> & Hc & Ho) _]. apply Forall_cons_1 in Hn as [N1 Hn].
  apply Forall_cons_1 in Hn as [N2 Hn]. apply Forall_cons_1 in Hn as [N3 Hn]. apply Forall_cons_1 in Hn as [N4 _].
  unfold sscanf_mount, print_line. cbn [app].
  rewrite scan_int_ok by done. cbn [match_of mbind scanned_bind]. rewrite scan_blank_int by done. cbn [match_of mbind scanned_bind].
  rewrite scan_blank_int by done. cbn [match_of mbind scanned_bind scan_char]. change (58 =? 58) with true. cbn match. cbn [match_of mbind scanned_bind].
  rewrite scan_int_ok by done. cbn [match_of mbind scanned_bind]. rewrite scan_array_ok by done. cbn [match_of mbind scanned_bind].
  rewrite scan_array_ok by done. cbn [match_of mbind scanned_bind]. rewrite skip_ws_blank, skip_ws_stop by done.
  change (c :: o ++ 32 :: 45 :: 32 :: ml_fs_type l ++ 32 :: ml_mount_source l ++ 32 :: super ++ [10])
    with ((c :: o) ++ [32] ++ 45 :: 32 :: ml_fs_type l ++ 32 :: ml_mount_source l ++ 32 :: super ++ [10]). rewrite app_assoc, scan_word_ok; [| done | | done].
  2: { apply Forall_app. split; [| by apply Forall_singleton]. apply Forall_forall. intros x Hx. apply Z.eqb_neq. intros ->. apply Ho. by apply list_elem_of_In. }
  cbn [match_of mbind scanned_bind]. rewrite skip_ws_stop by done. cbn [scan_char]. change (45 =? 45) with true. cbn match. cbn [match_of mbind scanned_bind].
  rewrite !scan_array_ok by done. cbn [match_of mbind scanned_bind]. rewrite !scan_array_ok by done. cbn [match_of mbind scanned_bind]. by destruct l.
Qed.

Lemma file_lines_line w rest room : 10 ∉ w -> (length w < room)%nat ->
  file_lines room (w ++ 10 :: rest) = (w ++ [10]) :: file_lines (PATH_MAX - 1) rest.
Proof.
  revert room. induction w as [| c w IH]; intros room Hw Hl; cbn [app file_lines]; [done |].
  apply not_elem_of_cons in Hw as [Hc Hw]. apply not_eq_sym, Z.eqb_neq in Hc. rewrite Hc. cbn [length] in Hl.
  destruct room as [| [| room]]; [lia | lia |]. cbn [orb]. replace (S (S room) - 1)%nat with (S room) by lia. by rewrite IH by (done || lia).
Qed.

Lemma build_entries_ok ls : Forall (fun x => line_ok x.1.1 x.1.2 x.2) ls -> forall room, (length ls <= room)%nat ->
  build_entries room (file_lines (PATH_MAX - 1) (concat ((fun x => print_line x.1.1 x.1.2 x.2) <$> ls))) = Some ((fun x => entry_of x.1.1) <$> ls).
Proof.
  induction 1 as [| [[l opts] super] ls Hl _ IH]; intros room Hr; [done |]. cbn [fmap list_fmap concat length fst snd] in *.
  destruct room as [| room]; [lia |]. pose proof (sscanf_line _ _ _ Hl) as Hscan. destruct Hl as [_ _ _ _ _ _ [Hlen Hnl]].
  assert (print_line l opts super = removelast (print_line l opts super) ++ [10]) as Hp.
  { unfold print_line. rewrite !app_assoc. rewrite removelast_last. done. }
  rewrite Hp, <- app_assoc. cbn [app]. rewrite file_lines_line; [| done | rewrite Hp, length_app in Hlen; cbn [length] in Hlen; lia].
  rewrite <- Hp. cbn [build_entries]. rewrite Hscan. rewrite IH by lia. done.
Qed.

Lemma find_mount_id dev l es e : NoDup (me_mount_id <$> es) -> e ∈ es -> 0 <= me_mount_id e -> l = me_mount_id e -> find_mount l dev es = Some e.
Proof.
  intros Hnd He Hp ->. induction es as [| x es IH]; [by apply elem_of_nil in He |]. cbn in *. destruct (Z.ltb_spec (-1) (me_mount_id e)); [| lia].
  apply list.NoDup_cons in Hnd as [Hx Hnd]. apply elem_of_cons in He as [<- | He]; [by rewrite Z.eqb_refl |].
  destruct (Z.eqb_spec (me_mount_id x) (me_mount_id e)) as [E |]; [| by apply IH]. exfalso. apply Hx. rewrite E. by apply list_elem_of_fmap_2.
Qed.

(** ** The place of a file *)

Lemma starts_app p s : starts p (p ++ s) = true.
Proof. unfold starts. rewrite take_app_length. by apply bool_decide_eq_true. Qed.
Lemma starts_self p : starts p p = true.
Proof. pose proof (starts_app p []) as H. by rewrite app_nil_r in H. Qed.

(** Where the root of the file system is mounted. *)
Definition shown_point (m : mount_vars) : list Z := if bool_decide (mv_point m = [47]) then [] else mv_point m.

Lemma place_plain m temp file : mv_type m <> FS_TYPE_NETWORK -> is_string (mv_point m) -> is_string temp -> file <> [] ->
  mv_root m = [47] -> (exists t, temp = 47 :: t /\ head t <> Some 47) ->
  file_place m temp file = Some (take 511 (shown_point m ++ temp), None).
Proof.
  intros Ht Hp Hs Hf Hr (t & -> & Hh). unfold file_place. rewrite bool_decide_eq_false_2 by done. fold (shown_point m).
  assert (is_string (shown_point m)) as Hsp by (unfold shown_point; case_bool_decide; [constructor | done]).
  rewrite Hr. cbn [length]. assert (bool_decide ((47 :: t) !! 1%nat = Some 47) = false) as ->.
  { apply bool_decide_eq_false. destruct t; cbn in *; congruence. }
  rewrite andb_false_r. assert ((1 =? S (length t) + length file)%nat = false) as -> by (apply Nat.eqb_neq; destruct file; [done | cbn; lia]).
  cbn [andb]. rewrite strncat_plain by done. done.
Qed.
Lemma place_bind m rest file : mv_type m <> FS_TYPE_NETWORK -> is_string (mv_point m) -> is_string rest ->
  file_place m (mv_root m ++ 47 :: rest) file = Some (take 511 (shown_point m ++ 47 :: rest), None).
Proof.
  intros Ht Hp Hs. unfold file_place. rewrite bool_decide_eq_false_2 by done. fold (shown_point m).
  assert (is_string (shown_point m)) as Hsp by (unfold shown_point; case_bool_decide; [constructor | done]).
  rewrite starts_app, drop_app_length. assert ((length (mv_root m) <? length (mv_root m ++ 47%Z :: rest))%nat = true) as ->
    by (apply Nat.ltb_lt; rewrite length_app; cbn [length]; lia).
  rewrite bool_decide_eq_true_2 by (by rewrite list_lookup_middle). cbn [andb]. rewrite strncat_plain; [done | done |]. by constructor.
Qed.
Lemma strrchr_last a b c : c ∉ b -> strrchr (a ++ c :: b) c = Some (length a).
Proof.
  intros Hb. assert (strrchr b c = None) as Hn.
  { pose proof (strrchr_spec b c) as H. destruct (strrchr b c) as [i |]; [| done]. destruct H as (x & y & -> & _). exfalso. apply Hb. apply elem_of_app. right. by left. }
  induction a as [| x a IH]; cbn; [by rewrite Hn, Z.eqb_refl |]. by rewrite IH.
Qed.
Lemma place_file m temp file dir name : mv_type m <> FS_TYPE_NETWORK -> file <> [] -> 47 ∉ file -> 47 ∉ name ->
  (exists t, temp = t ++ [47]) -> mv_root m = temp ++ file -> mv_point m = dir ++ 47 :: name -> name <> [] ->
  file_place m temp file = Some (take 511 (dir ++ [47]), Some name).
Proof.
  intros Ht Hf Hfs Hns [t ->] Hr Hp Hne. unfold file_place. rewrite bool_decide_eq_false_2 by done. fold (shown_point m).
  assert (shown_point m = dir ++ 47 :: name) as ->.
  { unfold shown_point. rewrite bool_decide_eq_false_2; [done |]. rewrite Hp. intros E. apply (f_equal length) in E. rewrite length_app in E.
    destruct name; [done |]. cbn in E. lia. }
  rewrite Hr. assert ((length ((t ++ [47%Z]) ++ file) <? length (t ++ [47%Z]))%nat = false) as -> by (apply Nat.ltb_ge; rewrite (length_app (t ++ [47%Z])); lia).
  cbn [andb]. rewrite length_app, Nat.eqb_refl, starts_app. cbn [andb]. rewrite <- app_assoc. cbn [app]. rewrite strrchr_last by done.
  rewrite drop_app_ge by lia. replace (S (length t) - length t)%nat with 1%nat by lia. cbn [drop]. rewrite bool_decide_eq_true_2 by done.
  rewrite strrchr_last by done. rewrite strcpy_ok by (cbn; lia). change (Z.to_nat (Z.of_nat (f_len u_file_dir) - 1)) with 511%nat. f_equal. f_equal.
  - f_equal. rewrite take_app_ge by lia. by replace (S (length dir) - length dir)%nat with 1%nat by lia.
  - f_equal. rewrite drop_app_ge by lia. by replace (S (length dir) - length dir)%nat with 1%nat by lia.
Qed.

Lemma suffix_of_spec str1 str2 : match suffix_of str1 str2 with
  | Some n => exists a x rest, str1 = a ++ x /\ str2 = x ++ rest /\ length x = n /\ x <> [] /\
      forall a' x' rest', str1 = a' ++ x' -> str2 = x' ++ rest' -> (length x' <= n)%nat
  | None => forall a x rest, str1 = a ++ x -> x <> [] -> str2 <> x ++ rest
  end.
Proof.
  induction str1 as [| c str1 IH]; cbn [suffix_of].
  { intros a x rest E Hx. symmetry in E. by apply app_eq_nil in E as [_ ->]. }
  destruct (starts (c :: str1) str2) eqn:Es.
  - unfold starts in Es. apply bool_decide_eq_true in Es. exists [], (c :: str1), (drop (length (c :: str1)) str2). split; [done |].
    split; [by rewrite <- Es at 1; rewrite take_drop |]. split; [done |]. split; [done |]. intros a' x' rest' E _. rewrite E, length_app. lia.
  - assert (forall a x rest, c :: str1 = a ++ x -> str2 = x ++ rest -> exists a', a = c :: a' /\ str1 = a' ++ x) as Hin.
    { intros a x rest E E2. destruct a as [| y a]; [| injection E as <- ->; by exists a]. cbn in E. subst x str2. by rewrite starts_app in Es. }
    destruct (suffix_of str1 str2) as [n |].
    + destruct IH as (a & x & rest & -> & -> & Hn & Hx & Hmax). exists (c :: a), x, rest. split_and!; try done.
      intros a' x' rest' E E2. destruct (Hin a' x' rest' E E2) as (a0 & -> & E3). by apply (Hmax a0 x' rest').
    + intros a x rest E Hx E2. destruct (Hin a x rest E E2) as (a0 & -> & E3). by apply (IH a0 x rest).
Qed.

(** A share of a network file system: the longest end of its source that the
    path starts with is replaced by the mount point. *)
Lemma place_network m temp file : mv_type m = FS_TYPE_NETWORK -> is_string (mv_point m) -> is_string temp ->
  exists x rest, temp = x ++ rest /\ (exists a, mv_source m = a ++ x) /\
    (forall a' x' rest', mv_source m = a' ++ x' -> temp = x' ++ rest' -> (length x' <= length x)%nat) /\
    file_place m temp file = Some (take 511 (mv_point m ++ rest), None).
Proof.
  intros Ht Hp Hs. unfold file_place. rewrite bool_decide_eq_true_2 by done. unfold replace_suffix_prefix.
  pose proof (suffix_of_spec (mv_source m) temp) as H. destruct (suffix_of (mv_source m) temp) as [n |].
  - destruct H as (a & x & rest & E1 & E2 & Hn & _ & Hmax). exists x, rest. rewrite E2 in Hs |- *. apply string_app in Hs as [_ Hs].
    rewrite <- Hn, drop_app_length, strncat_plain by done. rewrite <- E2. split_and!; [done | by exists a | by rewrite Hn | done].
  - exists [], temp. rewrite strncat_plain by done. split_and!; [done | exists (mv_source m); by rewrite app_nil_r | | done].
    intros a' x' rest' E1 E2. destruct x' as [| y x']; [done |]. exfalso. by apply (H a' (y :: x') rest').
Qed.

(** ** The strings of entries *)

(** The fields of an entry are strings, as the file is one. *)
Definition entry_text (e : mount_entry) : Prop := is_string (me_mount_point e) /\ is_string (me_mount_source e) /\ is_string (me_root e).

Lemma scanned_inv {A B} (m : scanned A) (f : A -> scanned B) y : m ≫= f = Scanned y -> exists x, m = Scanned x /\ f x = Scanned y.
Proof. destruct m; intros H; try done. eauto. Qed.
Lemma match_of_inv {A} (o : option A) x : match_of o = Scanned x -> o = Some x.
Proof. destruct o; intros H; [| done]. by injection H as ->. Qed.
Lemma span_parts stop s : (span stop s).1 ++ (span stop s).2 = s.
Proof. induction s as [| c s IH]; [done |]. cbn. destruct (stop c); [done |]. destruct (span stop s) as [a b]. cbn in *. by f_equal. Qed.
Lemma scan_int_string s v r : is_string s -> match_of (scan_int s) = Scanned (v, r) -> is_string r.
Proof. intros Hs H%match_of_inv. unfold scan_int in H. destruct (scan_d s) as [[x n] |]; [| done]. injection H as _ <-. by apply string_drop. Qed.
Lemma scan_char_string c s r : is_string s -> match_of (scan_char c s) = Scanned r -> is_string r.
Proof. intros Hs H%match_of_inv. destruct s as [| x s]; [done |]. cbn in H. destruct (x =? c); [| done]. injection H as <-. by apply Forall_cons_1 in Hs as [_ Hs]. Qed.
Lemma scan_word_string stop s a r : is_string s -> match_of (scan_word stop s) = Scanned (a, r) -> is_string a /\ is_string r.
Proof.
  intros Hs H%match_of_inv. unfold scan_word in H. rewrite <- (span_parts stop s) in Hs. destruct (span stop s) as [x y]. destruct (_ =? _)%nat; [done |].
  injection H as <- <-. by apply string_app.
Qed.
Lemma skip_ws_string s : is_string s -> is_string (skip_ws s).
Proof. apply string_drop. Qed.
Lemma scan_array_string size s a r : is_string s -> scan_array size s = Scanned (a, r) -> is_string a /\ is_string r.
Proof.
  intros Hs H. unfold scan_array, scan_s in H. apply scanned_inv in H as ([x y] & H1 & H2). destruct (_ <=? _); [done |]. injection H2 as -> ->.
  apply scan_word_string in H1; [done |]. by apply skip_ws_string.
Qed.
Lemma sscanf_text line l : is_string line -> sscanf_mount line = Scanned l -> entry_text (entry_of l).
Proof.
  intros H0 H. unfold sscanf_mount in H.
  apply scanned_inv in H as ([? s1] & E1 & H). apply scan_int_string in E1; [| done].
  apply scanned_inv in H as ([? s2] & E2 & H). apply scan_int_string in E2; [| by apply skip_ws_string].
  apply scanned_inv in H as ([? s3] & E3 & H). apply scan_int_string in E3; [| by apply skip_ws_string].
  apply scanned_inv in H as (s4 & E4 & H). apply scan_char_string in E4; [| done].
  apply scanned_inv in H as ([? s5] & E5 & H). apply scan_int_string in E5; [| done].
  apply scanned_inv in H as ([root s6] & E6 & H). apply scan_array_string in E6 as [R1 R2]; [| done].
  apply scanned_inv in H as ([point s7] & E7 & H). apply scan_array_string in E7 as [P1 P2]; [| done].
  apply scanned_inv in H as ([? s8] & E8 & H). apply scan_word_string in E8 as [_ E8]; [| by apply skip_ws_string].
  apply scanned_inv in H as (s9 & E9 & H). apply scan_char_string in E9; [| by apply skip_ws_string].
  apply scanned_inv in H as ([fs s10] & E10 & H). apply scan_array_string in E10 as [_ E10]; [| done].
  apply scanned_inv in H as ([source s11] & E11 & H). apply scan_array_string in E11 as [E11 _]; [| done]. by injection H as <-.
Qed.
Lemma file_lines_string file : is_string file -> forall room, Forall is_string (file_lines room file).
Proof.
  induction 1 as [| c file Hc Hf IH]; intros room; [constructor |]. cbn [file_lines]. destruct (_ || _); [constructor; [by repeat constructor | apply IH] |].
  specialize (IH (room - 1)%nat). destruct (file_lines (room - 1) file) as [| l ls]; [by repeat constructor |]. apply Forall_cons_1 in IH as [H1 H2].
  constructor; [by constructor | done].
Qed.
Lemma build_entries_text lines : Forall is_string lines -> forall room es, build_entries room lines = Some es -> Forall entry_text es.
Proof.
  induction 1 as [| line lines Hl _ IH]; intros room es; cbn [build_entries]; [by intros [= <-] |]. destruct (sscanf_mount line) as [| | l] eqn:E; [done | apply IH |].
  destruct room as [| room]; [by intros [= <-] |]. destruct (build_entries room lines) as [es' |] eqn:Eb; [| done]. intros [= <-].
  constructor; [by eapply sscanf_text | by eapply IH].
Qed.
Lemma build_mount_text room file count es bytes : is_string file -> build_mount_info room (Some file) = Some (count, es, bytes) -> Forall entry_text es.
Proof.
  intros Hf H. unfold build_mount_info in H. destruct (build_entries room _) as [l |] eqn:E; [| done]. cbn in H. injection H as _ <- _.
  eapply build_entries_text; [by apply file_lines_string | done].
Qed.

(** ** Theorems *)

(** Strings of an entry that fit the arrays of the reader. *)
Definition entry_strings (e : mount_entry) : Prop :=
  Forall (fun s => is_string s /\ Z.of_nat (length s) < MAX_PATH_LENGTH) [me_mount_point e; me_mount_source e; me_root e].
Lemma set_mount_ok e v : entry_strings e -> set_mount_info e v = mk_mount_vars (me_mount_point e) (me_mount_source e) (me_root e) (me_file_type e) /\
  vars_ok (set_mount_info e v).
Proof.
  intros H. apply Forall_cons_1 in H as [[P1 P2] H]. apply Forall_cons_1 in H as [[S1 S2] H]. apply Forall_cons_1 in H as [[R1 R2] _].
  unfold set_mount_info, MAX_PATH_LENGTH in *. rewrite !take_ge by lia. done.
Qed.

(** The names of a file from the file up to the root of its file system. *)
Definition named (file : list Z) (dirs : list (list Z)) : Prop :=
  (47 ∉ file) /\ (exists l, dirs = l ++ [[47]] /\ Forall (fun n => n <> [] /\ 47 ∉ n) l).
Lemma named_directory file dirs : named file dirs ->
  exists t, directory (file :: dirs) = 47 :: t /\ head t <> Some 47 /\ exists t', 47 :: t = t' ++ [47].
Proof.
  intros (_ & l & -> & Hl). rewrite (directory_joined [47] (file :: l) (file :: l ++ [[47]])) by done. cbn [tail app]. eexists. split; [done |].
  apply Forall_rev in Hl. split.
  - destruct (rev l) as [| n ls]; [done |]. apply Forall_cons_1 in Hl as [[Hn Hs] _]. destruct n as [| c n]; [done |].
    cbn. apply not_elem_of_cons in Hs as [Hs _]. congruence.
  - destruct (rev l) as [| y ls _] using rev_ind; [by exists [] |]. exists (47 :: concat ((fun n => n ++ [47]) <$> ls) ++ y).
    rewrite fmap_app, concat_app. cbn. by rewrite app_nil_r, <- app_assoc.
Qed.

(** The directory and the name that an event shows. *)
Definition shows (d prefix dir name : list Z) : Prop :=
  string_in u_file_dir d (prepend_prefix_safe (take 511 dir) 512 prefix) /\ string_in u_filename d (take 255 name).

(** The longest end of the source of a share that a directory starts with is the
    exported path, when the directory is below it. *)
Lemma longest_export host export dir x rest : 47 ∉ host -> (exists t, dir = 47 :: t) ->
  (exists r, dir = export ++ r) -> dir = x ++ rest -> (exists a, host ++ 58 :: export = a ++ x) ->
  (forall a' x' r, host ++ 58 :: export = a' ++ x' -> dir = x' ++ r -> (length x' <= length x)%nat) -> x = export.
Proof.
  intros Hh (t & Ht) (r & Hr) Hx (a & Ha) Hmax.
  pose proof (Hmax (host ++ [58]) export r ltac:(by rewrite <- app_assoc) Hr) as Hle.
  replace (host ++ 58 :: export) with ((host ++ [58]) ++ export) in Ha by (by rewrite <- app_assoc).
  apply app_eq_inv in Ha as [(k & H1 & H2) | (k & H1 & H2)].
  - destruct k as [| c k]; [done |]. exfalso. subst x. rewrite Ht in Hx. injection Hx as <- _.
    assert (47 ∈ host ++ [58]) as Hin by (rewrite H1; apply elem_of_app; right; by left).
    apply elem_of_app in Hin as [? | [? | ?%elem_of_nil]%elem_of_cons]; done.
  - assert (length k = 0%nat) as Hk by (apply (f_equal length) in H2; rewrite length_app in H2; lia). by destruct k.
Qed.

(** C10: What user space makes of the event of a file whose names, from the file
    up to the root of its file system, the kernel recorded, given the mount entry
    that was found for it, whose three strings are shorter than 1024 bytes, and room
    on the stack for a copy of the text: the numbers are those of the event, and the
    directory and the name, cut to the arrays of the event, are these:
    - not on a network file system: when the root of the mount is the root of the
      file system, the directory is that on the file system, below the mount point;
      when the directory is below another root (a bind mount), this root is replaced
      by the mount point; and a file that is the root of the mount itself has the
      directory and the name of the mount point;
    - on a network file system whose source is a host without a slash, a colon and an
      exported path, a directory below the exported path has this path replaced by
      the mount point; in general the longest end of the source that the directory
      starts with is replaced by it.
    The namespace is in front when it is not that of the process. *)
Theorem file_seen_by_process stack dst data file dirs e v mntns_id :
  io_data data file dirs -> named file dirs -> user_io dst -> entry_strings e -> 0 <= mntns_id < 2 ^ 32 ->
  Z.of_nat (length data) < 2 ^ 31 -> vget i_len data + 1 <= stack ->
  let dir := directory (file :: dirs) in
  let point := if bool_decide (me_mount_point e = [47]) then [] else me_mount_point e in
  let prefix := ns_prefix mntns_id in
  exists d, copy_file_metrics stack dst data (Z.of_nat (length data)) mntns_id (set_mount_info e v) = Some (USER_IO_SIZE, d) /\
    vget u_bytes_count d = vget i_bytes_count data /\ vget u_operation d = vget i_operation data /\ vget u_latency d = vget i_latency data /\
    vget u_offset d = vget i_offset data /\ vget u_file_type d = fs_num (me_file_type e) /\
    string_in u_mount_source d (take 511 (me_mount_source e)) /\ string_in u_mount_point d (take 255 (prefix ++ me_mount_point e)) /\
    (me_file_type e <> FS_TYPE_NETWORK ->
      (me_root e = [47] -> shows d prefix (point ++ dir) file) /\
      (forall rest, dir = me_root e ++ 47 :: rest -> shows d prefix (point ++ 47 :: rest) file) /\
      (forall up name, me_root e = dir ++ file -> me_mount_point e = up ++ 47 :: name -> name <> [] -> 47 ∉ name -> shows d prefix (up ++ [47]) name)) /\
    (me_file_type e = FS_TYPE_NETWORK ->
      (forall host export rest, me_mount_source e = host ++ 58 :: export -> 47 ∉ host -> dir = export ++ 47 :: rest ->
        shows d prefix (me_mount_point e ++ 47 :: rest) file) /\
      exists x rest, dir = x ++ rest /\ (exists a, me_mount_source e = a ++ x) /\
        (forall a' x' rest', me_mount_source e = a' ++ x' -> dir = x' ++ rest' -> (length x' <= length x)%nat) /\
        shows d prefix (me_mount_point e ++ rest) file).
Proof.
  intros Hio Hnamed Hdst He Hns Hlen Hst dir point prefix. destruct (set_mount_ok e v He) as [Hset Hvars].
  rewrite Hset in Hvars |- *. clear Hset. set (m := mk_mount_vars _ _ _ _) in *.
  destruct (copy_file_metrics_ok stack dst data file dirs mntns_id m Hio Hdst Hvars Hns Hlen Hst) as (d0 & n0 & d & -> & Hd & Hplace & Hok).
  destruct Hvars as (Hp & Hs & Hr). pose proof Hio as [Hstr Hf _ _]. pose proof (directory_string _ Hstr) as Hds. fold dir in Hplace, Hds.
  exists d. destruct Hok as [M1 M2 M3 M4 M5 _ _ M6 M7 M8 M9]. fold prefix in M6, M9. split_and!; try done.
  - intros Ht. assert (forall dir' name', file_place m dir file = Some (take 511 dir', name') -> shows d prefix dir' (default file name')) as Hsh.
    { intros dir' name' Hp'. rewrite Hplace in Hp'. injection Hp' as -> ->. done. }
    destruct (named_directory file dirs Hnamed) as (t & Hdir & Hh & Hend). fold dir in Hdir. destruct Hnamed as [Hfs _]. split_and!.
    + intros Hroot. apply (Hsh _ None). apply place_plain; try done. by exists t.
    + intros rest Hrest. apply (Hsh _ None). rewrite Hrest. apply place_bind; try done. rewrite Hrest in Hds. apply string_app in Hds as [_ Hds].
      by apply Forall_cons_1 in Hds as [_ Hds].
    + intros up name Hroot Hpoint Hne Hns'. apply (Hsh _ (Some name)). apply place_file; try done. by rewrite Hdir.
  - intros Ht. destruct (place_network m dir file Ht Hp Hds) as (x & rest & E1 & E2 & E3 & E4).
    assert (shows d prefix (me_mount_point e ++ rest) file) as Hsh by (rewrite Hplace in E4; by injection E4 as -> ->).
    split; [| by exists x, rest]. intros host export rest' Hsrc Hhost Hrest.
    destruct (named_directory file dirs Hnamed) as (t & Hdir & _). fold dir in Hdir. cbn [mv_source m] in E2, E3. rewrite Hsrc in E2, E3.
    rewrite (longest_export host export dir x rest Hhost (ex_intro _ t Hdir) (ex_intro _ _ Hrest) E1 E2 E3) in E1.
    rewrite Hrest in E1. apply app_inv_head in E1. by rewrite E1.
Qed.

(** C21: Reading back what the kernel prints. A mountinfo file whose lines are shorter
    than 4096 bytes and have the documented form, with numbers of 31 bits, a root, a
    mount point and a source of less than 1024 bytes, a type of less than 64, none of
    them empty or with white space, and mount options without a hyphen, gives an entry
    for each line, in order, with its number, device, type, mount point, source and
    root, as long as the entries can be allocated; and with different numbers, the
    entry of a mount is found by its number. *)
Theorem mountinfo_read ls room : Forall (fun x => line_ok x.1.1 x.1.2 x.2) ls -> (length ls <= room)%nat ->
  let entry (l : mount_line) := mk_mount_entry (ml_id l) (u32 (kern_dev (ml_major l) (ml_minor l))) (get_fs_type (ml_fs_type l))
    (ml_mount_point l) (ml_mount_source l) (ml_root l) in
  exists bytes es, build_mount_info room (Some (concat ((fun x => print_line x.1.1 x.1.2 x.2) <$> ls))) = Some (Z.of_nat (length ls), es, bytes) /\
    es = (fun x => entry x.1.1) <$> ls /\
    (NoDup ((fun x => ml_id x.1.1) <$> ls) -> forall x s_dev, x ∈ ls -> find_mount (ml_id x.1.1) s_dev es = Some (entry x.1.1)).
Proof.
  intros Hls Hroom entry. change entry with entry_of. unfold build_mount_info. rewrite build_entries_ok by done. cbn [mbind option_bind]. rewrite length_fmap. eexists _, _. split; [done |].
  split; [done |]. intros Hnd x s_dev Hx. apply find_mount_id; [| by apply (list_elem_of_fmap_2 (fun x => entry_of x.1.1)) | | done].
  - rewrite <- list_fmap_compose. done.
  - rewrite Forall_forall in Hls. destruct (Hls x ltac:(by first [apply list_elem_of_In | done])) as [Hn _ _ _ _ _ _]. apply Forall_cons_1 in Hn as [Hn _]. cbn. lia.
Qed.

(** A file below a bind mount, and a table of two mounts. *)
Definition example_names : list (list Z) := [str "store"; str "clickhouse"; str "mnt"; [47]].
Definition example_io : list Z := let text := names_text (str "151" :: example_names) in
  vput i_len (Z.of_nat (length text)) (vput i_bytes_count 4096 (replicate 36 0)) ++ text ++ replicate 20 7.
Definition example_bind : mount_entry := mk_mount_entry 35 0x800001 FS_TYPE_REGULAR (str "/var/lib/ch") (str "/dev/sda1") (str "/mnt/clickhouse").

Lemma example_io_data : io_data example_io (str "151") example_names.
Proof. constructor; [by repeat constructor | done | vm_compute; reflexivity |]. exists (replicate 20 7). vm_compute. reflexivity. Qed.
Lemma file_seen_by_process_witness : exists d,
  copy_file_metrics 8192 (replicate 1572 9) example_io (Z.of_nat (length example_io)) 0 (set_mount_info example_bind (mk_mount_vars [] [] [] FS_TYPE_UNKNOWN)) =
    Some (USER_IO_SIZE, d) /\ vget u_bytes_count d = 4096 /\ string_in u_file_dir d (str "/var/lib/ch/store/") /\ string_in u_filename d (str "151").
Proof.
  assert (named (str "151") example_names) as Hn.
  { split; [by apply (bool_decide_unpack _) |]. exists [str "store"; str "clickhouse"; str "mnt"]. split; [done |].
    repeat constructor; try done; by apply (bool_decide_unpack _). }
  destruct (file_seen_by_process 8192 (replicate 1572 9) example_io (str "151") example_names example_bind (mk_mount_vars [] [] [] FS_TYPE_UNKNOWN) 0
    example_io_data Hn eq_refl) as (d & H1 & H2 & _ & _ & _ & _ & _ & _ & H3 & _); [by repeat constructor | lia | done | done |].
  exists d. split; [done |]. split; [by rewrite H2 |]. destruct (H3 ltac:(done)) as (_ & Hb & _). destruct (Hb (str "store/") eq_refl) as [Hd Hf].
  split; [exact Hd | exact Hf].
Defined.

Definition example_lines : list (mount_line * list Z * list Z) :=
  [(mk_mount_line 22 1 8 1 [47] [47] (str "ext4") (str "/dev/sda1"), str "rw,relatime shared:1", str "rw,errors=remount-ro");
   (mk_mount_line 35 22 0 52 [47] (str "/mnt/nfs") (str "nfs4") (str "10.33.49.27:/srv/nfs"), str "rw", str "rw,vers=4.2")].
Lemma mountinfo_read_witness : exists bytes es,
  build_mount_info 8 (Some (concat ((fun x => print_line x.1.1 x.1.2 x.2) <$> example_lines))) = Some (2, es, bytes) /\
  find_mount 35 0 es = Some (mk_mount_entry 35 52 FS_TYPE_NETWORK (str "/mnt/nfs") (str "10.33.49.27:/srv/nfs") [47]).
Proof.
  assert (Forall (fun x => line_ok x.1.1 x.1.2 x.2) example_lines) as Hl.
  { apply Forall_cons; [| apply Forall_cons; [| by apply Forall_nil]].
    all: constructor; cbn [fst snd ml_id ml_parent ml_major ml_minor ml_root ml_mount_point ml_fs_type ml_mount_source].
    all: try (split; [split; [done | by repeat constructor] | done]). all: try (by repeat constructor).
    all: try (eexists _, _; split; [reflexivity |]; split; [done | by apply (bool_decide_unpack _)]).
    all: split; [apply Nat.ltb_lt; vm_compute; reflexivity | by apply (bool_decide_unpack _)]. }
  destruct (mountinfo_read example_lines 8 Hl ltac:(cbn; lia)) as (bytes & es & H1 & H2 & H3). exists bytes, es. split; [done |].
  assert (NoDup ((fun x => ml_id x.1.1) <$> example_lines)) as Hnd by (by apply (bool_decide_unpack _)).
  apply (H3 Hnd (mk_mount_line 35 22 0 52 [47] (str "/mnt/nfs") (str "nfs4") (str "10.33.49.27:/srv/nfs"), str "rw", str "rw,vers=4.2") 0).
  right. by left.
Defined.

(** ** Paths that come out wrong *)

(** The source of a share that exports its root ends with the slash that the
    directory starts with: the slash after the mount point is lost. *)
Theorem nfs_root_export : file_place (mk_mount_vars (str "/mnt/nfs") (str "server:/") [47] FS_TYPE_NETWORK) (str "/logs/") (str "a.log") =
  Some (str "/mnt/nfslogs/", None).
Proof. reflexivity. Qed.

(** The first name from the top gets no slash: right for the root, whose name is
    a slash, but not when the path is deeper than the kernel records. *)
Theorem deep_path_joined file name top : top <> [] -> directory [file; name; top] = top ++ name ++ [47].
Proof. intros Ht. rewrite (directory_joined top [file; name] [file; name; top]) by done. cbn. by rewrite app_nil_r. Qed.

(** The offset of the name in the event of the user is smaller by 8 than that in
    the event of the kernel: of a text that was cut, 8 bytes behind the data are
    read. *)
Definition cut_io : list Z := take 60 example_io.
Theorem cut_path_reads_behind : 60 < Z.of_nat (length example_io) /\
  copy_file_metrics 8192 (replicate 1572 9) cut_io 60 0 (set_mount_info example_bind (mk_mount_vars [] [] [] FS_TYPE_UNKNOWN)) = None.
Proof. vm_compute. done. Qed.

(** A length that wrapped around, as the kernel leaves it when a name cannot be
    read, passes the test of the length, whose sum wraps too, and asks for an
    array of almost 2^32 bytes on the stack. *)
Theorem wrapped_length_array stack dst data m : (36 <= length data)%nat -> Z.of_nat (length data) < 2 ^ 31 -> vget i_len data = 2 ^ 32 - 14 ->
  stack < 2 ^ 32 - 13 -> copy_file_metrics stack dst data (Z.of_nat (length data)) 0 m = None.
Proof.
  intros Hl Hl2 Hlen Hst. unfold copy_file_metrics. destruct (Z.leb_spec (Z.of_nat (length data)) 0); [lia |]. cbn [Z.ltb Z.compare mbind option_bind].
  rewrite slice_is by (unfold IO_FILENAME; lia). cbn [mbind option_bind]. rewrite Hlen. change (u32 (Z.of_nat (f_off u_filename) + (2 ^ 32 - 14))) with 14.
  rewrite (wrap_small 32 (Z.of_nat (length data))) by lia. destruct (Z.ltb_spec (Z.of_nat (length data)) 14); [lia |]. change (u32 (2 ^ 32 - 14 + 1)) with (2 ^ 32 - 13).
  destruct (Z.ltb_spec stack (2 ^ 32 - 13)); [done | lia].
Qed.

(** A mount point of 1024 characters, which the line has room for, overflows its
    array. *)
Definition long_line : list Z :=
  print_line (mk_mount_line 22 1 8 1 [47] (replicate 1024 97) (str "ext4") (str "/dev/sda1")) (str "rw") (str "rw").
Theorem long_mount_point : (length long_line < PATH_MAX)%nat /\ sscanf_mount long_line = Overflow.
Proof. split; [apply Nat.ltb_lt; vm_compute; reflexivity | vm_compute; reflexivity]. Qed.
