(* ===== verification/ProcCache.v ===== *)
(** * Processes and their mounts

    The caches of user/proc.c and user/mount.c that the reader asks for every
    event: processes by their number, mount entries by mount namespace. The
    reader takes a process out of its table when it starts or exits and leaves
    the rest to another thread, through a ring; that thread reads /proc, adds and
    frees. The hash tables are maps; blocks of memory are entries of a heap, so
    that a use after free has no result. *)

From S2P Require Import Prelude Iovec World Output Memory Mounts Ring.

(** ** The hash of a mountinfo file *)

Definition rotl32 (x n : Z) : Z := Z.lor (u32 (Z.shiftl x n)) (Z.shiftr x (32 - n)).
Definition mix_k (k1 : Z) : Z := u32 (rotl32 (u32 (k1 * 0xcc9e2d51)) 15 * 0x1b873593).
Fixpoint murmur_body (blocks : nat) (data : list Z) (h1 : Z) : Z :=
  match blocks with
  | O => h1
  | S blocks =>
      let h1 := Z.lxor h1 (mix_k (le_word (take 4 data))) in
      murmur_body blocks (drop 4 data) (u32 (rotl32 h1 13 * 5 + 0xe6546b64))
  end.
Definition murmur_tail (tail : list Z) (h1 : Z) : Z :=
  if (length tail =? 0)%nat then h1 else Z.lxor h1 (mix_k (le_word tail)).
Definition fmix (h1 : Z) : Z :=
  let h1 := Z.lxor h1 (Z.shiftr h1 16) in
  let h1 := u32 (h1 * 0x85ebca6b) in
  let h1 := Z.lxor h1 (Z.shiftr h1 13) in
  let h1 := u32 (h1 * 0xc2b2ae35) in
  Z.lxor h1 (Z.shiftr h1 16).
Definition murmurhash (key : list Z) (seed : Z) : Z :=
  let nblocks := (length key / 4)%nat in
  let h1 := murmur_tail (drop (4 * nblocks) key) (murmur_body nblocks key seed) in
  fmix (Z.lxor h1 (u32 (Z.of_nat (length key)))).

(** Reads of 4096 bytes, each hashed with the hash before. *)
Fixpoint hash_chunks (fuel : nat) (file : list Z) (hash : Z) : Z :=
  match fuel, file with
  | S fuel, _ :: _ => hash_chunks fuel (drop 4096 file) (murmurhash (take 4096 file) hash)
  | _, _ => hash
  end.

(** ** What /proc says *)

Record procfs := mk_procfs {
  pf_mnt_ns : Z -> option Z;          (** /proc/<pid>/ns/mnt *)
  pf_mountinfo : Z -> option (list Z);(** /proc/<pid>/mountinfo *)
  pf_starttime : Z -> Z;              (** milliseconds, 0 when there is no such process *)
  pf_comm : Z -> list Z;              (** strings, without a zero byte *)
  pf_container : Z -> list Z;
  pf_now : Z;                         (** seconds *)
  pf_memory : bool;                   (** allocations succeed *)
  pf_entries : nat }.                 (** as many mount entries can be allocated *)

(** ** The mount cache *)

Record mount_info := mk_mount_info {
  mi_entries : list mount_entry; mi_refcount : Z; mi_proc_count : Z; mi_mntns_id : Z; mi_bytes_count : Z; mi_file_hash : Z }.
#[export] Instance eta_mount_info : Eta mount_info := fun m =>
  mk_mount_info (mi_entries m) (mi_refcount m) (mi_proc_count m) (mi_mntns_id m) (mi_bytes_count m) (mi_file_hash m).
Definition MOUNT_INFO : Z := 48.

Record mounts := mk_mounts {
  mc_heap : gmap Z mount_info; mc_table : gmap Z Z; mc_root_ns : Z; mc_root_hash : Z }.
#[export] Instance eta_mounts : Eta mounts := fun c => mk_mounts (mc_heap c) (mc_table c) (mc_root_ns c) (mc_root_hash c).

(** An address that is not in use. *)
Definition new_addr {A} (h : gmap Z A) : Z := 1 + map_fold (fun k _ n => Z.max k n) 0 h.

Section mounts.
Context (F : procfs).

Definition get_mount_ns_id (pid : Z) : option Z := pf_mnt_ns F pid.
Definition hash_mountinfo_file (pid : Z) : option Z :=
  file ← pf_mountinfo F pid; Some (hash_chunks (S (length file)) file 0).

Definition upd_mount (a : Z) (f : mount_info -> mount_info) (c : mounts) : option mounts :=
  m ← mc_heap c !! a; Some (c <| mc_heap := <[a := f m]> (mc_heap c) |>).
Definition add_ref (n : Z) (m : mount_info) : mount_info := m <| mi_refcount := mi_refcount m + n |>.

(** A failed lookup of the namespace, no entry, or the entry with one more
    reference. *)
Inductive looked := MOUNT_INFO_INVAL | MOUNT_INFO_NULL | Mount (a : Z).
Definition mount_info_cache_lookup (pid mntns_id : Z) (c : mounts) : option (looked * mounts) :=
  match (if (mntns_id =? 0) && (0 <? pid) then get_mount_ns_id pid else Some mntns_id) with
  | None => Some (MOUNT_INFO_INVAL, c)
  | Some ns =>
      match mc_table c !! ns with
      | None => Some (MOUNT_INFO_NULL, c)
      | Some a => c ← upd_mount a (add_ref 1) c; Some (Mount a, c)
      end
  end.

(** [None] when the wait for the other references does not end. *)
Definition free_mount_info (a : Z) (c : mounts) : option mounts :=
  m ← mc_heap c !! a;
  if 1 <? mi_refcount m then None else Some (c <| mc_heap := delete a (mc_heap c) |>).

Definition delete_mount_info_from_cache (a : Z) (c : mounts) : option (bool * mounts) :=
  m ← mc_heap c !! a;
  if mi_mntns_id m =? mc_root_ns c then Some (false, c) else
  match mc_table c !! mi_mntns_id m with
  | None => Some (false, c)
  | Some _ => Some (true, c <| mc_table := delete (mi_mntns_id m) (mc_table c) |>)
  end.
Definition add_mount_info_to_cache (a : Z) (c : mounts) : option (bool * mounts) :=
  m ← mc_heap c !! a;
  match mc_table c !! mi_mntns_id m with
  | Some _ => Some (false, c)
  | None => Some (true, c <| mc_table := <[mi_mntns_id m := a]> (mc_table c) |>)
  end.

Definition create_proc_mount_info (pid mntns_id : Z) (c : mounts) : option (bool * mounts) :=
  if negb (pf_memory F) then Some (false, c) else
  let a := new_addr (mc_heap c) in
  '(count, es, bytes) ← build_mount_info (pf_entries F) (pf_mountinfo F pid);
  let m := mk_mount_info es 0 1 mntns_id bytes 0 in
  let c := c <| mc_heap := <[a := m]> (mc_heap c) |> in
  if (count =? -1) || (count =? 0) then c ← free_mount_info a c; Some (false, c) else
  let m := m <| mi_bytes_count := u32 (bytes + MOUNT_INFO) |> <| mi_file_hash := default 0 (hash_mountinfo_file pid) |> in
  let c := c <| mc_heap := <[a := m]> (mc_heap c) |> in
  '(ok, c) ← add_mount_info_to_cache a c;
  if ok : bool then Some (true, c) else c ← free_mount_info a c; Some (false, c).

Definition mount_info_cache_add_if_absent (pid mntns_id : Z) (c : mounts) : option (Z * mounts) :=
  '(m, c) ← mount_info_cache_lookup pid mntns_id c;
  match m with
  | MOUNT_INFO_INVAL => Some (-1, c)
  | MOUNT_INFO_NULL => '(ok, c) ← create_proc_mount_info pid mntns_id c; Some (if ok : bool then 0 else -1, c)
  | Mount a =>
      c ← upd_mount a (fun m => m <| mi_proc_count := mi_proc_count m + 1 |>) c;
      c ← upd_mount a (add_ref (-1)) c; Some (0, c)
  end.

Definition mount_info_cache_remove (pid mntns_id : Z) (c : mounts) : option (Z * mounts) :=
  '(m, c) ← mount_info_cache_lookup pid mntns_id c;
  match m with
  | Mount a =>
      c ← upd_mount a (fun m => m <| mi_proc_count := mi_proc_count m - 1 |>) c;
      m ← mc_heap c !! a;
      if mi_proc_count m =? 0 then
        '(ok, c) ← delete_mount_info_from_cache a c;
        c ← (if ok : bool then free_mount_info a c else upd_mount a (add_ref (-1)) c); Some (0, c)
      else c ← upd_mount a (add_ref (-1)) c; Some (0, c)
  | _ => Some (-1, c)
  end.

Definition check_and_cleanup_mount_info (pid mntns_id : Z) (c : mounts) : option mounts :=
  '(m, c) ← mount_info_cache_lookup pid mntns_id c;
  match m with
  | Mount a =>
      match hash_mountinfo_file pid with
      | None => upd_mount a (add_ref (-1)) c
      | Some new_hash =>
          m ← mc_heap c !! a;
          if negb (new_hash =? mi_file_hash m) then
            '(ok, c) ← delete_mount_info_from_cache a c;
            if ok : bool then c ← free_mount_info a c; '(_, c) ← create_proc_mount_info pid mntns_id c; Some c
            else upd_mount a (add_ref (-1)) c
          else upd_mount a (add_ref (-1)) c
      end
  | _ => Some c
  end.

Definition check_root_mount_info (c : mounts) : option mounts :=
  let new_hash := default 0 (hash_mountinfo_file 1) in
  if negb (new_hash =? 0) && negb (new_hash =? mc_root_hash c) then
    let tmp := mc_root_ns c in
    '(m, c) ← mount_info_cache_lookup 1 (mc_root_ns c) c;
    c ← (match m with
         | Mount a =>
             let c := c <| mc_root_ns := 0 |> in
             '(ok, c) ← delete_mount_info_from_cache a c;
             c ← (if ok : bool then c ← free_mount_info a c; '(_, c) ← create_proc_mount_info 1 tmp c; Some c
                  else upd_mount a (add_ref (-1)) c);
             Some (c <| mc_root_ns := tmp |>)
         | _ => Some c
         end);
    Some (c <| mc_root_hash := new_hash |>)
  else Some c.

Definition mount_info_cache_init : mounts :=
  mk_mounts ∅ ∅ (default 0 (get_mount_ns_id 1)) (default 0 (hash_mountinfo_file 1)).

(** What is known of the mount of a file; the arrays keep what they hold when
    nothing is. *)
Definition get_mount_info (pid mnt_id mntns_id s_dev : Z) (v : mount_vars) (c : mounts) : option (mount_vars * mounts) :=
  '(m, c) ← mount_info_cache_lookup pid mntns_id c;
  match m with
  | Mount a =>
      m ← mc_heap c !! a;
      let v := match find_mount mnt_id s_dev (mi_entries m) with Some e => set_mount_info e v | None => v end in
      c ← upd_mount a (add_ref (-1)) c; Some (v, c)
  | _ => Some (v, c)
  end.
End mounts.

(** ** The process cache *)

(** The part of [struct symbolizer_proc_info] that is not of the profiler. *)
Record symbolizer_proc_info := mk_proc_info {
  pi_pid : Z; pi_stime : Z; pi_verified : bool; pi_is_java : bool; pi_comm : list Z; pi_container_id : list Z;
  pi_use : Z; pi_is_exit : Z; pi_mntns_id : Z }.
#[export] Instance eta_proc_info : Eta symbolizer_proc_info := fun p =>
  mk_proc_info (pi_pid p) (pi_stime p) (pi_verified p) (pi_is_java p) (pi_comm p) (pi_container_id p) (pi_use p) (pi_is_exit p) (pi_mntns_id p).

Inductive proc_act_type := PROC_EXEC | PROC_EXIT.
(** [struct proc_event_info]: the process and the entry that was taken out of the
    table, or 0. *)
Definition proc_event : Type := proc_act_type * Z * Z.

Record caches := mk_caches {
  cc_mounts : mounts; cc_heap : gmap Z symbolizer_proc_info; cc_table : gmap Z Z; cc_ring : ring proc_event;
  cc_elems : Z; cc_execs : Z; cc_exits : Z }.
#[export] Instance eta_caches : Eta caches := fun c =>
  mk_caches (cc_mounts c) (cc_heap c) (cc_table c) (cc_ring c) (cc_elems c) (cc_execs c) (cc_exits c).

Definition PROC_INFO_VERIFY_TIME : Z := 60.
Definition DEV_INVALID : Z := 2 ^ 32 - 1.
Definition TASK_COMM_LEN : nat := 16.
Definition CONTAINER_ID_SIZE : nat := 65.

(** A string in an array of [n] bytes. *)
Definition in_array (n : nat) (s : list Z) : list Z := take (n - 1) s ++ replicate (n - length (take (n - 1) s)) 0.

Section procs.
Context (F : procfs).

Definition upd_proc (a : Z) (f : symbolizer_proc_info -> symbolizer_proc_info) (c : caches) : option caches :=
  p ← cc_heap c !! a; Some (c <| cc_heap := <[a := f p]> (cc_heap c) |>).
(** AO_INC and AO_DEC of [use]; [free_symbolizer_cache_kvp] waits for what is still in
    use. *)
Definition use_inc (p : symbolizer_proc_info) : symbolizer_proc_info := p <| pi_use := pi_use p + 1 |>.
Definition use_dec (p : symbolizer_proc_info) : symbolizer_proc_info := p <| pi_use := pi_use p - 1 |>.
Definition in_use (a : Z) (f : symbolizer_proc_info -> symbolizer_proc_info) (c : caches) : option caches :=
  c ← upd_proc a use_inc c;
  c ← upd_proc a f c;
  upd_proc a use_dec c.
Definition with_mounts {A} (f : mounts -> option (A * mounts)) (c : caches) : option (A * caches) :=
  '(x, m) ← f (cc_mounts c); Some (x, c <| cc_mounts := m |>).

Definition free_proc_cache (a : Z) (c : caches) : option caches :=
  p ← cc_heap c !! a;
  '(_, c) ← with_mounts (mount_info_cache_remove F (pi_pid p) (pi_mntns_id p)) c;
  Some (c <| cc_heap := delete a (cc_heap c) |>).

(** [None] when the wait for the other users does not end. *)
Definition free_symbolizer_cache_kvp (a : Z) (c : caches) : option caches :=
  if a =? 0 then Some c else
  c ← upd_proc a use_dec c;
  p ← cc_heap c !! a;
  if negb (pi_use p =? 0) then None else free_proc_cache a c.

(** The entry of a process from /proc; [None] for a process that is gone. *)
Definition read_proc_info (pid : Z) : symbolizer_proc_info :=
  let stime := pf_starttime F pid in
  mk_proc_info pid stime (PROC_INFO_VERIFY_TIME <=? u64 (pf_now F - stime / 1000)) (bool_decide (pf_comm F pid = str "java"))
    (in_array TASK_COMM_LEN (pf_comm F pid)) (in_array CONTAINER_ID_SIZE (pf_container F pid)) 1 0 (default 0 (get_mount_ns_id F pid)).
Definition config_symbolizer_proc_info (pid : Z) (c : caches) : option (option symbolizer_proc_info * caches) :=
  if pf_starttime F pid =? 0 then Some (None, c) else
  let p := read_proc_info pid in
  '(_, c) ← with_mounts (mount_info_cache_add_if_absent F pid (pi_mntns_id p)) c;
  Some (Some p, c).

Definition add_proc_info_to_cache (pid a : Z) (c : caches) : option caches :=
  c ← free_symbolizer_cache_kvp a c;
  if negb (pf_memory F) then Some c else
  let p_addr := new_addr (cc_heap c) in
  '(op, c) ← config_symbolizer_proc_info pid c;
  match op with
  | None => Some c
  | Some p =>
      let c := c <| cc_heap := <[p_addr := p]> (cc_heap c) |> in
      match cc_table c !! pid with
      | Some _ => free_symbolizer_cache_kvp p_addr c
      | None =>
          let c := c <| cc_table := <[pid := p_addr]> (cc_table c) |> <| cc_elems := cc_elems c + 1 |> in
          '(_, c) ← with_mounts (mount_info_cache_add_if_absent F pid (pi_mntns_id p)) c; Some c
      end
  end.

(** The entry of a process is taken out of the table. *)
Definition take_out (pid : Z) (c : caches) : option (Z * caches) :=
  match cc_table c !! pid with
  | None => Some (0, c)
  | Some a =>
      c ← in_use a (fun p => p <| pi_is_exit := 1 |>) c;
      Some (a, c <| cc_table := delete pid (cc_table c) |> <| cc_elems := cc_elems c - 1 |>)
  end.

Definition __del_proc_info_from_cache (pid : Z) (c : caches) : option (Z * caches) :=
  '(a, c) ← take_out pid c;
  if a =? 0 then Some (-1, c) else c ← free_symbolizer_cache_kvp a c; Some (0, c).
Definition del_proc_info_from_cache (pid a : Z) (c : caches) : option caches :=
  c ← free_symbolizer_cache_kvp a c;
  '(_, c) ← __del_proc_info_from_cache pid c; Some c.

(** What the reader takes from an entry that it found in the table. *)
Definition read_entry (a : Z) (c : caches) : option (list Z * list Z * Z * caches) :=
  c ← upd_proc a use_inc c;
  p ← cc_heap c !! a;
  let info := (pi_container_id p, pi_comm p, pi_mntns_id p) in
  c ← upd_proc a use_dec c;
  Some (info, c).
(** [get_proc_info_from_cache]: the container, the name, the namespace of the
    process, and the mount of the file. *)
Definition get_proc_info_from_cache (pid mnt_id mntns_id s_dev : Z) (v : mount_vars) (c : caches)
    : option (option (list Z * list Z * Z) * mount_vars * caches) :=
  let v := v <| mv_point := [] |> <| mv_source := [] |> in
  '(info, c) ← (match cc_table c !! pid with
                | None => Some (None, c)
                | Some a => '(info, c) ← read_entry a c; Some (Some info, c)
                end);
  '(v, c) ← (if negb (s_dev =? DEV_INVALID) then with_mounts (get_mount_info F pid mnt_id mntns_id s_dev v) c else Some (v, c));
  Some (info, v, c).

(** [update_proc_info_cache] in the reader: a process starts or exits. *)
Definition update_proc_info_cache (pid : Z) (type : proc_act_type) (c : caches) : option caches :=
  let c := match type with PROC_EXEC => c <| cc_execs := cc_execs c + 1 |> | PROC_EXIT => c <| cc_exits := cc_exits c + 1 |> end in
  '(a, c) ← take_out pid c;
  '(_, _, r) ← ring_mp_enqueue_burst (cc_ring c) [(type, pid, a)] 1;
  Some (c <| cc_ring := r |>).

(** [exec_proc_info_cache_update] in the other thread. *)
Fixpoint handle_events (l : list proc_event) (c : caches) : option caches :=
  match l with
  | [] => Some c
  | (PROC_EXEC, pid, a) :: l => c ← add_proc_info_to_cache pid a c; handle_events l c
  | (PROC_EXIT, pid, a) :: l => c ← del_proc_info_from_cache pid a c; handle_events l c
  end.
Fixpoint exec_proc_info_cache_update (fuel : nat) (c : caches) : option caches :=
  match fuel with
  | O => None
  | S fuel =>
      '(nr, _, rx_burst, r) ← ring_sc_dequeue_burst (cc_ring c) (replicate 32 (PROC_EXEC, 0, 0)) MAX_EVENTS_BURST;
      c ← handle_events (take (Z.to_nat nr) rx_burst) (c <| cc_ring := r |>);
      if 0 <? nr then exec_proc_info_cache_update fuel c else Some c
  end.

(** [check_and_update_proc_info]: a walk over the table marks the processes that are
    gone; these are removed, then the namespaces of all are checked, each with the
    first process that was found in it. *)
Definition is_gone (p : symbolizer_proc_info) : bool := (pi_stime p =? 0) || negb (pi_stime p =? pf_starttime F (pi_pid p)).
Definition mark_exit (p : symbolizer_proc_info) : symbolizer_proc_info := if is_gone p then p <| pi_is_exit := 1 |> else p.
Definition check_proc_kvp_cb (kv : Z * Z) (c : caches) : option (Z * symbolizer_proc_info * caches) :=
  c ← in_use kv.2 mark_exit c;
  p ← cc_heap c !! kv.2;
  Some (kv.1, p, c).
Fixpoint walk_procs (l : list (Z * Z)) (c : caches) : option (list (Z * symbolizer_proc_info) * caches) :=
  match l with
  | [] => Some ([], c)
  | kv :: l => '(x, c) ← check_proc_kvp_cb kv c; '(xs, c) ← walk_procs l c; Some (x :: xs, c)
  end.
Fixpoint insert_mntns_vecs (l : list (Z * Z)) (seen : list (Z * Z)) : list (Z * Z) :=
  match l with
  | [] => seen
  | x :: l => insert_mntns_vecs l (if bool_decide (x.2 ∈ seen.*2) then seen else seen ++ [x])
  end.
Fixpoint clear_all (l : list Z) (c : caches) : option caches :=
  match l with [] => Some c | pid :: l => '(_, c) ← __del_proc_info_from_cache pid c; clear_all l c end.
Fixpoint cleanup_all (l : list (Z * Z)) (c : caches) : option caches :=
  match l with
  | [] => Some c
  | (pid, ns) :: l =>
      '(_, c) ← with_mounts (fun m => m ← check_and_cleanup_mount_info F pid ns m; Some (tt, m)) c; cleanup_all l c
  end.
Definition check_and_update_proc_info (c : caches) : option caches :=
  '(walk, c) ← walk_procs (map_to_list (cc_table c)) c;
  let gone := (filter (fun x => is_gone x.2 = true) walk).*1 in
  let spaces := insert_mntns_vecs ((fun x => (pi_pid x.2, pi_mntns_id x.2)) <$> walk) [] in
  c ← clear_all gone c;
  cleanup_all spaces c.
End procs.

(** ** Lemmas on the mount cache *)

Lemma new_addr_fresh {A} (h : gmap Z A) : h !! new_addr h = None /\ 0 < new_addr h.
Proof.
  assert (forall k x, h !! k = Some x -> k <= map_fold (fun k _ n => Z.max k n) 0 h) as Hk.
  { intros k x. apply (map_fold_weak_ind (fun n m => m !! k = Some x -> k <= n)); [by rewrite lookup_empty |].
    intros i y m n Hi IH Hl. destruct (decide (i = k)) as [-> |]; [lia |]. rewrite lookup_insert_ne in Hl by done. specialize (IH Hl). lia. }
  assert (0 <= map_fold (fun k (_ : A) n => Z.max k n) 0 h) as H0.
  { apply (map_fold_weak_ind (fun n _ => 0 <= n)); [lia |]. intros. lia. }
  unfold new_addr. split; [| lia]. destruct (h !! _) eqn:E; [| done]. apply Hk in E. lia.
Qed.

(** No reference is left between two calls, and the heap holds what the table
    does. *)
Record mounts_ok (c : mounts) : Prop := {
  mk_table : forall ns a, mc_table c !! ns = Some a -> exists m, mc_heap c !! a = Some m /\ mi_mntns_id m = ns /\ mi_refcount m = 0;
  mk_heap : forall a m, mc_heap c !! a = Some m -> mc_table c !! mi_mntns_id m = Some a;
  mk_text : forall a m, mc_heap c !! a = Some m -> Forall entry_text (mi_entries m) }.

(** A mountinfo file is text, and no field of it overflows its array. *)
Definition procfs_ok (F : procfs) : Prop :=
  forall pid, is_Some (build_mount_info (pf_entries F) (pf_mountinfo F pid)) /\ (forall file, pf_mountinfo F pid = Some file -> is_string file).

Section mount_lemmas.
Context (F : procfs) (HF : procfs_ok F).

Lemma ok_insert c a m m' : mounts_ok c -> mc_heap c !! a = Some m -> mi_mntns_id m' = mi_mntns_id m -> mi_refcount m' = 0 -> mi_entries m' = mi_entries m ->
  mounts_ok (c <| mc_heap := <[a := m']> (mc_heap c) |>).
Proof.
  intros [Ht Hh Hx] Ha Hn Hr He. constructor; cbn.
  - intros ns b Hb. destruct (decide (b = a)) as [-> | Hne]; [| rewrite lookup_insert_ne by done; by apply Ht].
    rewrite lookup_insert_eq. exists m'. destruct (Ht ns a Hb) as (m0 & H1 & H2 & _). rewrite Ha in H1. injection H1 as ->. by rewrite Hn.
  - intros b x. destruct (decide (b = a)) as [-> | Hne]; [rewrite lookup_insert_eq; intros [= <-]; rewrite Hn; by apply Hh |].
    rewrite lookup_insert_ne by done. apply Hh.
  - intros b x. rewrite lookup_insert_Some. intros [[<- <-] | [_ Hb]]; [rewrite He; by eapply Hx | by eapply Hx].
Qed.
Lemma ok_delete c a m : mounts_ok c -> mc_heap c !! a = Some m ->
  mounts_ok (c <| mc_heap := delete a (mc_heap c) |> <| mc_table := delete (mi_mntns_id m) (mc_table c) |>).
Proof.
  intros [Ht Hh Hx] Ha. constructor; cbn.
  - intros ns b. rewrite lookup_delete_Some. intros [Hne Hb]. destruct (Ht ns b Hb) as (x & H1 & H2 & H3). exists x.
    rewrite lookup_delete_ne; [done |]. intros <-. congruence.
  - intros b x. rewrite lookup_delete_Some. intros [Hne Hb]. rewrite lookup_delete_ne; [by apply Hh |].
    intros E. apply Hh in Ha, Hb. congruence.
  - intros b x. rewrite lookup_delete_Some. intros [_ Hb]. by eapply Hx.
Qed.
Lemma ok_add c a m : mounts_ok c -> mc_heap c !! a = None -> mc_table c !! mi_mntns_id m = None -> mi_refcount m = 0 -> Forall entry_text (mi_entries m) ->
  mounts_ok (c <| mc_heap := <[a := m]> (mc_heap c) |> <| mc_table := <[mi_mntns_id m := a]> (mc_table c) |>).
Proof.
  intros [Ht Hh Hx] Ha Hn Hr He. constructor; cbn.
  - intros ns b. rewrite lookup_insert_Some. intros [[<- <-] | [Hne Hb]]; [exists m; by rewrite lookup_insert_eq |].
    destruct (Ht ns b Hb) as (x & H1 & H2 & H3). exists x. rewrite lookup_insert_ne; [done |]. intros <-. congruence.
  - intros b x. rewrite lookup_insert_Some. intros [[<- <-] | [Hne Hb]]; [by rewrite lookup_insert_eq |].
    apply Hh in Hb as Hb'. rewrite lookup_insert_ne; [done |]. intros E. congruence.
  - intros b x. rewrite lookup_insert_Some. intros [[<- <-] | [_ Hb]]; [done | by eapply Hx].
Qed.
Lemma mounts_root c ns h : mounts_ok c -> mounts_ok (c <| mc_root_ns := ns |> <| mc_root_hash := h |>).
Proof. intros [Ht Hh Hx]. by constructor. Qed.

Lemma create_ok pid ns c : mounts_ok c -> exists ok c', create_proc_mount_info F pid ns c = Some (ok, c') /\ mounts_ok c' /\ mc_root_ns c' = mc_root_ns c.
Proof.
  intros Hc. unfold create_proc_mount_info. destruct (negb (pf_memory F)); [by exists false, c |].
  destruct (HF pid) as [[[[count es] bytes] Hb] Hs]. assert (Forall entry_text es) as Hes.
  { destruct (pf_mountinfo F pid) as [file |]; [by eapply build_mount_text; [apply Hs |] |]. cbn in Hb. by injection Hb as _ <- _. }
  rewrite Hb. cbn [mbind option_bind]. destruct (new_addr_fresh (mc_heap c)) as [Hfr _].
  set (a := new_addr (mc_heap c)) in *. assert (forall m, delete a (<[a := m]> (mc_heap c)) = mc_heap c) as Hdel by (intros; by apply delete_insert_id).
  destruct (_ || _).
  - unfold free_mount_info. cbn. rewrite lookup_insert_eq. cbn. eexists false, _. split; [done |]. rewrite Hdel. split; [by destruct c | done].
  - unfold add_mount_info_to_cache. cbn [mc_heap set setter]. rewrite lookup_insert_eq. cbn [mbind option_bind mi_mntns_id set setter mc_table].
    destruct (mc_table c !! ns) as [b |] eqn:En.
    + unfold free_mount_info. cbn. rewrite lookup_insert_eq. cbn. eexists false, _. split; [done |]. rewrite insert_insert_eq, Hdel. split; [by destruct c | done].
    + eexists true, _. split; [done |]. rewrite insert_insert_eq. split; [| done].
      match goal with |- context [<[a := ?m]> (mc_heap c)] => pose proof (ok_add c a m Hc Hfr En eq_refl Hes) as H end. exact H.
Qed.

Lemma add_ref_back m : add_ref (-1) (add_ref 1 m) = m.
Proof. destruct m as [es r n i b h]. change (mk_mount_info es (r + 1 + -1) n i b h = mk_mount_info es r n i b h). f_equal. lia. Qed.

(** A lookup finds nothing, or an entry that then has one reference. *)
Definition held (a : Z) (m : mount_info) (c : mounts) : mounts := c <| mc_heap := <[a := add_ref 1 m]> (mc_heap c) |>.
Lemma lookup_cases pid ns c : mounts_ok c ->
  (exists r, mount_info_cache_lookup F pid ns c = Some (r, c) /\ (r = MOUNT_INFO_INVAL \/ r = MOUNT_INFO_NULL)) \/
  (exists a m, mount_info_cache_lookup F pid ns c = Some (Mount a, held a m c) /\ mc_heap c !! a = Some m /\ mi_refcount m = 0 /\
     mc_table c !! mi_mntns_id m = Some a).
Proof.
  intros [Ht Hh _]. unfold mount_info_cache_lookup. destruct (if _ && _ then _ else _) as [n |]; [| left; eauto].
  destruct (mc_table c !! n) as [a |] eqn:En; [| left; eauto]. right. destruct (Ht n a En) as (m & Hm & Hn & Hr). exists a, m.
  unfold upd_mount. rewrite Hm. cbn. rewrite Hn. done.
Qed.

Lemma held_heap a m c : mc_heap (held a m c) !! a = Some (add_ref 1 m).
Proof. cbn. by rewrite lookup_insert_eq. Qed.
Lemma upd_held a m c f : upd_mount a f (held a m c) = Some (c <| mc_heap := <[a := f (add_ref 1 m)]> (mc_heap c) |>).
Proof. unfold upd_mount. rewrite held_heap. cbn. by rewrite insert_insert_eq. Qed.
(** The reference is given back. *)
Lemma release_ok a m m' c : mounts_ok c -> mc_heap c !! a = Some m -> mi_refcount m = 0 -> mi_mntns_id m' = mi_mntns_id m -> mi_refcount m' = 1 -> mi_entries m' = mi_entries m ->
  exists c', upd_mount a (add_ref (-1)) (c <| mc_heap := <[a := m']> (mc_heap c) |>) = Some c' /\ mounts_ok c' /\ mc_root_ns c' = mc_root_ns c.
Proof.
  intros Hc Ha Hr Hn Hr' He. unfold upd_mount. cbn. rewrite lookup_insert_eq. cbn. eexists. split; [done |]. rewrite insert_insert_eq. split; [| done].
  apply (ok_insert c a m); try done. cbn. lia.
Qed.
(** The entry is taken out of the table and freed. *)
Lemma drop_ok a m m' c : mounts_ok c -> mc_heap c !! a = Some m -> mi_mntns_id m' = mi_mntns_id m -> mi_refcount m' = 1 -> mc_table c !! mi_mntns_id m = Some a ->
  let c1 := c <| mc_heap := <[a := m']> (mc_heap c) |> in
  (exists c', delete_mount_info_from_cache a c1 = Some (true, c') /\ exists c2, free_mount_info a c' = Some c2 /\ mounts_ok c2 /\ mc_root_ns c2 = mc_root_ns c) \/
  delete_mount_info_from_cache a c1 = Some (false, c1).
Proof.
  intros Hc Ha Hn Hr Ht c1. unfold delete_mount_info_from_cache, c1. cbn [mc_heap set setter]. rewrite lookup_insert_eq. cbn [mbind option_bind].
  destruct (_ =? _); [by right |]. cbn. rewrite Hn, Ht. left. eexists. split; [done |]. unfold free_mount_info. cbn. rewrite lookup_insert_eq. cbn.
  rewrite Hr. cbn. eexists. split; [done |]. rewrite delete_insert_eq. split; [| done]. exact (ok_delete c a m Hc Ha).
Qed.

Lemma add_if_absent_ok pid ns c : mounts_ok c ->
  exists r c', mount_info_cache_add_if_absent F pid ns c = Some (r, c') /\ mounts_ok c' /\ mc_root_ns c' = mc_root_ns c.
Proof.
  intros Hc. unfold mount_info_cache_add_if_absent. destruct (lookup_cases pid ns c Hc) as [(r & -> & [-> | ->]) | (a & m & -> & Ha & Hr & Ht)]; cbn [mbind option_bind].
  - by exists (-1), c.
  - destruct (create_ok pid ns c Hc) as (ok & c' & -> & H1 & H2). cbn [mbind option_bind]. by eexists _, _.
  - rewrite upd_held. cbn [mbind option_bind]. set (m1 := (add_ref 1 m) <| mi_proc_count := mi_proc_count (add_ref 1 m) + 1 |>).
    destruct (release_ok a m m1 c) as (c' & H1 & H2 & H3); [done | done | done | done | cbn; lia | done |].
    rewrite H1. cbn [mbind option_bind]. by eexists _, _.
Qed.
Lemma remove_ok pid ns c : mounts_ok c ->
  exists r c', mount_info_cache_remove F pid ns c = Some (r, c') /\ mounts_ok c' /\ mc_root_ns c' = mc_root_ns c.
Proof.
  intros Hc. unfold mount_info_cache_remove. destruct (lookup_cases pid ns c Hc) as [(r & -> & [-> | ->]) | (a & m & -> & Ha & Hr & Ht)]; cbn [mbind option_bind];
    [by exists (-1), c | by exists (-1), c |].
  rewrite upd_held. cbn [mbind option_bind]. set (m1 := (add_ref 1 m) <| mi_proc_count := mi_proc_count (add_ref 1 m) - 1 |>).
  assert (forall x, mc_heap (c <| mc_heap := <[a := x]> (mc_heap c) |>) !! a = Some x) as -> by (intros; cbn; by rewrite lookup_insert_eq). cbn [mbind option_bind].
  assert (mi_mntns_id m1 = mi_mntns_id m /\ mi_refcount m1 = 1) as [Hn1 Hr1] by (cbn; split; [done | lia]).
  destruct (release_ok a m m1 c Hc Ha Hr Hn1 Hr1 eq_refl) as (c' & H1 & H2 & H3). destruct (_ =? 0).
  - destruct (drop_ok a m m1 c Hc Ha Hn1 Hr1 Ht) as [(c2 & E & c3 & E2 & H4 & H5) | E]; rewrite E; cbn [mbind option_bind].
    + rewrite E2. cbn [mbind option_bind]. by eexists _, _.
    + rewrite H1. cbn [mbind option_bind]. by eexists _, _.
  - rewrite H1. cbn [mbind option_bind]. by eexists _, _.
Qed.
Lemma cleanup_ok pid ns c : mounts_ok c -> exists c', check_and_cleanup_mount_info F pid ns c = Some c' /\ mounts_ok c' /\ mc_root_ns c' = mc_root_ns c.
Proof.
  intros Hc. unfold check_and_cleanup_mount_info. destruct (lookup_cases pid ns c Hc) as [(r & -> & [-> | ->]) | (a & m & -> & Ha & Hr & Ht)]; cbn [mbind option_bind];
    [by exists c | by exists c |].
  assert (mi_refcount (add_ref 1 m) = 1) as Hr1 by (cbn; lia). destruct (release_ok a m (add_ref 1 m) c Hc Ha Hr eq_refl Hr1 eq_refl) as (c' & H1 & H2 & H3).
  destruct (hash_mountinfo_file F pid) as [h |]; [| by exists c']. rewrite held_heap. cbn [mbind option_bind].
  destruct (negb _); [| by exists c'].
  destruct (drop_ok a m (add_ref 1 m) c Hc Ha eq_refl Hr1 Ht) as [(c2 & E & c3 & E2 & H4 & H5) | E]; unfold held in *; rewrite E; cbn [mbind option_bind].
  - rewrite E2. cbn [mbind option_bind]. destruct (create_ok pid ns c3 H4) as (ok & c4 & -> & H6 & H7). cbn [mbind option_bind]. exists c4. by rewrite H7.
  - by exists c'.
Qed.
Lemma check_root_ok c : mounts_ok c -> exists c', check_root_mount_info F c = Some c' /\ mounts_ok c' /\ mc_root_ns c' = mc_root_ns c.
Proof.
  intros Hc. unfold check_root_mount_info. destruct (_ && _); [| by exists c].
  destruct (lookup_cases 1 (mc_root_ns c) c Hc) as [(r & -> & [-> | ->]) | (a & m & -> & Ha & Hr & Ht)]; cbn [mbind option_bind].
  1,2: eexists; split; [done |]; split; [| done]; apply (mounts_root c (mc_root_ns c)), Hc.
  assert (mi_refcount (add_ref 1 m) = 1) as Hr1 by (cbn; lia).
  pose proof (mounts_root c 0 (mc_root_hash c) Hc) as Hc0. set (c0 := c <| mc_root_ns := 0 |> <| mc_root_hash := mc_root_hash c |>) in Hc0.
  assert ((held a m c) <| mc_root_ns := 0 |> = c0 <| mc_heap := <[a := add_ref 1 m]> (mc_heap c0) |>) as Hh by (by destruct c). rewrite Hh.
  destruct (drop_ok a m (add_ref 1 m) c0 Hc0 Ha eq_refl Hr1 Ht) as [(c2 & E & c3 & E2 & H4 & H5) | E]; rewrite E; cbn [mbind option_bind].
  - rewrite E2. cbn [mbind option_bind]. destruct (create_ok 1 (mc_root_ns c) c3 H4) as (ok & c4 & -> & H6 & H7). cbn [mbind option_bind].
    eexists. split; [done |]. split; [| done]. by apply (mounts_root c4 (mc_root_ns c)).
  - destruct (release_ok a m (add_ref 1 m) c0 Hc0 Ha Hr eq_refl Hr1 eq_refl) as (c' & -> & H2 & H3). cbn [mbind option_bind].
    eexists. split; [done |]. split; [| done]. by apply (mounts_root c' (mc_root_ns c)).
Qed.
(** The entry of a mount that the cache knows. *)
Definition known_mount (pid mnt_id mntns_id s_dev : Z) (c : mounts) : option mount_entry :=
  ns ← (if (mntns_id =? 0) && (0 <? pid) then get_mount_ns_id F pid else Some mntns_id);
  a ← mc_table c !! ns; m ← mc_heap c !! a; find_mount mnt_id s_dev (mi_entries m).
Definition with_mount (e : option mount_entry) (v : mount_vars) : mount_vars := match e with Some e => set_mount_info e v | None => v end.
Lemma get_mount_ok pid mnt_id ns s_dev v c : mounts_ok c ->
  get_mount_info F pid mnt_id ns s_dev v c = Some (with_mount (known_mount pid mnt_id ns s_dev c) v, c).
Proof.
  intros [Ht Hh _]. unfold get_mount_info, mount_info_cache_lookup, known_mount. destruct (if _ && _ then _ else _) as [n |]; [| done]. cbn [mbind option_bind].
  destruct (mc_table c !! n) as [a |] eqn:En; [| done]. destruct (Ht n a En) as (m & Hm & _). unfold upd_mount. rewrite Hm. cbn. rewrite lookup_insert_eq. cbn.
  rewrite insert_insert_eq, add_ref_back, Hm. destruct c as [h t x y]. cbn in *. rewrite (insert_id h a m) by done. done.
Qed.
Lemma find_mount_in mnt_id s_dev l e : find_mount mnt_id s_dev l = Some e -> e ∈ l.
Proof.
  induction l as [| x l IH]; [done |]. cbn [find_mount]. intros H. apply elem_of_cons.
  destruct (-1 <? mnt_id); [destruct (me_mount_id x =? mnt_id) | destruct (me_s_dev x =? s_dev)]; first [injection H as <-; by left | right; by apply IH].
Qed.
Lemma known_text pid mnt_id ns s_dev c e : mounts_ok c -> known_mount pid mnt_id ns s_dev c = Some e -> entry_text e.
Proof.
  intros [_ _ Hx] H. unfold known_mount in H. destruct (if _ && _ then _ else _) as [n |]; [| done]. cbn in H. destruct (mc_table c !! n) as [a |]; [| done]. cbn in H.
  destruct (mc_heap c !! a) as [m |] eqn:E; [| done]. cbn in H. apply find_mount_in in H. apply Hx in E. rewrite Forall_forall in E. apply E. by apply list_elem_of_In.
Qed.
End mount_lemmas.

(** ** Lemmas on the process cache *)

(** What the table says of a process. *)
Definition entry_of_pid (c : caches) (pid : Z) : option symbolizer_proc_info := a ← cc_table c !! pid; cc_heap c !! a.

(** An entry that one user holds, the table or an event, with its arrays. *)
Definition proc_ok (p : symbolizer_proc_info) : Prop := pi_use p = 1 /\ length (pi_comm p) = TASK_COMM_LEN /\ length (pi_container_id p) = CONTAINER_ID_SIZE.
Lemma in_array_length n s : (0 < n)%nat -> length (in_array n s) = n.
Proof. intros Hn. unfold in_array. rewrite length_app, length_replicate, length_take. lia. Qed.
Lemma read_proc_ok F pid : proc_ok (read_proc_info F pid).
Proof. split_and!; [done | apply in_array_length; unfold TASK_COMM_LEN; lia | apply in_array_length; unfold CONTAINER_ID_SIZE; lia]. Qed.

(** The entries of the heap are in the table, or in [out], the ones that were
    taken out and not freed yet. *)
Record procs_ok (c : caches) (out : gset Z) : Prop := {
  pk_mounts : mounts_ok (cc_mounts c);
  pk_table : forall pid a, cc_table c !! pid = Some a -> (a ∉ out) /\ exists p, cc_heap c !! a = Some p /\ pi_pid p = pid;
  pk_heap : forall a p, cc_heap c !! a = Some p -> 0 < a /\ proc_ok p /\ (a ∈ out \/ cc_table c !! pi_pid p = Some a);
  pk_out : forall a, a ∈ out -> is_Some (cc_heap c !! a);
  pk_elems : cc_elems c = Z.of_nat (size (cc_table c)) }.

(** The entry is not freed by another call while it is in use; afterwards there are as
    many users as before. *)
Lemma in_use_upd a f c p : cc_heap c !! a = Some p -> use_dec (f (use_inc p)) = f p ->
  in_use a f c = Some (c <| cc_heap := <[a := f p]> (cc_heap c) |>).
Proof.
  intros Hp Hf. unfold in_use, upd_proc. rewrite Hp. cbn [mbind option_bind cc_heap set setter]. rewrite lookup_insert_eq.
  cbn [mbind option_bind cc_heap set setter]. rewrite lookup_insert_eq. cbn [mbind option_bind]. f_equal. unfold set, setter. cbn.
  by rewrite !insert_insert_eq, Hf.
Qed.
Lemma use_back p : use_dec (use_inc p) = p.
Proof. destruct p. unfold use_dec, use_inc, set, setter. cbn. f_equal. lia. Qed.
Lemma entry_upd_ok c out a p q : procs_ok c out -> cc_heap c !! a = Some p -> pi_pid q = pi_pid p -> proc_ok q ->
  procs_ok (c <| cc_heap := <[a := q]> (cc_heap c) |>) out.
Proof.
  intros [H1 H2 H3 H4 H5] Hp Hpid Hq. constructor; cbn [cc_mounts cc_table cc_heap cc_elems set setter]; try done.
  - intros pid b Hb. destruct (H2 pid b Hb) as (Hn & x & Hx & Hxp). split; [done |]. destruct (decide (b = a)) as [-> | Hne].
    + exists q. rewrite lookup_insert_eq. split; [done | congruence].
    + exists x. by rewrite lookup_insert_ne.
  - intros b x. rewrite lookup_insert_Some. intros [[<- <-] | [Hne Hb]]; [| by apply H3]. destruct (H3 a p Hp) as (? & ? & ?). by rewrite Hpid.
  - intros b Hb. destruct (decide (b = a)) as [-> | Hne]; [by rewrite lookup_insert_eq |]. rewrite lookup_insert_ne by done. by apply H4.
Qed.

(** Steps that leave the table and the ring alone. *)
Definition same_table (c c' : caches) : Prop := cc_table c' = cc_table c /\ cc_ring c' = cc_ring c /\ forall pid, entry_of_pid c' pid = entry_of_pid c pid.

Section proc_lemmas.
Context (F : procfs) (HF : procfs_ok F).

Lemma with_mounts_ok {A} (f : mounts -> option (A * mounts)) c out : procs_ok c out ->
  (forall m, mounts_ok m -> exists x m', f m = Some (x, m') /\ mounts_ok m') ->
  exists x m', with_mounts f c = Some (x, c <| cc_mounts := m' |>) /\ procs_ok (c <| cc_mounts := m' |>) out.
Proof.
  intros [H1 H2 H3 H4 H5] Hf. unfold with_mounts. destruct (Hf _ H1) as (x & m' & -> & Hm). cbn [mbind option_bind]. exists x, m'. split; [done |]. by constructor.
Qed.
Lemma remove_total pid ns m : mounts_ok m -> exists r m', mount_info_cache_remove F pid ns m = Some (r, m') /\ mounts_ok m'.
Proof. intros H. destruct (remove_ok F pid ns m H) as (r & m' & ? & ? & _). eauto. Qed.
Lemma add_total pid ns m : mounts_ok m -> exists r m', mount_info_cache_add_if_absent F pid ns m = Some (r, m') /\ mounts_ok m'.
Proof. intros H. destruct (add_if_absent_ok F HF pid ns m H) as (r & m' & ? & ? & _). eauto. Qed.

Lemma free_kvp_ok a c out : procs_ok c out -> a = 0 \/ a ∈ out ->
  exists c', free_symbolizer_cache_kvp F a c = Some c' /\ procs_ok c' (out ∖ {[a]}) /\ same_table c c'.
Proof.
  intros Hc Ha. pose proof Hc as [H1 H2 H3 H4 H5]. unfold free_symbolizer_cache_kvp. destruct (Z.eqb_spec a 0) as [-> | Hz].
  { exists c. split; [done |]. split; [| done]. assert (0 ∉ out) as Hn by (intros Hin; destruct (H4 0 Hin) as [p Hp]; destruct (H3 0 p Hp); lia).
    by replace (out ∖ {[0]}) with out by set_solver. }
  destruct Ha as [-> | Ha]; [done |]. destruct (H4 a Ha) as [p Hp]. destruct (H3 a p Hp) as (Hpos & (Huse & _) & _).
  unfold upd_proc, use_dec. rewrite Hp. cbn [mbind option_bind cc_heap set setter]. rewrite lookup_insert_eq. cbn [mbind option_bind pi_use set setter]. rewrite Huse.
  cbn [Z.sub Z.eqb negb]. change (1 - 1 =? 0) with true. cbn [negb]. unfold free_proc_cache. cbn [cc_heap set setter]. rewrite lookup_insert_eq.
  cbn [mbind option_bind pi_pid pi_mntns_id set setter]. unfold with_mounts. cbn [cc_mounts set setter].
  destruct (remove_total (pi_pid p) (pi_mntns_id p) (cc_mounts c) H1) as (r & m' & -> & Hm). cbn [mbind option_bind]. eexists. split; [done |].
  cbn [cc_heap set setter]. rewrite delete_insert_eq. split.
  - constructor; cbn [cc_mounts cc_table cc_heap cc_elems set setter]; try done.
    + intros pid b Hb. destruct (H2 pid b Hb) as (Hn & q & Hq & Hpid). split; [set_solver |]. exists q. rewrite lookup_delete_ne; [done |]. intros <-. done.
    + intros b q. rewrite lookup_delete_Some. intros [Hne Hb]. destruct (H3 b q Hb) as (? & ? & [? | ?]); split_and!; try done; [left; set_solver | by right].
    + intros b Hb. rewrite lookup_delete_ne by set_solver. apply H4. set_solver.
  - split; [done |]. split; [done |]. intros pid. unfold entry_of_pid. cbn. destruct (cc_table c !! pid) as [b |] eqn:E; [| done]. cbn.
    rewrite lookup_delete_ne; [done |]. intros <-. by destruct (H2 pid a E).
Qed.

Lemma take_out_ok pid c out : procs_ok c out -> exists a c', take_out pid c = Some (a, c') /\
  procs_ok c' (if a =? 0 then out else {[a]} ∪ out) /\ (a ∉ out) /\ cc_ring c' = cc_ring c /\
  entry_of_pid c' pid = None /\ (forall q, q <> pid -> entry_of_pid c' q = entry_of_pid c q) /\ (cc_table c !! pid = None <-> a = 0).
Proof.
  intros Hc. pose proof Hc as [H1 H2 H3 H4 H5]. unfold take_out. destruct (cc_table c !! pid) as [a |] eqn:Et.
  - destruct (H2 pid a Et) as (Hn & p & Hp & Hpid). destruct (H3 a p Hp) as (Hpos & Huse & _).
    rewrite (in_use_upd a _ c p Hp) by (destruct p; unfold use_dec, use_inc, set, setter; cbn; f_equal; lia). cbn [mbind option_bind].
    eexists a, _. split; [done |]. destruct (Z.eqb_spec a 0); [lia |]. split_and!; try done.
    + constructor; cbn [cc_mounts cc_table cc_heap cc_elems set setter]; try done.
      * intros q b. rewrite lookup_delete_Some. intros [Hne Hb]. destruct (H2 q b Hb) as (Hnb & x & Hx & Hq).
        assert (b <> a) by (intros ->; congruence). split; [set_solver |]. exists x. by rewrite lookup_insert_ne.
      * intros b x. rewrite lookup_insert_Some. intros [[<- <-] | [Hne Hb]]; [split_and!; try done; left; set_solver |].
        destruct (H3 b x Hb) as (? & ? & [? | Hx]); split_and!; try done; [left; set_solver |]. right. rewrite lookup_delete_ne; [done |].
        intros E. rewrite <- E in Hx. congruence.
      * intros b [-> %elem_of_singleton | Hb]%elem_of_union; [by rewrite lookup_insert_eq |]. rewrite lookup_insert_ne by (intros <-; done). by apply H4.
      * rewrite map_size_delete_Some by (by rewrite Et). rewrite H5. assert (0 < size (cc_table c))%nat; [| lia].
        destruct (decide (size (cc_table c) = 0%nat)) as [Hs |]; [| lia]. apply map_size_empty_inv in Hs. by rewrite Hs, lookup_empty in Et.
    + unfold entry_of_pid. cbn. by rewrite lookup_delete_eq.
    + intros q Hq. unfold entry_of_pid. cbn. rewrite lookup_delete_ne by done. destruct (cc_table c !! q) as [b |] eqn:E; [| done]. cbn.
      rewrite lookup_insert_ne; [done |]. intros <-. destruct (H2 q a E) as (_ & x & Hx & Hxq). congruence.
  - exists 0, c. split; [done |]. split_and!; try done.
    + intros Hin. destruct (H4 0 Hin) as [p Hp]. destruct (H3 0 p Hp). lia.
    + unfold entry_of_pid. by rewrite Et.
Qed.

(** A new block of memory, not in the table or in it. *)
Lemma heap_out_ok c out b p : procs_ok c out -> cc_heap c !! b = None -> 0 < b -> proc_ok p ->
  procs_ok (c <| cc_heap := <[b := p]> (cc_heap c) |>) ({[b]} ∪ out).
Proof.
  intros [H1 H2 H3 H4 H5] Hfr Hpos Hu. constructor; cbn [cc_mounts cc_table cc_heap cc_elems set setter]; try done.
  - intros q y Hy. destruct (H2 q y Hy) as (Hn & x & Hx & Hq). assert (y <> b) by (intros ->; congruence).
    split; [set_solver |]. exists x. by rewrite lookup_insert_ne.
  - intros y x. rewrite lookup_insert_Some. intros [[<- <-] | [Hne Hy]]; [split_and!; try done; left; set_solver |].
    destruct (H3 y x Hy) as (? & ? & [? | ?]); split_and!; try done; [left; set_solver | by right].
  - intros y [->%elem_of_singleton | Hy]%elem_of_union; [by rewrite lookup_insert_eq |].
    destruct (decide (y = b)) as [-> |]; [by rewrite lookup_insert_eq |]. rewrite lookup_insert_ne by done. by apply H4.
Qed.
Lemma heap_table_ok c out b p : procs_ok c out -> cc_heap c !! b = None -> 0 < b -> proc_ok p -> cc_table c !! pi_pid p = None ->
  procs_ok (c <| cc_heap := <[b := p]> (cc_heap c) |> <| cc_table := <[pi_pid p := b]> (cc_table c) |> <| cc_elems := cc_elems c + 1 |>) out.
Proof.
  intros [H1 H2 H3 H4 H5] Hfr Hpos Hu Ht. assert (b ∉ out) as Hbo by (intros Hin; destruct (H4 b Hin); congruence).
  constructor; cbn [cc_mounts cc_table cc_heap cc_elems set setter]; try done.
  - intros q y. rewrite lookup_insert_Some. intros [[<- <-] | [Hne Hy]]; [split; [done |]; exists p; by rewrite lookup_insert_eq |].
    destruct (H2 q y Hy) as (Hn & x & Hx & Hq). split; [done |]. exists x. rewrite lookup_insert_ne; [done |]. intros <-. congruence.
  - intros y x. rewrite lookup_insert_Some. intros [[<- <-] | [Hne Hy]]; [split_and!; try done; right; by rewrite lookup_insert_eq |].
    destruct (H3 y x Hy) as (? & ? & [? | Hx]); split_and!; try done; [by left |]. right. rewrite lookup_insert_ne; [done |].
    intros E. rewrite <- E in Hx. congruence.
  - intros y Hy. rewrite lookup_insert_ne by (intros <-; done). by apply H4.
  - rewrite map_size_insert_None by done. lia.
Qed.

Lemma add_ok pid a c out : procs_ok c out -> a = 0 \/ a ∈ out -> exists c', add_proc_info_to_cache F pid a c = Some c' /\
  procs_ok c' (out ∖ {[a]}) /\ cc_ring c' = cc_ring c /\ (forall q, q <> pid -> entry_of_pid c' q = entry_of_pid c q) /\
  entry_of_pid c' pid = match entry_of_pid c pid with
                        | Some p => Some p
                        | None => if pf_memory F && negb (pf_starttime F pid =? 0) then Some (read_proc_info F pid) else None
                        end.
Proof.
  intros Hc Ha. unfold add_proc_info_to_cache. destruct (free_kvp_ok a c out Hc Ha) as (c1 & -> & Hc1 & S1 & S2 & S3). cbn [mbind option_bind].
  set (out' := out ∖ {[a]}) in *. assert (forall c', same_table c1 c' -> cc_ring c' = cc_ring c /\ forall q, entry_of_pid c' q = entry_of_pid c q) as Hsame.
  { intros c' (E1 & E2 & E3). split; [by rewrite E2 | intros q; by rewrite E3]. }
  destruct (pf_memory F) eqn:Em; cbn [negb andb].
  2: { exists c1. split; [done |]. destruct (Hsame c1) as [Er Ee]; [done |]. split_and!; try done. rewrite Ee. by destruct (entry_of_pid c pid). }
  destruct (new_addr_fresh (cc_heap c1)) as [Hfr Hpos]. set (b := new_addr (cc_heap c1)) in *. unfold config_symbolizer_proc_info.
  destruct (pf_starttime F pid =? 0); cbn [negb mbind option_bind].
  { exists c1. split; [done |]. destruct (Hsame c1) as [Er Ee]; [done |]. split_and!; try done. rewrite Ee. by destruct (entry_of_pid c pid). }
  destruct (with_mounts_ok _ c1 out' Hc1 (add_total pid (pi_mntns_id (read_proc_info F pid)))) as (x & m1 & -> & Hc2). cbn [mbind option_bind].
  set (c2 := c1 <| cc_mounts := m1 |>) in *. assert (b ∉ out') as Hbo by (intros Hin; destruct (pk_out _ _ Hc1 b Hin) as [p Hp]; congruence).
  assert (entry_of_pid c pid = entry_of_pid c1 pid) as He by (by rewrite S3). rewrite He. cbn [cc_table set setter]. change (cc_table c2 !! pid) with (cc_table c1 !! pid).
  destruct (cc_table c1 !! pid) as [a1 |] eqn:Et.
  - (* an entry is there: the new one is freed *)
    pose proof (heap_out_ok c2 out' b (read_proc_info F pid) Hc2 Hfr Hpos (read_proc_ok F pid)) as Hc3.
    destruct (free_kvp_ok b _ _ Hc3) as (c4 & -> & Hc4 & T1 & T2 & T3); [right; set_solver |]. exists c4. split; [done |].
    replace (({[b]} ∪ out') ∖ {[b]}) with out' in Hc4 by set_solver. assert (forall q, entry_of_pid c4 q = entry_of_pid c q) as Hall.
    { intros q. rewrite T3, <- S3. unfold entry_of_pid. cbn. destruct (cc_table c1 !! q) as [y |] eqn:Ey; [| done]. cbn.
      rewrite lookup_insert_ne; [done |]. intros <-. destruct (pk_table _ _ Hc1 q b Ey) as (_ & p & Hp & _). congruence. }
    split_and!; try done; [by rewrite T2, <- S2 |]. rewrite Hall, He. unfold entry_of_pid. rewrite Et. cbn.
    destruct (pk_table _ _ Hc1 pid a1 Et) as (_ & p & -> & _). done.
  - (* the new entry goes into the table *)
    pose proof (heap_table_ok c2 out' b (read_proc_info F pid) Hc2 Hfr Hpos (read_proc_ok F pid) Et) as Hc3. set (c3 := c2 <| cc_heap := _ |> <| cc_table := _ |> <| cc_elems := _ |>) in *.
    change (cc_elems (c2 <| cc_heap := <[b := read_proc_info F pid]> (cc_heap c2) |>)) with (cc_elems c2). fold c3.
    destruct (with_mounts_ok _ c3 out' Hc3 (add_total pid (pi_mntns_id (read_proc_info F pid)))) as (y & m2 & -> & Hc4). cbn [mbind option_bind].
    eexists. split; [done |]. split_and!; try done.
    + intros q Hq. rewrite <- S3. unfold entry_of_pid. cbn. rewrite lookup_insert_ne by done. destruct (cc_table c1 !! q) as [z |] eqn:Ez; [| done]. cbn.
      rewrite lookup_insert_ne; [done |]. intros <-. destruct (pk_table _ _ Hc1 q b Ez) as (_ & p & Hp & _). congruence.
    + unfold entry_of_pid at 2. rewrite Et. cbn. unfold entry_of_pid. cbn. rewrite lookup_insert_eq. cbn. by rewrite lookup_insert_eq.
Qed.

Lemma del_ok pid a c out : procs_ok c out -> a = 0 \/ a ∈ out -> exists c', del_proc_info_from_cache F pid a c = Some c' /\
  procs_ok c' (out ∖ {[a]}) /\ cc_ring c' = cc_ring c /\ (forall q, q <> pid -> entry_of_pid c' q = entry_of_pid c q) /\ entry_of_pid c' pid = None.
Proof.
  intros Hc Ha. unfold del_proc_info_from_cache. destruct (free_kvp_ok a c out Hc Ha) as (c1 & -> & Hc1 & S1 & S2 & S3). cbn [mbind option_bind].
  unfold __del_proc_info_from_cache. destruct (take_out_ok pid c1 _ Hc1) as (b & c2 & -> & Hc2 & Hb & T1 & T2 & T3 & _). cbn [mbind option_bind].
  destruct (Z.eqb_spec b 0) as [-> | Hz]; cbn [mbind option_bind].
  - exists c2. split_and!; try done; [by rewrite T1 | intros q Hq; by rewrite T3].
  - destruct (free_kvp_ok b c2 _ Hc2) as (c3 & -> & Hc3 & U1 & U2 & U3); [right; set_solver |]. cbn [mbind option_bind]. exists c3.
    replace (({[b]} ∪ out ∖ {[a]}) ∖ {[b]}) with (out ∖ {[a]}) in Hc3 by set_solver.
    split_and!; try done; [by rewrite U2, T1 | intros q Hq; by rewrite U3, T3 | by rewrite U3].
Qed.

(** ** Events *)

(** The entries that wait with an event to be freed. *)
Definition ptrs (l : list proc_event) : list Z := filter (fun a => a <> 0) (l.*2).

Lemma ptrs_cons t pid a l : ptrs ((t, pid, a) :: l) = (if decide (a = 0) then [] else [a]) ++ ptrs l.
Proof. unfold ptrs. rewrite fmap_cons, filter_cons. cbn [snd]. destruct (decide (a = 0)) as [-> | Ha]; [by rewrite decide_False by auto | by rewrite decide_True]. Qed.
Lemma ptrs_app l1 l2 : ptrs (l1 ++ l2) = ptrs l1 ++ ptrs l2.
Proof. unfold ptrs. by rewrite fmap_app, list.filter_app. Qed.

(** What an event leaves in the table for its process. *)
Definition after_event (e : proc_event) (before : option symbolizer_proc_info) : option symbolizer_proc_info :=
  match e with
  | (PROC_EXEC, pid, _) => match before with
                           | Some p => Some p
                           | None => if pf_memory F && negb (pf_starttime F pid =? 0) then Some (read_proc_info F pid) else None
                           end
  | (PROC_EXIT, _, _) => None
  end.
Definition after_events (l : list proc_event) (pid : Z) (before : option symbolizer_proc_info) : option symbolizer_proc_info :=
  foldl (fun x e => if decide (e.1.2 = pid) then after_event e x else x) before l.

Lemma handle_ok l : forall c out, procs_ok c (list_to_set (ptrs l) ∪ out) -> NoDup (ptrs l) -> list_to_set (ptrs l) ## out ->
  exists c', handle_events F l c = Some c' /\ procs_ok c' out /\ cc_ring c' = cc_ring c /\
    forall pid, entry_of_pid c' pid = after_events l pid (entry_of_pid c pid).
Proof.
  induction l as [| [[t pid] a] l IH]; intros c out Hc Hnd Hdj.
  { exists c. cbn in Hc. rewrite (left_id_L ∅ (∪)) in Hc. done. }
  rewrite ptrs_cons in *. apply list.NoDup_app in Hnd as (_ & Hna & Hnd). rewrite list_to_set_app_L in *.
  set (rest := list_to_set (ptrs l) : gset Z) in *.
  assert (a = 0 \/ a ∈ list_to_set (if decide (a = 0) then [] else [a]) ∪ rest ∪ out) as Ha by (destruct (decide (a = 0)); [by left | right; set_solver]).
  assert (0 ∉ rest ∪ out) as H0. { intros Hin. destruct (pk_out _ _ Hc 0) as [p Hp]; [set_solver |]. destruct (pk_heap _ _ Hc 0 p Hp). lia. }
  assert ((list_to_set (if decide (a = 0) then [] else [a]) ∪ rest ∪ out) ∖ {[a]} = rest ∪ out) as Hset.
  { destruct (decide (a = 0)) as [-> | Hz]; [set_solver |]. assert (a ∉ rest) by (unfold rest; rewrite elem_of_list_to_set; apply Hna; by left). set_solver. }
  assert (exists c1, handle_events F ((t, pid, a) :: l) c = handle_events F l c1 /\ procs_ok c1 (rest ∪ out) /\ cc_ring c1 = cc_ring c /\
    (forall q, q <> pid -> entry_of_pid c1 q = entry_of_pid c q) /\ entry_of_pid c1 pid = after_event (t, pid, a) (entry_of_pid c pid)) as (c1 & Heq & Hc1 & R1 & E1 & E2).
  { destruct t; cbn [handle_events].
    - destruct (add_ok pid a c _ Hc Ha) as (c1 & -> & Hc1 & R & E1 & E2). cbn [mbind option_bind]. exists c1. rewrite Hset in Hc1. done.
    - destruct (del_ok pid a c _ Hc Ha) as (c1 & -> & Hc1 & R & E1 & E2). cbn [mbind option_bind]. exists c1. rewrite Hset in Hc1. done. }
  destruct (IH c1 out Hc1 Hnd) as (c' & Hh & Hc' & R' & E'); [set_solver |]. exists c'. split; [by etrans |]. split_and!; try done; [by rewrite R' |].
  intros q. rewrite E'. unfold after_events. cbn [foldl fst snd]. f_equal. destruct (decide (pid = q)) as [<- | Hq]; [done |]. by apply E1.
Qed.
End proc_lemmas.

(** The queue of events, and the entries that are with none of them: those of
    events that found no room. *)
Record caches_ok (c : caches) (queue : list proc_event) (lost : gset Z) : Prop := {
  co_procs : procs_ok c (list_to_set (ptrs queue) ∪ lost);
  co_nodup : NoDup (ptrs queue);
  co_apart : list_to_set (ptrs queue) ## lost;
  co_ring : holds_queue (cc_ring c) queue }.

Section cache_lemmas.
Context (F : procfs) (HF : procfs_ok F).

Lemma procs_frame c c' out : procs_ok c out -> cc_mounts c' = cc_mounts c -> cc_heap c' = cc_heap c -> cc_table c' = cc_table c -> cc_elems c' = cc_elems c -> procs_ok c' out.
Proof. intros [H1 H2 H3 H4 H5] E1 E2 E3 E4. constructor; rewrite ?E1, ?E2, ?E3, ?E4; done. Qed.

(** The entry that a process event takes out, and whether the ring has room. *)
Lemma update_ok pid type c queue lost : caches_ok c queue lost -> exists a c', update_proc_info_cache pid type c = Some c' /\
  (cc_table c !! pid = None <-> a = 0) /\ entry_of_pid c' pid = None /\ (forall q, q <> pid -> entry_of_pid c' q = entry_of_pid c q) /\
  r_capacity (cc_ring c') = r_capacity (cc_ring c) /\
  (Z.of_nat (length queue) < r_capacity (cc_ring c) -> caches_ok c' (queue ++ [(type, pid, a)]) lost) /\
  (Z.of_nat (length queue) = r_capacity (cc_ring c) -> caches_ok c' queue (if decide (a = 0) then lost else {[a]} ∪ lost)).
Proof.
  intros [Hp Hn Ha Hr]. unfold update_proc_info_cache. set (c1 := match type with PROC_EXEC => _ | PROC_EXIT => _ end).
  assert (procs_ok c1 (list_to_set (ptrs queue) ∪ lost) /\ cc_table c1 = cc_table c /\ cc_ring c1 = cc_ring c /\ forall q, entry_of_pid c1 q = entry_of_pid c q)
    as (Hp1 & T1 & R1 & E1) by (split_and!; [destruct type; by apply (procs_frame c) | by destruct type ..]). clearbody c1.
  destruct (take_out_ok F HF pid c1 _ Hp1) as (a & c2 & -> & Hp2 & Hao & R2 & E2 & E3 & Hz). cbn [mbind option_bind]. rewrite T1 in Hz.
  pose proof (enqueue_ok (cc_ring c2) queue [(type, pid, a)] RING_QUEUE_VARIABLE false) as He. rewrite R2, R1 in He. specialize (He Hr). unfold queue_enqueue in He.
  set (n := granted _ _ _) in He. destruct He as (r & He & Hq & Hcap). unfold ring_mp_enqueue_burst. rewrite R2, R1. cbn [length] in He. change (Z.of_nat 1) with 1 in He. rewrite He.
  cbn [mbind option_bind]. exists a. eexists. split; [done |]. split; [done |]. split; [done |]. split; [intros q Hq'; cbn; by rewrite <- E1, <- (E3 q Hq') |]. split; [done |].
  pose proof (hq_bound _ _ Hr) as Hb. assert (n = if Z.of_nat (length queue) <? r_capacity (cc_ring c) then 1 else 0) as Hnv.
  { unfold n, granted. cbn [length]. change (Z.of_nat 1) with 1. destruct (Z.ltb_spec (r_capacity (cc_ring c) - Z.of_nat (length queue)) 1), (Z.ltb_spec (Z.of_nat (length queue)) (r_capacity (cc_ring c))); lia. }
  rewrite Hnv in Hq. split; intros Hlen.
  - rewrite (proj2 (Z.ltb_lt _ _)) in Hq by lia. cbn in Hq. constructor; [| | | done]; rewrite ?ptrs_app, ?ptrs_cons.
    + apply (procs_frame c2); try done. destruct (decide (a = 0)) as [-> | Hz']; cbn [app ptrs fmap list_fmap].
      * cbn in Hp2. by rewrite app_nil_r.
      * apply Z.eqb_neq in Hz'. rewrite Hz' in Hp2. rewrite list_to_set_app_L. cbn. by replace (list_to_set (ptrs queue) ∪ ({[a]} ∪ ∅) ∪ lost) with ({[a]} ∪ (list_to_set (ptrs queue) ∪ lost) : gset Z) by set_solver.
    + apply list.NoDup_app. split; [done |]. destruct (decide (a = 0)); cbn; [split; [intros x _; by apply not_elem_of_nil | constructor] |].
      split; [intros x Hx [-> | []%elem_of_nil]%elem_of_cons; apply Hao; apply elem_of_union; left; by apply elem_of_list_to_set | apply NoDup_singleton].
    + rewrite list_to_set_app_L. destruct (decide (a = 0)); cbn; set_solver.
  - rewrite (proj2 (Z.ltb_ge _ _)) in Hq by lia. cbn in Hq. rewrite app_nil_r in Hq. constructor; [| done | | done].
    + apply (procs_frame c2); try done. destruct (decide (a = 0)) as [-> | Hz']; [done |]. apply Z.eqb_neq in Hz'. rewrite Hz' in Hp2.
      by replace (list_to_set (ptrs queue) ∪ ({[a]} ∪ lost)) with ({[a]} ∪ (list_to_set (ptrs queue) ∪ lost) : gset Z) by set_solver.
    + destruct (decide (a = 0)); [done | set_solver].
Qed.

(** The other thread handles the whole queue, with fuel for every event. *)
Lemma exec_ok fuel : forall c queue lost, caches_ok c queue lost -> (length queue < fuel)%nat ->
  exists c', exec_proc_info_cache_update F fuel c = Some c' /\ caches_ok c' [] lost /\ r_capacity (cc_ring c') = r_capacity (cc_ring c) /\
    forall pid, entry_of_pid c' pid = after_events F queue pid (entry_of_pid c pid).
Proof.
  induction fuel as [| fuel IH]; intros c queue lost [Hp Hn Ha Hr] Hf; [lia |]. cbn [exec_proc_info_cache_update].
  pose proof (dequeue_ok (cc_ring c) queue (replicate 32 (PROC_EXEC, 0, 0)) MAX_EVENTS_BURST RING_QUEUE_VARIABLE true Hr) as Hd.
  specialize (Hd ltac:(unfold MAX_EVENTS_BURST; cbn; lia)). unfold queue_dequeue in Hd. set (n := granted _ _ _) in Hd. destruct Hd as (r & Hd & Hq & Hcap).
  unfold ring_sc_dequeue_burst. rewrite Hd. cbn [mbind option_bind].
  assert (n = Z.min 32 (Z.of_nat (length queue))) as Hnv by (unfold n, granted, MAX_EVENTS_BURST; destruct (Z.ltb_spec (Z.of_nat (length queue)) 32); lia).
  rewrite take_app_le by (rewrite length_take; lia). rewrite take_ge by (rewrite length_take; lia).
  set (now := take (Z.to_nat n) queue) in *. set (later := drop (Z.to_nat n) queue) in *. assert (queue = now ++ later) as Hsplit by (symmetry; apply take_drop).
  rewrite Hsplit in Hp, Hn, Ha. rewrite ptrs_app in *. rewrite list_to_set_app_L in *. apply list.NoDup_app in Hn as (Hn1 & Hn12 & Hn2).
  assert ((list_to_set (ptrs now) : gset Z) ## list_to_set (ptrs later)) as Hdj.
  { intros x Hx1%elem_of_list_to_set Hx2%elem_of_list_to_set. by apply (Hn12 x). }
  destruct (handle_ok F HF now (c <| cc_ring := r |>) (list_to_set (ptrs later) ∪ lost)) as (c1 & -> & Hp1 & R1 & E1); [| done | set_solver |].
  { apply (procs_frame c); try done. by rewrite (assoc_L (∪)). }
  cbn [mbind option_bind]. assert (caches_ok c1 later lost) as Hc1 by (constructor; [done | done | set_solver | by rewrite R1]).
  destruct (Z.ltb_spec 0 n) as [Hpos | Hz].
  - destruct (IH c1 later lost Hc1) as (c' & -> & Hc' & Hcap' & E'); [unfold later; rewrite length_drop; lia |]. exists c'. split_and!; try done.
    + rewrite Hcap', R1. done.
    + intros pid. rewrite E', E1. transitivity (after_events F (now ++ later) pid (entry_of_pid c pid)); [symmetry; apply foldl_app | f_equal; symmetry; exact Hsplit].
  - assert (queue = []) as -> by (apply nil_length_inv; lia). exists c1. split_and!; [done | | by rewrite R1 | intros pid; by rewrite E1, Hsplit; destruct now].
    unfold later in Hc1. by rewrite drop_nil in Hc1.
Qed.

Lemma del_table_ok pid c out : procs_ok c out -> exists r c', __del_proc_info_from_cache F pid c = Some (r, c') /\ procs_ok c' out /\ cc_ring c' = cc_ring c /\
  entry_of_pid c' pid = None /\ (forall q, q <> pid -> entry_of_pid c' q = entry_of_pid c q).
Proof.
  intros Hc. unfold __del_proc_info_from_cache. destruct (take_out_ok F HF pid c _ Hc) as (b & c2 & -> & Hc2 & Hb & T1 & T2 & T3 & _). cbn [mbind option_bind].
  destruct (Z.eqb_spec b 0) as [-> | Hz]; cbn [mbind option_bind]; [by exists (-1), c2 |].
  destruct (free_kvp_ok F HF b c2 _ Hc2) as (c3 & -> & Hc3 & U1 & U2 & U3); [right; set_solver |]. cbn [mbind option_bind]. exists 0, c3.
  replace (({[b]} ∪ out) ∖ {[b]}) with out in Hc3 by set_solver. split_and!; try done; [by rewrite U2, T1 | by rewrite U3 | intros q Hq; by rewrite U3, T3].
Qed.
Lemma clear_ok l : forall c out, procs_ok c out -> exists c', clear_all F l c = Some c' /\ procs_ok c' out /\ cc_ring c' = cc_ring c /\
  forall q, entry_of_pid c' q = if decide (q ∈ l) then None else entry_of_pid c q.
Proof.
  induction l as [| pid l IH]; intros c out Hc; [by exists c |]. cbn [clear_all]. destruct (del_table_ok pid c out Hc) as (r & c1 & -> & Hc1 & R1 & E1 & E2).
  cbn [mbind option_bind]. destruct (IH c1 out Hc1) as (c' & -> & Hc' & R' & E'). exists c'. split_and!; try done; [by rewrite R' |]. intros q. rewrite E'.
  destruct (decide (q ∈ l)) as [Hl | Hl]; [by rewrite decide_True by (by right) |]. destruct (decide (q = pid)) as [-> | Hq].
  - rewrite decide_True by (by left). done.
  - rewrite decide_False; [by apply E2 |]. by intros [? | ?]%elem_of_cons.
Qed.
Lemma cleanup_all_ok l : forall c out, procs_ok c out -> exists c', cleanup_all F l c = Some c' /\ procs_ok c' out /\ cc_ring c' = cc_ring c /\
  forall q, entry_of_pid c' q = entry_of_pid c q.
Proof.
  induction l as [| [pid ns] l IH]; intros c out Hc; [by exists c |]. cbn [cleanup_all].
  destruct (with_mounts_ok (fun m => m ← check_and_cleanup_mount_info F pid ns m; Some (tt, m)) c out Hc) as (x & m' & -> & Hc1).
  { intros m Hm. destruct (cleanup_ok F HF pid ns m Hm) as (m' & -> & Hm' & _). cbn. eauto. }
  cbn [mbind option_bind]. destruct (IH _ out Hc1) as (c' & -> & Hc' & R' & E'). by exists c'.
Qed.

(** The walk marks all processes that are gone, and changes nothing else. *)
Lemma mark_gone p : is_gone F (mark_exit F p) = is_gone F p.
Proof. unfold mark_exit. by destruct (is_gone F p) eqn:E. Qed.
Lemma mark_mark p : mark_exit F (mark_exit F p) = mark_exit F p.
Proof. unfold mark_exit at 1. rewrite mark_gone. unfold mark_exit. by destruct (is_gone F p). Qed.
Lemma mark_use p : use_dec (mark_exit F (use_inc p)) = mark_exit F p.
Proof.
  unfold mark_exit. change (is_gone F (use_inc p)) with (is_gone F p). destruct (is_gone F p); [| apply use_back].
  destruct p. unfold use_dec, use_inc, set, setter. cbn. f_equal. lia.
Qed.
Lemma mark_ok p : proc_ok p -> proc_ok (mark_exit F p) /\ pi_pid (mark_exit F p) = pi_pid p.
Proof. unfold mark_exit. by destruct (is_gone F p). Qed.

Lemma walk_ok l : forall c out, procs_ok c out -> Forall (fun x => cc_table c !! x.1 = Some x.2) l ->
  exists walk c', walk_procs F l c = Some (walk, c') /\ procs_ok c' out /\ cc_ring c' = cc_ring c /\ cc_table c' = cc_table c /\
    (forall a, cc_heap c' !! a = (if decide (a ∈ l.*2) then mark_exit F else id) <$> cc_heap c !! a) /\
    Forall2 (fun x y => y.1 = x.1 /\ cc_heap c' !! x.2 = Some y.2) l walk.
Proof.
  induction l as [| [pid a] l IH]; intros c out Hc Ht.
  { exists [], c. split_and!; try done. intros a. by destruct (cc_heap c !! a). }
  apply Forall_cons_1 in Ht as [Ht1 Ht]. cbn [fst snd] in Ht1. destruct (pk_table _ _ Hc pid a Ht1) as (_ & p & Hp & Hpid).
  destruct (pk_heap _ _ Hc a p Hp) as (_ & Hok & _). destruct (mark_ok p Hok) as [Hmo Hmp].
  cbn [walk_procs]. unfold check_proc_kvp_cb. cbn [fst snd]. rewrite (in_use_upd a _ c p Hp) by apply mark_use. cbn [mbind option_bind].
  set (c1 := c <| cc_heap := _ |>). assert (cc_heap c1 = <[a := mark_exit F p]> (cc_heap c)) as Hh1 by done.
  assert (procs_ok c1 out) as Hc1 by (by apply (entry_upd_ok c out a p)).
  rewrite Hh1, lookup_insert_eq. cbn [mbind option_bind].
  destruct (IH c1 out Hc1 Ht) as (walk & c' & -> & Hc' & R' & T' & H' & W'). cbn [mbind option_bind].
  exists ((pid, mark_exit F p) :: walk), c'. split_and!; try done.
  - intros b. rewrite H', Hh1. cbn [fmap list_fmap snd]. destruct (decide (b = a)) as [-> | Hne].
    + rewrite lookup_insert_eq, Hp. rewrite (decide_True _ _ (list_elem_of_here a (l.*2) : a ∈ a :: l.*2)). cbn. destruct (decide _); cbn; [by rewrite mark_mark | done].
    + rewrite lookup_insert_ne by done. destruct (decide (b ∈ l.*2)) as [Hb | Hb].
      * by rewrite decide_True by (by right).
      * rewrite decide_False; [done |]. by intros [? | ?]%elem_of_cons.
  - constructor; [| done]. cbn [fst snd]. split; [done |]. rewrite H', Hh1, lookup_insert_eq. cbn. destruct (decide _); cbn; [by rewrite mark_mark | done].
Qed.

(** What the walk found. *)
Lemma walk_table c c' walk : cc_table c' = cc_table c ->
  Forall2 (fun x y => y.1 = x.1 /\ cc_heap c' !! x.2 = Some y.2) (map_to_list (cc_table c)) walk ->
  forall pid p, (pid, p) ∈ walk <-> entry_of_pid c' pid = Some p.
Proof.
  intros Ht Hw pid p. unfold entry_of_pid. rewrite Ht. split.
  - intros [i Hi]%list_elem_of_lookup_1. destruct (Forall2_lookup_r _ _ _ _ _ Hw Hi) as ([q a] & Hx & Hq & Hf).
    apply list_elem_of_lookup_2, elem_of_map_to_list in Hx. cbn in Hq, Hf. subst q. by rewrite Hx.
  - intros (a & [i Hi]%elem_of_map_to_list%list_elem_of_lookup_1 & Hpa)%bind_Some.
    destruct (Forall2_lookup_l _ _ _ _ _ Hw Hi) as ([q p'] & Hy & Hq & Hf). cbn in Hq, Hf. rewrite Hpa in Hf. injection Hf as <-. subst q.
    by apply list_elem_of_lookup_2 in Hy.
Qed.

(** The periodic check keeps the processes that are alive. *)
Lemma check_ok c queue lost : caches_ok c queue lost -> exists c', check_and_update_proc_info F c = Some c' /\ caches_ok c' queue lost /\
  cc_ring c' = cc_ring c /\ forall pid, entry_of_pid c' pid = p ← entry_of_pid c pid; if is_gone F p then None else Some p.
Proof.
  intros [Hp Hn Ha Hr]. unfold check_and_update_proc_info.
  destruct (walk_ok (map_to_list (cc_table c)) c _ Hp) as (walk & c0 & -> & Hp0 & R0 & T0 & H0 & W0).
  { apply Forall_forall. intros [pid a] Hin. first [by apply elem_of_map_to_list in Hin | by apply list_elem_of_In, elem_of_map_to_list in Hin]. }
  cbn [mbind option_bind]. set (gone := (filter _ walk).*1). set (spaces := insert_mntns_vecs _ _).
  destruct (clear_ok gone c0 _ Hp0) as (c1 & -> & Hp1 & R1 & E1). cbn [mbind option_bind].
  destruct (cleanup_all_ok spaces c1 _ Hp1) as (c2 & -> & Hp2 & R2 & E2). exists c2.
  assert (cc_ring c2 = cc_ring c) as Hring by congruence. split_and!; [done | constructor; try done; by rewrite Hring | done |].
  pose proof (walk_table c c0 walk T0 W0) as Hin.
  intros pid. rewrite E2, E1.
  assert (entry_of_pid c0 pid = mark_exit F <$> entry_of_pid c pid) as He.
  { unfold entry_of_pid. rewrite T0. destruct (cc_table c !! pid) as [a |] eqn:Et; [| done]. cbn. rewrite H0, decide_True; [done |].
    apply list_elem_of_fmap. exists (pid, a). split; [done |]. by apply elem_of_map_to_list. }
  assert (pid ∈ gone <-> exists p, entry_of_pid c0 pid = Some p /\ is_gone F p = true) as Hg.
  { unfold gone. rewrite list_elem_of_fmap. split.
    - intros ([q p] & -> & Hq). apply list_elem_of_filter in Hq as [Hg Hq]. exists p. split; [by apply Hin | done].
    - intros (p & Hp' & Hg). exists (pid, p). split; [done |]. apply list_elem_of_filter. split; [done | by apply Hin]. }
  rewrite He in Hg |- *. destruct (entry_of_pid c pid) as [p |] eqn:Ee; cbn [fmap option_fmap option_map mbind option_bind] in *; [| by destruct (decide _)].
  destruct (is_gone F p) eqn:Eg.
  - rewrite decide_True; [done |]. apply Hg. exists (mark_exit F p). by rewrite mark_gone.
  - rewrite decide_False; [unfold mark_exit; by rewrite Eg |]. intros (p' & [= <-] & Hg')%Hg. rewrite mark_gone in Hg'. congruence.
Qed.

(** A query leaves the caches as they are. *)
Lemma get_info_ok pid mnt_id mntns_id s_dev v c queue lost : caches_ok c queue lost ->
  get_proc_info_from_cache F pid mnt_id mntns_id s_dev v c =
    Some ((fun p => (pi_container_id p, pi_comm p, pi_mntns_id p)) <$> entry_of_pid c pid,
      with_mount (if s_dev =? DEV_INVALID then None else known_mount F pid mnt_id mntns_id s_dev (cc_mounts c)) (v <| mv_point := [] |> <| mv_source := [] |>), c).
Proof.
  intros [Hp Hn Ha Hr]. unfold get_proc_info_from_cache, entry_of_pid.
  set (read := match cc_table c !! pid with None => Some (None, c) | Some _ => _ end).
  assert (read = Some ((fun p => (pi_container_id p, pi_comm p, pi_mntns_id p)) <$> (a ← cc_table c !! pid; cc_heap c !! a), c)) as ->.
  { unfold read. destruct (cc_table c !! pid) as [a |] eqn:E; [| done]. destruct (pk_table _ _ Hp pid a E) as (_ & p & Hx & _).
    unfold read_entry, upd_proc. cbn. rewrite Hx. cbn. rewrite !lookup_insert_eq. cbn. rewrite ?lookup_insert_eq. cbn. do 2 f_equal.
    rewrite insert_insert_eq, use_back, insert_id by done. by destruct c. }
  cbn [mbind option_bind]. destruct (s_dev =? DEV_INVALID); cbn [negb mbind option_bind]; [done |].
  unfold with_mounts. rewrite get_mount_ok by apply (pk_mounts _ _ Hp). cbn [mbind option_bind]. by destruct c.
Qed.
Lemma root_ok c queue lost : caches_ok c queue lost -> exists m', check_root_mount_info F (cc_mounts c) = Some m' /\ caches_ok (c <| cc_mounts := m' |>) queue lost.
Proof.
  intros [[H1 H2 H3 H4 H5] Hn Ha Hr]. destruct (check_root_ok F HF _ H1) as (m' & -> & Hm & _). exists m'. split; [done |]. by constructor.
Qed.
End cache_lemmas.

(** ** The caches at work *)

(** The start: every process of /proc. *)
Definition PROC_RING_SZ : Z := 16384.
Fixpoint init_procs (F : procfs) (pids : list Z) (c : caches) : option caches :=
  match pids with
  | [] => Some c
  | pid :: pids =>
      if negb (pf_memory F) then Some c else
      let a := new_addr (cc_heap c) in
      '(op, c) ← config_symbolizer_proc_info F pid c;
      match op with
      | None => init_procs F pids c
      | Some p =>
          init_procs F pids (c <| cc_heap := <[a := p]> (cc_heap c) |> <| cc_table := <[pid := a]> (cc_table c) |> <| cc_elems := cc_elems c + 1 |>)
      end
  end.
Definition create_and_init_proc_info_caches (F : procfs) (pids : list Z) : option caches :=
  r ← ring_create (PROC_EXEC, 0, 0) true (str "proc-event-ring") PROC_RING_SZ RING_F_SC_DEQ;
  init_procs F pids (mk_caches (mount_info_cache_init F) ∅ ∅ r 0 0 0).

(** Calls in any order, each with what /proc says at the time. *)
Inductive cache_op :=
| Event (pid : Z) (type : proc_act_type)
| Handle
| Check_procs
| Check_root
| Ask (pid mnt_id mntns_id s_dev : Z) (v : mount_vars).
Definition cache_call (F : procfs) (op : cache_op) (c : caches) : option caches :=
  match op with
  | Event pid type => update_proc_info_cache pid type c
  | Handle => exec_proc_info_cache_update F (S (Z.to_nat (ring_count (cc_ring c)))) c
  | Check_procs => check_and_update_proc_info F c
  | Check_root => m ← check_root_mount_info F (cc_mounts c); Some (c <| cc_mounts := m |>)
  | Ask pid mnt_id mntns_id s_dev v => '(_, _, c) ← get_proc_info_from_cache F pid mnt_id mntns_id s_dev v c; Some c
  end.
Fixpoint cache_run (l : list (procfs * cache_op)) (c : caches) : option caches :=
  match l with [] => Some c | (F, op) :: l => c ← cache_call F op c; cache_run l c end.
(** Every event of a run finds room in the ring. *)
Fixpoint has_room (l : list (procfs * cache_op)) (c : caches) : bool :=
  match l with
  | [] => true
  | (F, op) :: l =>
      match op with Event _ _ => 0 <? ring_free_count (cc_ring c) | _ => true end &&
      match cache_call F op c with Some c => has_room l c | None => true end
  end.

Lemma cache_call_ok F op c queue lost : procfs_ok F -> caches_ok c queue lost -> exists c' queue' lost', cache_call F op c = Some c' /\ caches_ok c' queue' lost' /\
  (match op with Event _ _ => 0 <? ring_free_count (cc_ring c) | _ => true end = true -> lost' = lost).
Proof.
  intros HF Hc. pose proof (co_ring _ _ _ Hc) as Hr. destruct (count_ok _ _ Hr) as [Hcnt Hfree]. destruct op as [pid type | | | | pid mnt ns dev v]; cbn [cache_call].
  - destruct (update_ok F HF pid type c queue lost Hc) as (a & c' & -> & _ & _ & _ & _ & H1 & H2). pose proof (hq_bound _ _ Hr) as Hb.
    destruct (Z.ltb_spec (Z.of_nat (length queue)) (r_capacity (cc_ring c))) as [Hlt | Hge].
    + exists c', (queue ++ [(type, pid, a)]), lost. auto.
    + exists c', queue, (if decide (a = 0) then lost else {[a]} ∪ lost). split; [done |]. split; [apply H2; lia |]. rewrite Hfree. intros Hx%Z.ltb_lt. lia.
  - destruct (exec_ok F HF (S (Z.to_nat (ring_count (cc_ring c)))) c queue lost Hc) as (c' & -> & Hc' & _); [lia |]. by exists c', [], lost.
  - destruct (check_ok F HF c queue lost Hc) as (c' & -> & Hc' & _). by exists c', queue, lost.
  - destruct (root_ok F HF c queue lost Hc) as (m' & -> & Hc'). cbn [mbind option_bind]. by eexists _, queue, lost.
  - rewrite (get_info_ok F pid mnt ns dev v c queue lost Hc). cbn [mbind option_bind]. by exists c, queue, lost.
Qed.
Lemma cache_run_ok l : Forall (fun x => procfs_ok x.1) l -> forall c queue lost, caches_ok c queue lost ->
  exists c' queue' lost', cache_run l c = Some c' /\ caches_ok c' queue' lost' /\ (has_room l c = true -> lost' = lost).
Proof.
  induction 1 as [| [F op] l HF _ IH]; intros c queue lost Hc; [by exists c, queue, lost |]. cbn [cache_run has_room fst] in *.
  destruct (cache_call_ok F op c queue lost HF Hc) as (c1 & q1 & l1 & -> & Hc1 & Hl1). cbn [mbind option_bind].
  destruct (IH c1 q1 l1 Hc1) as (c2 & q2 & l2 & -> & Hc2 & Hl2). exists c2, q2, l2. split_and!; try done. intros [H1 H2]%andb_true_iff. rewrite Hl2 by done. auto.
Qed.

Lemma init_procs_ok F pids : procfs_ok F -> NoDup pids -> forall c, procs_ok c ∅ -> Forall (fun pid => cc_table c !! pid = None) pids ->
  exists c', init_procs F pids c = Some c' /\ procs_ok c' ∅ /\ cc_ring c' = cc_ring c.
Proof.
  intros HF. induction 1 as [| pid pids Hnin Hnd IH]; intros c Hc Ht; [by exists c |]. cbn [init_procs]. apply Forall_cons_1 in Ht as [Hpid Ht].
  destruct (negb (pf_memory F)); [by exists c |]. unfold config_symbolizer_proc_info. destruct (_ =? 0); cbn [mbind option_bind]; [by apply IH |].
  destruct (with_mounts_ok _ c ∅ Hc (add_total F HF pid (pi_mntns_id (read_proc_info F pid)))) as (x & m' & -> & Hc1). cbn [mbind option_bind].
  destruct (new_addr_fresh (cc_heap c)) as [Hfr Hpos].
  pose proof (heap_table_ok (c <| cc_mounts := m' |>) ∅ _ (read_proc_info F pid) Hc1 Hfr Hpos (read_proc_ok F pid) Hpid) as Hc2.
  destruct (IH _ Hc2) as (c' & Hi & Hc' & R'); [| by exists c'].
  apply Forall_forall. intros q Hq. cbn. rewrite lookup_insert_ne; [| intros <-; apply Hnin; first [done | by apply list_elem_of_In]].
  revert q Hq. by apply Forall_forall.
Qed.
Lemma init_caches_ok F pids : procfs_ok F -> NoDup pids -> exists c, create_and_init_proc_info_caches F pids = Some c /\ caches_ok c [] ∅.
Proof.
  intros HF Hnd. unfold create_and_init_proc_info_caches.
  destruct (ring_create_ok (PROC_EXEC, 0, 0) (str "proc-event-ring") PROC_RING_SZ RING_F_SC_DEQ (PROC_RING_SZ - 1)) as (r & -> & Hr & _); [done | |].
  { exists 14. split_and!; (done || unfold PROC_RING_SZ; lia). }
  cbn [mbind option_bind]. destruct (init_procs_ok F pids HF Hnd (mk_caches (mount_info_cache_init F) ∅ ∅ r 0 0 0)) as (c & -> & Hc & R).
  - constructor; cbn; try done. all: set_solver.
  - apply Forall_forall. intros. cbn. apply lookup_empty.
  - exists c. split; [done |]. constructor; [| constructor | done | by rewrite R]. cbn. by rewrite (left_id_L ∅ (∪)).
Qed.

(** What the handled events leave of a process that had no entry. *)
Definition fresh_info (F : procfs) (pid : Z) (x : option symbolizer_proc_info) : Prop :=
  x = None \/ pf_memory F && negb (pf_starttime F pid =? 0) = true /\ x = Some (read_proc_info F pid).
Lemma after_events_fresh F pid l : forall x, fresh_info F pid x -> fresh_info F pid (after_events F l pid x).
Proof.
  induction l as [| [[ty q] a] l IH]; intros x Hx; [done |]. unfold after_events in *. cbn [foldl]. apply IH. cbn. destruct (decide (q = pid)) as [-> |]; [| done].
  unfold after_event. destruct ty; [| by left]. destruct Hx as [-> | [Hm ->]]; [| by right]. destruct (_ && _) eqn:E; [by right | by left].
Qed.
Lemma after_events_last F pid l ty a x : after_events F (l ++ [(ty, pid, a)]) pid x = after_event F (ty, pid, a) (after_events F l pid x).
Proof. unfold after_events. rewrite foldl_app. cbn. by destruct (decide (pid = pid)). Qed.

(** C9: The process and mount caches (proc.c, mount.c) after any calls one after the
    other, in any order: process events, their handling, the periodic checks and the
    queries of the reader, from the start with any distinct processes, whatever /proc
    says at each of them, as long as a mountinfo file has no zero byte and its fields
    are shorter than the arrays they are read into ([procfs_ok]). A call is one step; what another thread does in the middle of it is not in the
    model. No call touches memory that was freed, frees twice or waits forever for
    the users of an entry; the element counter is the number of processes; an entry
    belongs to exactly one of the table, the ring of events and what was lost, and an
    entry is only lost when an event finds the ring full; after each call an entry of
    the table has one user, the table, and every mount information is in its table
    under its namespace and nobody holds it. *)
Theorem caches_safe F0 pids l : procfs_ok F0 -> NoDup pids -> Forall (fun x => procfs_ok x.1) l ->
  exists c0 c queue (lost : gset Z), create_and_init_proc_info_caches F0 pids = Some c0 /\ cache_run l c0 = Some c /\
    holds_queue (cc_ring c) queue /\ NoDup (ptrs queue) /\
    cc_elems c = Z.of_nat (size (cc_table c)) /\
    (forall pid a, cc_table c !! pid = Some a -> (a ∉ ptrs queue) /\ exists p, cc_heap c !! a = Some p /\ pi_pid p = pid /\ pi_use p = 1) /\
    (forall a, is_Some (cc_heap c !! a) <-> (exists pid, cc_table c !! pid = Some a) \/ (a ∈ ptrs queue) \/ (a ∈ lost)) /\
    (forall ns a, mc_table (cc_mounts c) !! ns = Some a -> exists m, mc_heap (cc_mounts c) !! a = Some m /\ mi_mntns_id m = ns /\ mi_refcount m = 0) /\
    (forall a m, mc_heap (cc_mounts c) !! a = Some m -> mc_table (cc_mounts c) !! mi_mntns_id m = Some a) /\
    (has_room l c0 = true -> lost = ∅).
Proof.
  intros HF Hnd Hl. destruct (init_caches_ok F0 pids HF Hnd) as (c0 & H0 & Hc0). destruct (cache_run_ok l Hl c0 [] ∅ Hc0) as (c & queue & lost & Hr & Hc & Hlost).
  destruct Hc as [[[Hm1 Hm2 _] Ht Hh Ho He] Hn Ha Hq]. exists c0, c, queue, lost. split_and!; try done.
  - intros pid a Hpid. destruct (Ht pid a Hpid) as (Hno & p & Hp & Hpp). split; [set_solver |]. exists p. split_and!; try done. by destruct (Hh a p Hp) as (_ & [? _] & _).
  - intros a. split.
    + intros [p Hp]. destruct (Hh a p Hp) as (_ & _ & [Hin | Hin]); [| left; eauto]. right. set_solver.
    + intros [[pid Hpid] | Hin]; [destruct (Ht pid a Hpid) as (_ & p & Hp & _); by exists p |]. apply Ho. set_solver.
Qed.

(** C20: A process event is seen. Once the event of an exec that found room in
    the ring is handled, the reader is told the container, name and mount
    namespace that /proc gave for the process when it was handled; after an
    exit it is told that there is no such process, even if events of the same
    process were waiting. *)
Theorem process_events_seen F0 pids l c0 c F pid type : procfs_ok F0 -> NoDup pids -> Forall (fun x => procfs_ok x.1) l -> procfs_ok F ->
  create_and_init_proc_info_caches F0 pids = Some c0 -> cache_run l c0 = Some c -> 0 < ring_free_count (cc_ring c) ->
  exists c', cache_run [(F, Event pid type); (F, Handle)] c = Some c' /\ ring_empty (cc_ring c') = true /\
    forall F' mnt_id mntns_id s_dev v, exists v', get_proc_info_from_cache F' pid mnt_id mntns_id s_dev v c' =
      Some (match type with
            | PROC_EXEC => if pf_memory F && negb (pf_starttime F pid =? 0)
                           then Some (in_array CONTAINER_ID_SIZE (pf_container F pid), in_array TASK_COMM_LEN (pf_comm F pid), default 0 (pf_mnt_ns F pid)) else None
            | PROC_EXIT => None
            end, v', c').
Proof.
  intros HF0 Hnd Hl HF H0 Hr Hroom. destruct (init_caches_ok F0 pids HF0 Hnd) as (c0' & H0' & Hc0). assert (c0' = c0) as -> by congruence.
  destruct (cache_run_ok l Hl c0 [] ∅ Hc0) as (c1 & queue & lost & Hr' & Hc & _). assert (c1 = c) as -> by congruence.
  destruct (count_ok _ _ (co_ring _ _ _ Hc)) as [_ Hfree]. cbn [cache_run cache_call].
  destruct (update_ok F HF pid type c queue lost Hc) as (a & c2 & -> & _ & E2 & _ & _ & H1 & _). cbn [mbind option_bind]. specialize (H1 ltac:(lia)).
  destruct (exec_ok F HF (S (Z.to_nat (ring_count (cc_ring c2)))) c2 _ lost H1) as (c3 & -> & Hc3 & _ & E3). 
  { destruct (count_ok _ _ (co_ring _ _ _ H1)) as [-> _]. lia. }
  exists c3. split; [done |]. split.
  { unfold ring_empty. by destruct (count_ok _ _ (co_ring _ _ _ Hc3)) as [-> _]. }
  intros F' mnt_id mntns_id s_dev v. rewrite (get_info_ok F' pid mnt_id mntns_id s_dev v c3 [] lost Hc3). eexists. do 3 f_equal.
  rewrite E3, after_events_last, E2. unfold after_event. destruct type; [| done].
  destruct (after_events_fresh F pid queue None (or_introl eq_refl)) as [-> | [-> ->]]; [by destruct (_ && _) | done].
Qed.

(** ** An example *)

Definition example_file (point : list Z) : list Z :=
  print_line (mk_mount_line 35 22 8 1 [47] point (str "ext4") (str "/dev/sda1")) (str "rw") (str "rw").
(** Process 1 in a namespace of its own and all others in another. *)
Definition example_proc (point : list Z) (now : Z) : procfs :=
  mk_procfs (fun pid => Some (if pid =? 1 then 4 else 9)) (fun _ => Some (example_file point)) (fun pid => 1000 * pid)
    (fun pid => if pid =? 1 then str "init" else str "nginx") (fun _ => str "3f5b") now true 8.
Lemma example_data now : procfs_ok (example_proc (str "/data") now).
Proof. intros pid. split; [vm_compute; eauto |]. intros file [= <-]. by apply (bool_decide_unpack _). Qed.

Lemma caches_safe_witness : exists c0 c queue (lost : gset Z),
  create_and_init_proc_info_caches (example_proc (str "/data") 900) [1; 200; 201] = Some c0 /\
  cache_run [(example_proc (str "/data") 901, Event 200 PROC_EXEC); (example_proc (str "/data") 902, Check_procs); (example_proc (str "/data") 903, Handle)] c0 = Some c /\
  holds_queue (cc_ring c) queue /\ lost = ∅.
Proof.
  destruct (caches_safe (example_proc (str "/data") 900) [1; 200; 201]
    [(example_proc (str "/data") 901, Event 200 PROC_EXEC); (example_proc (str "/data") 902, Check_procs); (example_proc (str "/data") 903, Handle)])
    as (c0 & c & queue & lost & H0 & H1 & H2 & _ & _ & _ & _ & _ & _ & H3).
  - apply example_data.
  - by apply (bool_decide_unpack _).
  - repeat (apply Forall_cons; [apply example_data |]). by apply Forall_nil.
  - exists c0, c, queue, lost. split; [exact H0 |]. split; [exact H1 |]. split; [exact H2 |]. apply H3.
    assert (has_room [(example_proc (str "/data") 901, Event 200 PROC_EXEC); (example_proc (str "/data") 902, Check_procs); (example_proc (str "/data") 903, Handle)] <$>
      create_and_init_proc_info_caches (example_proc (str "/data") 900) [1; 200; 201] = Some true) as Hr by (vm_compute; reflexivity).
    rewrite H0 in Hr. by injection Hr.
Defined.

Lemma process_events_seen_witness : exists c c', create_and_init_proc_info_caches (example_proc (str "/data") 900) [1; 200] = Some c /\
  cache_run [(example_proc (str "/data") 901, Event 201 PROC_EXEC); (example_proc (str "/data") 901, Handle)] c = Some c' /\
  exists v', get_proc_info_from_cache (example_proc (str "/data") 902) 201 35 9 0x800001 (mk_mount_vars [] [] [] FS_TYPE_UNKNOWN) c' =
    Some (Some (in_array 65 (str "3f5b"), in_array 16 (str "nginx"), 9), v', c').
Proof.
  destruct (init_caches_ok (example_proc (str "/data") 900) [1; 200] (example_data 900)) as (c & H0 & _); [by apply (bool_decide_unpack _) |].
  assert (0 < ring_free_count (cc_ring c)) as Hroom.
  { assert ((fun c => ring_free_count (cc_ring c)) <$> create_and_init_proc_info_caches (example_proc (str "/data") 900) [1; 200] = Some 16383) as Hr by (vm_compute; reflexivity).
    rewrite H0 in Hr. injection Hr as ->. lia. }
  destruct (process_events_seen (example_proc (str "/data") 900) [1; 200] [] c c (example_proc (str "/data") 901) 201 PROC_EXEC) as (c' & H1 & _ & H2).
  - apply example_data.
  - by apply (bool_decide_unpack _).
  - by apply Forall_nil.
  - apply example_data.
  - exact H0.
  - reflexivity.
  - exact Hroom.
  - exists c, c'. split; [exact H0 |]. split; [exact H1 |]. destruct (H2 (example_proc (str "/data") 902) 35 9 0x800001 (mk_mount_vars [] [] [] FS_TYPE_UNKNOWN)) as (v' & H3). exists v'. exact H3.
Defined.

(** ** An entry that is freed under the reader *)

(** The reader raises the number of users of an entry only after it found the entry in
    the table. When the other thread removes the entry in between, it sees no user and
    frees it, and the reader then writes to memory that was freed. *)
Theorem freed_before_use : exists c a c',
  create_and_init_proc_info_caches (example_proc (str "/data") 900) [1; 200] = Some c /\ cc_table c !! 200 = Some a /\
  is_Some (read_entry a c) /\
  check_and_update_proc_info (mk_procfs (fun _ => None) (fun _ => None) (fun _ => 0) (fun _ => []) (fun _ => []) 901 true 8) c = Some c' /\
  read_entry a c' = None.
Proof.
  assert (match create_and_init_proc_info_caches (example_proc (str "/data") 900) [1; 200] with
    | Some c => match cc_table c !! 200, check_and_update_proc_info
                  (mk_procfs (fun _ => None) (fun _ => None) (fun _ => 0) (fun _ => []) (fun _ => []) 901 true 8) c with
                | Some a, Some c' => match read_entry a c, read_entry a c' with Some _, None => true | _, _ => false end
                | _, _ => false
                end
    | None => false
    end = true) as H by (vm_compute; reflexivity).
  destruct (create_and_init_proc_info_caches _ _) as [c |] eqn:H0; [| done]. destruct (cc_table c !! 200) as [a |] eqn:H1; [| done].
  destruct (check_and_update_proc_info _ c) as [c' |] eqn:H2; [| done].
  destruct (read_entry a c) as [x |] eqn:H3; [| done]. destruct (read_entry a c') as [y |] eqn:H4; [done |].
  exists c, a, c'. rewrite H3, H4. split_and!; try done.
Qed.

(** ** Counts that go wrong *)

(** The processes of each mount information, of the mount table of [c]. *)
Definition spaces_of (c : caches) : list (Z * option Z) :=
  (fun x => (x.1, mi_proc_count <$> mc_heap (cc_mounts c) !! x.2)) <$> map_to_list (mc_table (cc_mounts c)).
Definition procs_of (c : caches) : list Z := (map_to_list (cc_table c)).*1.

(** A process that starts is counted twice, by [config_symbolizer_proc_info] and
    by [add_proc_info_to_cache], and uncounted once: the mount information of
    its namespace is never removed. *)
Theorem mount_info_never_removed : let P := example_proc (str "/data") 900 in
  (c ← create_and_init_proc_info_caches P [1]; c ← cache_run [(P, Event 200 PROC_EXEC); (P, Handle); (P, Event 200 PROC_EXIT); (P, Handle)] c;
   Some (procs_of c, spaces_of c)) = Some ([1], [(9, Some 1); (4, Some 1)]).
Proof. vm_compute. reflexivity. Qed.

(** A mount information that is built again counts one process however many are
    in the namespace: the exit of the first of them removes it. *)
Theorem mount_info_removed_early : let P := example_proc (str "/data") 900 in let Q := example_proc (str "/other") 901 in
  (c ← create_and_init_proc_info_caches P [1; 200; 201]; c1 ← cache_run [(Q, Check_procs)] c; c2 ← cache_run [(Q, Event 200 PROC_EXIT); (Q, Handle)] c1;
   Some (spaces_of c, spaces_of c1, procs_of c2, spaces_of c2)) =
  Some ([(9, Some 2); (4, Some 1)], [(9, Some 1); (4, Some 1)], [201; 1], [(4, Some 1)]).
Proof. vm_compute. reflexivity. Qed.

(** An event that finds the ring full is dropped with the entry that was taken
    out of the table: here of a ring with one slot. The process 201 runs on but
    is gone from the cache, and its entry stays in memory. *)
Theorem event_lost_with_entry : let P := example_proc (str "/data") 900 in
  (r ← ring_create (PROC_EXEC, 0, 0) true (str "proc-event-ring") 2 RING_F_SC_DEQ;
   c ← init_procs P [1; 200; 201] (mk_caches (mount_info_cache_init P) ∅ ∅ r 0 0 0);
   c ← cache_run [(P, Event 200 PROC_EXEC); (P, Event 201 PROC_EXEC); (P, Handle)] c;
   Some (procs_of c, (fun x => pi_pid x.2) <$> map_to_list (cc_heap c))) = Some ([200; 1], [201; 200; 1]).
Proof. vm_compute. reflexivity. Qed.
