(* ===== verification/Dispatch.v ===== *)
(** * From the reader to the callback

    The user side of an event: [reader_raw_cb] and [register_events_handle] copy
    what a perf buffer holds into a block of the heap and put its items into a
    ring; [process_data] of a worker thread takes them out, gives them to the
    callback of the agent and frees the block (user/socket.c,
    [prefetch_and_process_data] in user/socket.h). The blocks are modelled byte by byte. The reader and the
    worker are two threads whose steps interleave; the calls of the ring are
    single steps, which RingThreads.v justifies for one producer and one
    consumer. *)

From S2P Require Import Prelude Conn Iovec World Output Memory FileEvents Mounts Ring.

(** ** Layout

    [struct mem_block_head] is packed, [struct socket_bpf_data] is not. *)
Definition BLOCK_HEAD : Z := 17.
Definition SUBMIT_SIZE : Z := 232.
Definition EXTRA_SIZE : Z := 16.

Definition d_process_id := mk_field 0 4.
Definition d_thread_id := mk_field 4 4.
Definition d_coroutine_id := mk_field 8 8.
Definition d_source := mk_field 16 1.
Definition d_process_kname := mk_field 17 16.
Definition d_container_id := mk_field 33 65.
Definition d_tuple := mk_field 98 38.
Definition d_daddr := mk_field 98 16.
Definition d_rcv_saddr := mk_field 114 16.
Definition d_addr_len := mk_field 130 1.
Definition d_l4_protocol := mk_field 131 1.
Definition d_dport := mk_field 132 2.
Definition d_num := mk_field 134 2.
Definition d_socket_id := mk_field 136 8.
Definition d_l7_protocal_hint := mk_field 144 2.
Definition d_msg_type := mk_field 146 1.
Definition d_batch_last_data := mk_field 147 1.
Definition d_is_tls := mk_field 148 1.
Definition d_tcp_seq := mk_field 152 8.
Definition d_syscall_trace_id_call := mk_field 160 8.
Definition d_timestamp := mk_field 168 8.
Definition d_cap_timestamp := mk_field 176 8.
Definition d_direction := mk_field 184 1.
Definition d_syscall_len := mk_field 192 8.
Definition d_cap_len := mk_field 200 4.
Definition d_cap_seq := mk_field 208 8.
Definition d_socket_role := mk_field 216 1.
Definition d_fd := mk_field 220 4.
Definition d_cap_data := mk_field 224 8.

(** The tuple of [struct __socket_data] is the same 38 bytes. *)
Definition v_tuple := mk_field 41 38.

(** ** What is known of processes

    What the caches and /proc say when the event with a given head is read: the
    container (65 bytes), the name (16 bytes) and the mount namespace that the
    cache of processes holds, the entry of the mount that [get_mount_info] finds
    for the file of an event, and, from /proc, the container and the name;
    [pe_stack] is the size of the largest array that the stack has room for. *)
Record proc_env := mk_proc_env {
  pe_cache : list Z -> option (list Z * list Z * Z);
  pe_mount : list Z -> list Z -> option mount_entry;
  pe_container : list Z -> option (list Z);
  pe_comm : list Z -> option (list Z);
  pe_stack : Z }.
Record proc_env_ok (P : proc_env) : Prop := {
  po_cache : forall sd c n ns, pe_cache P sd = Some (c, n, ns) -> length c = 65%nat /\ length n = 16%nat;
  po_mount : forall sd d e, pe_mount P sd d = Some e -> entry_text e;
  po_container : forall sd c, pe_container P sd = Some c -> length c = 65%nat;
  po_comm : forall sd n, pe_comm P sd = Some n -> length n = 16%nat;
  po_stack : 2 ^ 16 <= pe_stack P }.

Definition is_source (s : data_source) (sd : list Z) : bool := vget v_source sd =? source_num s.

Section reader.
Context (P : proc_env).

Definition container_of (sd : list Z) : list Z :=
  match pe_cache P sd with
  | Some (c, _, _) => c
  | None => match pe_container P sd with Some c => c | None => replicate 65 0 end
  end.
Definition kname_of (sd : list Z) : list Z :=
  let name := match pe_cache P sd with Some (_, n, _) => n | None => replicate 16 0 end in
  if hd 0 name =? 0 then match pe_comm P sd with Some n => n | None => vbytes v_comm sd end else name.
Definition self_mntns_id (sd : list Z) : Z := match pe_cache P sd with Some (_, _, ns) => u32 ns | None => 0 end.

(** A name or an identifier ends in a zero byte. *)
Definition ended (s : list Z) : list Z := take (length s - 1) s ++ [0].

Definition unix_tuple (sd d : list Z) : list Z :=
  let d := vput d_num 0 (vput d_dport 0 (vput d_l4_protocol IPPROTO_TCP d)) in
  let role := vget v_socket_role sd in
  let d := if role =? 1 then vput d_dport 1 d else if role =? 2 then vput d_num 1 d else d in
  let loopback := [127; 0; 0; 1] in
  let d := vput d_addr_len 4 d in
  let d := vput_bytes (mk_field 114 4) loopback d in
  let d := vput_bytes (mk_field 98 4) loopback d in
  vput d_tcp_seq 0 d.

(** What carried bytes, payload and their length are. *)
Definition data_len (sd : list Z) : Z := vget v_data_len sd.
Definition carried (sd : list Z) : Z :=
  if (0 <? data_len sd) && (0 <? vget v_extra_data_count sd) then vget v_extra_data_count sd else 0.
Definition body_len (sd data : list Z) : Z :=
  if 0 <? data_len sd then if is_source DATA_SOURCE_IO_EVENT sd then USER_IO_SIZE else Z.of_nat (length data) else 0.
Definition cap_len (sd data : list Z) : Z := body_len sd data + carried sd.

(** The mount of the file of an event: the point and the source are forgotten
    for every event of a socket, the root and the type stay what they were. *)
Definition mount_of (sd data : list Z) (v : mount_vars) : mount_vars :=
  if is_source DATA_SOURCE_DPDK sd then v else
  let v := v <| mv_point := [] |> <| mv_source := [] |> in
  if is_source DATA_SOURCE_IO_EVENT sd then match pe_mount P sd data with Some e => set_mount_info e v | None => v end else v.
(** The namespace to show: that of the file if it is not that of the process. *)
Definition display_mntns_id (sd data : list Z) : Z :=
  let mntns_id := vget i_mntns_id data in
  if (0 <? self_mntns_id sd) && negb (mntns_id =? self_mntns_id sd) then mntns_id else 0.

(** The [struct socket_bpf_data] of an event, for an item at address [addr]: what
    every event has, then what only events of sockets have. *)
Definition submit_common (addr : Z) (sd : list Z) : list Z :=
  let d := replicate 232 0 in
  let d := vput d_timestamp (vget v_timestamp sd) d in
  let d := vput d_cap_timestamp (vget v_cap_timestamp sd) d in
  let d := vput d_direction (Z.land (vget v_bits sd) 1) d in
  let d := vput d_fd (vget v_fd sd) d in
  let d := vput d_source (vget v_source sd) d in
  let d := vput d_cap_data (addr + SUBMIT_SIZE) d in
  let d := vput d_l7_protocal_hint (if PROTO_NUM <=? vget v_data_type sd then 0 else vget v_data_type sd) d in
  vput d_batch_last_data 0 d.
Definition submit_socket (sd d : list Z) : list Z :=
  let d := vput d_socket_id (vget v_socket_id sd) d in
  let d := vput_bytes d_tuple (vbytes v_tuple sd) d in
  let d := vput d_tcp_seq (vget v_tcp_seq sd) d in
  let d := if is_source DATA_SOURCE_UNIX_SOCKET sd then unix_tuple sd d else d in
  let d := vput d_process_id (vget v_tgid sd) d in
  let d := vput d_thread_id (vget v_pid sd) d in
  let d := vput d_coroutine_id (vget v_coroutine_id sd) d in
  let d := vput d_is_tls (if is_source DATA_SOURCE_GO_TLS_UPROBE sd || is_source DATA_SOURCE_OPENSSL_UPROBE sd then 1
                          else Z.shiftr (vget v_bits sd) 7) d in
  let d := vput d_cap_seq (vget v_data_seq sd) d in
  let d := vput d_syscall_trace_id_call (vget v_thread_trace_id sd) d in
  let d := vput_bytes d_process_kname (ended (kname_of sd)) d in
  let d := vput_bytes d_container_id (ended (container_of sd)) d in
  let d := vput d_msg_type (vget_msg_type sd) d in
  vput d_socket_role (vget v_socket_role sd) d.
Definition submit_data (addr : Z) (sd : list Z) (len : Z) : list Z :=
  let d := submit_common addr sd in
  let d := if negb (is_source DATA_SOURCE_DPDK sd) then submit_socket sd d
           else vput_bytes d_process_kname (ended (vbytes v_comm sd)) d in
  let d := vput d_syscall_len (vget v_syscall_len sd + carried sd) d in
  vput d_cap_len (len + carried sd) d.

(** [struct mem_block_head]. *)
Definition mem_block_head (is_last free_ptr fn : Z) : list Z := is_last :: le_bytes 8 free_ptr ++ le_bytes 8 fn.

(** The carried bytes, what follows them and the byte zero at the end; the result
    has the length of what follows. *)
Definition put_body (mem : list Z) (o : Z) (sd data : list Z) (v : mount_vars) : option (Z * list Z) :=
  if is_source DATA_SOURCE_IO_EVENT sd then
    dst ← slice mem o (Z.to_nat USER_IO_SIZE);
    '(len, dst) ← copy_file_metrics (pe_stack P) dst data (data_len sd) (display_mntns_id sd data) v;
    mem ← write_at mem o dst; Some (len, mem)
  else mem ← write_at mem o data; Some (Z.of_nat (length data), mem).
Definition put_payload (mem : list Z) (o : Z) (sd data : list Z) (v : mount_vars) : option (Z * list Z) :=
  if 0 <? data_len sd then
    let count := vget v_extra_data_count sd in
    mem ← (if 0 <? count then extra ← slice sd 79 (Z.to_nat count); write_at mem o extra else Some mem);
    '(len, mem) ← put_body mem (o + carried sd) sd data v;
    mem ← write_at mem (o + len + carried sd) [0]; Some (len, mem)
  else Some (data_len sd, mem).

(** The loop of [reader_raw_cb] over the events of a record, into a block at
    address [base]; the result has the offsets of the items. The number of the
    mount is read from every event of a file. *)
Fixpoint fill (base : Z) (evs : list (list Z * list Z)) (off : Z) (v : mount_vars) (mem : list Z) : option (list Z * list Z) :=
  match evs with
  | [] => Some (mem, [])
  | (sd, data) :: evs =>
      mem ← write_at mem off (mem_block_head 0 base 0);
      let item := off + BLOCK_HEAD in
      _ ← (if is_source DATA_SOURCE_IO_EVENT sd then slice data 0 (Z.to_nat IO_FILENAME) else Some []);
      let v := mount_of sd data v in
      '(len, mem) ← put_payload mem (item + SUBMIT_SIZE) sd data v;
      mem ← write_at mem item (submit_data (base + item) sd len);
      '(mem, items) ← fill base evs (item + SUBMIT_SIZE + (len + carried sd)) v mem;
      Some (mem, item :: items)
  end.
Definition no_mount : mount_vars := mk_mount_vars [] [] [] FS_TYPE_UNKNOWN.

(** The size of the block; [len] is the length that the record gives. *)
Definition get_additional_memory_size (evs : list (list Z * list Z)) : Z :=
  foldr (fun e n => (if is_source DATA_SOURCE_IO_EVENT e.1 then USER_IO_SIZE - data_len e.1 else 0) + n) 0 evs.
Definition CACHE_LINE_ROUNDUP (size : Z) : Z := 64 * ((size + 64 - 1) / 64).
Definition alloc_len (len : Z) (evs : list (list Z * list Z)) : Z :=
  let n := Z.of_nat (length evs) in
  CACHE_LINE_ROUNDUP (len - SD_HEAD * n + SUBMIT_SIZE * n + BLOCK_HEAD * n + EXTRA_SIZE * n + get_additional_memory_size evs).

(** ** The block *)

(** The mount that an event is shown with. Of an event whose mount is not known,
    root and type may be those of an earlier event. *)
Definition event_mount (ev : list Z * list Z) (v : mount_vars) : Prop :=
  vars_ok v /\ match pe_mount P ev.1 ev.2 with Some e => v = set_mount_info e v | None => mv_point v = [] /\ mv_source v = [] end.
(** What user space shows of a file operation: the numbers of the event and the
    place of the file in the mount. *)
Definition file_report (ev : list Z * list Z) (b : list Z) : Prop :=
  exists v, event_mount ev v /\ forall file dirs, io_data ev.2 file dirs -> exists dir name,
    file_place v (directory (file :: dirs)) file = Some (dir, name) /\
    metrics_ok ev.2 v (ns_prefix (display_mntns_id ev.1 ev.2)) dir (default file name) b.

(** The bytes behind [cap_data]. *)
Definition payload_ok (ev : list Z * list Z) (p : list Z) : Prop :=
  if 0 <? data_len ev.1 then exists b, p = vbytes (mk_field 79 (Z.to_nat (carried ev.1))) ev.1 ++ b /\
    if is_source DATA_SOURCE_IO_EVENT ev.1 then user_io b /\ file_report ev b else b = ev.2
  else p = [].

(** An item as the worker finds it. *)
Definition item_struct (addr : Z) (batch_last : bool) (ev : list Z * list Z) : list Z :=
  let d := submit_data addr ev.1 (body_len ev.1 ev.2) in if batch_last then vput d_batch_last_data 1 d else d.
Record item_at (mem : list Z) (base off : Z) (is_last batch_last : bool) (ev : list Z * list Z) : Prop := {
  it_head : slice mem (off - BLOCK_HEAD) 17 = Some (mem_block_head (if is_last then 1 else 0) base 0);
  it_submit : slice mem off 232 = Some (item_struct (base + off) batch_last ev);
  it_payload : exists p, slice mem (off + SUBMIT_SIZE) (Z.to_nat (cap_len ev.1 ev.2)) = Some p /\ payload_ok ev p }.
Definition item_end (off : Z) (ev : list Z * list Z) : Z := off + SUBMIT_SIZE + cap_len ev.1 ev.2.

(** The offsets of the items and the end of the last one. *)
Fixpoint items_of (evs : list (list Z * list Z)) (off : Z) : list Z :=
  match evs with [] => [] | ev :: evs => off + BLOCK_HEAD :: items_of evs (item_end (off + BLOCK_HEAD) ev) end.
Fixpoint block_end (evs : list (list Z * list Z)) (off : Z) : Z :=
  match evs with [] => off | ev :: evs => block_end evs (item_end (off + BLOCK_HEAD) ev) end.

(** An event whose carried bytes fit into their field; that of a file has the
    names of a file. *)
Definition event_fits (ev : list Z * list Z) : Prop :=
  length ev.1 = HEAD /\ data_len ev.1 = Z.of_nat (length ev.2) /\ vget v_extra_data_count ev.1 <= EXTRA_SIZE /\ bytes_ok ev.1 /\
  (is_source DATA_SOURCE_IO_EVENT ev.1 = true -> bytes_ok ev.2 /\ exists file dirs, io_data ev.2 file dirs).
End reader.

(** ** Filling a block *)

(** The size of the struct, whatever is written to its fields. *)
Definition sized (d : list Z) : Prop := length d = 232%nat.
Lemma sized_vput f x d : (f_off f + f_len f <=? 232)%nat = true -> sized d -> sized (vput f x d).
Proof. intros Hf%Nat.leb_le Hd. unfold sized in *. by rewrite vput_length by lia. Qed.
Lemma sized_vput_bytes f b d : (f_off f + f_len f <=? 232)%nat = true -> length b = f_len f -> sized d -> sized (vput_bytes f b d).
Proof. intros Hf%Nat.leb_le Hb Hd. unfold sized in *. by rewrite vput_bytes_sized by lia. Qed.
Ltac sized := repeat (apply sized_vput; [reflexivity |]).

Section fill.
Context (P : proc_env) (HP : proc_env_ok P).

Lemma ended_length s : (0 < length s)%nat -> length (ended s) = length s.
Proof. intros. unfold ended. rewrite length_app, length_take. cbn. lia. Qed.
Lemma container_length sd : length (container_of P sd) = 65%nat.
Proof.
  unfold container_of. destruct (pe_cache P sd) as [[[c n] ns] |] eqn:E; [by apply (po_cache P HP) in E as [? _] |].
  destruct (pe_container P sd) eqn:E2; [by apply (po_container P HP) in E2 | done].
Qed.
Lemma comm_length sd : length sd = HEAD -> length (vbytes v_comm sd) = 16%nat.
Proof. intros. by rewrite vbytes_length by (cbn; lia). Qed.
Lemma kname_length sd : length sd = HEAD -> length (kname_of P sd) = 16%nat.
Proof.
  intros Hc%comm_length. unfold kname_of. destruct (pe_comm P sd) as [m |] eqn:E2.
  - apply (po_comm P HP) in E2. destruct (pe_cache P sd) as [[[c n] ns] |] eqn:E; [apply (po_cache P HP) in E as [_ ?] |];
      (destruct (_ =? 0); done).
  - destruct (pe_cache P sd) as [[[c n] ns] |] eqn:E; [apply (po_cache P HP) in E as [_ ?] |]; (destruct (_ =? 0); done).
Qed.

Lemma unix_tuple_sized sd d : sized d -> sized (unix_tuple sd d).
Proof.
  intros Hd. unfold unix_tuple. sized. do 2 (apply sized_vput_bytes; [reflexivity | reflexivity |]). sized.
  destruct (_ =? 1); [| destruct (_ =? 2)]; by sized.
Qed.
Lemma common_sized addr sd : sized (submit_common addr sd).
Proof. unfold submit_common. by sized. Qed.
Lemma tuple_sized sd d : length sd = HEAD -> sized d -> sized (vput_bytes d_tuple (vbytes v_tuple sd) d).
Proof. intros Hsd Hd. apply sized_vput_bytes; [reflexivity | rewrite vbytes_length; cbn; lia | done]. Qed.
Lemma ended_kname sd : length sd = HEAD -> length (ended (kname_of P sd)) = 16%nat.
Proof. intros Hsd. rewrite ended_length; rewrite kname_length; (done || lia). Qed.
Lemma ended_container sd : length (ended (container_of P sd)) = 65%nat.
Proof. rewrite ended_length; rewrite container_length; (done || lia). Qed.
Lemma socket_sized sd d : length sd = HEAD -> sized d -> sized (submit_socket P sd d).
Proof.
  intros Hsd Hd. unfold submit_socket. sized. apply sized_vput_bytes; [reflexivity | apply ended_container |].
  apply sized_vput_bytes; [reflexivity | by apply ended_kname |]. sized.
  destruct (is_source DATA_SOURCE_UNIX_SOCKET sd); [apply unix_tuple_sized |]; sized; by (apply tuple_sized; [| sized]).
Qed.
Lemma submit_sized addr sd len : length sd = HEAD -> sized (submit_data P addr sd len).
Proof.
  intros Hsd. unfold submit_data. sized. destruct (is_source DATA_SOURCE_DPDK sd); cbn [negb].
  - apply sized_vput_bytes; [reflexivity | by rewrite ended_length, comm_length by (rewrite ?comm_length; done || lia) | apply common_sized].
  - apply socket_sized; [done | apply common_sized].
Qed.

Lemma head_length l p f : length (mem_block_head l p f) = 17%nat.
Proof. unfold mem_block_head. cbn [length]. by rewrite length_app, !le_bytes_length. Qed.
Lemma vget_nonneg f v : bytes_ok v -> 0 <= vget f v.
Proof. intros Hv. apply le_word_bound. unfold vbytes. by apply Forall_take, Forall_drop. Qed.

Lemma fits_carried ev : event_fits ev -> 0 <= carried ev.1 <= EXTRA_SIZE /\ 0 <= data_len ev.1.
Proof.
  intros (_ & Hl & Hc & Hb & _). unfold carried. pose proof (vget_nonneg v_extra_data_count ev.1 Hb). rewrite Hl. unfold EXTRA_SIZE in *.
  destruct (_ && _); lia.
Qed.
Lemma extra_length ev : event_fits ev -> Z.of_nat (length (vbytes (mk_field 79 (Z.to_nat (carried ev.1))) ev.1)) = carried ev.1.
Proof. intros Hev. pose proof (fits_carried ev Hev) as [Hc _]. destruct Hev as (Hl & _). unfold EXTRA_SIZE in *. rewrite vbytes_length; cbn; lia. Qed.
Lemma payload_fits ev : event_fits ev -> (forall p, payload_ok P ev p -> Z.of_nat (length p) = cap_len ev.1 ev.2) /\ 0 <= cap_len ev.1 ev.2.
Proof.
  intros Hev. pose proof (fits_carried ev Hev) as [Hc Hd]. pose proof (extra_length ev Hev) as Hx. unfold payload_ok, cap_len, body_len, user_io, USER_IO_SIZE.
  destruct (Z.ltb_spec 0 (data_len ev.1)).
  - destruct (is_source DATA_SOURCE_IO_EVENT ev.1); (split; [| lia]); intros p (b & -> & Hb); rewrite length_app; [destruct Hb; lia | subst b; lia].
  - split; [intros p -> |]; unfold carried; (destruct (Z.ltb_spec 0 (data_len ev.1)); [lia |]); cbn; lia.
Qed.

(** The mount of an event. *)
Lemma set_mount_vars e v : entry_text e -> vars_ok (set_mount_info e v).
Proof. intros (H1 & H2 & H3). split_and!; by apply string_take. Qed.
Lemma mount_of_ok sd data v : vars_ok v -> vars_ok (mount_of P sd data v).
Proof.
  intros (H1 & H2 & H3). unfold mount_of. destruct (is_source DATA_SOURCE_DPDK sd); [done |].
  assert (vars_ok (v <| mv_point := [] |> <| mv_source := [] |>)) as Hv by (split_and!; [constructor | constructor | done]).
  destruct (is_source DATA_SOURCE_IO_EVENT sd); [| done]. destruct (pe_mount P sd data) as [e |] eqn:E; [| done]. apply set_mount_vars. by eapply (po_mount P HP).
Qed.
Lemma io_not_dpdk sd : is_source DATA_SOURCE_IO_EVENT sd = true -> is_source DATA_SOURCE_DPDK sd = false.
Proof. unfold is_source. intros ->%Z.eqb_eq. done. Qed.
Lemma mount_of_event ev v : vars_ok v -> is_source DATA_SOURCE_IO_EVENT ev.1 = true -> event_mount P ev (mount_of P ev.1 ev.2 v).
Proof.
  intros Hv Hio. split; [by apply mount_of_ok |]. unfold mount_of. rewrite Hio, (io_not_dpdk _ Hio). by destruct (pe_mount P ev.1 ev.2).
Qed.
Lemma display_bound sd data : bytes_ok data -> 0 <= display_mntns_id P sd data < 2 ^ 32.
Proof.
  intros Hd. unfold display_mntns_id. destruct (_ && _); [| lia].
  assert (bytes_ok (vbytes i_mntns_id data)) as Hb by (unfold vbytes; by apply Forall_take, Forall_drop). pose proof (le_word_bound _ Hb) as Hw.
  assert (length (vbytes i_mntns_id data) <= 4)%nat by (unfold vbytes; rewrite length_take; change (f_len i_mntns_id) with 4%nat; lia).
  assert (2 ^ (8 * Z.of_nat (length (vbytes i_mntns_id data))) <= 2 ^ 32) by (apply Z.pow_le_mono_r; lia). unfold vget. lia.
Qed.

Lemma data_len_bound ev : event_fits ev -> data_len ev.1 < 2 ^ 16.
Proof.
  intros (Hl & _ & _ & Hb & _). unfold data_len, vget. assert (bytes_ok (vbytes v_data_len ev.1)) as Hv by (unfold vbytes; by apply Forall_take, Forall_drop).
  pose proof (le_word_bound _ Hv) as Hw. assert (length (vbytes v_data_len ev.1) = 2%nat) as E by (rewrite vbytes_length; cbn; lia). rewrite E in Hw. lia.
Qed.
Lemma io_text_fits data file dirs : io_data data file dirs -> 36 + vget i_len data <= Z.of_nat (length data) /\ 0 <= vget i_len data.
Proof.
  intros [_ Hf Hl [rest Ht]]. assert (length (drop (Z.to_nat IO_FILENAME) data) = length (names_text (file :: dirs) ++ rest)) as Hx by (by rewrite Ht).
  rewrite length_drop, length_app in Hx. unfold IO_FILENAME in Hx. pose proof (text_cons_length file dirs). destruct file; [done |]. cbn [length] in *. lia.
Qed.

(** What follows the carried bytes. *)
Lemma put_body_ok mem o ev v : event_fits ev -> vars_ok v -> 0 < data_len ev.1 -> 0 <= o -> o + body_len ev.1 ev.2 <= Z.of_nat (length mem) ->
  exists mem' b, put_body P mem o ev.1 ev.2 (mount_of P ev.1 ev.2 v) = Some (body_len ev.1 ev.2, mem') /\ Z.of_nat (length b) = body_len ev.1 ev.2 /\
    write_at mem o b = Some mem' /\ (if is_source DATA_SOURCE_IO_EVENT ev.1 then user_io b /\ file_report P ev b else b = ev.2).
Proof.
  intros Hev Hv Hpos Ho Hm. pose proof Hev as (Hl & Hdl & _ & _ & Hio). unfold put_body, body_len in *. rewrite (proj2 (Z.ltb_lt _ _) Hpos) in *.
  destruct (is_source DATA_SOURCE_IO_EVENT ev.1) eqn:Es.
  - destruct (Hio eq_refl) as (Hb & file & dirs & Hd). unfold USER_IO_SIZE in Hm. rewrite slice_is by (unfold USER_IO_SIZE; lia). cbn [mbind option_bind].
    set (dst := take _ _). assert (user_io dst) as Hdst by (unfold user_io, dst, USER_IO_SIZE; rewrite length_take, length_drop; lia).
    pose proof (mount_of_event ev v Hv Es) as Hem. pose proof (data_len_bound ev Hev) as Hlt. pose proof (po_stack P HP) as Hst.
    assert (forall file dirs, io_data ev.2 file dirs -> exists dir name dst', copy_file_metrics (pe_stack P) dst ev.2 (data_len ev.1) (display_mntns_id P ev.1 ev.2) (mount_of P ev.1 ev.2 v) =
      Some (USER_IO_SIZE, dst') /\ user_io dst' /\ file_place (mount_of P ev.1 ev.2 v) (directory (file :: dirs)) file = Some (dir, name) /\
      metrics_ok ev.2 (mount_of P ev.1 ev.2 v) (ns_prefix (display_mntns_id P ev.1 ev.2)) dir (default file name) dst') as Hcopy.
    { intros f ds Hfd. pose proof (io_text_fits _ _ _ Hfd). rewrite Hdl in *. apply (copy_file_metrics_ok _ _ _ f ds); try done; [by apply mount_of_ok | by apply display_bound | lia | lia]. }
    destruct (Hcopy file dirs Hd) as (dir & name & dst' & Hc & Hu & _). rewrite Hc. cbn [mbind option_bind].
    destruct (write_Some mem o dst' Ho) as [mem' Hw]; [unfold user_io, USER_IO_SIZE in Hu; lia |]. rewrite Hw. cbn [mbind option_bind]. exists mem', dst'. split_and!; try done.
    exists (mount_of P ev.1 ev.2 v). split; [done |]. intros f ds Hfd. destruct (Hcopy f ds Hfd) as (dir2 & name2 & dst2 & Hc2 & _ & Hpl & Hok). rewrite Hc in Hc2. injection Hc2 as <-.
    by exists dir2, name2.
  - destruct (write_Some mem o ev.2 Ho Hm) as [mem' Hw]. rewrite Hw. cbn [mbind option_bind]. by exists mem', ev.2.
Qed.

Lemma put_payload_ok mem o ev v : event_fits ev -> vars_ok v -> 0 <= o -> o + cap_len ev.1 ev.2 < Z.of_nat (length mem) ->
  exists mem' p, put_payload P mem o ev.1 ev.2 (mount_of P ev.1 ev.2 v) = Some (body_len ev.1 ev.2, mem') /\ length mem' = length mem /\
    (forall x n, x + Z.of_nat n <= o -> slice mem' x n = slice mem x n) /\
    slice mem' o (Z.to_nat (cap_len ev.1 ev.2)) = Some p /\ payload_ok P ev p.
Proof.
  intros Hev Hv Ho Hm. pose proof (fits_carried ev Hev) as [Hc Hd]. pose proof (extra_length ev Hev) as Hle.
  pose proof Hev as (Hl & Hdl & Hx & Hb & _). unfold put_payload, payload_ok.
  destruct (Z.ltb_spec 0 (data_len ev.1)) as [Hlen | Hlen].
  2: { assert (body_len ev.1 ev.2 = 0 /\ carried ev.1 = 0) as [E1 E2] by (unfold body_len, carried; destruct (Z.ltb_spec 0 (data_len ev.1)); [lia | done]).
    exists mem, []. rewrite E1. unfold cap_len in *. rewrite E1, E2 in *. replace (data_len ev.1) with 0 by lia. split_and!; try done. by rewrite slice_is by lia. }
  set (extra := vbytes (mk_field 79 (Z.to_nat (carried ev.1))) ev.1) in *. unfold cap_len in *.
  assert (0 <= body_len ev.1 ev.2) as Hbl by (unfold body_len, USER_IO_SIZE; repeat case_match; lia).
  assert (exists mem1, (if 0 <? vget v_extra_data_count ev.1 then extra ← slice ev.1 79 (Z.to_nat (vget v_extra_data_count ev.1)); write_at mem o extra
    else Some mem) = Some mem1 /\ length mem1 = length mem /\ (forall x n, x + Z.of_nat n <= o -> slice mem1 x n = slice mem x n) /\
    slice mem1 o (length extra) = Some extra) as (mem1 & -> & Hl1 & Hk1 & Hs1).
  { unfold carried, EXTRA_SIZE in *. destruct (Z.ltb_spec 0 (data_len ev.1)); [| lia]. cbn [andb] in *.
    destruct (Z.ltb_spec 0 (vget v_extra_data_count ev.1)) as [Hcnt | Hcnt].
    - rewrite slice_is by lia. cbn [mbind option_bind]. change (take _ _) with extra.
      destruct (write_Some mem o extra Ho) as [mem1 H1]; [lia |]. exists mem1. split; [done |]. split; [by eapply write_length |].
      split; [intros x n Hx'; by eapply slice_write_ne; eauto | by eapply slice_write].
    - exists mem. split_and!; try done. assert (extra = []) as -> by (by apply nil_length_inv; lia). by rewrite slice_is by (cbn; lia). }
  cbn [mbind option_bind]. destruct (put_body_ok mem1 (o + carried ev.1) ev v Hev Hv Hlen) as (mem2 & b & -> & Lb & H2 & Hbody); [lia | lia |]. cbn [mbind option_bind].
  destruct (write_Some mem2 (o + body_len ev.1 ev.2 + carried ev.1) [0]) as [mem3 H3]; [lia | rewrite (write_length _ _ _ _ H2); cbn; lia |]. rewrite H3. cbn [mbind option_bind].
  exists mem3, (extra ++ b). split; [done |]. split; [by rewrite (write_length _ _ _ _ H3), (write_length _ _ _ _ H2) |]. split; [| split; [| by exists b]].
  - intros x n Hxn. rewrite (slice_write_ne _ _ _ _ H3), (slice_write_ne _ _ _ _ H2) by lia. by apply Hk1.
  - rewrite (slice_write_ne _ _ _ _ H3) by lia. replace (Z.to_nat (body_len ev.1 ev.2 + carried ev.1)) with (length extra + length b)%nat by lia.
    apply slice_concat; [rewrite (slice_write_ne _ _ _ _ H2) by lia; done |]. rewrite Hle. by eapply slice_write.
Qed.

Lemma end_ge evs : Forall event_fits evs -> forall off, off <= block_end evs off.
Proof.
  induction 1 as [| ev evs Hev _ IH]; intros off; cbn [block_end]; [lia |]. pose proof (payload_fits ev Hev) as [_ Hp].
  specialize (IH (item_end (off + BLOCK_HEAD) ev)). unfold item_end, BLOCK_HEAD, SUBMIT_SIZE in *. lia.
Qed.

(** Every item is where its offset says, and what was below stays. *)
Lemma fill_block_ok base evs : Forall event_fits evs -> forall off v mem, vars_ok v -> 0 <= off -> block_end evs off < Z.of_nat (length mem) ->
  exists mem', fill P base evs off v mem = Some (mem', items_of evs off) /\ length mem' = length mem /\
    (forall x n, x + Z.of_nat n <= off -> slice mem' x n = slice mem x n) /\
    Forall2 (fun ev item => item_at P mem' base item false false ev) evs (items_of evs off).
Proof.
  induction 1 as [| [sd data] evs Hev Hevs IH]; intros off v mem Hv Ho Hm.
  { exists mem. by split_and!. }
  cbn [fill items_of block_end] in *. pose proof (payload_fits _ Hev) as [_ Hp]. cbn [fst snd] in Hp.
  pose proof (end_ge evs Hevs (item_end (off + BLOCK_HEAD) (sd, data))) as Hge. unfold item_end, BLOCK_HEAD, SUBMIT_SIZE in *. cbn [fst snd] in *.
  destruct (write_Some mem off (mem_block_head 0 base 0)) as [m1 H1]; [done | rewrite head_length; lia |]. rewrite H1. cbn [mbind option_bind].
  assert (is_Some (if is_source DATA_SOURCE_IO_EVENT sd then slice data 0 (Z.to_nat IO_FILENAME) else Some [])) as [x0 ->].
  { destruct (is_source DATA_SOURCE_IO_EVENT sd) eqn:Es; [| done]. destruct Hev as (_ & _ & _ & _ & Hio). destruct (Hio Es) as (_ & file & dirs & Hd).
    pose proof (io_text_fits _ _ _ Hd). cbn [fst snd] in *. rewrite slice_is by (unfold IO_FILENAME; lia). done. }
  cbn [mbind option_bind]. pose proof (submit_sized (base + (off + 17)) sd (body_len sd data) (proj1 Hev)) as Hsz. unfold sized in Hsz.
  pose proof (write_length _ _ _ _ H1) as L1. pose proof (slice_write _ _ _ _ H1) as S1. rewrite head_length in S1.
  destruct (put_payload_ok m1 (off + 17 + 232) (sd, data) v Hev Hv) as (m2 & p & H2 & L2 & K2 & S2 & Hok); cbn [fst snd]; [lia | lia |].
  cbn [fst snd] in H2, S2. rewrite H2. cbn [mbind option_bind].
  destruct (write_Some m2 (off + 17) (submit_data P (base + (off + 17)) sd (body_len sd data))) as [m3 H3]; [lia | lia |]. rewrite H3. cbn [mbind option_bind].
  pose proof (write_length _ _ _ _ H3) as L3. pose proof (slice_write _ _ _ _ H3) as S3. rewrite Hsz in S3. fold (cap_len sd data).
  destruct (IH (off + 17 + 232 + cap_len sd data) (mount_of P sd data v) m3) as (mem' & H4 & L4 & K4 & F4); [by apply mount_of_ok | lia | lia |]. rewrite H4. cbn [mbind option_bind].
  exists mem'. split; [done |]. split; [lia |]. split.
  - intros x n Hxn. rewrite K4, (slice_write_ne _ _ _ _ H3), K2, (slice_write_ne _ _ _ _ H1) by lia. done.
  - constructor; [| done]. constructor; cbn [fst snd]; unfold BLOCK_HEAD, SUBMIT_SIZE.
    + rewrite K4, (slice_write_ne _ _ _ _ H3), K2 by lia. by replace (off + 17 - 17) with off by lia.
    + by rewrite K4 by lia.
    + exists p. split; [| done]. rewrite K4, (slice_write_ne _ _ _ _ H3) by lia. done.
Qed.

(** The block is large enough, but for one byte when every event carries all
    the bytes it can. *)
Lemma end_alloc evs : Forall event_fits evs -> forall off,
  block_end evs off + foldr (fun ev n => EXTRA_SIZE - carried ev.1 + n) 0 evs <=
  off + Z.of_nat (length (flat evs)) + (SUBMIT_SIZE + BLOCK_HEAD + EXTRA_SIZE - SD_HEAD) * Z.of_nat (length evs) + get_additional_memory_size evs.
Proof.
  induction 1 as [| ev evs Hev _ IH]; intros off; cbn [block_end foldr get_additional_memory_size length]; [cbn; lia |].
  specialize (IH (item_end (off + BLOCK_HEAD) ev)). rewrite flat_cons, !length_app. unfold item_end, cap_len, body_len, get_additional_memory_size in *.
  pose proof (fits_carried ev Hev) as [Hc Hd]. pose proof Hev as (Hl & Hdl & Hx & Hb & Hio).
  assert (is_source DATA_SOURCE_IO_EVENT ev.1 = true -> 0 < data_len ev.1) as Hpos by (intros (_ & f & ds & Hfd)%Hio; pose proof (io_text_fits _ _ _ Hfd); lia).
  unfold SUBMIT_SIZE, BLOCK_HEAD, EXTRA_SIZE, SD_HEAD in *. rewrite Hl, Nat2Z.inj_succ.
  unfold USER_IO_SIZE in *.
  destruct (is_source DATA_SOURCE_IO_EVENT ev.1), (Z.ltb_spec 0 (data_len ev.1)); try specialize (Hpos eq_refl); lia.
Qed.

Lemma roundup_ge n : n <= CACHE_LINE_ROUNDUP n.
Proof. unfold CACHE_LINE_ROUNDUP. pose proof (Z.div_mod (n + 64 - 1) 64 ltac:(lia)). pose proof (Z.mod_pos_bound (n + 64 - 1) 64 ltac:(lia)). lia. Qed.

Lemma block_fits evs : Forall event_fits evs -> Exists (fun ev => carried ev.1 < EXTRA_SIZE) evs ->
  block_end evs 0 < alloc_len (Z.of_nat (length (flat evs))) evs.
Proof.
  intros Hev Hex. pose proof (end_alloc evs Hev 0) as He. unfold alloc_len.
  assert (0 < foldr (fun ev n => EXTRA_SIZE - carried ev.1 + n) 0 evs) as Hpos.
  { assert (forall l, Forall event_fits l -> 0 <= foldr (fun ev n => EXTRA_SIZE - carried ev.1 + n) 0 l) as Hnn.
    { induction 1 as [| ev l Hv _ IH]; cbn; [lia |]. pose proof (fits_carried ev Hv). lia. }
    clear He. revert Hev. induction Hex as [ev l Hx | ev l Hx IH]; intros [Hv Hl]%Forall_cons_1; cbn.
    - specialize (Hnn l Hl). lia.
    - specialize (IH Hl). pose proof (fits_carried ev Hv). lia. }
  match goal with |- _ < CACHE_LINE_ROUNDUP ?n => pose proof (roundup_ge n) end. lia.
Qed.
End fill.

(** ** The queue

    A pointer is a block and an offset in it. [q_log] is what the callback of
    the agent and the registered handlers were called with. *)
Definition ptr : Type := Z * Z.
Definition pointers (base : Z) (items : list Z) : list ptr := (fun item => (base, item)) <$> items.

Inductive delivery :=
| Data (submit cap : list Z)
| Handled (fn : Z) (data : list Z).

(** Where the reader is: before the enqueue of a record, before the stores of
    [batch_last_data] and [is_last], before the signal and before the count;
    before the enqueue of a registered event and before its head is filled in. *)
Inductive reader_pc :=
| ReaderIdle
| ReaderEnqueue (base : Z) (items : list Z) (evs : list (list Z * list Z))
| ReaderBatchLast (base item nr : Z)
| ReaderIsLast (base item nr : Z)
| ReaderSignal (nr : Z)
| ReaderCount (nr : Z)
| RegisterEnqueue (base fn : Z)
| RegisterHead (base fn : Z).

(** Where the worker is: before [ring_sc_dequeue_burst], before the next item of
    its burst, before it looks whether to free the block of an item, between
    the empty ring and [pthread_cond_wait], in it. *)
Inductive worker_pc :=
| WorkerDequeue
| WorkerItem (nr : Z) (burst : list ptr)
| WorkerFree (nr : Z) (cur : ptr) (burst : list ptr)
| WorkerLock
| WorkerWait.

(** Counters of the tracer for packets and protocols. *)
Record tracer_stats := mk_tracer_stats {
  ts_tx_pkts : Z; ts_tx_bytes : Z; ts_rx_pkts : Z; ts_rx_bytes : Z; ts_dropped_pkts : Z; ts_proto : gmap Z Z }.
#[export] Instance eta_tracer_stats : Eta tracer_stats := fun t =>
  mk_tracer_stats (ts_tx_pkts t) (ts_tx_bytes t) (ts_rx_pkts t) (ts_rx_bytes t) (ts_dropped_pkts t) (ts_proto t).

Record queue := mk_queue {
  q_ring : ring ptr; q_heap : gmap Z (list Z); q_enqueue_lost : Z; q_enqueue_nr : Z; q_dequeue_nr : Z;
  q_burst_count : Z; q_heap_get_failed : Z; q_stats : tracer_stats; q_log : list delivery;
  q_reader : reader_pc; q_worker : worker_pc }.
#[export] Instance eta_queue : Eta queue := fun q =>
  mk_queue (q_ring q) (q_heap q) (q_enqueue_lost q) (q_enqueue_nr q) (q_dequeue_nr q) (q_burst_count q)
    (q_heap_get_failed q) (q_stats q) (q_log q) (q_reader q) (q_worker q).

Section steps.
Context (P : proc_env) (handlers : list (Z * Z)).

Definition count_event (t : tracer_stats) (sd : list Z) : tracer_stats :=
  let t :=
    if is_source DATA_SOURCE_DPDK sd then
      if Z.land (vget v_bits sd) 1 =? dir_num T_EGRESS then
        t <| ts_tx_pkts := ts_tx_pkts t + 1 |> <| ts_tx_bytes := ts_tx_bytes t + vget v_syscall_len sd |>
      else t <| ts_rx_pkts := ts_rx_pkts t + 1 |> <| ts_rx_bytes := ts_rx_bytes t + vget v_syscall_len sd |>
    else t in
  let hint := if PROTO_NUM <=? vget v_data_type sd then 0 else vget v_data_type sd in
  t <| ts_proto := <[hint := default 0 (ts_proto t !! hint) + 1]> (ts_proto t) |>.

(** The memory that the handling of a record asks for. *)
Definition handler_of (event_type : Z) : option Z :=
  snd <$> head (filter (fun h => negb (Z.land h.1 event_type =? 0)) handlers).
Definition request (raw : list Z) : option Z :=
  event_type ← rd32 raw 0;
  if EVENT_TYPE_MIN <=? event_type then _ ← handler_of event_type; Some (BLOCK_HEAD + Z.of_nat (length raw))
  else o ← reader_raw_cb raw; evs ← o; len ← rd32 raw 4; Some (alloc_len len evs).

(** [reader_raw_cb] up to the enqueue; [block] is what [malloc] gives: an address
    and bytes of any value, or nothing. *)
Definition reader_receive (raw : list Z) (block : option (Z * list Z)) (q : queue) : option queue :=
  event_type ← rd32 raw 0;
  if EVENT_TYPE_MIN <=? event_type then
    match handler_of event_type, block with
    | Some fn, Some (base, bytes) =>
        mem ← write_at bytes BLOCK_HEAD raw;
        Some (q <| q_heap := <[base := mem]> (q_heap q) |> <| q_reader := RegisterEnqueue base fn |>)
    | _, _ => Some q
    end
  else
    o ← reader_raw_cb raw;
    match o, block with
    | None, _ => Some q
    | Some evs, None => Some (q <| q_heap_get_failed := q_heap_get_failed q + 1 |>)
    | Some evs, Some (base, bytes) =>
        '(mem, items) ← fill P base evs 0 no_mount bytes;
        Some (q <| q_heap := <[base := mem]> (q_heap q) |> <| q_reader := ReaderEnqueue base items evs |>
                <| q_stats := foldl count_event (q_stats q) (evs.*1) |>)
    end.

(** What a step shows: a record came; [n] of its events are in the ring; a block
    is marked after the worker is done with its last item. *)
Inductive qlabel := Quiet | Received (raw : list Z) | Accepted (evs : list (list Z * list Z)) (n : Z) | Late.

Definition free (base : Z) (q : queue) : option queue :=
  _ ← q_heap q !! base; Some (q <| q_heap := delete base (q_heap q) |>).

(** The worker is done with the item that the reader is about to mark. *)
Definition late (base item nr : Z) (q : queue) : bool :=
  (q_enqueue_nr q + nr <=? Z.of_nat (length (q_log q))) &&
  match q_worker q with WorkerFree _ p _ => negb (bool_decide (p = (base, item))) | _ => true end.

Definition reader_step (q : queue) : option (qlabel * queue) :=
  match q_reader q with
  | ReaderIdle => Some (Quiet, q)
  | ReaderEnqueue base items evs =>
      let n := Z.of_nat (length evs) in
      '(nr, _, r) ← ring_sp_enqueue_burst (q_ring q) (pointers base items) n;
      let q := q <| q_ring := r |> in
      let q := if nr <? n then q <| q_enqueue_lost := q_enqueue_lost q + (n - nr) |> else q in
      if (nr <? n) && (n - nr =? n) then
        q ← free base q; Some (Accepted evs nr, q <| q_reader := ReaderIdle |>)
      else
        let dropped := length (filter (fun e => is_source DATA_SOURCE_DPDK e.1) (drop (Z.to_nat nr) evs)) in
        let t := q_stats q in
        item ← get items (nr - 1);
        Some (Accepted evs nr, q <| q_stats := t <| ts_dropped_pkts := ts_dropped_pkts t + Z.of_nat dropped |> |>
                                 <| q_reader := ReaderBatchLast base item nr |>)
  | ReaderBatchLast base item nr =>
      mem ← q_heap q !! base;
      mem ← write_at mem (item + Z.of_nat (f_off d_batch_last_data)) [1];
      Some (Quiet, q <| q_heap := <[base := mem]> (q_heap q) |> <| q_reader := ReaderIsLast base item nr |>)
  | ReaderIsLast base item nr =>
      mem ← q_heap q !! base;
      mem ← write_at mem (item - BLOCK_HEAD) [1];
      Some (if late base item nr q then Late else Quiet,
            q <| q_heap := <[base := mem]> (q_heap q) |> <| q_reader := ReaderSignal nr |>)
  | ReaderSignal nr =>
      let q := match q_worker q with WorkerWait => q <| q_worker := WorkerDequeue |> | _ => q end in
      Some (Quiet, q <| q_reader := ReaderCount nr |>)
  | ReaderCount nr => Some (Quiet, q <| q_enqueue_nr := q_enqueue_nr q + nr |> <| q_reader := ReaderIdle |>)
  | RegisterEnqueue base fn =>
      '(nr, _, r) ← ring_sp_enqueue_burst (q_ring q) [(base, BLOCK_HEAD)] 1;
      let q := q <| q_ring := r |> in
      if nr <? 1 then
        q ← free base (q <| q_enqueue_lost := q_enqueue_lost q + 1 |>); Some (Quiet, q <| q_reader := ReaderIdle |>)
      else Some (Quiet, q <| q_reader := RegisterHead base fn |>)
  | RegisterHead base fn =>
      mem ← q_heap q !! base;
      mem ← write_at mem 0 (mem_block_head 1 base fn);
      Some (Quiet, q <| q_heap := <[base := mem]> (q_heap q) |> <| q_reader := ReaderSignal 1 |>)
  end.

(** The timestamps of an item become real time. *)
Definition stamped (boot_time : Z) (s : list Z) : list Z :=
  let s := vput d_timestamp (vget d_timestamp s + boot_time) s in
  vput d_cap_timestamp (vget d_cap_timestamp s + boot_time) s.

Definition worker_step (boot_time : Z) (q : queue) : option queue :=
  match q_worker q with
  | WorkerDequeue =>
      '(nr, _, t, r) ← ring_sc_dequeue_burst (q_ring q) (replicate 32 (0, 0)) MAX_EVENTS_BURST;
      if nr =? 0 then Some (q <| q_ring := r |> <| q_worker := WorkerLock |>)
      else Some (q <| q_ring := r |> <| q_dequeue_nr := q_dequeue_nr q + nr |> <| q_worker := WorkerItem nr (take (Z.to_nat nr) t) |>)
  | WorkerItem nr [] =>
      Some (q <| q_burst_count := q_burst_count q + (if nr =? MAX_EVENTS_BURST then 1 else 0) |> <| q_worker := WorkerDequeue |>)
  | WorkerItem nr ((base, off) :: l) =>
      mem ← q_heap q !! base;
      h ← slice mem (off - BLOCK_HEAD) 17;
      let fn := le_word (drop 9 h) in
      if negb (fn =? 0) then
        data ← slice mem off (length mem - Z.to_nat off);
        Some (q <| q_log := q_log q ++ [Handled fn data] |> <| q_worker := WorkerFree nr (base, off) l |>)
      else
        s ← slice mem off 232;
        mem ← write_at mem off (stamped boot_time s);
        cap ← slice mem (vget d_cap_data s - base) (Z.to_nat (vget d_cap_len s));
        Some (q <| q_heap := <[base := mem]> (q_heap q) |> <| q_log := q_log q ++ [Data (stamped boot_time s) cap] |>
                <| q_worker := WorkerFree nr (base, off) l |>)
  | WorkerFree nr (base, off) l =>
      mem ← q_heap q !! base;
      h ← slice mem (off - BLOCK_HEAD) 17;
      q ← (if hd 0 h =? 1 then free (le_word (take 8 (drop 1 h))) q else Some q);
      Some (q <| q_worker := WorkerItem nr l |>)
  | WorkerLock => Some (q <| q_worker := WorkerWait |>)
  | WorkerWait => Some q
  end.

(** [malloc] gives a block that is not in use. *)
Definition block_ok (q : queue) (raw : list Z) (block : option (Z * list Z)) : Prop :=
  match block with
  | None => True
  | Some (base, bytes) => q_heap q !! base = None /\ 0 < base /\ base + Z.of_nat (length bytes) < 2 ^ 64 /\
      request raw = Some (Z.of_nat (length bytes))
  end.

(** Both threads in any order, records as they come, and the wake-ups without a
    signal that [pthread_cond_wait] allows. *)
Inductive qstep : queue -> qlabel -> queue -> Prop :=
| receives q raw block q' : q_reader q = ReaderIdle -> block_ok q raw block -> reader_receive raw block q = Some q' -> qstep q (Received raw) q'
| reads q l q' : reader_step q = Some (l, q') -> qstep q l q'
| works q boot_time q' : worker_step boot_time q = Some q' -> qstep q Quiet q'
| wakes q : q_worker q = WorkerWait -> qstep q Quiet (q <| q_worker := WorkerDequeue |>).
End steps.

Inductive qrun (P : proc_env) (handlers : list (Z * Z)) : queue -> list qlabel -> queue -> Prop :=
| qrun_nil q : qrun P handlers q [] q
| qrun_cons q1 l q2 ls q3 : qstep P handlers q1 l q2 -> qrun P handlers q2 ls q3 -> qrun P handlers q1 (l :: ls) q3.

(** ** The struct, field by field *)

Create HintDb sized discriminated.
#[export] Hint Extern 0 (sized (vput _ _ _)) => apply sized_vput; [reflexivity |] : sized.
#[export] Hint Extern 0 (sized (replicate _ _)) => reflexivity : sized.
#[export] Hint Resolve submit_sized unix_tuple_sized : sized.

Lemma get_same f x d : sized d -> (f_off f + f_len f <=? 232)%nat = true -> vget f (vput f x d) = x mod 2 ^ (8 * Z.of_nat (f_len f)).
Proof. unfold sized. intros Hd Hf%Nat.leb_le. apply vget_vput. lia. Qed.
Lemma get_other f g x d : sized d -> disjoint f g && (f_off f + f_len f <=? 232)%nat && (f_off g + f_len g <=? 232)%nat = true ->
  vget f (vput g x d) = vget f d.
Proof.
  unfold sized. intros Hd [[H1 H2%Nat.leb_le]%andb_true_iff H3%Nat.leb_le]%andb_true_iff. apply vget_vput_ne; [done | lia | lia].
Qed.
Lemma get_other_bytes f g b d : sized d -> length b = f_len g -> disjoint f g && (f_off f + f_len f <=? 232)%nat && (f_off g + f_len g <=? 232)%nat = true ->
  vget f (vput_bytes g b d) = vget f d.
Proof.
  unfold sized. intros Hd Hb [[H1 H2%Nat.leb_le]%andb_true_iff H3%Nat.leb_le]%andb_true_iff. unfold vget. f_equal. by apply vbytes_vput_bytes_ne; try lia.
Qed.

Section item_struct.
Context (P : proc_env) (HP : proc_env_ok P).

Lemma submitted_sized addr bl ev : event_fits ev -> sized (item_struct P addr bl ev).
Proof. intros [Hl _]. unfold item_struct. destruct bl; [apply sized_vput; [done |] |]; by apply submit_sized. Qed.
Lemma stamped_sized boot s : sized s -> sized (stamped boot s).
Proof. intros Hs. unfold stamped. auto with sized. Qed.

(** A field that the code for sockets does not write. *)
Definition in_struct (f : field) : bool := (f_off f + f_len f <=? 232)%nat.
Definition socket_fields : list field :=
  [d_socket_id; d_tuple; d_tcp_seq; d_process_id; d_thread_id; d_coroutine_id; d_is_tls; d_cap_seq; d_syscall_trace_id_call;
   d_process_kname; d_container_id; d_msg_type; d_socket_role].

Lemma get_put f g x d : sized d -> in_struct f = true -> in_struct g = true -> disjoint f g = true -> vget f (vput g x d) = vget f d.
Proof. intros Hd Hf Hg Hfg. apply get_other; [done |]. unfold in_struct in *. by rewrite Hfg, Hf, Hg. Qed.
Lemma get_put_bytes f g b d : sized d -> length b = f_len g -> in_struct f = true -> in_struct g = true -> disjoint f g = true ->
  vget f (vput_bytes g b d) = vget f d.
Proof. intros Hd Hb Hf Hg Hfg. apply get_other_bytes; [done | done |]. unfold in_struct in *. by rewrite Hfg, Hf, Hg. Qed.

Lemma bytes_put f g x d : sized d -> in_struct f = true -> in_struct g = true -> disjoint f g = true -> vbytes f (vput g x d) = vbytes f d.
Proof.
  unfold sized, in_struct. intros Hd Hf%Nat.leb_le Hg%Nat.leb_le Hfg. unfold vput. apply vbytes_vput_bytes_ne; [done | apply le_bytes_length | lia | lia].
Qed.
Lemma bytes_put_bytes f g b d : sized d -> length b = f_len g -> in_struct f = true -> in_struct g = true -> disjoint f g = true ->
  vbytes f (vput_bytes g b d) = vbytes f d.
Proof. unfold sized, in_struct. intros Hd Hb Hf%Nat.leb_le Hg%Nat.leb_le Hfg. apply vbytes_vput_bytes_ne; (done || lia). Qed.
Lemma bytes_same f b d : sized d -> in_struct f = true -> length b = f_len f -> vbytes f (vput_bytes f b d) = b.
Proof.
  unfold sized, in_struct. intros Hd Hf%Nat.leb_le Hb. unfold vbytes, vput_bytes. rewrite drop_app_ge by (rewrite length_take; lia).
  rewrite length_take, Nat.min_l, Nat.sub_diag, drop_0 by lia. rewrite take_app_le by (rewrite length_take, length_app, length_drop; lia).
  rewrite take_take, Nat.min_id, <- Hb. apply take_app_length.
Qed.

Lemma disjoint_tuple f g : disjoint f d_tuple = true -> (98 <=? f_off g)%nat && (f_off g + f_len g <=? 136)%nat = true -> disjoint f g = true.
Proof.
  unfold disjoint. intros H1 [H2%Nat.leb_le H3%Nat.leb_le]%andb_true_iff. apply orb_true_iff in H1 as [H1%Nat.leb_le | H1%Nat.leb_le];
    cbn in H1; apply orb_true_iff; [left | right]; apply Nat.leb_le; lia.
Qed.

Lemma unix_keeps f sd d : sized d -> in_struct f = true -> disjoint f d_tuple = true -> disjoint f d_tcp_seq = true ->
  vget f (unix_tuple sd d) = vget f d.
Proof.
  intros Hd Hf Ht Hs. unfold unix_tuple.
  assert (forall g, (98 <=? f_off g)%nat && (f_off g + f_len g <=? 136)%nat = true -> disjoint f g = true) as Hdj
    by (intros g; by apply disjoint_tuple).
  rewrite get_put; [| | done | done | done].
  2: { do 2 (apply sized_vput_bytes; [done | done |]). sized. destruct (_ =? 1); [| destruct (_ =? 2)]; by sized. }
  rewrite get_put_bytes; [| | done | done | done | by apply Hdj].
  2: { apply sized_vput_bytes; [done | done |]. sized. destruct (_ =? 1); [| destruct (_ =? 2)]; by sized. }
  rewrite get_put_bytes; [| | done | done | done | by apply Hdj].
  2: { sized. destruct (_ =? 1); [| destruct (_ =? 2)]; by sized. }
  rewrite get_put; [| | done | done | by apply Hdj].
  2: { destruct (_ =? 1); [| destruct (_ =? 2)]; by sized. }
  destruct (_ =? 1); [| destruct (_ =? 2)]; rewrite !get_put by (done || (by apply Hdj) || by sized); done.
Qed.

Ltac listed := solve [apply list_elem_of_In; cbn [socket_fields In]; repeat (first [left; reflexivity | right])].
Lemma socket_keeps f sd d : length sd = HEAD -> sized d -> in_struct f = true -> forallb (disjoint f) socket_fields = true ->
  vget f (submit_socket P sd d) = vget f d.
Proof.
  intros Hsd Hd Hf Hall. assert (forall g, g ∈ socket_fields -> disjoint f g = true) as Hdj.
  { intros g Hg. rewrite forallb_forall in Hall. apply Hall. by apply list_elem_of_In. }
  assert (forall g, g ∈ socket_fields -> in_struct g = true) as Hin.
  { intros g Hg. assert (forallb in_struct socket_fields = true) as Hs by reflexivity. rewrite forallb_forall in Hs. apply Hs. by apply list_elem_of_In. }
  assert (forall g x d, g ∈ socket_fields -> sized d -> vget f (vput g x d) = vget f d) as Hp by (intros; apply get_put; auto).
  unfold submit_socket. set (u := if is_source DATA_SOURCE_UNIX_SOCKET sd then _ else _).
  assert (sized u /\ vget f u = vget f d) as [Hu He].
  { assert (sized (vput d_tcp_seq (vget v_tcp_seq sd) (vput_bytes d_tuple (vbytes v_tuple sd) (vput d_socket_id (vget v_socket_id sd) d)))) as Hz
      by (sized; apply tuple_sized; [done | by sized]).
    assert (vget f (vput d_tcp_seq (vget v_tcp_seq sd) (vput_bytes d_tuple (vbytes v_tuple sd) (vput d_socket_id (vget v_socket_id sd) d))) = vget f d) as Hg.
    { rewrite Hp by first [listed | apply tuple_sized; [done | by sized]].
      rewrite get_put_bytes; [apply Hp; [listed | done] | by sized | by rewrite vbytes_length by (cbn; lia) | done | done | apply Hdj; listed]. }
    unfold u. destruct (is_source DATA_SOURCE_UNIX_SOCKET sd); [| done]. split; [by apply unix_tuple_sized |].
    rewrite unix_keeps by first [done | apply Hdj; listed]. done. }
  clearbody u. assert (forall x y z w t a, sized (vput d_syscall_trace_id_call x (vput d_cap_seq y (vput d_is_tls z (vput d_coroutine_id w
    (vput d_thread_id t (vput d_process_id a u))))))) as Hsz by (intros; by sized).
  pose proof (ended_container P HP sd) as Lc. pose proof (ended_kname P HP sd Hsd) as Lk.
  rewrite Hp by first [listed | sized; apply sized_vput_bytes; [done | done |]; apply sized_vput_bytes; [done | done |]; apply Hsz].
  rewrite Hp by first [listed | apply sized_vput_bytes; [done | done |]; apply sized_vput_bytes; [done | done |]; apply Hsz].
  rewrite get_put_bytes; [| apply sized_vput_bytes; [done | done | apply Hsz] | done | done | done | apply Hdj; listed].
  rewrite get_put_bytes; [| apply Hsz | done | done | done | apply Hdj; listed].
  rewrite !Hp by first [listed | by sized]. done.
Qed.

(** What the callback is told of an event. *)
Record reports (boot_time : Z) (ev : list Z * list Z) (s cap : list Z) : Prop := {
  rp_time : vget d_timestamp s = u64 (vget v_timestamp ev.1 + boot_time);
  rp_cap_time : vget d_cap_timestamp s = u64 (vget v_cap_timestamp ev.1 + boot_time);
  rp_source : vget d_source s = vget v_source ev.1;
  rp_fd : vget d_fd s = vget v_fd ev.1;
  rp_direction : vget d_direction s = Z.land (vget v_bits ev.1) 1;
  rp_syscall_len : vget d_syscall_len s = u64 (vget v_syscall_len ev.1 + carried ev.1);
  rp_cap_len : vget d_cap_len s = Z.of_nat (length cap);
  rp_cap : payload_ok P ev cap;
  rp_socket : is_source DATA_SOURCE_DPDK ev.1 = false ->
    vget d_process_id s = vget v_tgid ev.1 /\ vget d_thread_id s = vget v_pid ev.1 /\
    vget d_coroutine_id s = vget v_coroutine_id ev.1 /\ vget d_socket_id s = vget v_socket_id ev.1 /\
    vget d_cap_seq s = vget v_data_seq ev.1 /\ vget d_syscall_trace_id_call s = vget v_thread_trace_id ev.1 /\
    vget d_msg_type s = vget_msg_type ev.1 /\ vget d_socket_role s = vget v_socket_role ev.1;
  rp_names : is_source DATA_SOURCE_DPDK ev.1 = false ->
    vbytes d_process_kname s = ended (kname_of P ev.1) /\ vbytes d_container_id s = ended (container_of P ev.1);
  rp_tcp : is_source DATA_SOURCE_DPDK ev.1 = false -> is_source DATA_SOURCE_UNIX_SOCKET ev.1 = false ->
    vget d_tcp_seq s = vget v_tcp_seq ev.1 }.

Lemma vget_bound f v m : bytes_ok v -> (f_len f <= m)%nat -> vget f v mod 2 ^ (8 * Z.of_nat m) = vget f v.
Proof.
  intros Hv Hm. apply Z.mod_small. assert (bytes_ok (vbytes f v)) as Hb by (unfold vbytes; by apply Forall_take, Forall_drop).
  pose proof (le_word_bound _ Hb). assert (length (vbytes f v) <= m)%nat by (unfold vbytes; rewrite length_take; lia).
  assert (2 ^ (8 * Z.of_nat (length (vbytes f v))) <= 2 ^ (8 * Z.of_nat m)) by (apply Z.pow_le_mono_r; lia). unfold vget. lia.
Qed.
Lemma land_mod x m n : 0 <= m -> 0 <= x -> Z.land x (Z.ones m) mod 2 ^ (m + Z.of_nat n) = Z.land x (Z.ones m).
Proof.
  intros Hm Hx. rewrite Z.land_ones by done. apply Z.mod_small. pose proof (Z.mod_pos_bound x (2 ^ m) ltac:(apply Z.pow_pos_nonneg; lia)).
  assert (2 ^ m <= 2 ^ (m + Z.of_nat n)) by (apply Z.pow_le_mono_r; lia). lia.
Qed.

Lemma cap_len_bound ev : event_fits ev -> 0 <= cap_len ev.1 ev.2 < 2 ^ 32.
Proof.
  intros Hev. pose proof (payload_fits P ev Hev) as [_ Hp]. pose proof (fits_carried ev Hev) as [Hc _]. pose proof (data_len_bound ev Hev). destruct Hev as (Hl & Hdl & _).
  split; [done |]. unfold cap_len, body_len, EXTRA_SIZE, USER_IO_SIZE in *. destruct (is_source DATA_SOURCE_IO_EVENT ev.1), (0 <? data_len ev.1); lia.
Qed.

(** Sizes of what the fields are written to. *)
Ltac length_of := lazymatch goal with
  | |- length (ended (container_of _ _)) = _ => apply ended_container; assumption
  | |- length (ended (kname_of _ _)) = _ => apply ended_kname; assumption
  | |- length (vbytes _ _) = _ => rewrite vbytes_length; cbn; lia
  end.
Ltac sizes := lazymatch goal with
  | |- sized (vput _ _ _) => apply sized_vput; [reflexivity | sizes]
  | |- sized (vput_bytes _ _ _) => apply sized_vput_bytes; [reflexivity | length_of | sizes]
  | |- sized (unix_tuple _ _) => apply unix_tuple_sized; sizes
  | |- sized (submit_common _ _) => apply common_sized
  | |- sized (replicate _ _) => reflexivity
  | |- sized (if ?b then _ else _) => destruct b; sizes
  | |- sized _ => assumption
  end.
Ltac field_of := repeat (lazymatch goal with
  | |- vget ?f (vput ?f _ _) = _ => rewrite get_same; [| sizes | reflexivity]
  | |- vget ?f (vput _ _ _) = _ => rewrite get_put; [| sizes | reflexivity | reflexivity | reflexivity]
  | |- vget ?f (vput_bytes _ _ _) = _ => rewrite get_put_bytes; [| sizes | length_of | reflexivity | reflexivity | reflexivity]
  end).

Section event.
Context (addr : Z) (ev : list Z * list Z) (Hev : event_fits ev).
Let sd := ev.1.
Let Hsd : length sd = HEAD := proj1 Hev.
Let Hb : bytes_ok sd := proj1 (proj2 (proj2 (proj2 Hev))).

Lemma branch_sized : sized (if negb (is_source DATA_SOURCE_DPDK sd) then submit_socket P sd (submit_common addr sd)
  else vput_bytes d_process_kname (ended (vbytes v_comm sd)) (submit_common addr sd)).
Proof.
  destruct (is_source DATA_SOURCE_DPDK sd); cbn [negb].
  - apply sized_vput_bytes; [reflexivity | by rewrite ended_length, comm_length by (rewrite ?comm_length; done || lia) | apply common_sized].
  - apply socket_sized; [done | done | apply common_sized].
Qed.

(** Fields that every event has. *)
Lemma common_field f : in_struct f = true -> forallb (disjoint f) socket_fields = true ->
  disjoint f d_syscall_len = true -> disjoint f d_cap_len = true ->
  vget f (submit_data P addr sd (body_len sd ev.2)) = vget f (submit_common addr sd).
Proof.
  intros Hf Hall Hs Hc. unfold submit_data. rewrite get_put; [| apply sized_vput; [done | apply branch_sized] | done | done | done].
  rewrite get_put; [| apply branch_sized | done | done | done]. destruct (is_source DATA_SOURCE_DPDK sd); cbn [negb].
  - rewrite get_put_bytes; [done | apply common_sized | by rewrite ended_length, comm_length by (rewrite ?comm_length; done || lia) | done | done |].
    rewrite forallb_forall in Hall. apply Hall. apply list_elem_of_In. listed.
  - by apply socket_keeps; [done | apply common_sized | |].
Qed.
Lemma socket_field f : is_source DATA_SOURCE_DPDK sd = false -> in_struct f = true -> disjoint f d_syscall_len = true -> disjoint f d_cap_len = true ->
  vget f (submit_data P addr sd (body_len sd ev.2)) = vget f (submit_socket P sd (submit_common addr sd)).
Proof.
  intros Hd Hf Hs Hc. unfold submit_data. rewrite get_put; [| apply sized_vput; [done | apply branch_sized] | done | done | done].
  rewrite get_put; [| apply branch_sized | done | done | done]. by rewrite Hd.
Qed.

Lemma stamped_field f boot bl : in_struct f = true -> disjoint f d_timestamp = true -> disjoint f d_cap_timestamp = true ->
  disjoint f d_batch_last_data = true -> vget f (stamped boot (item_struct P addr bl ev)) = vget f (submit_data P addr sd (body_len sd ev.2)).
Proof.
  intros Hf H1 H2 H3. unfold stamped. pose proof (submitted_sized addr bl ev Hev) as Hz.
  rewrite get_put; [| by sized | done | done | done]. rewrite get_put; [| done | done | done | done].
  unfold item_struct. destruct bl; [| done]. rewrite get_put; [done | by apply submit_sized | done | done | done].
Qed.
Lemma stamped_times boot bl : vget d_timestamp (stamped boot (item_struct P addr bl ev)) = u64 (vget v_timestamp sd + boot) /\
  vget d_cap_timestamp (stamped boot (item_struct P addr bl ev)) = u64 (vget v_cap_timestamp sd + boot).
Proof.
  pose proof (submitted_sized addr bl ev Hev) as Hz.
  assert (forall f, in_struct f = true -> disjoint f d_batch_last_data = true -> vget f (item_struct P addr bl ev) = vget f (submit_data P addr sd (body_len sd ev.2))) as Hs.
  { intros f Hf H3. unfold item_struct. destruct bl; [| done]. rewrite get_put; [done | by apply submit_sized | done | done | done]. }
  assert (vget d_timestamp (item_struct P addr bl ev) = vget v_timestamp sd /\ vget d_cap_timestamp (item_struct P addr bl ev) = vget v_cap_timestamp sd) as [Ht Hc].
  { rewrite !Hs, !common_field by done. unfold submit_common. split; field_of; by apply (vget_bound _ sd 8). }
  unfold stamped. split.
  - rewrite get_put; [| by sized | done | done | done]. rewrite get_same by done. by rewrite Ht.
  - rewrite get_same by (done || by sized). rewrite get_put by done. by rewrite Hc.
Qed.

Lemma submitted_cap bl : 0 <= addr -> addr + SUBMIT_SIZE < 2 ^ 64 ->
  vget d_cap_data (item_struct P addr bl ev) = addr + SUBMIT_SIZE /\ vget d_cap_len (item_struct P addr bl ev) = cap_len sd ev.2.
Proof.
  intros H1 H2. assert (forall f, in_struct f = true -> disjoint f d_batch_last_data = true -> vget f (item_struct P addr bl ev) = vget f (submit_data P addr sd (body_len sd ev.2))) as Hs.
  { intros f Hf H3. unfold item_struct. destruct bl; [| done]. rewrite get_put; [done | by apply submit_sized | done | done | done]. }
  rewrite !Hs by done. split.
  - rewrite common_field by done. unfold submit_common. field_of. apply Z.mod_small. unfold SUBMIT_SIZE in *. cbn. lia.
  - unfold submit_data. rewrite get_same by (done || sized; apply branch_sized). apply Z.mod_small. by apply cap_len_bound.
Qed.

Lemma socket_says : is_source DATA_SOURCE_DPDK sd = false -> let s := submit_data P addr sd (body_len sd ev.2) in
  vget d_process_id s = vget v_tgid sd /\ vget d_thread_id s = vget v_pid sd /\
  vget d_coroutine_id s = vget v_coroutine_id sd /\ vget d_socket_id s = vget v_socket_id sd /\
  vget d_cap_seq s = vget v_data_seq sd /\ vget d_syscall_trace_id_call s = vget v_thread_trace_id sd /\
  vget d_msg_type s = vget_msg_type sd /\ vget d_socket_role s = vget v_socket_role sd /\
  (is_source DATA_SOURCE_UNIX_SOCKET sd = false -> vget d_tcp_seq s = vget v_tcp_seq sd).
Proof.
  intros Hd s. unfold s. rewrite !socket_field by done. unfold submit_socket.
  set (u := if is_source DATA_SOURCE_UNIX_SOCKET sd then _ else _).
  assert (sized u) as Hu by (unfold u; sizes).
  assert (vget d_socket_id u = vget v_socket_id sd) as Hi.
  { unfold u. destruct (is_source DATA_SOURCE_UNIX_SOCKET sd); [rewrite unix_keeps by (done || sizes) |]; field_of; by apply (vget_bound _ sd 8). }
  assert (is_source DATA_SOURCE_UNIX_SOCKET sd = false -> vget d_tcp_seq u = vget v_tcp_seq sd) as Hq.
  { intros Hx. unfold u. rewrite Hx. field_of. apply (vget_bound _ sd 8); [done | cbn; lia]. }
  clearbody u. split_and!; try (intros Hx); field_of; try done; try (by apply (vget_bound _ sd 4)); try (by apply (vget_bound _ sd 8)); try (by apply (vget_bound _ sd 1)); [| by apply Hq].
  unfold vget_msg_type. change 63 with (Z.ones 6). apply (land_mod _ 6 2); [lia |]. apply Z.shiftr_nonneg. by apply vget_nonneg.
Qed.

(** The name and the container. *)
Lemma stamped_bytes f boot bl : is_source DATA_SOURCE_DPDK sd = false -> in_struct f = true -> disjoint f d_timestamp = true ->
  disjoint f d_cap_timestamp = true -> disjoint f d_batch_last_data = true -> disjoint f d_syscall_len = true -> disjoint f d_cap_len = true ->
  vbytes f (stamped boot (item_struct P addr bl ev)) = vbytes f (submit_socket P sd (submit_common addr sd)).
Proof.
  intros Hd Hf H1 H2 H3 H4 H5. pose proof (submitted_sized addr bl ev Hev) as Hz. unfold stamped.
  rewrite bytes_put; [| by sized | done | done | done]. rewrite bytes_put; [| done | done | done | done].
  assert (vbytes f (item_struct P addr bl ev) = vbytes f (submit_data P addr sd (body_len sd ev.2))) as ->.
  { unfold item_struct. destruct bl; [| done]. rewrite bytes_put; [done | by apply submit_sized | done | done | done]. }
  unfold submit_data. rewrite bytes_put; [| apply sized_vput; [done | apply branch_sized] | done | done | done].
  rewrite bytes_put; [| apply branch_sized | done | done | done]. by rewrite Hd.
Qed.
Lemma names_say boot bl : is_source DATA_SOURCE_DPDK sd = false ->
  vbytes d_process_kname (stamped boot (item_struct P addr bl ev)) = ended (kname_of P sd) /\
  vbytes d_container_id (stamped boot (item_struct P addr bl ev)) = ended (container_of P sd).
Proof.
  intros Hd. rewrite !stamped_bytes by done. unfold submit_socket. set (u := if is_source DATA_SOURCE_UNIX_SOCKET sd then _ else _).
  assert (sized u) as Hu by (unfold u; sizes). clearbody u. split.
  - rewrite bytes_put; [| sizes | done | done | done]. rewrite bytes_put; [| sizes | done | done | done].
    rewrite bytes_put_bytes; [| sizes | length_of | done | done | done]. rewrite bytes_same; [done | sizes | done | length_of].
  - rewrite bytes_put; [| sizes | done | done | done]. rewrite bytes_put; [| sizes | done | done | done]. rewrite bytes_same; [done | sizes | done | length_of].
Qed.

Lemma stamped_reports boot bl p : payload_ok P ev p -> reports boot ev (stamped boot (item_struct P addr bl ev)) p.
Proof.
  intros Hp. pose proof (stamped_times boot bl) as [Ht Hc]. constructor; try done.
  - rewrite stamped_field, common_field by done. unfold submit_common. field_of. by apply (vget_bound _ sd 1).
  - rewrite stamped_field, common_field by done. unfold submit_common. field_of. by apply (vget_bound _ sd 4).
  - rewrite stamped_field, common_field by done. unfold submit_common. field_of. change 1 with (Z.ones 1). apply (land_mod _ 1 7); [lia |]. by apply vget_nonneg.
  - rewrite stamped_field by done. unfold submit_data. rewrite get_put; [| sized; apply branch_sized | done | done | done].
    rewrite get_same by (done || apply branch_sized). done.
  - rewrite stamped_field by done. unfold submit_data. rewrite get_same by (done || sized; apply branch_sized).
    pose proof (payload_fits P ev Hev) as [Hpl _]. rewrite (Hpl p Hp). fold (cap_len sd ev.2). apply Z.mod_small. by apply cap_len_bound.
  - intros Hd. rewrite !stamped_field by done. pose proof (socket_says Hd) as Hs. cbv zeta in Hs. tauto.
  - by apply names_say.
  - intros Hd Hx. rewrite stamped_field by done. pose proof (socket_says Hd) as Hs. cbv zeta in Hs. tauto.
Qed.
End event.
End item_struct.
