(* ===== verification/DispatchRun.v ===== *)
(** * The threads of the dispatch

    Runs of the reader and the worker of Dispatch.v: nothing goes wrong, every
    event that finds room is given to the callback once and in order, and what
    does not find room is counted; with what the two threads do to each other
    when one is faster than the code expects. *)

From S2P Require Import Prelude Conn Iovec World Output Memory Ring Dispatch.

(** An item in the ring or with the worker: where it is, its event, and what the
    reader has marked so far. *)
Record entry := mk_entry { e_base : Z; e_off : Z; e_ev : list Z * list Z; e_last : bool; e_batch : bool }.
#[export] Instance eta_entry : Eta entry := fun e => mk_entry (e_base e) (e_off e) (e_ev e) (e_last e) (e_batch e).
Definition e_ptr (e : entry) : ptr := (e_base e, e_off e).

(** What the worker holds; the first of it is served when only its block is left. *)
Definition hand (q : queue) : list ptr :=
  match q_worker q with WorkerItem _ l => l | WorkerFree _ p l => p :: l | _ => [] end.
Definition served (q : queue) : bool := match q_worker q with WorkerFree _ _ _ => true | _ => false end.
Definition to_serve (q : queue) (entries : list entry) : list entry := if served q then tail entries else entries.

(** Items that are in the ring and not in [enqueue_nr] yet. *)
Definition uncounted (q : queue) : Z :=
  match q_reader q with
  | ReaderBatchLast _ _ nr | ReaderIsLast _ _ nr | ReaderSignal nr | ReaderCount nr => nr
  | _ => 0
  end.

Section inv.
Context (P : proc_env) (HP : proc_env_ok P).

Definition delivered_as (ev : list Z * list Z) (d : delivery) : Prop :=
  exists boot_time s cap, d = Data s cap /\ reports P boot_time ev s cap.

Definition block_at (heap : gmap Z (list Z)) (base : Z) (mem : list Z) : Prop :=
  heap !! base = Some mem /\ 0 < base /\ base + Z.of_nat (length mem) < 2 ^ 64.
Definition entry_in (mem : list Z) (done : bool) (e : entry) : Prop :=
  if done then slice mem (e_off e - BLOCK_HEAD) 17 = Some (mem_block_head (if e_last e then 1 else 0) (e_base e) 0)
  else item_at P mem (e_base e) (e_off e) (e_last e) (e_batch e) (e_ev e).
Definition item_ok (heap : gmap Z (list Z)) (done : bool) (e : entry) : Prop :=
  exists mem, block_at heap (e_base e) mem /\ event_fits (e_ev e) /\ entry_in mem done e.

(** The items of a block that the reader is about to mark at [item]. *)
Definition marking (heap : gmap Z (list Z)) (base item : Z) (batch : bool) (entries : list entry) : Prop :=
  (exists mem, block_at heap base mem /\ BLOCK_HEAD <= item /\ item + SUBMIT_SIZE <= Z.of_nat (length mem)) /\
  (forall e, e ∈ entries -> e_base e = base -> e_last e = false /\
    (e_off e = item /\ e_batch e = batch \/ item_end (e_off e) (e_ev e) + BLOCK_HEAD <= item)) /\
  (entries = [] \/ exists l e, entries = l ++ [e] /\ e_ptr e = (base, item)).

Definition reader_ok (q : queue) (entries : list entry) : Prop :=
  match q_reader q with
  | ReaderEnqueue base items evs =>
      exists mem, block_at (q_heap q) base mem /\ evs <> [] /\ Forall event_fits evs /\ items = items_of evs 0 /\
        Forall2 (fun ev item => item_at P mem base item false false ev) evs items /\ forall e, e ∈ entries -> e_base e <> base
  | ReaderBatchLast base item nr => marking (q_heap q) base item false entries
  | ReaderIsLast base item nr => marking (q_heap q) base item true entries
  | RegisterEnqueue _ _ | RegisterHead _ _ => False
  | _ => True
  end.

Record inv (q : queue) (acc : list (list Z * list Z)) (entries : list entry) (qs : list ptr) : Prop := {
  iv_ring : holds_queue (q_ring q) qs;
  iv_todo : hand q ++ qs = e_ptr <$> entries;
  iv_entries : forall i e, entries !! i = Some e -> item_ok (q_heap q) (served q && (i =? 0)%nat) e;
  iv_order : forall i j e e', (i < j)%nat -> entries !! i = Some e -> entries !! j = Some e' -> e_base e = e_base e' ->
    e_last e = false /\ item_end (e_off e) (e_ev e) + BLOCK_HEAD <= e_off e';
  iv_reader : reader_ok q entries;
  iv_log : exists old, Forall2 delivered_as old (q_log q) /\ acc = old ++ (e_ev <$> to_serve q entries);
  iv_nr : q_enqueue_nr q + uncounted q = Z.of_nat (length acc);
  iv_deq : q_dequeue_nr q + Z.of_nat (length qs) = Z.of_nat (length acc) }.

(** ** Stores next to an item *)

Lemma item_at_after mem base off l b ev o bytes mem' : item_at P mem base off l b ev -> write_at mem o bytes = Some mem' ->
  event_fits ev -> item_end off ev <= o -> item_at P mem' base off l b ev.
Proof.
  intros [H1 H2 H3] Hp Hev Ho. pose proof (payload_fits P ev Hev) as [_ Hc]. unfold item_end, SUBMIT_SIZE, BLOCK_HEAD in *.
  constructor; unfold SUBMIT_SIZE, BLOCK_HEAD; rewrite (slice_write_ne _ _ _ _ Hp) by lia; done.
Qed.
Lemma item_at_before mem base off l b ev o bytes mem' : item_at P mem base off l b ev -> write_at mem o bytes = Some mem' ->
  event_fits ev -> o + Z.of_nat (length bytes) <= off - BLOCK_HEAD -> item_at P mem' base off l b ev.
Proof.
  intros [H1 H2 H3] Hp Hev Ho. pose proof (payload_fits P ev Hev) as [_ Hc]. unfold item_end, SUBMIT_SIZE, BLOCK_HEAD in *.
  constructor; unfold SUBMIT_SIZE, BLOCK_HEAD; rewrite (slice_write_ne _ _ _ _ Hp) by lia; done.
Qed.

Lemma item_mark_batch mem base off l ev mem' : item_at P mem base off l false ev -> event_fits ev ->
  write_at mem (off + Z.of_nat (f_off d_batch_last_data)) [1] = Some mem' -> item_at P mem' base off l true ev.
Proof.
  intros [H1 H2 H3] Hev Hp. pose proof (payload_fits P ev Hev) as [_ Hc]. cbn [f_off d_batch_last_data] in Hp. unfold SUBMIT_SIZE, BLOCK_HEAD in *.
  constructor; unfold SUBMIT_SIZE, BLOCK_HEAD.
  - rewrite (slice_write_ne _ _ _ _ Hp) by (cbn; lia). done.
  - rewrite (slice_write_in _ _ _ _ 147 [1] mem' H2 Hp) by (cbn; lia). done.
  - rewrite (slice_write_ne _ _ _ _ Hp) by (cbn; lia). done.
Qed.
Lemma head_mark_last mem base off mem' : slice mem (off - BLOCK_HEAD) 17 = Some (mem_block_head 0 base 0) ->
  write_at mem (off - BLOCK_HEAD) [1] = Some mem' -> slice mem' (off - BLOCK_HEAD) 17 = Some (mem_block_head 1 base 0).
Proof.
  intros H Hp. rewrite (slice_write_in mem (off - BLOCK_HEAD) 17 (mem_block_head 0 base 0) 0 [1] mem' H); [done | by rewrite Z.add_0_r | cbn; lia].
Qed.
Lemma item_mark_last mem base off b ev mem' : item_at P mem base off false b ev -> event_fits ev ->
  write_at mem (off - BLOCK_HEAD) [1] = Some mem' -> item_at P mem' base off true b ev.
Proof.
  intros [H1 H2 H3] Hev Hp. pose proof (payload_fits P ev Hev) as [_ Hc]. constructor.
  - by apply (head_mark_last mem).
  - unfold SUBMIT_SIZE, BLOCK_HEAD in *. rewrite (slice_write_ne _ _ _ _ Hp) by (cbn; lia). done.
  - unfold SUBMIT_SIZE, BLOCK_HEAD in *. rewrite (slice_write_ne _ _ _ _ Hp) by (cbn; lia). done.
Qed.

(** ** Steps *)

Definition accepted (l : qlabel) : list (list Z * list Z) := match l with Accepted evs n => take (Z.to_nat n) evs | _ => [] end.
Definition lost_in (l : qlabel) : Z := match l with Accepted evs n => Z.of_nat (length evs) - n | _ => 0 end.

(** Every block is in use: the reader is at work on it, or its last item is on
    the way to the worker. *)
Definition reader_base (q : queue) : option Z :=
  match q_reader q with ReaderEnqueue base _ _ | ReaderBatchLast base _ _ | ReaderIsLast base _ _ => Some base | _ => None end.
Definition owned (q : queue) (entries : list entry) : Prop :=
  forall b, is_Some (q_heap q !! b) -> reader_base q = Some b \/ exists e, e ∈ entries /\ e_base e = b /\ e_last e = true.

Definition goes_on (q : queue) (acc : list (list Z * list Z)) (entries : list entry) (l : qlabel) (q' : queue) : Prop :=
  exists entries' qs', inv q' (acc ++ accepted l) entries' qs' /\ q_enqueue_lost q' = q_enqueue_lost q + lost_in l /\
    (l <> Late -> owned q entries -> owned q' entries').

Lemma inv_frame q q' acc entries qs : inv q acc entries qs -> q_ring q' = q_ring q -> q_heap q' = q_heap q -> q_log q' = q_log q ->
  hand q' = hand q -> served q' = served q -> q_enqueue_nr q' + uncounted q' = q_enqueue_nr q + uncounted q ->
  q_dequeue_nr q' = q_dequeue_nr q -> reader_ok q' entries -> inv q' acc entries qs.
Proof.
  intros [] H1 H2 H3 H4 H5 H6 H7 H8. unfold to_serve in *. constructor; unfold to_serve; rewrite ?H1, ?H2, ?H3, ?H4, ?H5, ?H6, ?H7; done.
Qed.

(** A step that changes neither the ring nor a block. *)
Lemma goes_frame q q' acc entries qs : inv q acc entries qs -> q_ring q' = q_ring q -> q_heap q' = q_heap q -> q_log q' = q_log q ->
  hand q' = hand q -> served q' = served q -> q_enqueue_nr q' + uncounted q' = q_enqueue_nr q + uncounted q ->
  q_dequeue_nr q' = q_dequeue_nr q -> q_enqueue_lost q' = q_enqueue_lost q -> reader_base q' = reader_base q -> reader_ok q' entries ->
  goes_on q acc entries Quiet q'.
Proof.
  intros Hi H1 H2 H3 H4 H5 H6 H7 H8 H9 H10. exists entries, qs. cbn. rewrite app_nil_r, H8, Z.add_0_r. split_and!; [by apply (inv_frame q) | done |].
  intros _ Ho b. rewrite H2, H9. apply Ho.
Qed.

Lemma block_at_insert heap b0 mem0 base mem : b0 <> base -> block_at heap base mem -> block_at (<[b0 := mem0]> heap) base mem.
Proof. intros Hne (H1 & H2 & H3). split; [by rewrite lookup_insert_ne | done]. Qed.
Lemma entry_ok_insert heap b0 mem0 d e : e_base e <> b0 -> item_ok heap d e -> item_ok (<[b0 := mem0]> heap) d e.
Proof. intros Hne (mem & Hb & H). exists mem. split; [by apply block_at_insert | done]. Qed.
Lemma entry_ok_delete heap b0 d e : e_base e <> b0 -> item_ok heap d e -> item_ok (delete b0 heap) d e.
Proof. intros Hne (mem & (H1 & H2) & H). exists mem. split; [split; [by rewrite lookup_delete_ne | done] | done]. Qed.

(** ** Records *)

(** A record that the kernel can have pushed: socket data that is consistent, and
    not all of its events carry as many bytes as they can. *)
Definition good_record (raw : list Z) : Prop :=
  exists event_type, rd32 raw 0 = Some event_type /\
    (event_type < EVENT_TYPE_MIN -> exists o, reader_raw_cb raw = Some o /\ forall evs, o = Some evs -> evs <> [] /\ Forall event_fits evs /\
      Exists (fun ev => carried ev.1 < EXTRA_SIZE) evs /\ rd32 raw 4 = Some (Z.of_nat (length (flat evs)))).

Lemma receive_ok q acc entries qs raw block : inv q acc entries qs -> q_reader q = ReaderIdle -> good_record raw -> block_ok [] q raw block ->
  exists q', reader_receive P [] raw block q = Some q' /\ goes_on q acc entries (Received raw) q'.
Proof.
  intros Hi Hidle (et & Het & Hgood) Hblk. unfold reader_receive. rewrite Het. cbn [mbind option_bind].
  assert (goes_on q acc entries (Received raw) q) as Hstay.
  { exists entries, qs. cbn. by rewrite app_nil_r, Z.add_0_r. }
  destruct (Z.leb_spec EVENT_TYPE_MIN et) as [Hmin | Hmin]; [by exists q |].
  destruct (Hgood Hmin) as (o & Hcb & Hevs). rewrite Hcb. cbn [mbind option_bind]. destruct o as [evs |]; [| by exists q].
  destruct (Hevs evs eq_refl) as (Hne & Hfit & Hex & Hlen). destruct block as [[base bytes] |].
  2: { eexists. split; [reflexivity |]. exists entries, qs. cbn. rewrite app_nil_r, Z.add_0_r. split_and!; try done.
       apply (inv_frame q); try done. unfold reader_ok. cbn. by rewrite Hidle. }
  destruct Hblk as (Hfresh & Hpos & Hbound & Hreq).
  assert (Z.of_nat (length bytes) = alloc_len (Z.of_nat (length (flat evs))) evs) as Hsize.
  { unfold request in Hreq. rewrite Het in Hreq. cbn [mbind option_bind] in Hreq. destruct (Z.leb_spec EVENT_TYPE_MIN et); [lia |].
    rewrite Hcb, Hlen in Hreq. cbn in Hreq. by injection Hreq. }
  destruct (fill_block_ok P HP base evs Hfit 0 no_mount bytes) as (mem & -> & Hl & _ & Hitems); [by repeat constructor | lia | rewrite Hsize; by apply block_fits |].
  cbn [mbind option_bind]. eexists. split; [reflexivity |].
  assert (forall e, e ∈ entries -> e_base e <> base) as Hother.
  { intros e [i He]%list_elem_of_lookup_1 Hb. destruct (iv_entries _ _ _ _ Hi i e He) as (m & (Hm & _) & _). congruence. }
  exists entries, qs. cbn. rewrite app_nil_r, Z.add_0_r. split_and!; [| done |].
  - destruct Hi as [H1 H2 H3 H4 H5 H6 H7 H8]. constructor; try done.
    + intros i e He. apply entry_ok_insert; [apply Hother; by apply list_elem_of_lookup_2 in He | by apply H3].
    + cbn. exists mem. split_and!; try done; [split; [by rewrite lookup_insert_eq | by rewrite Hl]].
    + cbn. unfold uncounted in H7. rewrite Hidle in H7. cbn in *. lia.
  - intros _ Ho b. cbn. destruct (decide (b = base)) as [-> | Hb]; [by left |]. rewrite lookup_insert_ne by done. intros Hs.
    destruct (Ho b Hs) as [Hr | Hr]; [unfold reader_base in Hr; by rewrite Hidle in Hr | by right].
Qed.

(** ** The reader *)

Lemma items_ge evs : Forall event_fits evs -> forall off j y, items_of evs off !! j = Some y -> off + BLOCK_HEAD <= y.
Proof.
  induction 1 as [| ev evs Hev _ IH]; intros off [| j] y Hy; cbn in Hy; try done; [injection Hy as <-; lia |].
  apply IH in Hy. pose proof (payload_fits P ev Hev) as [_ Hc]. unfold item_end, SUBMIT_SIZE, BLOCK_HEAD in *. lia.
Qed.
Lemma items_order evs : Forall event_fits evs -> forall off i j x y ev, (i < j)%nat -> items_of evs off !! i = Some x ->
  items_of evs off !! j = Some y -> evs !! i = Some ev -> item_end x ev + BLOCK_HEAD <= y.
Proof.
  induction 1 as [| ev' evs Hev Hevs IH]; intros off i j x y ev Hij Hx Hy Hv; [done |]. destruct j as [| j]; [lia |]. cbn in Hy.
  destruct i as [| i]; cbn in Hx, Hv; [| exact (IH _ i j x y ev ltac:(lia) Hx Hy Hv)].
  injection Hx as <-. injection Hv as <-. by apply items_ge in Hy.
Qed.
Lemma items_length evs off : length (items_of evs off) = length evs.
Proof. revert off. induction evs as [| ev evs IH]; intros off; cbn; [done | by rewrite IH]. Qed.

Definition new_entries (base : Z) (evs : list (list Z * list Z)) (items : list Z) : list entry :=
  zip_with (fun ev item => mk_entry base item ev false false) evs items.
Lemma new_entries_lookup base evs items i e : new_entries base evs items !! i = Some e <->
  exists ev item, evs !! i = Some ev /\ items !! i = Some item /\ e = mk_entry base item ev false false.
Proof. unfold new_entries. rewrite lookup_zip_with_Some. split; [intros (x & y & -> & ? & ?) | intros (ev & item & ? & ? & ->)]; eauto. Qed.
Lemma new_entries_ptr base evs items : length evs = length items -> e_ptr <$> new_entries base evs items = pointers base items.
Proof.
  revert items. induction evs as [| ev evs IH]; intros [| x items] Hl; try done. cbn. f_equal. apply IH. by injection Hl.
Qed.
Lemma new_entries_ev base evs items : length evs = length items -> e_ev <$> new_entries base evs items = evs.
Proof.
  revert items. induction evs as [| ev evs IH]; intros [| x items] Hl; try done. cbn. f_equal. apply IH. by injection Hl.
Qed.

Lemma to_serve_app q entries l : (served q = true -> entries <> []) -> to_serve q (entries ++ l) = to_serve q entries ++ l.
Proof. intros H. unfold to_serve. destruct (served q); [| done]. destruct entries; [by specialize (H eq_refl) | done]. Qed.
Lemma served_entries q acc entries qs : inv q acc entries qs -> served q = true -> entries <> [].
Proof.
  intros Hi Hs ->. pose proof (iv_todo _ _ _ _ Hi) as Ht. unfold served in Hs. unfold hand in Ht. by destruct (q_worker q).
Qed.

(** The items of a record that found room join those on the way. *)
Lemma enqueue_entries q acc entries qs base items evs nr r : inv q acc entries qs -> q_reader q = ReaderEnqueue base items evs ->
  0 < nr <= Z.of_nat (length evs) -> holds_queue r (qs ++ take (Z.to_nat nr) (pointers base items)) ->
  exists item, get items (nr - 1) = Some item /\
  forall q', q_ring q' = r -> q_heap q' = q_heap q -> q_log q' = q_log q -> q_worker q' = q_worker q ->
    q_enqueue_nr q' = q_enqueue_nr q -> q_dequeue_nr q' = q_dequeue_nr q -> q_reader q' = ReaderBatchLast base item nr ->
    let new := take (Z.to_nat nr) (new_entries base evs items) in
    inv q' (acc ++ take (Z.to_nat nr) evs) (entries ++ new) (qs ++ take (Z.to_nat nr) (pointers base items)).
Proof.
  intros Hi Hrd Hnr Hq. pose proof (iv_reader _ _ _ _ Hi) as Hok. unfold reader_ok in Hok. rewrite Hrd in Hok.
  destruct Hok as (mem & Hblk & Hne & Hfit & -> & Hitems & Hother). pose proof (items_length evs 0) as Hil.
  destruct (lookup_lt_is_Some_2 (items_of evs 0) (Z.to_nat (nr - 1))) as [item Hitem]; [lia |].
  exists item. split; [unfold get; destruct (Z.ltb_spec (nr - 1) 0); [lia | done] |].
  intros q' H1 H2 H3 H4 H5 H6 H7 new.
  assert (forall i e, new !! i = Some e -> exists ev x, (i < Z.to_nat nr)%nat /\ evs !! i = Some ev /\ items_of evs 0 !! i = Some x /\
    e = mk_entry base x ev false false /\ item_at P mem base x false false ev /\ event_fits ev) as Hnew.
  { intros i e He. unfold new in He. apply lookup_take_Some in He as [He Hlt]. apply new_entries_lookup in He as (ev & x & Hev & Hx & ->).
    exists ev, x. split_and!; try done; [| by eapply Forall_lookup_1]. by apply (Forall2_lookup_lr _ _ _ i _ _ Hitems Hev Hx). }
  assert (hand q' = hand q /\ served q' = served q) as [Hh Hs] by (unfold hand, served; by rewrite H4).
  pose proof (served_entries q acc entries qs Hi) as Hse.
  destruct Hi as [I1 I2 I3 I4 I5 I6 I7 I8]. constructor.
  - by rewrite H1.
  - rewrite Hh, fmap_app, <- I2, <- app_assoc. do 2 f_equal. unfold new. rewrite fmap_take, new_entries_ptr by done. done.
  - intros i e [He | [Hge He]]%lookup_app_Some; [rewrite H2, Hs; by apply I3 |]. rewrite H2.
    destruct (Hnew _ _ He) as (ev & x & _ & _ & _ & -> & Hat & Hev). exists mem. cbn. split; [done |]. split; [done |].
    rewrite Hs. destruct (served q) eqn:Es; [| done]. destruct (Nat.eqb_spec i 0) as [-> |]; [| done].
    destruct entries; [by specialize (Hse eq_refl) | cbn in Hge; lia].
  - intros i j e e' Hij He He' Hbase. apply lookup_app_Some in He as [He | [Hge He]]; apply lookup_app_Some in He' as [He' | [Hge' He']].
    + by apply (I4 i j).
    + exfalso. destruct (Hnew _ _ He') as (ev & x & _ & _ & _ & -> & _). apply (Hother e); [by apply list_elem_of_lookup_2 in He | done].
    + apply lookup_lt_Some in He'. lia.
    + destruct (Hnew _ _ He) as (ev & x & _ & Hev & Hx & -> & _). destruct (Hnew _ _ He') as (ev' & y & _ & Hev' & Hy & -> & _). cbn.
      split; [done |]. apply (items_order evs Hfit 0 (i - length entries) (j - length entries) x y ev); [lia | done | done | done].
  - unfold reader_ok. rewrite H7, H2. split; [| split].
    + exists mem. split; [done |]. destruct (lookup_lt_is_Some_2 evs (Z.to_nat (nr - 1))) as [ev Hev]; [lia |].
      pose proof (Forall2_lookup_lr _ _ _ _ _ _ Hitems Hev Hitem) as [Ha Hb _]. apply slice_inv in Ha as (Ha & _), Hb as (_ & Hb & _).
      unfold SUBMIT_SIZE. lia.
    + intros e [He | [i He]%list_elem_of_lookup_1]%elem_of_app Hbase; [by apply Hother in He |].
      destruct (Hnew _ _ He) as (ev & x & Hi & Hev & Hx & -> & _). cbn. split; [done |].
      destruct (decide (i = Z.to_nat (nr - 1))) as [-> |]; [left; split; [congruence | done] | right].
      apply (items_order evs Hfit 0 i (Z.to_nat (nr - 1)) x item ev); [lia | done | done | done].
    + right. destruct (lookup_lt_is_Some_2 evs (Z.to_nat (nr - 1))) as [ev Hev]; [lia |].
      exists (entries ++ take (Z.to_nat (nr - 1)) (new_entries base evs (items_of evs 0))), (mk_entry base item ev false false).
      split; [| done]. unfold new. replace (Z.to_nat nr) with (S (Z.to_nat (nr - 1))) by lia.
      rewrite (take_S_r _ _ (mk_entry base item ev false false)) by (apply new_entries_lookup; eauto). by rewrite app_assoc.
  - destruct I6 as (old & Hlog & ->). exists old. rewrite H3. split; [done |]. rewrite <- app_assoc. f_equal.
    unfold to_serve. rewrite Hs. fold (to_serve q (entries ++ new)). rewrite to_serve_app by done. rewrite fmap_app. f_equal.
    unfold new. by rewrite fmap_take, new_entries_ev.
  - unfold uncounted in *. rewrite H5, H7. rewrite Hrd in I7. rewrite length_app, length_take. lia.
  - rewrite H6, !length_app, !length_take. unfold pointers. rewrite length_fmap. lia.
Qed.

Lemma reader_enqueues q acc entries qs base items evs : inv q acc entries qs -> q_reader q = ReaderEnqueue base items evs ->
  exists l q', reader_step q = Some (l, q') /\ goes_on q acc entries l q'.
Proof.
  intros Hi Hrd. pose proof (iv_reader _ _ _ _ Hi) as Hok. unfold reader_ok in Hok. rewrite Hrd in Hok.
  destruct Hok as (mem & (Hm & _) & Hne & Hfit & Hits & _ & Hother).
  assert (length (pointers base items) = length evs) as Hlen by (unfold pointers; rewrite length_fmap, Hits; apply items_length).
  unfold reader_step. rewrite Hrd. pose proof (enqueue_ok (q_ring q) qs (pointers base items) RING_QUEUE_VARIABLE true (iv_ring _ _ _ _ Hi)) as He.
  unfold queue_enqueue in He. set (nr := granted _ _ _) in He. destruct He as (r & He & Hq & _). rewrite Hlen in He.
  unfold ring_sp_enqueue_burst. rewrite He. cbn [mbind option_bind].
  pose proof (hq_bound _ _ (iv_ring _ _ _ _ Hi)) as Hb.
  assert (0 <= nr <= Z.of_nat (length evs)) as Hnr.
  { pose proof (granted_range (Z.of_nat (length (pointers base items))) (r_capacity (q_ring q) - Z.of_nat (length qs)) RING_QUEUE_VARIABLE
      ltac:(lia) ltac:(lia)) as [Hg1 Hg2]. fold nr in Hg1, Hg2. lia. }
  assert (0 < Z.of_nat (length evs)) as Hpos by (destruct evs; [done | cbn; lia]).
  destruct (Z.eqb_spec (Z.of_nat (length evs) - nr) (Z.of_nat (length evs))) as [H0 | H0].
  - destruct (Z.ltb_spec nr (Z.of_nat (length evs))); [| lia]. cbn [andb]. unfold free. cbn. rewrite Hm. cbn.
    eexists _, _. split; [reflexivity |]. assert (nr = 0) as E by lia. rewrite E in *.
    exists entries, qs. cbn. rewrite app_nil_r. cbn in Hq. rewrite app_nil_r in Hq. split_and!; [| lia |].
    + destruct Hi as [I1 I2 I3 I4 I5 I6 I7 I8]. constructor; try done.
      * intros i e Hx. apply entry_ok_delete; [apply Hother; by apply list_elem_of_lookup_2 in Hx | by apply I3].
      * unfold uncounted in *. rewrite Hrd in I7. cbn. lia.
    + intros _ Ho b. cbn. intros Hs. assert (b <> base) by (intros ->; rewrite lookup_delete_eq in Hs; by destruct Hs).
      rewrite lookup_delete_ne in Hs by done. destruct (Ho b Hs) as [Hr | Hr]; [| by right]. unfold reader_base in Hr. rewrite Hrd in Hr. congruence.
  - rewrite andb_false_r. destruct (enqueue_entries q acc entries qs base items evs nr r Hi Hrd ltac:(lia) Hq) as (item & -> & Hinv).
    cbn [mbind option_bind]. eexists _, _. split; [reflexivity |]. eexists _, _. split; [apply Hinv; by destruct (nr <? _) |].
    split; [destruct (Z.ltb_spec nr (Z.of_nat (length evs))); cbn; lia |].
    intros _ Ho b. assert (forall q1 q2 : queue, q_heap q2 = q_heap q1 -> is_Some (q_heap q2 !! b) -> is_Some (q_heap q1 !! b)) as Hsame by by intros ? ? ->.
    intros Hs%(Hsame q); [| by destruct (nr <? _)]. destruct (Ho b Hs) as [Hr | (e & He' & Hx)]; [left | right; exists e; split; [apply elem_of_app; by left | done]].
    unfold reader_base in *. rewrite Hrd in Hr. by destruct (nr <? _).
Qed.

(** The marks change one item. *)
Definition mark1 (f : entry -> entry) (p : ptr) (e : entry) : entry := if decide (e_ptr e = p) then f e else e.
Definition mark (f : entry -> entry) (p : ptr) (entries : list entry) : list entry := mark1 f p <$> entries.

Section mark.
Context (f : entry -> entry) (base item : Z).
Context (Hf : forall e, e_base (f e) = e_base e /\ e_off (f e) = e_off e /\ e_ev (f e) = e_ev e).

Lemma mark_lookup entries i e' : mark f (base, item) entries !! i = Some e' ->
  exists e, entries !! i = Some e /\ e_base e' = e_base e /\ e_off e' = e_off e /\ e_ev e' = e_ev e /\
    (e_ptr e = (base, item) /\ e' = f e \/ e_ptr e <> (base, item) /\ e' = e).
Proof.
  unfold mark. rewrite list_lookup_fmap. destruct (entries !! i) as [e |]; [| done]. intros [= <-]. exists e. unfold mark1.
  destruct (decide _); destruct (Hf e) as (H1 & H2 & H3); split_and!; eauto.
Qed.
Lemma mark_ptr entries : e_ptr <$> mark f (base, item) entries = e_ptr <$> entries.
Proof.
  unfold mark. rewrite <- list_fmap_compose. apply list_fmap_ext. intros i e _. cbn. unfold mark1. destruct (decide _); [| done].
  unfold e_ptr. by destruct (Hf e) as (-> & -> & _).
Qed.
Lemma mark_ev entries : e_ev <$> mark f (base, item) entries = e_ev <$> entries.
Proof.
  unfold mark. rewrite <- list_fmap_compose. apply list_fmap_ext. intros i e _. cbn. unfold mark1. destruct (decide _); [| done]. by destruct (Hf e) as (_ & _ & ->).
Qed.
Lemma mark_tail entries : tail (mark f (base, item) entries) = mark f (base, item) (tail entries).
Proof. by destruct entries. Qed.
End mark.

Lemma entry_in_after mem d e o bytes mem' : entry_in mem d e -> event_fits (e_ev e) -> write_at mem o bytes = Some mem' ->
  item_end (e_off e) (e_ev e) <= o -> entry_in mem' d e.
Proof.
  intros He Hev Hp Ho. unfold entry_in in *. destruct d; [| by apply (item_at_after mem _ _ _ _ _ o bytes)].
  pose proof (payload_fits P _ Hev) as [_ Hc]. unfold item_end, SUBMIT_SIZE, BLOCK_HEAD in *. rewrite (slice_write_ne _ _ _ _ Hp) by lia. done.
Qed.

(** A store into one item of a block leaves the items before it alone. *)
Lemma mark_entries_ok f heap entries base item mem o bytes mem' sv :
  (forall e, e_base (f e) = e_base e /\ e_off (f e) = e_off e /\ e_ev (f e) = e_ev e) ->
  block_at heap base mem -> write_at mem o bytes = Some mem' -> item - BLOCK_HEAD <= o ->
  (forall i e, entries !! i = Some e -> item_ok heap (sv && (i =? 0)%nat) e) ->
  (forall e, e ∈ entries -> e_base e = base -> e_off e = item \/ item_end (e_off e) (e_ev e) + BLOCK_HEAD <= item) ->
  (forall e d, e ∈ entries -> e_ptr e = (base, item) -> event_fits (e_ev e) -> entry_in mem d e -> entry_in mem' d (f e)) ->
  forall i e, mark f (base, item) entries !! i = Some e -> item_ok (<[base := mem']> heap) (sv && (i =? 0)%nat) e.
Proof.
  intros Hf (Hm & Hb1 & Hb2) Hp Ho Hent Hpos Hmark i e' He'. destruct (mark_lookup f base item Hf entries i e' He') as (e & He & E1 & E2 & E3 & Hor).
  destruct (Hent i e He) as (m & (Hm' & Hb) & Hev & Hin). apply list_elem_of_lookup_2 in He as Hel.
  destruct (decide (e_base e = base)) as [Hbase | Hbase].
  - assert (m = mem) as -> by congruence. exists mem'. split_and!; [split; [by rewrite E1, Hbase, lookup_insert_eq | rewrite E1, Hbase, (write_length _ _ _ _ Hp); done] | by rewrite E3 |].
    destruct Hor as [[Hptr ->] | [Hptr ->]]; [by apply Hmark |].
    destruct (Hpos e Hel Hbase) as [Hoff | Hend]; [exfalso; apply Hptr; unfold e_ptr; congruence |]. apply (entry_in_after mem _ _ o bytes); (done || lia).
  - destruct Hor as [[Hptr ->] | [Hptr ->]]; [exfalso; apply Hbase; unfold e_ptr in Hptr; congruence |].
    apply entry_ok_insert; [done |]. exists m. done.
Qed.

Lemma mark_owned f q q' base item entries mem' : (forall e, e_base (f e) = e_base e /\ (e_last e = true -> e_last (f e) = true)) ->
  q_heap q' = <[base := mem']> (q_heap q) -> reader_base q = Some base -> owned q entries ->
  (reader_base q' = Some base \/ exists e, e ∈ mark f (base, item) entries /\ e_base e = base /\ e_last e = true) ->
  owned q' (mark f (base, item) entries).
Proof.
  intros Hf Hh Hr Ho Hb b Hs. rewrite Hh in Hs. destruct (decide (b = base)) as [-> | Hne]; [done |].
  rewrite lookup_insert_ne in Hs by done. destruct (Ho b Hs) as [Hx | (e & He & Hx & Hl)]; [congruence | right].
  exists (mark1 f (base, item) e). split; [by apply list_elem_of_fmap_2 |]. unfold mark1.
  destruct (Hf e) as [Hf1 Hf2]. destruct (decide _); [split; [congruence | auto] | done].
Qed.

Lemma mark_inv f q q' acc entries qs base item mem o bytes mem' : inv q acc entries qs ->
  (forall e, e_base (f e) = e_base e /\ e_off (f e) = e_off e /\ e_ev (f e) = e_ev e) ->
  block_at (q_heap q) base mem -> write_at mem o bytes = Some mem' -> item - BLOCK_HEAD <= o ->
  (forall e, e ∈ entries -> e_base e = base -> e_off e = item \/ item_end (e_off e) (e_ev e) + BLOCK_HEAD <= item) ->
  (forall e d, e ∈ entries -> e_ptr e = (base, item) -> event_fits (e_ev e) -> entry_in mem d e -> entry_in mem' d (f e)) ->
  (forall i j e e', (i < j)%nat -> entries !! i = Some e -> entries !! j = Some e' -> e_base e = e_base e' -> e_ptr e = (base, item) ->
    e_last (f e) = false) ->
  q_ring q' = q_ring q -> q_heap q' = <[base := mem']> (q_heap q) -> q_log q' = q_log q -> q_worker q' = q_worker q ->
  q_enqueue_nr q' + uncounted q' = q_enqueue_nr q + uncounted q -> q_dequeue_nr q' = q_dequeue_nr q ->
  reader_ok q' (mark f (base, item) entries) -> inv q' acc (mark f (base, item) entries) qs.
Proof.
  intros [I1 I2 I3 I4 I5 I6 I7 I8] Hf Hblk Hp Ho Hpos Hmark Hord H1 H2 H3 H4 H5 H6 Hrd.
  assert (hand q' = hand q /\ served q' = served q) as [Hh Hs] by (unfold hand, served; by rewrite H4).
  constructor; rewrite ?H1, ?H2, ?H3, ?H5, ?H6, ?Hh, ?Hs; try done.
  - by rewrite mark_ptr.
  - by apply (mark_entries_ok f (q_heap q) entries base item mem o bytes mem').
  - intros i j e e' Hij He He'. destruct (mark_lookup f base item Hf _ _ _ He) as (x & Hx & E1 & E2 & E3 & Ex).
    destruct (mark_lookup f base item Hf _ _ _ He') as (y & Hy & F1 & F2 & F3 & _). rewrite E1, F1, E2, F2, E3. intros Hb.
    destruct (I4 i j x y Hij Hx Hy Hb) as [Hl Hlt]. split; [| done]. destruct Ex as [[Hptr ->] | [_ ->]]; [by apply (Hord i j x y) | done].
  - destruct I6 as (old & Hlog & ->). exists old. split; [done |]. f_equal. unfold to_serve. rewrite Hs.
    destruct (served q); [rewrite mark_tail |]; by rewrite mark_ev.
Qed.

Lemma marking_order heap base item b entries : marking heap base item b entries ->
  forall e, e ∈ entries -> e_base e = base -> e_off e = item \/ item_end (e_off e) (e_ev e) + BLOCK_HEAD <= item.
Proof. intros (_ & Hpos & _) e He Hb. destruct (Hpos e He Hb) as [_ [[? _] | ?]]; auto. Qed.

Lemma reader_marks_batch q acc entries qs base item nr : inv q acc entries qs -> q_reader q = ReaderBatchLast base item nr ->
  exists q', reader_step q = Some (Quiet, q') /\ goes_on q acc entries Quiet q'.
Proof.
  intros Hi Hrd. pose proof (iv_reader _ _ _ _ Hi) as Hok. unfold reader_ok in Hok. rewrite Hrd in Hok. pose proof (marking_order _ _ _ _ _ Hok) as Hord.
  destruct Hok as ((mem & Hblk & Hlo & Hhi) & Hpos & Hlast). unfold reader_step. rewrite Hrd, (proj1 Hblk). cbn [mbind option_bind].
  unfold BLOCK_HEAD, SUBMIT_SIZE in Hlo, Hhi.
  destruct (write_Some mem (item + Z.of_nat (f_off d_batch_last_data)) [1]) as [mem' Hp]; [cbn; lia | cbn; lia |]. rewrite Hp. cbn [mbind option_bind].
  eexists. split; [reflexivity |]. set (f := fun e => e <| e_batch := true |>).
  assert (forall e, e_base (f e) = e_base e /\ e_off (f e) = e_off e /\ e_ev (f e) = e_ev e) as Hf by done.
  exists (mark f (base, item) entries), qs. cbn. rewrite app_nil_r, Z.add_0_r. split_and!; [| done |].
  - apply (mark_inv f q _ acc entries qs base item mem _ [1] mem' Hi Hf Hblk Hp); try done.
    + cbn. unfold BLOCK_HEAD. lia.
    + intros e d He Hptr Hev Hin. injection Hptr as Hb Ho. destruct (Hpos e He Hb) as [Hl [[_ Hbt] | Hend]].
      * unfold entry_in in *. destruct d; cbn; [cbn in Hp; unfold BLOCK_HEAD in *; rewrite (slice_write_ne _ _ _ _ Hp) by (cbn; lia); done |].
        rewrite Hbt in Hin. rewrite Ho in *. by apply (item_mark_batch mem).
      * pose proof (payload_fits P _ Hev) as [_ Hc]. unfold item_end, SUBMIT_SIZE, BLOCK_HEAD in *. lia.
    + intros i j e e' Hij He He' Hb _. cbn. by destruct (iv_order _ _ _ _ Hi i j e e' Hij He He' Hb).
    + unfold uncounted. cbn. by rewrite Hrd.
    + cbn. split; [| split].
      * exists mem'. split; [split; [by rewrite lookup_insert_eq | rewrite (write_length _ _ _ _ Hp); apply Hblk] |].
        rewrite (write_length _ _ _ _ Hp). unfold BLOCK_HEAD, SUBMIT_SIZE. lia.
      * intros e' [i He']%list_elem_of_lookup_1 Hb. destruct (mark_lookup f base item Hf _ _ _ He') as (e & He & E1 & E2 & E3 & Ex).
        apply list_elem_of_lookup_2 in He. destruct (Hpos e He ltac:(congruence)) as [Hl Hor]. rewrite E2, E3.
        destruct Ex as [[Hptr ->] | [Hptr ->]]; (split; [done |]); destruct Hor as [[Ho _] | ?]; auto.
        exfalso. apply Hptr. unfold e_ptr. congruence.
      * destruct Hlast as [-> | (l & e & -> & Hptr)]; [by left | right]. unfold mark. rewrite fmap_app. eexists _, _. split; [done |]. cbn. unfold mark1. by rewrite decide_True.
  - intros _ Ho. apply (mark_owned f q _ base item entries mem'); try done; [by unfold reader_base; rewrite Hrd | by left].
Qed.

(** A mark in time is on an item that is still on the way. *)
Lemma in_time q acc entries qs base item nr : inv q acc entries qs -> q_reader q = ReaderIsLast base item nr -> late base item nr q = false ->
  exists e, e ∈ entries /\ e_ptr e = (base, item).
Proof.
  intros Hi Hrd Hl. pose proof (iv_reader _ _ _ _ Hi) as Hok. unfold reader_ok in Hok. rewrite Hrd in Hok. destruct Hok as (_ & _ & Hlast).
  destruct Hlast as [-> | (l & e & -> & Hptr)]; [| exists e; split; [apply elem_of_app; right; by apply list_elem_of_singleton | done]].
  exfalso. pose proof (iv_todo _ _ _ _ Hi) as Ht. pose proof (iv_nr _ _ _ _ Hi) as Hn. destruct (iv_log _ _ _ _ Hi) as (old & Hlog & ->).
  unfold to_serve in Hn. unfold uncounted in Hn. rewrite Hrd in Hn. unfold late in Hl. apply Forall2_length in Hlog.
  destruct (served q) eqn:Es; cbn in Hn; rewrite app_nil_r in Hn.
  - unfold served in Es. unfold hand in Ht. by destruct (q_worker q).
  - destruct (Z.leb_spec (q_enqueue_nr q + nr) (Z.of_nat (length (q_log q)))); [| lia]. unfold served in Es. by destruct (q_worker q).
Qed.

Lemma reader_marks_last q acc entries qs base item nr : inv q acc entries qs -> q_reader q = ReaderIsLast base item nr ->
  exists l q', reader_step q = Some (l, q') /\ goes_on q acc entries l q'.
Proof.
  intros Hi Hrd. pose proof (iv_reader _ _ _ _ Hi) as Hok. unfold reader_ok in Hok. rewrite Hrd in Hok. pose proof (marking_order _ _ _ _ _ Hok) as Hord.
  destruct Hok as ((mem & Hblk & Hlo & Hhi) & Hpos & Hlast). unfold reader_step. rewrite Hrd, (proj1 Hblk). cbn [mbind option_bind].
  destruct (write_Some mem (item - BLOCK_HEAD) [1]) as [mem' Hp]; [lia | unfold SUBMIT_SIZE, BLOCK_HEAD in *; cbn; lia |]. rewrite Hp. cbn [mbind option_bind].
  eexists _, _. split; [reflexivity |]. set (f := fun e => e <| e_last := true |>).
  assert (forall e, e_base (f e) = e_base e /\ e_off (f e) = e_off e /\ e_ev (f e) = e_ev e) as Hf by done.
  exists (mark f (base, item) entries), qs. cbn.
  replace (accepted (if late base item nr q then Late else Quiet)) with (@nil (list Z * list Z)) by (by destruct (late _ _ _ _)).
  replace (lost_in (if late base item nr q then Late else Quiet)) with 0 by (by destruct (late _ _ _ _)).
  rewrite app_nil_r, Z.add_0_r. split_and!; [| done |].
  - apply (mark_inv f q _ acc entries qs base item mem _ [1] mem' Hi Hf Hblk Hp); try done.
    + intros e d He Hptr Hev Hin. injection Hptr as Hb Ho. destruct (Hpos e He Hb) as [Hl _].
      unfold entry_in in *. rewrite Hl in Hin. rewrite <- Ho in Hp. destruct d; cbn; [by apply (head_mark_last mem) | by apply (item_mark_last mem)].
    + intros i j e e' Hij He He' Hb Hptr. destruct (iv_order _ _ _ _ Hi i j e e' Hij He He' Hb) as [_ Hlt]. exfalso.
      destruct (iv_entries _ _ _ _ Hi j e' He') as (_ & _ & Hev' & _). destruct (iv_entries _ _ _ _ Hi i e He) as (_ & _ & Hev & _).
      pose proof (payload_fits P _ Hev) as [_ Hc]. pose proof (payload_fits P _ Hev') as [_ Hc'].
      injection Hptr as Hbe Hoe. apply list_elem_of_lookup_2 in He'. destruct (Hord e' He' ltac:(congruence)); unfold item_end, SUBMIT_SIZE, BLOCK_HEAD in *; lia.
    + unfold uncounted. cbn. by rewrite Hrd.
  - intros Hlate Ho. apply (mark_owned f q _ base item entries mem'); try done; [by unfold reader_base; rewrite Hrd |]. right.
    assert (late base item nr q = false) as Hnl by (by destruct (late base item nr q)).
    destruct (in_time q acc entries qs base item nr Hi Hrd Hnl) as (e & He & Hptr). exists (mark1 f (base, item) e).
    split; [by apply list_elem_of_fmap_2 |]. unfold mark1. rewrite decide_True by done. cbn. split; [by injection Hptr | done].
Qed.

Lemma reader_step_ok q acc entries qs : inv q acc entries qs -> exists l q', reader_step q = Some (l, q') /\ goes_on q acc entries l q'.
Proof.
  intros Hi. pose proof (iv_reader _ _ _ _ Hi) as Hok. unfold reader_ok in Hok. destruct (q_reader q) as [| base items evs | base item nr | base item nr | nr | nr | base fn | base fn] eqn:Hrd; try done.
  - exists Quiet, q. unfold reader_step. rewrite Hrd. split; [done |]. apply (goes_frame q q acc entries qs); try done. unfold reader_ok. by rewrite Hrd.
  - by apply (reader_enqueues q acc entries qs base items evs).
  - destruct (reader_marks_batch q acc entries qs base item nr Hi Hrd) as (q' & ?). eauto.
  - by apply (reader_marks_last q acc entries qs base item nr).
  - unfold reader_step. rewrite Hrd. eexists _, _. split; [reflexivity |].
    apply (goes_frame q _ acc entries qs); try done; unfold hand, served, uncounted, reader_base; cbn; rewrite ?Hrd; destruct (q_worker q) eqn:Hw; cbn; rewrite ?Hw; done.
  - unfold reader_step. rewrite Hrd. eexists _, _. split; [reflexivity |].
    apply (goes_frame q _ acc entries qs); try done; unfold uncounted, reader_base; cbn; rewrite ?Hrd; cbn; (done || lia).
Qed.

(** ** The worker *)

Lemma head_fields l base : 0 < base < 2 ^ 64 ->
  le_word (drop 9 (mem_block_head l base 0)) = 0 /\ le_word (take 8 (drop 1 (mem_block_head l base 0))) = base /\ hd 0 (mem_block_head l base 0) = l.
Proof.
  intros Hb. unfold mem_block_head. split_and!; [| | done].
  - cbn [drop]. rewrite drop_app_length' by (by rewrite le_bytes_length). by rewrite le_word_le_bytes.
  - rewrite skipn_cons, drop_0, take_app_length' by (by rewrite le_bytes_length). rewrite le_word_le_bytes. apply Z.mod_small. cbn. lia.
Qed.

(** A store into the block of the first item, within that item. *)
Lemma reader_ok_heap q q' e entries mem mem' : reader_ok q (e :: entries) -> q_reader q' = q_reader q ->
  q_heap q' = <[e_base e := mem']> (q_heap q) -> block_at (q_heap q) (e_base e) mem -> length mem' = length mem -> reader_ok q' (e :: entries).
Proof.
  intros Hok Hr Hh Hb Hl. unfold reader_ok in *. rewrite Hr, Hh.
  assert (forall base item b, marking (q_heap q) base item b (e :: entries) -> marking (<[e_base e := mem']> (q_heap q)) base item b (e :: entries)) as Hm.
  { intros base item b ((m & Hm & Hlo & Hhi) & Hrest). split; [| done]. destruct (decide (e_base e = base)) as [<- |].
    - exists mem'. destruct Hb as (Hb1 & Hb2), Hm as (Hm1 & _). assert (m = mem) as -> by congruence.
      split; [split; [by rewrite lookup_insert_eq | by rewrite Hl] | by rewrite Hl].
    - exists m. split; [by apply block_at_insert | done]. }
  destruct (q_reader q); try done; auto. destruct Hok as (m & Hblk & H1 & H2 & H3 & H4 & H5). exists m. split_and!; try done.
  apply block_at_insert; [| done]. apply H5. left.
Qed.

Lemma worker_serves q acc entries qs nr base off l boot : inv q acc entries qs -> q_worker q = WorkerItem nr ((base, off) :: l) ->
  exists q', worker_step boot q = Some q' /\ goes_on q acc entries Quiet q'.
Proof.
  intros Hi Hw. pose proof (iv_todo _ _ _ _ Hi) as Ht. unfold hand in Ht. rewrite Hw in Ht. destruct entries as [| e entries]; [done |].
  cbn in Ht. injection Ht as Hbase Hoff Ht. destruct (iv_entries _ _ _ _ Hi 0%nat e eq_refl) as (mem & Hblk & Hev & Hin).
  assert (served q = false) as Hs by (unfold served; by rewrite Hw). rewrite Hs in Hin. cbn in Hin. pose proof Hin as [Hhd Hsub (p & Hpay & Hpok)].
  destruct Hblk as (Hm & Hb1 & Hb2). pose proof (slice_inv _ _ _ _ Hsub) as (Hs1 & Hs2 & _ & _). pose proof (payload_fits P _ Hev) as [Hpl Hc].
  destruct (head_fields (if e_last e then 1 else 0) (e_base e)) as (Hfn & _); [lia |].
  unfold worker_step. rewrite Hw, Hbase, Hoff, Hm. cbn [mbind option_bind]. rewrite Hhd. cbn [mbind option_bind]. rewrite Hfn. cbn [Z.eqb negb].
  rewrite Hsub. cbn [mbind option_bind]. set (s := item_struct P (e_base e + e_off e) (e_batch e) (e_ev e)) in *.
  pose proof (stamped_sized boot s (submitted_sized P HP _ _ _ Hev)) as Hsz. unfold sized in Hsz.
  destruct (write_Some mem (e_off e) (stamped boot s)) as [mem' Hp]; [lia | rewrite Hsz; lia |]. rewrite Hp. cbn [mbind option_bind].
  destruct (submitted_cap P HP (e_base e + e_off e) (e_ev e) Hev (e_batch e)) as [Hcd Hcl]; [lia | unfold SUBMIT_SIZE; lia |].
  fold s in Hcd, Hcl. rewrite Hcd, Hcl. replace (e_base e + e_off e + SUBMIT_SIZE - e_base e) with (e_off e + SUBMIT_SIZE) by lia.
  rewrite (slice_write_ne _ _ _ _ Hp), Hpay by (unfold SUBMIT_SIZE; rewrite Hsz; lia). cbn [mbind option_bind].
  eexists. split; [reflexivity |]. exists (e :: entries), qs. cbn. rewrite app_nil_r, Z.add_0_r. split_and!; [| done |].
  - pose proof (reader_ok_heap q) as Hrk. destruct Hi as [I1 I2 I3 I4 I5 I6 I7 I8]. constructor; cbn; try done.
    + rewrite <- Ht. unfold e_ptr. done.
    + intros i e' He'. destruct i as [| i]; cbn in He' |- *.
      * injection He' as <-. exists mem'. split; [split; [by rewrite lookup_insert_eq | by rewrite (write_length _ _ _ _ Hp)] |]. split; [done |].
        cbn. rewrite (slice_write_ne _ _ _ _ Hp) by (unfold BLOCK_HEAD; rewrite ?Hsz; lia). done.
      * destruct (I3 (S i) e' He') as (m & Hbm & Hev' & Hin'). rewrite Hs in Hin'. cbn in Hin'. destruct (decide (e_base e' = e_base e)) as [Hbe |].
        -- destruct (I4 0%nat (S i) e e' ltac:(lia) eq_refl He' ltac:(done)) as [_ Hlt]. assert (m = mem) as -> by (destruct Hbm as (Hbm & _); congruence).
           exists mem'. split; [split; [by rewrite Hbe, lookup_insert_eq | rewrite Hbe, (write_length _ _ _ _ Hp); done] |]. split; [done |]. cbn.
           apply (item_at_before mem _ _ _ _ _ (e_off e) (stamped boot s)); try done. rewrite Hsz. unfold item_end, SUBMIT_SIZE, BLOCK_HEAD in *. lia.
        -- apply entry_ok_insert; [done |]. exists m. done.
    + apply (Hrk _ e entries mem mem' I5); try done. by rewrite (write_length _ _ _ _ Hp).
    + destruct I6 as (old & Hlog & ->). unfold to_serve. rewrite Hs. cbn. exists (old ++ [e_ev e]). split; [| by rewrite <- app_assoc].
      apply Forall2_app; [done |]. constructor; [| constructor]. eexists boot, _, _. split; [done |]. by apply stamped_reports.
  - intros _ Ho b Hb. cbn in Hb. destruct (decide (b = e_base e)) as [-> |]; [apply Ho; by rewrite Hm |]. rewrite lookup_insert_ne in Hb by done. by apply Ho.
Qed.

Lemma worker_frees q acc entries qs nr base off l boot : inv q acc entries qs -> q_worker q = WorkerFree nr (base, off) l ->
  exists q', worker_step boot q = Some q' /\ goes_on q acc entries Quiet q'.
Proof.
  intros Hi Hw. pose proof (iv_todo _ _ _ _ Hi) as Ht. unfold hand in Ht. rewrite Hw in Ht. destruct entries as [| e entries]; [done |].
  cbn in Ht. injection Ht as Hbase Hoff Ht. destruct (iv_entries _ _ _ _ Hi 0%nat e eq_refl) as (mem & Hblk & Hev & Hin).
  assert (served q = true) as Hs by (unfold served; by rewrite Hw). rewrite Hs in Hin. cbn in Hin.
  destruct Hblk as (Hm & Hb1 & Hb2). destruct (head_fields (if e_last e then 1 else 0) (e_base e)) as (_ & Hfp & Hhd); [lia |].
  unfold worker_step. rewrite Hw, Hbase, Hoff, Hm. cbn [mbind option_bind]. rewrite Hin. cbn [mbind option_bind]. rewrite Hhd, Hfp.
  assert (forall q', q_ring q' = q_ring q -> q_log q' = q_log q -> q_worker q' = WorkerItem nr l -> q_enqueue_nr q' = q_enqueue_nr q ->
    q_dequeue_nr q' = q_dequeue_nr q -> q_reader q' = q_reader q ->
    (forall i e', entries !! i = Some e' -> item_ok (q_heap q') false e') -> reader_ok q' entries -> inv q' acc entries qs) as Hinv.
  { intros q' H1 H2 H3 H4 H5 H6 Hent Hrd. destruct Hi as [I1 I2 I3 I4 I5 I6 I7 I8].
    assert (served q' = false) as Hs' by (unfold served; by rewrite H3). constructor; rewrite ?H1, ?H2, ?H4, ?H5; try done.
    - unfold hand. rewrite H3. done.
    - intros i e' He'. rewrite Hs'. by apply (Hent i).
    - intros i j x y Hij Hx Hy. by apply (I4 (S i) (S j) x y ltac:(lia)).
    - unfold to_serve in *. rewrite Hs in I6. rewrite Hs'. done.
    - unfold uncounted in *. by rewrite H6. }
  assert (forall i e', entries !! i = Some e' -> item_ok (q_heap q) false e') as Hent.
  { intros i e' He'. pose proof (iv_entries _ _ _ _ Hi (S i) e' He') as Hx. rewrite Hs in Hx. done. }
  assert (forall q', q_reader q' = q_reader q -> (forall b, b <> e_base e \/ e_last e = false -> q_heap q' !! b = q_heap q !! b) -> reader_ok q' entries) as Hrd.
  { intros q' Hr Hh. pose proof (iv_reader _ _ _ _ Hi) as Hok. unfold reader_ok in *. rewrite Hr. clear Hinv.
    assert (forall b0 it bt, marking (q_heap q) b0 it bt (e :: entries) -> marking (q_heap q') b0 it bt entries) as Hmk.
    { intros b0 it bt ((m & (Hm1 & Hm2) & Hr2) & Hp & Hl). split; [exists m; split; [split; [| done] | done] |].
      - rewrite Hh; [done |]. destruct (decide (b0 = e_base e)) as [-> |]; [right; by apply (Hp e (list_elem_of_here _ _)) | by left].
      - split; [intros x Hx; apply Hp; by right |]. destruct Hl as [? | ([| x l'] & y & E & Hptr)]; [done | by injection E as -> -> ; left |].
        injection E as -> ->. right. eauto. }
    destruct (q_reader q); try done; auto. destruct Hok as (m & (Hm1 & Hm2) & H1 & H2 & H3 & H4 & H5). exists m. split_and!; try done.
    - split; [| done]. rewrite Hh; [done |]. left. intros ->. by apply (H5 e (list_elem_of_here _ _)).
    - intros x Hx. apply H5. by right. }
  destruct (e_last e) eqn:El.
  - cbn [Z.eqb Pos.eqb]. unfold free. rewrite Hm. cbn [mbind option_bind]. eexists. split; [reflexivity |]. exists entries, qs. cbn. rewrite app_nil_r, Z.add_0_r.
    split_and!; [| done |].
    + apply Hinv; try done; [| apply Hrd; [done | intros b [Hne | Hf]; [cbn; by rewrite lookup_delete_ne | done]]].
      intros i e' He'. apply entry_ok_delete; [| by apply (Hent i)]. intros Hb.
      destruct (iv_order _ _ _ _ Hi 0%nat (S i) e e' ltac:(lia) eq_refl He' ltac:(done)). congruence.
    + intros _ Ho b Hb. cbn in Hb. assert (b <> e_base e) by (intros ->; rewrite lookup_delete_eq in Hb; by destruct Hb).
      rewrite lookup_delete_ne in Hb by done. destruct (Ho b Hb) as [? | (x & [-> | Hx]%elem_of_cons & Hxb & Hxl)]; [by left | done | right; eauto].
  - cbn [Z.eqb]. cbn [mbind option_bind]. eexists. split; [reflexivity |]. exists entries, qs. cbn. rewrite app_nil_r, Z.add_0_r. split_and!; [| done |].
    + apply Hinv; try done. by apply Hrd.
    + intros _ Ho b Hb. destruct (Ho b Hb) as [? | (x & [-> | Hx]%elem_of_cons & Hxb & Hxl)]; [by left | congruence | right; eauto].
Qed.

Lemma worker_dequeues q acc entries qs boot : inv q acc entries qs -> q_worker q = WorkerDequeue ->
  exists q', worker_step boot q = Some q' /\ goes_on q acc entries Quiet q'.
Proof.
  intros Hi Hw. unfold worker_step. rewrite Hw.
  pose proof (dequeue_ok (q_ring q) qs (replicate 32 (0, 0)) MAX_EVENTS_BURST RING_QUEUE_VARIABLE true (iv_ring _ _ _ _ Hi)) as Hd.
  specialize (Hd ltac:(unfold MAX_EVENTS_BURST; cbn; lia)). unfold queue_dequeue in Hd. set (n := granted _ _ _) in Hd. destruct Hd as (r & Hd & Hq & _).
  unfold ring_sc_dequeue_burst. rewrite Hd. cbn [mbind option_bind].
  pose proof (granted_range MAX_EVENTS_BURST (Z.of_nat (length qs)) RING_QUEUE_VARIABLE ltac:(unfold MAX_EVENTS_BURST; lia) ltac:(lia)) as [Hn _]. fold n in Hn.
  assert (served q = false /\ hand q = []) as [Hs Hh] by (unfold served, hand; by rewrite Hw).
  assert (forall q', q_ring q' = r -> q_heap q' = q_heap q -> q_log q' = q_log q -> hand q' = take (Z.to_nat n) qs -> served q' = false ->
    q_enqueue_nr q' = q_enqueue_nr q -> q_reader q' = q_reader q -> q_dequeue_nr q' = q_dequeue_nr q + n -> inv q' acc entries (drop (Z.to_nat n) qs)) as Hinv.
  { intros q' H1 H2 H3 H4 H5 H6 H7 H8. destruct Hi as [I1 I2 I3 I4 I5 I6 I7 I8].
    constructor; unfold to_serve, reader_ok, uncounted in *; rewrite ?H1, ?H2, ?H3, ?H4, ?H5, ?H6, ?H7, ?H8, ?length_drop; try done; try lia.
    - rewrite take_drop, <- I2, Hh. done.
    - intros i e He. rewrite Hs in I3. by apply (I3 i).
    - by rewrite Hs in I6. }
  destruct (Z.eqb_spec n 0) as [H0 | H0].
  - eexists. split; [reflexivity |]. exists entries, (drop (Z.to_nat n) qs). cbn. rewrite app_nil_r, Z.add_0_r. split_and!; try done.
    apply Hinv; try done; [by rewrite H0 | cbn; lia].
  - eexists. split; [reflexivity |]. exists entries, (drop (Z.to_nat n) qs). cbn [accepted lost_in]. rewrite app_nil_r, Z.add_0_r. split_and!; try done.
    apply Hinv; try done. cbn [hand q_worker set setter]. rewrite take_app_le by (rewrite length_take; lia). apply take_ge. rewrite length_take. lia.
Qed.

Lemma worker_step_ok q acc entries qs boot : inv q acc entries qs -> exists q', worker_step boot q = Some q' /\ goes_on q acc entries Quiet q'.
Proof.
  intros Hi. destruct (q_worker q) as [| nr [| [base off] l] | nr [base off] l | |] eqn:Hw.
  - by apply (worker_dequeues q acc entries qs).
  - unfold worker_step. rewrite Hw. eexists. split; [reflexivity |]. apply (goes_frame q _ acc entries qs); try done; unfold hand, served; cbn; rewrite ?Hw; try done. by destruct Hi.
  - by apply (worker_serves q acc entries qs nr base off l).
  - by apply (worker_frees q acc entries qs nr base off l).
  - unfold worker_step. rewrite Hw. eexists. split; [reflexivity |]. apply (goes_frame q _ acc entries qs); try done; unfold hand, served; cbn; rewrite ?Hw; try done. by destruct Hi.
  - unfold worker_step. rewrite Hw. exists q. split; [done |]. apply (goes_frame q q acc entries qs); try done. by destruct Hi.
Qed.

(** ** Runs *)

Definition good_label (l : qlabel) : Prop := match l with Received raw => good_record raw | _ => True end.

Lemma qstep_ok q acc entries qs l q' : inv q acc entries qs -> qstep P [] q l q' -> good_label l -> goes_on q acc entries l q'.
Proof.
  intros Hi Hstep Hgood. destruct Hstep as [q raw block q' Hidle Hblk Hrcv | q l q' Hstep | q boot q' Hstep | q Hw].
  - destruct (receive_ok q acc entries qs raw block Hi Hidle Hgood Hblk) as (q1 & H1 & Hg). by rewrite Hrcv in H1; injection H1 as ->.
  - destruct (reader_step_ok q acc entries qs Hi) as (l1 & q1 & H1 & Hg). rewrite Hstep in H1. injection H1 as -> ->. done.
  - destruct (worker_step_ok q acc entries qs boot Hi) as (q1 & H1 & Hg). rewrite Hstep in H1. injection H1 as ->. done.
  - apply (goes_frame q _ acc entries qs); try done; unfold hand, served; cbn; rewrite ?Hw; try done. by destruct Hi.
Qed.

(** The number of events that a step takes is at most what it was offered. *)
Lemma lost_nonneg q acc entries qs l q' : inv q acc entries qs -> qstep P [] q l q' -> 0 <= lost_in l.
Proof.
  intros Hi Hstep. destruct Hstep as [q raw block q' Hidle Hblk Hrcv | q l q' Hstep | q boot q' Hstep | q Hw]; try (cbn; lia).
  destruct l as [| raw | evs n |]; try (cbn; lia). unfold reader_step in Hstep.
  destruct (q_reader q) as [| base items evs' | base item nr | base item nr | nr | nr | base fn | base fn] eqn:Hrd; try done.
  - pose proof (iv_reader _ _ _ _ Hi) as Hok. unfold reader_ok in Hok. rewrite Hrd in Hok. destruct Hok as (mem & _ & _ & _ & Hits & _).
    pose proof (enqueue_ok (q_ring q) qs (pointers base items) RING_QUEUE_VARIABLE true (iv_ring _ _ _ _ Hi)) as He. unfold queue_enqueue in He.
    assert (length (pointers base items) = length evs') as Hlen by (unfold pointers; rewrite length_fmap, Hits; apply items_length).
    rewrite Hlen in He. destruct He as (r & He & _). unfold ring_sp_enqueue_burst in Hstep. rewrite He in Hstep. cbn [mbind option_bind] in Hstep.
    pose proof (hq_bound _ _ (iv_ring _ _ _ _ Hi)) as Hb.
    pose proof (granted_range (Z.of_nat (length evs')) (r_capacity (q_ring q) - Z.of_nat (length qs)) RING_QUEUE_VARIABLE ltac:(lia) ltac:(lia)) as [_ Hg].
    destruct (_ && _); apply bind_Some in Hstep as (x & _ & [= <- <- _]); cbn; lia.
  - apply bind_Some in Hstep as (m & _ & Hstep). by apply bind_Some in Hstep as (m' & _ & [=]).
  - apply bind_Some in Hstep as (m & _ & Hstep). apply bind_Some in Hstep as (m' & _ & [= Hx _]). by destruct (late _ _ _ _).
  - apply bind_Some in Hstep as ([[x y] z] & _ & Hstep). destruct (_ <? _); [by apply bind_Some in Hstep as (m & _ & [=]) | done].
  - apply bind_Some in Hstep as (m & _ & Hstep). by apply bind_Some in Hstep as (m' & _ & [=]).
Qed.

Definition total_lost (ls : list qlabel) : Z := foldr (fun l n => lost_in l + n) 0 ls.
Definition all_accepted (ls : list qlabel) : list (list Z * list Z) := concat (accepted <$> ls).

Lemma qrun_ok q ls q' : qrun P [] q ls q' -> forall acc entries qs, inv q acc entries qs -> Forall good_label ls ->
  exists entries' qs', inv q' (acc ++ all_accepted ls) entries' qs' /\ q_enqueue_lost q' = q_enqueue_lost q + total_lost ls /\
    Forall (fun l => 0 <= lost_in l) ls /\ (Forall (fun l => l <> Late) ls -> owned q entries -> owned q' entries').
Proof.
  induction 1 as [q | q1 l q2 ls q3 Hstep Hrun IH]; intros acc entries qs Hi Hgood.
  { exists entries, qs. unfold all_accepted, total_lost. cbn. rewrite app_nil_r, Z.add_0_r. by split_and!. }
  apply Forall_cons_1 in Hgood as [Hg Hgood]. pose proof (lost_nonneg q1 acc entries qs l q2 Hi Hstep) as Hnn.
  destruct (qstep_ok q1 acc entries qs l q2 Hi Hstep Hg) as (entries2 & qs2 & Hi2 & Hl2 & Ho2).
  destruct (IH _ _ _ Hi2 Hgood) as (entries3 & qs3 & Hi3 & Hl3 & Hn3 & Ho3). exists entries3, qs3.
  unfold all_accepted, total_lost in *. cbn. rewrite app_assoc. split_and!; [done | rewrite Hl3, Hl2; lia | by constructor |].
  intros [H1 H2]%Forall_cons_1 Ho. auto.
Qed.

Definition idle_queue (r : ring ptr) (t : tracer_stats) : queue := mk_queue r ∅ 0 0 0 0 0 t [] ReaderIdle WorkerDequeue.
Lemma idle_inv r t : holds_queue r [] -> inv (idle_queue r t) [] [] [] /\ owned (idle_queue r t) [].
Proof.
  intros Hr. split; [| intros b; cbn; rewrite lookup_empty; by intros []]. constructor; try done. by exists [].
Qed.

(** ** Records and what becomes of them *)

Definition received (l : qlabel) : list (list (list Z * list Z)) :=
  match l with Received raw => match reader_raw_cb raw with Some (Some evs) => [evs] | _ => [] end | _ => [] end.
Definition offered (l : qlabel) : list (list (list Z * list Z)) := match l with Accepted evs _ => [evs] | _ => [] end.
Definition waiting (q : queue) : list (list (list Z * list Z)) := match q_reader q with ReaderEnqueue _ _ evs => [evs] | _ => [] end.

Lemma reader_waiting q l q' : reader_step q = Some (l, q') -> waiting q = offered l ++ waiting q' /\ received l = [] /\ q_heap_get_failed q' = q_heap_get_failed q.
Proof.
  unfold reader_step, waiting. intros Hstep.
  destruct (q_reader q) as [| base items evs | base item nr | base item nr | nr | nr | base fn | base fn] eqn:Hrd.
  - injection Hstep as <- <-. by rewrite Hrd.
  - apply bind_Some in Hstep as ([[n f] r] & _ & Hstep). destruct (n <? Z.of_nat (length evs)) eqn:El; cbn [andb] in Hstep.
    + destruct (_ =? _); [| apply bind_Some in Hstep as (x & _ & [= <- <-]); done].
      apply bind_Some in Hstep as (x & Hx & [= <- <-]). unfold free in Hx. by apply bind_Some in Hx as (m & _ & [= <-]).
    + apply bind_Some in Hstep as (x & _ & [= <- <-]). done.
  - apply bind_Some in Hstep as (m & _ & Hstep). by apply bind_Some in Hstep as (m' & _ & [= <- <-]).
  - apply bind_Some in Hstep as (m & _ & Hstep). apply bind_Some in Hstep as (m' & _ & [= <- <-]). cbn. by destruct (late _ _ _ _).
  - injection Hstep as <- <-. cbn. by destruct (q_worker q).
  - by injection Hstep as <- <-.
  - apply bind_Some in Hstep as ([[n f] r] & _ & Hstep). destruct (_ <? _); [| by injection Hstep as <- <-].
    apply bind_Some in Hstep as (x & Hx & [= <- <-]). unfold free in Hx. by apply bind_Some in Hx as (m & _ & [= <-]).
  - apply bind_Some in Hstep as (m & _ & Hstep). by apply bind_Some in Hstep as (m' & _ & [= <- <-]).
Qed.
Lemma worker_waiting boot q q' : worker_step boot q = Some q' -> waiting q' = waiting q /\ q_heap_get_failed q' = q_heap_get_failed q.
Proof.
  unfold worker_step. intros Hstep. destruct (q_worker q) as [| nr [| [base off] l] | nr [base off] l | |].
  - apply bind_Some in Hstep as ([[[n f] t] r] & _ & Hstep). destruct (n =? 0); by injection Hstep as <-.
  - by injection Hstep as <-.
  - apply bind_Some in Hstep as (m & _ & Hstep). apply bind_Some in Hstep as (h & _ & Hstep). destruct (negb _).
    + by apply bind_Some in Hstep as (d & _ & [= <-]).
    + apply bind_Some in Hstep as (x & _ & Hstep). apply bind_Some in Hstep as (y & _ & Hstep). by apply bind_Some in Hstep as (z & _ & [= <-]).
  - apply bind_Some in Hstep as (m & _ & Hstep). apply bind_Some in Hstep as (h & _ & Hstep). apply bind_Some in Hstep as (x & Hx & [= <-]).
    destruct (_ =? 1); [unfold free in Hx; by apply bind_Some in Hx as (y & _ & [= <-]) | by injection Hx as <-].
  - by injection Hstep as <-.
  - by injection Hstep as <-.
Qed.
End inv.
