(* ===== verification/Delivery.v ===== *)
(** * From the kernel's records to the callback

    The runs of DispatchRun.v as a whole: what reaches the callback and what is
    counted, that a worker at work catches up, and the chain from the events
    logged by the kernel to the calls of the agent. Last, what the two threads
    can do to each other. *)

From S2P Require Import Prelude Conn Iovec World Output Memory FileEvents Mounts Ring Dispatch DispatchRun.

(** [n] steps of the worker. *)
Fixpoint work (boot_time : Z) (n : nat) (q : queue) : option queue :=
  match n with O => Some q | S n => q ← worker_step boot_time q; work boot_time n q end.

(** The worker is in its loop, not on its way to sleep. *)
Definition at_work (q : queue) : bool := match q_worker q with WorkerLock | WorkerWait => false | _ => true end.

(** Steps that the worker has left. *)
Definition steps_left (q : queue) : Z :=
  4 * ring_count (q_ring q) +
  match q_worker q with WorkerDequeue => 1 | WorkerItem _ l => 2 + 2 * Z.of_nat (length l) | WorkerFree _ _ l => 3 + 2 * Z.of_nat (length l) | _ => 0 end.

Section delivery.
Context (P : proc_env) (HP : proc_env_ok P).

Lemma steps_left_pos q acc entries qs : inv P q acc entries qs -> 0 <= steps_left q /\ (at_work q = true -> 0 < steps_left q).
Proof.
  intros Hi. destruct (count_ok _ _ (iv_ring _ _ _ _ _ Hi)) as [Hc _]. unfold steps_left, at_work. rewrite Hc.
  destruct (q_worker q); split; try done; lia.
Qed.

Lemma worker_gets_on boot q acc entries qs : inv P q acc entries qs -> at_work q = true -> exists q',
  worker_step boot q = Some q' /\ steps_left q' < steps_left q /\ q_reader q' = q_reader q /\
  (at_work q' = false -> q_worker q' = WorkerLock /\ ring_count (q_ring q') = 0).
Proof.
  intros Hi Hat. destruct (worker_step_ok P HP q acc entries qs boot Hi) as (q' & Hstep & _). exists q'. split; [done |].
  destruct (count_ok _ _ (iv_ring _ _ _ _ _ Hi)) as [Hc _]. unfold steps_left, at_work in *. rewrite Hc. revert Hstep. unfold worker_step.
  destruct (q_worker q) as [| nr [| [base off] l] | nr [base off] l | |] eqn:Hw; try done.
  - pose proof (dequeue_ok (q_ring q) qs (replicate 32 (0, 0)) MAX_EVENTS_BURST RING_QUEUE_VARIABLE true (iv_ring _ _ _ _ _ Hi)) as Hd.
    specialize (Hd ltac:(unfold MAX_EVENTS_BURST; cbn; lia)). unfold queue_dequeue in Hd. set (n := granted _ _ _) in Hd. destruct Hd as (r & Hd & Hq & _).
    unfold ring_sc_dequeue_burst. rewrite Hd. cbn [mbind option_bind]. destruct (count_ok _ _ Hq) as [Hc' _]. rewrite length_drop in Hc'.
    pose proof (granted_range MAX_EVENTS_BURST (Z.of_nat (length qs)) RING_QUEUE_VARIABLE ltac:(unfold MAX_EVENTS_BURST; lia) ltac:(lia)) as [Hn _]. fold n in Hn.
    destruct (Z.eqb_spec n 0) as [H0 | H0]; intros [= <-]; cbn [q_ring q_worker q_reader set setter]; rewrite Hc'.
    + split; [lia |]. split; [done |]. intros _. split; [done |]. unfold n, granted, MAX_EVENTS_BURST in H0. destruct (_ <? _) eqn:E; lia.
    + rewrite take_app_le by (rewrite length_take; lia). rewrite !length_take. split_and!; [lia | done | done].
  - intros [= <-]. cbn [q_ring q_worker q_reader set setter length]. rewrite Hc. split_and!; [lia | done | done].
  - intros Hstep. apply bind_Some in Hstep as (m & _ & Hstep). apply bind_Some in Hstep as (h & _ & Hstep). destruct (negb _).
    + apply bind_Some in Hstep as (d & _ & [= <-]). cbn [q_ring q_worker q_reader set setter length]. rewrite Hc. split_and!; [lia | done | done].
    + apply bind_Some in Hstep as (x & _ & Hstep). apply bind_Some in Hstep as (y & _ & Hstep). apply bind_Some in Hstep as (z & _ & [= <-]).
      cbn [q_ring q_worker q_reader set setter length]. rewrite Hc. split_and!; [lia | done | done].
  - intros Hstep. apply bind_Some in Hstep as (m & _ & Hstep). apply bind_Some in Hstep as (h & _ & Hstep). apply bind_Some in Hstep as (x & Hx & [= <-]).
    cbn [q_ring q_worker q_reader set setter]. assert (q_ring x = q_ring q /\ q_reader x = q_reader q) as [-> ->].
    { destruct (_ =? 1); [unfold free in Hx; by apply bind_Some in Hx as (y & _ & [= <-]) | by injection Hx as <-]. }
    rewrite Hc. split_and!; [lia | done | done].
Qed.

Lemma worker_drains boot k : forall q acc entries qs, steps_left q <= Z.of_nat k -> inv P q acc entries qs -> at_work q = true -> exists n q' entries' qs',
  (n <= k)%nat /\ work boot n q = Some q' /\ inv P q' acc entries' qs' /\ (owned q entries -> owned q' entries') /\
  q_reader q' = q_reader q /\ q_worker q' = WorkerLock /\ ring_count (q_ring q') = 0.
Proof.
  induction k as [| k IH]; intros q acc entries qs Hk Hi Hat; destruct (steps_left_pos q acc entries qs Hi) as [_ Hp]; specialize (Hp Hat); [lia |].
  destruct (worker_gets_on boot q acc entries qs Hi Hat) as (q1 & Hstep & Hlt & Hrd & Hstop).
  destruct (worker_step_ok P HP q acc entries qs boot Hi) as (q1' & Hstep' & entries1 & qs1 & Hi1 & _ & Ho1).
  rewrite Hstep in Hstep'. injection Hstep' as <-. cbn in Hi1. rewrite app_nil_r in Hi1. destruct (at_work q1) eqn:Hat1.
  - destruct (IH q1 acc entries1 qs1 ltac:(lia) Hi1 Hat1) as (n & q' & entries' & qs' & Hn & Hw & Hi' & Ho' & Hr' & Hw' & Hc').
    exists (S n), q', entries', qs'. cbn. rewrite Hstep. split_and!; try done; [lia | auto | by rewrite Hr'].
  - destruct (Hstop eq_refl) as [Hw Hc]. exists 1%nat, q1, entries1, qs1. cbn. rewrite Hstep. split_and!; try done; [lia | auto].
Qed.

(** What the invariant says when nothing is on its way. *)
Lemma inv_done q acc entries qs : inv P q acc entries qs -> ring_count (q_ring q) = 0 -> hand q = [] ->
  entries = [] /\ Forall2 (delivered_as P) acc (q_log q) /\ q_dequeue_nr q = Z.of_nat (length acc).
Proof.
  intros Hi Hc Hh. destruct (count_ok _ _ (iv_ring _ _ _ _ _ Hi)) as [Hn _]. rewrite Hc in Hn.
  assert (qs = []) as -> by (apply nil_length_inv; lia). pose proof (iv_todo _ _ _ _ _ Hi) as Ht. rewrite Hh in Ht.
  assert (entries = []) as -> by (by destruct entries). destruct (iv_log _ _ _ _ _ Hi) as (old & Hl & ->). pose proof (iv_deq _ _ _ _ _ Hi) as Hd.
  unfold to_serve in *. destruct (served q); cbn in *; rewrite app_nil_r in *; split_and!; try done; lia.
Qed.
Lemma owned_done q : owned q [] -> q_reader q = ReaderIdle -> q_heap q = ∅.
Proof.
  intros Ho Hr. apply map_eq. intros b. rewrite lookup_empty. destruct (q_heap q !! b) eqn:E; [| done].
  destruct (Ho b) as [Hb | (e & He & _)]; [by rewrite E | unfold reader_base in Hb; by rewrite Hr in Hb | by apply elem_of_nil in He].
Qed.
Lemma inv_open q acc entries qs : inv P q acc entries qs -> exists old rest, acc = old ++ rest /\ Forall2 (delivered_as P) old (q_log q) /\
  Z.of_nat (length rest) = ring_count (q_ring q) + Z.of_nat (length (hand q)) - (if served q then 1 else 0).
Proof.
  intros Hi. destruct (count_ok _ _ (iv_ring _ _ _ _ _ Hi)) as [-> _]. destruct (iv_log _ _ _ _ _ Hi) as (old & Hl & ->).
  exists old, (e_ev <$> to_serve q entries). split_and!; [done | done |]. pose proof (f_equal length (iv_todo _ _ _ _ _ Hi)) as Ht.
  rewrite length_app, length_fmap in Ht. rewrite length_fmap. unfold to_serve. destruct (served q) eqn:Es; [| lia].
  unfold served, hand in *. destruct (q_worker q); try done. destruct entries; cbn in *; lia.
Qed.

(** ** From records to what was accepted *)

Definition raw_of (l : qlabel) : option (list Z) := match l with Received raw => Some raw | _ => None end.

Lemma heap_failures q l q' : qstep P [] q l q' -> good_label l -> q_heap_get_failed q <= q_heap_get_failed q' /\
  (q_heap_get_failed q' = q_heap_get_failed q -> waiting q ++ received l = offered l ++ waiting q').
Proof.
  intros Hstep Hg. destruct Hstep as [q raw block q' Hidle Hblk Hrcv | q l q' Hstep | q boot q' Hstep | q Hw].
  - unfold waiting at 1. rewrite Hidle. cbn [received offered app]. destruct Hg as (et & Het & Hgood).
    unfold reader_receive in Hrcv. rewrite Het in Hrcv. cbn [mbind option_bind] in Hrcv.
    destruct (Z.leb_spec EVENT_TYPE_MIN et) as [Hmin | Hmin].
    { cbn in Hrcv. injection Hrcv as <-. split; [lia |]. intros _. unfold waiting. rewrite Hidle. unfold reader_raw_cb. rewrite Het. cbn [mbind option_bind].
      destruct (et <=? 0); [done |]. by rewrite (proj2 (Z.leb_le EVENT_TYPE_MIN et)). }
    destruct (Hgood Hmin) as (o & Hcb & _). rewrite Hcb in Hrcv |- *. cbn [mbind option_bind] in Hrcv. destruct o as [evs |].
    + destruct block as [[base bytes] |]; [| injection Hrcv as <-; cbn; lia].
      apply bind_Some in Hrcv as ([mem items] & _ & [= <-]). done.
    + injection Hrcv as <-. unfold waiting. rewrite Hidle. done.
  - destruct (reader_waiting q l q' Hstep) as (-> & -> & ->). by rewrite app_nil_r.
  - destruct (worker_waiting boot q q' Hstep) as (-> & ->). by rewrite app_nil_r.
  - cbn. by rewrite app_nil_r.
Qed.

Lemma run_failures q ls q' : qrun P [] q ls q' -> Forall good_label ls -> q_heap_get_failed q <= q_heap_get_failed q' /\
  (q_heap_get_failed q' = q_heap_get_failed q -> waiting q ++ concat (received <$> ls) = concat (offered <$> ls) ++ waiting q').
Proof.
  induction 1 as [q | q1 l q2 ls q3 Hstep Hrun IH]; [cbn; by rewrite app_nil_r |]. intros [Hg Hgs]%Forall_cons_1.
  destruct (heap_failures q1 l q2 Hstep Hg) as [H1 H2]. destruct (IH Hgs) as [H3 H4]. split; [lia |]. intros He. cbn.
  rewrite app_assoc, H2, <- !app_assoc, H4 by lia. done.
Qed.

Lemma nothing_lost ls : Forall (fun l => 0 <= lost_in l) ls -> total_lost ls <= 0 -> all_accepted ls = concat (concat (offered <$> ls)).
Proof.
  unfold all_accepted, total_lost. induction 1 as [| l ls Hl Hls IH]; [done |]. cbn. intros Ht.
  assert (0 <= foldr (fun l n => lost_in l + n) 0 ls) as Hnn by (clear - Hls; induction Hls; cbn; lia).
  rewrite IH by lia. rewrite concat_app. f_equal. destruct l as [| | evs n |]; try done. cbn in Hl, Ht |- *. rewrite app_nil_r. apply take_ge. lia.
Qed.

Lemma received_batches ls out sent rs : omap raw_of ls = out -> Forall2 (fun r o => reader_raw_cb r = Some o) out rs -> omap id rs = sent ->
  concat (received <$> ls) = sent.
Proof.
  revert out sent rs. induction ls as [| l ls IH]; intros out sent rs <- Hrs <-; [by inversion Hrs |].
  destruct l as [| raw | evs n |]; cbn in Hrs |- *; try by eapply IH. inversion Hrs as [| a o b rs' Ho Hr]; subst. rewrite Ho. cbn.
  destruct o; cbn; f_equal; by eapply IH.
Qed.
End delivery.

(** ** A schedule, to run the model *)
Inductive dispatch_action := Receive (raw : list Z) (base : Z) (bytes : list Z) | Read | Work.

Section schedule.
Context (P : proc_env) (handlers : list (Z * Z)) (boot_time : Z).

Definition dispatch_act (q : queue) (a : dispatch_action) : option (qlabel * queue) :=
  match a with
  | Receive raw base bytes =>
      match q_reader q, q_heap q !! base, request handlers raw with
      | ReaderIdle, None, Some n =>
          if (0 <? base) && (base + Z.of_nat (length bytes) <? 2 ^ 64) && (n =? Z.of_nat (length bytes)) then
            q ← reader_receive P handlers raw (Some (base, bytes)) q; Some (Received raw, q)
          else None
      | _, _, _ => None
      end
  | Read => reader_step q
  | Work => q ← worker_step boot_time q; Some (Quiet, q)
  end.
Fixpoint dispatch_schedule (l : list dispatch_action) (q : queue) : option (list qlabel * queue) :=
  match l with
  | [] => Some ([], q)
  | a :: l => '(x, q) ← dispatch_act q a; '(ls, q) ← dispatch_schedule l q; Some (x :: ls, q)
  end.

Lemma dispatch_schedule_run l : forall q ls q', dispatch_schedule l q = Some (ls, q') -> qrun P handlers q ls q'.
Proof.
  induction l as [| a l IH]; intros q ls q' H; cbn in H; [injection H as <- <-; constructor |].
  apply bind_Some in H as ([x q1] & Ha & H). apply bind_Some in H as ([ls1 q2] & Hs & [= <- <-]).
  apply (qrun_cons _ _ q x q1); [| by apply IH]. destruct a as [raw base bytes | |]; unfold dispatch_act in Ha.
  - destruct (q_reader q) eqn:Hr; try done. destruct (q_heap q !! base) eqn:Hb; [done |]. destruct (request handlers raw) as [n |] eqn:Hn; [| done].
    destruct ((0 <? base) && (base + Z.of_nat (length bytes) <? 2 ^ 64)) eqn:E1; [| done].
    destruct (Z.eqb_spec n (Z.of_nat (length bytes))) as [-> |]; [| done]. cbn [andb] in Ha.
    apply bind_Some in Ha as (q0 & Hrcv & [= <- <-]). apply (receives _ _ q raw (Some (base, bytes))); [done | | done].
    apply andb_true_iff in E1 as [E1%Z.ltb_lt E2%Z.ltb_lt]. by split_and!.
  - by apply reads.
  - apply bind_Some in Ha as (q0 & Hw & [= <- <-]). by apply (works _ _ q boot_time).
Qed.
End schedule.

(** The events of the kernel's records are the calls of the callback. *)
Lemma all_events_delivered P w evs r t ls q : proc_env_ok P -> holds_queue r [] -> all_delivered w evs -> Forall good_record (w_out w) ->
  qrun P [] (idle_queue r t) ls q -> omap raw_of ls = w_out w -> q_enqueue_lost q = 0 -> q_heap_get_failed q = 0 ->
  q_reader q = ReaderIdle -> ring_count (q_ring q) = 0 -> hand q = [] -> Forall2 (delivered_as P) evs (q_log q).
Proof.
  intros HP Hr (sent & (rs & Hrs & Hsent & _) & <-) Hgood Hrun Hraw Hlost Hfail Hidle Hc Hh. destruct (idle_inv P r t Hr) as [Hi0 _].
  assert (Forall good_label ls) as Hgl.
  { rewrite <- Hraw in Hgood. clear - Hgood. induction ls as [| l ls IH]; [done |]. destruct l as [| raw | |]; cbn in Hgood;
      try (constructor; [done | by apply IH]). apply Forall_cons_1 in Hgood as [H1 H2]. constructor; [done | by apply IH]. }
  destruct (qrun_ok P HP _ _ _ Hrun [] [] [] Hi0 Hgl) as (entries & qs & Hi & Htl & Hnn & _). cbn in Hi, Htl.
  destruct (run_failures P _ _ _ Hrun Hgl) as [_ Hw]. specialize (Hw Hfail). unfold waiting in Hw. rewrite Hidle in Hw. cbn in Hw. rewrite app_nil_r in Hw.
  rewrite (received_batches ls _ sent rs Hraw Hrs Hsent) in Hw. rewrite (nothing_lost ls Hnn), <- Hw in Hi by lia.
  by destruct (inv_done P q _ _ _ Hi Hc Hh) as (_ & Hlog & _).
Qed.

(** ** Theorems *)

(** C4: In every run of the reader and the worker of a queue that starts empty, without
    registered handlers, over good records: a record that is not of a process event
    can be read, has at least one event, not all of them with 16 bytes of an earlier
    read, and the length of its events in its second word, and every event has a whole
    header, as many bytes as it says and at most 16 of an earlier read. Neither thread reads or writes outside a block,
    uses a freed one or frees one twice; the callback has been called for a prefix of
    the events that found room in the ring, in order, each once, with the fields and
    the bytes of its event, and the rest are in the ring or with the worker; the events
    that found no room are all counted in [enqueue_lost], the others in [enqueue_nr]
    and [dequeue_nr]; and if no last item of a block was marked after the worker was
    done with it, no block is left when the reader is idle, the ring empty and the
    worker without an item. *)
Theorem dispatch_exactly_once P r t ls q : proc_env_ok P -> holds_queue r [] -> qrun P [] (idle_queue r t) ls q -> Forall good_label ls ->
  ((forall boot_time, is_Some (worker_step boot_time q)) /\ is_Some (reader_step q) /\
   forall raw block, q_reader q = ReaderIdle -> good_record raw -> block_ok [] q raw block -> is_Some (reader_receive P [] raw block q)) /\
  (exists old rest, all_accepted ls = old ++ rest /\ Forall2 (delivered_as P) old (q_log q) /\
     Z.of_nat (length rest) = ring_count (q_ring q) + Z.of_nat (length (hand q)) - (if served q then 1 else 0)) /\
  q_enqueue_lost q = total_lost ls /\
  q_enqueue_nr q + uncounted q = Z.of_nat (length (all_accepted ls)) /\
  q_dequeue_nr q + ring_count (q_ring q) = Z.of_nat (length (all_accepted ls)) /\
  (Forall (fun l => l <> Late) ls -> q_reader q = ReaderIdle -> ring_count (q_ring q) = 0 -> hand q = [] -> q_heap q = ∅).
Proof.
  intros HP Hr Hrun Hgood. destruct (idle_inv P r t Hr) as [Hi0 Ho0].
  destruct (qrun_ok P HP _ _ _ Hrun [] [] [] Hi0 Hgood) as (entries & qs & Hi & Hlost & _ & Ho). cbn in Hi, Hlost.
  destruct (count_ok _ _ (iv_ring _ _ _ _ _ Hi)) as [Hc _]. split_and!.
  - intros boot. destruct (worker_step_ok P HP q _ _ _ boot Hi) as (q' & -> & _). done.
  - destruct (reader_step_ok P q _ _ _ Hi) as (l & q' & -> & _). done.
  - intros raw block H1 H2 H3. destruct (receive_ok P HP q _ _ _ raw block Hi H1 H2 H3) as (q' & -> & _). done.
  - by apply (inv_open P q _ entries qs).
  - done.
  - by destruct Hi.
  - rewrite Hc. by destruct Hi.
  - intros Hl H1 H2 H3. destruct (inv_done P q _ _ _ Hi H2 H3) as (-> & _). apply owned_done; auto.
Qed.

(** C18: A worker that is at work, with the reader idle, catches up: after any run of a
    queue that starts empty, without registered handlers and over good records, in a
    number of its own steps bounded by four for every item in the ring and two for
    every item it holds, plus two, it finds the ring empty, has called the callback for
    every event that found room, in order, and the counters agree. No block is left if
    no last item of a block was marked after the worker was done with it; such a block
    is never freed. *)
Theorem worker_catches_up P r t ls q boot_time : proc_env_ok P -> holds_queue r [] -> qrun P [] (idle_queue r t) ls q -> Forall good_label ls ->
  q_reader q = ReaderIdle -> at_work q = true ->
  exists n q', Z.of_nat n <= 4 * ring_count (q_ring q) + 2 * Z.of_nat (length (hand q)) + 2 /\ work boot_time n q = Some q' /\
    q_worker q' = WorkerLock /\ ring_count (q_ring q') = 0 /\ Forall2 (delivered_as P) (all_accepted ls) (q_log q') /\
    q_dequeue_nr q' = q_enqueue_nr q' /\ (Forall (fun l => l <> Late) ls -> q_heap q' = ∅).
Proof.
  intros HP Hr Hrun Hgood Hidle Hat. destruct (idle_inv P r t Hr) as [Hi0 Ho0].
  destruct (qrun_ok P HP _ _ _ Hrun [] [] [] Hi0 Hgood) as (entries & qs & Hi & _ & _ & Ho). cbn in Hi.
  destruct (steps_left_pos P q _ _ _ Hi) as [Hpos _].
  destruct (worker_drains P HP boot_time (Z.to_nat (steps_left q)) q _ entries qs ltac:(lia) Hi Hat) as (n & q' & entries' & qs' & Hn & Hw & Hi' & Ho' & Hrd & Hlk & Hc).
  exists n, q'. assert (hand q' = []) as Hh by (unfold hand; by rewrite Hlk). destruct (inv_done P q' _ _ _ Hi' Hc Hh) as (-> & Hlog & Hdeq).
  split; [| split_and!; try done].
  - assert (steps_left q <= 4 * ring_count (q_ring q) + 2 * Z.of_nat (length (hand q)) + 2); [| lia].
    unfold steps_left, hand. destruct (q_worker q); cbn [length]; lia.
  - pose proof (iv_nr _ _ _ _ _ Hi') as Hnr. unfold uncounted in Hnr. rewrite Hrd, Hidle in Hnr. lia.
  - intros Hl. apply owned_done; [auto | by rewrite Hrd].
Qed.

(** ** Runs of the model *)

Definition example_procs : proc_env := mk_proc_env (fun _ => None) (fun _ _ => None) (fun _ => None) (fun _ => None) (2 ^ 20).
Lemma example_procs_ok : proc_env_ok example_procs.
Proof. by constructor. Qed.

Definition example_event : list Z * list Z :=
  (vput v_data_len 3 (vput v_tgid 7 (vput v_timestamp 100 (vput_msg_type 1 (replicate HEAD 0)))), str "GET").
Definition record_of (ev : list Z * list Z) : list Z := le_bytes 4 1 ++ le_bytes 4 (SD_HEAD + data_len ev.1) ++ ev.1 ++ ev.2.
Definition example_queue : queue :=
  idle_queue (mk_ring [] 0 4 3 3 (mk_headtail 0 0 true) (mk_headtail 0 0 true) (replicate 4 (0, 0))) (mk_tracer_stats 0 0 0 0 0 ∅).

Lemma example_queue_ring : holds_queue (q_ring example_queue) [].
Proof. constructor; try done; try (cbn; lia). constructor; cbn; try lia. by exists 2. Qed.
Lemma example_record_read : reader_raw_cb (record_of example_event) = Some (Some [example_event]).
Proof. vm_compute. reflexivity. Qed.
Lemma example_record_good : good_record (record_of example_event).
Proof.
  exists 1. split; [done |]. intros _. eexists. split; [apply example_record_read |]. intros evs [= <-]. split_and!.
  - done.
  - constructor; [| done]. split_and!; try done. apply bytes_okb. vm_compute. done.
  - constructor. vm_compute. done.
  - vm_compute. reflexivity.
Qed.

(** A record that is read, marked, signalled, counted and then worked on. *)
Definition in_turn : list dispatch_action :=
  [Receive (record_of example_event) 4096 (replicate 320 9); Read; Read; Read; Read; Read; Work; Work; Work; Work; Work].
Definition outcome (q : queue) : Z * Z * Z * Z * nat * bool * reader_pc * worker_pc :=
  (ring_count (q_ring q), q_enqueue_lost q, q_enqueue_nr q, q_dequeue_nr q, length (q_log q), bool_decide (q_heap q = ∅), q_reader q, q_worker q).
Lemma in_turn_run : exists ls q, dispatch_schedule example_procs [] 1000 in_turn example_queue = Some (ls, q) /\
  outcome q = (0, 0, 1, 1, 1%nat, true, ReaderIdle, WorkerLock) /\
  ls = [Received (record_of example_event); Accepted [example_event] 1; Quiet; Quiet; Quiet; Quiet; Quiet; Quiet; Quiet; Quiet; Quiet].
Proof. eexists _, _. split; [vm_compute; reflexivity |]. split; [vm_compute; reflexivity | reflexivity]. Qed.

Lemma dispatch_exactly_once_witness : exists ls q, qrun example_procs [] example_queue ls q /\
  all_accepted ls = [example_event] /\ Forall2 (delivered_as example_procs) [example_event] (q_log q) /\ q_enqueue_lost q = 0 /\ q_heap q = ∅.
Proof.
  destruct in_turn_run as (ls & q & Hs & Ho & Hl). pose proof (dispatch_schedule_run _ _ _ _ _ _ _ Hs) as Hrun. clear Hs.
  assert (Forall good_label ls) as Hg by (rewrite Hl; constructor; [apply example_record_good | by repeat constructor]).
  unfold outcome in Ho. injection Ho as H1 H2 H3 H4 H5 H6 H7 H8.
  destruct (dispatch_exactly_once example_procs _ _ ls q example_procs_ok example_queue_ring Hrun Hg) as (_ & (old & rest & Ha & Hd & Hr) & _ & _ & _ & Hh).
  unfold hand, served in *. rewrite H1, H8 in *. cbn in Hr. assert (rest = []) as -> by (apply nil_length_inv; lia).
  rewrite app_nil_r in Ha. subst old. assert (all_accepted ls = [example_event]) as He by (by rewrite Hl). rewrite He in Hd.
  exists ls, q. split_and!; try done. apply Hh; try done. rewrite Hl. by repeat constructor.
Defined.

(** The worker starts when the reader is done. *)
Definition at_first : list dispatch_action := take 6 in_turn.
Lemma at_first_run : exists ls q, dispatch_schedule example_procs [] 1000 at_first example_queue = Some (ls, q) /\
  outcome q = (1, 0, 1, 0, 0%nat, false, ReaderIdle, WorkerDequeue) /\
  ls = [Received (record_of example_event); Accepted [example_event] 1; Quiet; Quiet; Quiet; Quiet].
Proof. eexists _, _. split; [vm_compute; reflexivity |]. split; [vm_compute; reflexivity | reflexivity]. Qed.
Lemma worker_catches_up_witness : exists q n q', (n <= 6)%nat /\ work 1000 n q = Some q' /\ length (q_log q) = 0%nat /\
  Forall2 (delivered_as example_procs) [example_event] (q_log q') /\ q_heap q' = ∅.
Proof.
  destruct at_first_run as (ls & q & Hs & Ho & Hl). pose proof (dispatch_schedule_run _ _ _ _ _ _ _ Hs) as Hrun. clear Hs.
  assert (Forall good_label ls) as Hg by (rewrite Hl; constructor; [apply example_record_good | by repeat constructor]).
  unfold outcome in Ho. injection Ho as H1 H2 H3 H4 H5 H6 H7 H8. assert (at_work q = true) as Hw by (unfold at_work; by rewrite H8).
  destruct (worker_catches_up example_procs _ _ ls q 1000 example_procs_ok example_queue_ring Hrun Hg H7 Hw) as (n & q' & Hn & Hwk & _ & _ & Hd & _ & Hh).
  unfold hand in Hn. rewrite H1, H8 in Hn. cbn in Hn. assert (all_accepted ls = [example_event]) as He by (by rewrite Hl). rewrite He in Hd.
  exists q, n, q'. split_and!; try done; [lia |]. apply Hh. rewrite Hl. by repeat constructor.
Defined.

(** ** What the two threads can do to each other *)

(** [is_last] is set after the enqueue: when the worker is faster, it finds the
    mark unset and leaves the block, which nothing frees any more. *)
Definition overtaking : list dispatch_action :=
  [Receive (record_of example_event) 4096 (replicate 320 9); Read; Work; Work; Work; Work; Work; Read; Read; Read; Read].
Theorem worker_overtakes : exists ls q, qrun example_procs [] example_queue ls q /\ Forall good_label ls /\
  q_reader q = ReaderIdle /\ ring_count (q_ring q) = 0 /\ hand q = [] /\ length (q_log q) = 1%nat /\ q_heap q <> ∅.
Proof.
  assert (exists ls q, dispatch_schedule example_procs [] 1000 overtaking example_queue = Some (ls, q) /\
    outcome q = (0, 0, 1, 1, 1%nat, false, ReaderIdle, WorkerLock) /\
    ls = [Received (record_of example_event); Accepted [example_event] 1; Quiet; Quiet; Quiet; Quiet; Quiet; Quiet; Late; Quiet; Quiet]) as (ls & q & Hs & Ho & Hl).
  { eexists _, _. split; [vm_compute; reflexivity |]. split; [vm_compute; reflexivity | reflexivity]. }
  unfold outcome in Ho. injection Ho as H1 H2 H3 H4 H5 H6 H7 H8. apply dispatch_schedule_run in Hs. exists ls, q. split_and!; try done.
  - rewrite Hl. constructor; [apply example_record_good | by repeat constructor].
  - unfold hand. by rewrite H8.
  - by apply bool_decide_eq_false in H6.
Qed.

(** The worker tests the ring without the lock that it waits with: a signal in
    between is lost, and the event stays in the ring with both threads at rest,
    until the next record. *)
Definition signal_missed : list dispatch_action :=
  [Work; Receive (record_of example_event) 4096 (replicate 320 9); Read; Read; Read; Read; Read; Work].
Theorem wakeup_lost : exists ls q, qrun example_procs [] example_queue ls q /\ Forall good_label ls /\
  ring_count (q_ring q) = 1 /\ q_log q = [] /\ reader_step q = Some (Quiet, q) /\ forall boot_time, worker_step boot_time q = Some q.
Proof.
  assert (exists ls q, dispatch_schedule example_procs [] 1000 signal_missed example_queue = Some (ls, q) /\
    outcome q = (1, 0, 1, 0, 0%nat, false, ReaderIdle, WorkerWait) /\
    ls = [Quiet; Received (record_of example_event); Accepted [example_event] 1; Quiet; Quiet; Quiet; Quiet; Quiet]) as (ls & q & Hs & Ho & Hl).
  { eexists _, _. split; [vm_compute; reflexivity |]. split; [vm_compute; reflexivity | reflexivity]. }
  unfold outcome in Ho. injection Ho as H1 H2 H3 H4 H5 H6 H7 H8. apply dispatch_schedule_run in Hs. exists ls, q. split_and!; try done.
  - rewrite Hl. constructor; [done |]. constructor; [apply example_record_good | by repeat constructor].
  - by apply nil_length_inv.
  - unfold reader_step. by rewrite H7.
  - intros boot. unfold worker_step. by rewrite H8.
Qed.

(** The item of a registered event is in the ring before its head is filled in:
    a worker that is faster takes the function from what the block held before. *)
Definition process_exit : list Z := le_bytes 4 512 ++ le_bytes 4 7.
Definition early : list dispatch_action := [Receive process_exit 4096 (replicate 25 9); Read; Work; Work].
Theorem handler_called_early : exists ls q data, qrun example_procs [(512, 77)] example_queue ls q /\
  q_log q = [Handled (le_word (replicate 8 9)) data] /\ le_word (replicate 8 9) <> 77.
Proof.
  assert (exists ls q, dispatch_schedule example_procs [(512, 77)] 1000 early example_queue = Some (ls, q) /\ q_log q = [Handled (le_word (replicate 8 9)) process_exit])
    as (ls & q & Hs & Hl).
  { eexists _, _. split; [vm_compute; reflexivity | vm_compute; reflexivity]. }
  apply dispatch_schedule_run in Hs. by exists ls, q, process_exit.
Qed.

(** An event that carries sixteen bytes and has 55 of its own fills its block to
    the last byte, and the zero after the data is written outside of it. *)
Definition full_event : list Z * list Z := (vput v_data_len 55 (vput v_extra_data_count 16 (vput_msg_type 1 (replicate HEAD 0))), replicate 55 1).
Theorem block_one_byte_short : reader_raw_cb (record_of full_event) = Some (Some [full_event]) /\ Forall event_fits [full_event] /\
  request [] (record_of full_event) = Some 320 /\ block_ok [] example_queue (record_of full_event) (Some (4096, replicate 320 9)) /\
  reader_receive example_procs [] (record_of full_event) (Some (4096, replicate 320 9)) example_queue = None.
Proof.
  split_and!; try (vm_compute; reflexivity).
  - constructor; [| done]. split_and!; try done. apply bytes_okb. vm_compute. done.
  - by split_and!.
Qed.

(** The root and the type of a mount are not forgotten between the events of a
    record: an event whose mount is not known is shown with the type of an
    earlier one, here of a network file system. *)
Definition io_at (time : Z) : list Z * list Z :=
  (vput v_source (source_num DATA_SOURCE_IO_EVENT) (vput v_data_len (Z.of_nat (length example_io)) (vput v_timestamp time (vput_msg_type 1 (replicate HEAD 0)))), example_io).
Definition one_mount_known : proc_env := mk_proc_env (fun _ => None)
  (fun sd _ => if vget v_timestamp sd =? 1 then Some (mk_mount_entry 35 52 FS_TYPE_NETWORK (str "/mnt/nfs") (str "10.33.49.27:/srv/nfs") [47]) else None)
  (fun _ => None) (fun _ => None) (2 ^ 20).
Definition type_shown (evs : list (list Z * list Z)) (i : nat) : option Z :=
  '(mem, items) ← fill one_mount_known 4096 evs 0 no_mount (replicate (Z.to_nat (alloc_len (Z.of_nat (length (flat evs))) evs)) 9);
  item ← items !! i; b ← slice mem (item + SUBMIT_SIZE) (Z.to_nat USER_IO_SIZE); Some (vget u_file_type b).
Theorem mount_type_of_another_event : type_shown [io_at 2] 0 = Some (fs_num FS_TYPE_UNKNOWN) /\
  type_shown [io_at 1; io_at 2] 1 = Some (fs_num FS_TYPE_NETWORK).
Proof. split; vm_compute; reflexivity. Qed.
