(* ===== verification/ReaderCaches.v ===== *)
(** * The caches behind the reader

    [reader_raw_cb] asks the caches of ProcCache.v about every event that is not
    of DPDK. Here the environment of Dispatch.v is built from the caches, and the
    events that reach the callback are shown with what the caches held of their
    processes and mounts when they were read. The caches are in any state that
    their own threads can have brought them to, a different one for each event. *)

From S2P Require Import Prelude Conn Iovec World Output Memory FileEvents Mounts Ring ProcCache Dispatch DispatchRun Delivery.

(** A state of the caches that calls in any order lead to. *)
Definition reached (c : caches) : Prop :=
  exists F pids l c0, procfs_ok F /\ NoDup pids /\ Forall (fun x => procfs_ok x.1) l /\
    create_and_init_proc_info_caches F pids = Some c0 /\ cache_run l c0 = Some c.
Lemma reached_ok c : reached c -> exists queue lost, caches_ok c queue lost.
Proof.
  intros (F & pids & l & c0 & HF & Hnd & Hl & H0 & Hr). destruct (init_caches_ok F pids HF Hnd) as (c1 & H1 & Hc1). assert (c1 = c0) as -> by congruence.
  destruct (cache_run_ok l Hl c0 [] ∅ Hc1) as (c2 & queue & lost & Hr2 & Hc2 & _). assert (c2 = c) as -> by congruence. eauto.
Qed.

(** The arguments of the call: a process, and the mount of a file. *)
Definition mount_query (sd data : list Z) : Z * Z * Z :=
  if is_source DATA_SOURCE_IO_EVENT sd then (s32 (vget i_mnt_id data), vget i_mntns_id data, vget v_tcp_seq sd) else (0, 0, DEV_INVALID).

Section env.
Context (now : list Z -> procfs * caches) (container comm : list Z -> option (list Z)) (stack : Z).

Definition cached_env : proc_env := mk_proc_env
  (fun sd => (fun p => (pi_container_id p, pi_comm p, pi_mntns_id p)) <$> entry_of_pid (now sd).2 (vget v_tgid sd))
  (fun sd data => let '(mnt_id, mntns_id, s_dev) := mount_query sd data in
    if s_dev =? DEV_INVALID then None else known_mount (now sd).1 (vget v_tgid sd) mnt_id mntns_id s_dev (cc_mounts (now sd).2))
  container comm stack.

(** What the environment says is what the call returns. *)
Lemma reader_asks sd data v : reached (now sd).2 -> is_source DATA_SOURCE_DPDK sd = false -> let '(mnt_id, mntns_id, s_dev) := mount_query sd data in
  get_proc_info_from_cache (now sd).1 (vget v_tgid sd) mnt_id mntns_id s_dev v (now sd).2 = Some (pe_cache cached_env sd, mount_of cached_env sd data v, (now sd).2).
Proof.
  intros (queue & lost & Hc)%reached_ok Hd. unfold mount_of, cached_env, mount_query. rewrite Hd. cbn [pe_mount pe_cache].
  destruct (is_source DATA_SOURCE_IO_EVENT sd) eqn:Es; rewrite (get_info_ok _ _ _ _ _ v _ queue lost Hc); [| done].
  by destruct (_ =? DEV_INVALID).
Qed.

Lemma cached_env_ok : (forall sd, reached (now sd).2) -> (forall sd c, container sd = Some c -> length c = 65%nat) ->
  (forall sd n, comm sd = Some n -> length n = 16%nat) -> 2 ^ 16 <= stack -> proc_env_ok cached_env.
Proof.
  intros Hn Hc Hm Hs. constructor; try done; cbn [pe_cache pe_mount cached_env].
  - intros sd c n ns H. destruct (reached_ok _ (Hn sd)) as (queue & lost & Hok). unfold entry_of_pid in H.
    destruct (cc_table (now sd).2 !! _) as [a |]; [| done]. cbn in H. destruct (cc_heap (now sd).2 !! a) as [p |] eqn:E; [| done]. injection H as <- <- <-.
    by destruct (pk_heap _ _ (co_procs _ _ _ Hok) a p E) as (_ & (_ & ? & ?) & _).
  - intros sd d e. destruct (mount_query sd d) as [[mnt ns] dev]. destruct (_ =? DEV_INVALID); [done |]. destruct (reached_ok _ (Hn sd)) as (queue & lost & Hok).
    apply known_text, (co_procs _ _ _ Hok).
Qed.
End env.

(** What the callback is told of the process of an event that the cache knew. *)
Definition shows_process (c : caches) (ev : list Z * list Z) (d : delivery) : Prop :=
  exists s cap, d = Data s cap /\ (is_source DATA_SOURCE_DPDK ev.1 = false -> forall p, entry_of_pid c (vget v_tgid ev.1) = Some p ->
    vget d_process_id s = pi_pid p /\ vbytes d_container_id s = ended (pi_container_id p) /\
    (hd 0 (pi_comm p) <> 0 -> vbytes d_process_kname s = ended (pi_comm p))).

Lemma delivered_process now container comm stack ev d : reached (now ev.1).2 ->
  delivered_as (cached_env now container comm stack) ev d -> shows_process (now ev.1).2 ev d.
Proof.
  intros (queue & lost & Hc)%reached_ok (boot & s & cap & -> & Hr). exists s, cap. split; [done |]. intros Hd p Hp.
  destruct (rp_socket _ _ _ _ _ Hr Hd) as (Hid & _). destruct (rp_names _ _ _ _ _ Hr Hd) as (Hk & Hcon).
  unfold kname_of, container_of in Hk, Hcon. cbn [pe_cache cached_env] in Hk, Hcon. rewrite Hp in Hk, Hcon. cbn in Hk, Hcon. split_and!; [| done |].
  - rewrite Hid. unfold entry_of_pid in Hp. destruct (cc_table (now ev.1).2 !! vget v_tgid ev.1) as [a |] eqn:Ea; [| done]. cbn in Hp.
    destruct (pk_table _ _ (co_procs _ _ _ Hc) _ a Ea) as (_ & q & Hq & Hpid). congruence.
  - intros Hz. destruct (Z.eqb_spec (hd 0 (pi_comm p)) 0); [done |]. exact Hk.
Qed.

(** C3: The kernel, the queue and the caches together. Suppose that all events that the
    kernel logged are in the records it handed out; that the queue, which starts empty
    and has no registered handlers, was given exactly these records, so that the perf
    buffer dropped none, and that all of them are good (as for the queue alone); that
    no event found the ring full and no allocation of a block failed; and that the
    reader is idle, the ring empty and the worker without an item. Then the agent was
    called for these events in order, each once; each with its fields and bytes, and
    with the process, the container and the name that the cache held of its process
    when the event was read, for any states that the caches can reach. *)
Theorem events_shown_with_process now container comm stack w evs r t ls q : (forall sd, reached (now sd).2) ->
  (forall sd c, container sd = Some c -> length c = 65%nat) -> (forall sd n, comm sd = Some n -> length n = 16%nat) -> 2 ^ 16 <= stack ->
  holds_queue r [] -> all_delivered w evs -> Forall good_record (w_out w) ->
  let P := cached_env now container comm stack in
  qrun P [] (idle_queue r t) ls q -> omap raw_of ls = w_out w -> q_enqueue_lost q = 0 -> q_heap_get_failed q = 0 ->
  q_reader q = ReaderIdle -> ring_count (q_ring q) = 0 -> hand q = [] ->
  Forall2 (fun ev d => delivered_as P ev d /\ shows_process (now ev.1).2 ev d) evs (q_log q).
Proof.
  intros Hn Hc Hm Hs Hr Hall Hgood P Hrun Hraw Hlost Hfail Hidle Hcnt Hh.
  assert (Forall2 (delivered_as P) evs (q_log q)) as H by (by apply (all_events_delivered P w evs r t ls q (cached_env_ok now container comm stack Hn Hc Hm Hs))).
  eapply Forall2_impl; [| exact H]. intros ev d Hd. split; [done |]. by apply (delivered_process now container comm stack).
Qed.

(** ** An example: the event of a process of the cache *)

Definition no_caches : caches := mk_caches (mk_mounts ∅ ∅ 0 0) ∅ ∅ (mk_ring [] 0 4 3 3 (mk_headtail 0 0 true) (mk_headtail 0 0 true) []) 0 0 0.
Definition example_caches : caches := default no_caches (create_and_init_proc_info_caches (example_proc (str "/data") 900) [1; 7]).
Definition example_now (sd : list Z) : procfs * caches := (example_proc (str "/data") 901, example_caches).
Definition example_view : proc_env := cached_env example_now (fun _ => None) (fun _ => None) (2 ^ 20).
Lemma example_reached : reached example_caches.
Proof.
  destruct (init_caches_ok (example_proc (str "/data") 900) [1; 7] (example_data 900)) as (c & H & _); [by apply (bool_decide_unpack _) |].
  exists (example_proc (str "/data") 900), [1; 7], [], c. split; [apply example_data |]. split; [by apply (bool_decide_unpack _) |]. split; [by apply Forall_nil |].
  split; [exact H |]. unfold example_caches. by rewrite H.
Qed.
Lemma example_process : (fun p => (pi_pid p, pi_comm p)) <$> entry_of_pid example_caches 7 = Some (7, in_array 16 (str "nginx")).
Proof. vm_compute. reflexivity. Qed.

Lemma events_shown_with_process_witness : exists q s cap, q_log q = [Data s cap] /\ vget d_process_id s = 7 /\ vbytes d_process_kname s = in_array 16 (str "nginx").
Proof.
  assert (exists ls q, dispatch_schedule example_view [] 1000 in_turn example_queue = Some (ls, q) /\
    outcome q = (0, 0, 1, 1, 1%nat, true, ReaderIdle, WorkerLock) /\ q_heap_get_failed q = 0 /\
    ls = [Received (record_of example_event); Accepted [example_event] 1; Quiet; Quiet; Quiet; Quiet; Quiet; Quiet; Quiet; Quiet; Quiet]) as (ls & q & Hs & Ho & H9 & Hl).
  { eexists _, _. split; [vm_compute; reflexivity |]. split; [vm_compute; reflexivity |]. split; vm_compute; reflexivity. }
  pose proof (dispatch_schedule_run _ _ _ _ _ _ _ Hs) as Hrun. clear Hs. unfold outcome in Ho. injection Ho as H1 H2 H3 H4 H5 H6 H7 H8.
  assert (Forall2 (fun ev d => delivered_as example_view ev d /\ shows_process (example_now ev.1).2 ev d) [example_event] (q_log q)) as Hd.
  { apply (events_shown_with_process example_now (fun _ => None) (fun _ => None) (2 ^ 20) (example_pending <| w_out := [record_of example_event] |>) [example_event]
      (q_ring example_queue) (q_stats example_queue) ls q).
    - intros sd. exact example_reached.
    - intros sd c H. discriminate H.
    - intros sd c H. discriminate H.
    - lia.
    - exact example_queue_ring.
    - exists [[example_event]]. split; [| done]. exists [Some [example_event]]. split_and!; [| done |].
      + constructor; [apply example_record_read | done].
      + constructor; [| done]. split_and!; try done. by repeat constructor.
    - constructor; [apply example_record_good | done].
    - exact Hrun.
    - by rewrite Hl.
    - exact H2.
    - exact H9.
    - exact H7.
    - exact H1.
    - unfold hand. by rewrite H8. }
  pose proof example_process as Hp. destruct (entry_of_pid example_caches 7) as [p |] eqn:E; [| discriminate Hp]. cbn in Hp. injection Hp as Hpid Hp.
  inversion Hd as [| ev d evs ds [_ (s & cap & E1 & Hsh)] Hnil E2 E3]. subst ev. inversion Hnil. subst. exists q, s, cap.
  destruct (Hsh eq_refl p E) as (Hid & _ & Hk). split; [done |]. split; [congruence |]. rewrite Hk; [by rewrite Hp | by rewrite Hp].
Defined.
